(** * MySiteGen-Agent: the workflow orchestration engine

    A shallow embedding of the orchestration code of the repository:

    - [services/geminiService.ts]: [retryWithBackoff] and the generation
      agents built on it;
    - [services/githubService.ts]: [fetchWithRetry] and the hosting calls
      built on it;
    - the application component: the workflow table, the task ledger
      update, the cancel handler and the four pipeline runners
      ([handleInitialBuild], [handleTuneDesign], [handleImport],
      [handlePublish]).

    The asynchronous code is written in a state-and-exception monad over a
    [World]: the live React state, the abort signal of the current run, a
    clock counting suspension points, and a trace of the remote requests
    and waits.  The remote services and the user are an environment
    [Env]: what the k-th suspension point resolves to, and whether the
    user presses the cancel button while it is pending.

    What the embedding leaves out:

    - the text of the prompts, the HTTP headers and request bodies: a
      request is traced by its agent, or by its method and URL;
    - the parsing of replies: a reply carries the object [JSON.parse]
      yields for it, or the fact that parsing fails; file content is kept
      decoded.  Every request of the generation service names a schema
      in which all properties are required: a reply that is read holds
      them, the site name of an identity apart, which it may lack as the
      fallback text of an empty reply does.  A property that the body of
      an HTTP response lacks is read as an empty one (no text, no
      element), and such a body is an object, never [null];
    - the render of the component after an update.  The build view
      throws on an identity without a site name
      ([state.identity.siteName[0]]), and what the run writes after
      that is lost with the component: [renders] names the states the
      view accepts;
    - view state outside [ProjectState], the console and [alert];
    - suspension points other than remote requests and timers: the user
      can cancel while a request or a wait is pending, not between two
      synchronous statements;
    - white space outside ASCII in [trim] (the no-break space, the
      ideographic space, ...): texts are kept as bytes, and [bare] names
      texts whose ends are ASCII;
    - rounding of the backoff delay: it is an exact fraction, as the
      doubles are for the delays the callers reach. *)

From Stdlib Require Import List String Ascii Bool Arith ZArith QArith Qpower Lia DecimalString.
Import ListNotations.

Open Scope string_scope.
Open Scope Z_scope.

(** ** JavaScript string operations used by the services *)

Module Js.

(** [s.includes(sub)] *)
Fixpoint includes (s sub : string) : bool :=
  if prefix sub s then true
  else match s with
       | EmptyString => false
       | String _ rest => includes rest sub
       end.

Definition rev (s : string) : string :=
  string_of_list_ascii (List.rev (list_ascii_of_string s)).

(** [s.endsWith(suffix)] *)
Definition endsWith (s suffix : string) : bool := prefix (rev suffix) (rev s).

(** White space removed by [trim], within ASCII: space, tab, line feed,
    vertical tab, form feed, carriage return. *)
Definition isSpace (c : ascii) : bool :=
  let n := nat_of_ascii c in
  ((n =? 32) || ((9 <=? n) && (n <=? 13)))%nat.

Fixpoint dropWhile (p : ascii -> bool) (s : string) : string :=
  match s with
  | EmptyString => EmptyString
  | String c rest => if p c then dropWhile p rest else s
  end.

Definition dropWhileEnd (p : ascii -> bool) (s : string) : string :=
  rev (dropWhile p (rev s)).

(** [s.trim()] *)
Definition trim (s : string) : string := dropWhileEnd isSpace (dropWhile isSpace s).

Definition lower (c : ascii) : ascii :=
  let n := nat_of_ascii c in
  if ((65 <=? n) && (n <=? 90))%nat then ascii_of_nat (n + 32) else c.

Fixpoint lowercase (s : string) : string :=
  match s with
  | EmptyString => EmptyString
  | String c rest => String (lower c) (lowercase rest)
  end.

Fixpoint drop (n : nat) (s : string) : string :=
  match n, s with
  | O, _ => s
  | S n', EmptyString => EmptyString
  | S n', String _ rest => drop n' rest
  end.

(** [prefixCI p s]: [p] (given in lower case) matches the start of [s],
    letters compared without case: a regular expression literal anchored
    with [^] under the [i] flag. *)
Definition prefixCI (p s : string) : bool := prefix p (lowercase s).

(** [s.replace(/sub/g, "")] for a literal, non-empty [sub]: every
    occurrence removed, scanning left to right. *)
Fixpoint removeAllFrom (skip : nat) (sub s : string) : string :=
  match s with
  | EmptyString => EmptyString
  | String c rest =>
      match skip with
      | S k => removeAllFrom k sub rest
      | O => if prefix sub s then removeAllFrom (String.length sub - 1) sub rest
             else String c (removeAllFrom O sub rest)
      end
  end.

Definition removeAll (sub s : string) : string := removeAllFrom O sub s.

(** [s.replace(/sub/i, "")]: the first occurrence only, without case. *)
Fixpoint removeFirstCI (sub s : string) : string :=
  if prefixCI sub s then drop (String.length sub) s
  else match s with
       | EmptyString => EmptyString
       | String c rest => String c (removeFirstCI sub rest)
       end.

(** The text after the last ['/']: [s.split('/').pop()]. *)
Fixpoint lastSegmentFrom (acc s : string) : string :=
  match s with
  | EmptyString => acc
  | String c rest =>
      if Ascii.eqb c "/" then lastSegmentFrom rest rest
      else lastSegmentFrom acc rest
  end.

Definition lastSegment (s : string) : string := lastSegmentFrom s s.

Definition isSlash (c : ascii) : bool := Ascii.eqb c "/".

(** [s.replace(/^\/+|\/+$/g, '')] *)
Definition stripSlashes (s : string) : string :=
  dropWhileEnd isSlash (dropWhile isSlash s).

(** [x || fallback] on strings: the empty string is falsy. *)
Definition orElse (x fallback : string) : string :=
  if String.eqb x "" then fallback else x.

(** Decimal rendering of an integer inside a template literal. *)
Definition ofZ (z : Z) : string := NilZero.string_of_int (Z.to_int z).

End Js.

(** ** Data model ([types.ts]) *)

Inductive SiteType := Corporate | Personal.

Inductive SiteTone := Professional | Creative | Minimal | Vivid | Brutalist.

(** [siteName] is [None] when the property is absent from the object the
    service returned; the other properties are only ever printed. *)
Record Identity := {
  siteName : option string;
  identitySlug : string;
  mission : string;
  brandDescription : string;
  themeColor : string;
  tone : option SiteTone
}.

Record HubPage := {
  hubId : string;
  hubTitle : string;
  hubSlug : string;
  hubDescription : string;
  html : option string
}.

Record Article := {
  articleId : string;
  articleHubId : string;
  articleTitle : string;
  articleSlug : string;
  contentHtml : option string;
  createdAt : string
}.

Record GitHubConfig := {
  token : string;
  repo : string;
  branch : string;
  path : string
}.

Inductive TaskStatus := pending | running | completed | failed.

Record ExecutionTask := {
  taskId : string;
  label : string;
  taskStatus : TaskStatus;
  groupId : option string;
  groupLabel : option string
}.

Inductive PipelineStatus :=
| idle | importing | analyzing_site | building_identity | generating_strategy
| generating_hubs | ready | creating_repo | pushing_files | enabling_pages
| tuning_design | deployed.

Record ProjectState := {
  opinion : string;
  siteType : SiteType;
  identity : option Identity;
  hubs : list HubPage;
  articles : list Article;
  gtmId : string;
  adsenseId : string;
  strategyRationale : option string;
  status : PipelineStatus;
  executionPlan : list ExecutionTask;
  currentDetail : option string;
  githubConfig : GitHubConfig
}.

Definition PipelineStatus_eqb (a b : PipelineStatus) : bool :=
  match a, b with
  | idle, idle | importing, importing | analyzing_site, analyzing_site
  | building_identity, building_identity
  | generating_strategy, generating_strategy
  | generating_hubs, generating_hubs | ready, ready
  | creating_repo, creating_repo | pushing_files, pushing_files
  | enabling_pages, enabling_pages | tuning_design, tuning_design
  | deployed, deployed => true
  | _, _ => false
  end.

(** The three statuses in which no pipeline is executing. *)
Definition resting (s : PipelineStatus) : bool :=
  match s with
  | idle | ready | deployed => true
  | _ => false
  end.

(** A task without a group, and one inside a group. *)
Definition task (i l : string) (s : TaskStatus) : ExecutionTask :=
  {| taskId := i; label := l; taskStatus := s; groupId := None; groupLabel := None |}.

Definition groupedTask (i l : string) (s : TaskStatus) (g gl : string) : ExecutionTask :=
  {| taskId := i; label := l; taskStatus := s; groupId := Some g; groupLabel := Some gl |}.

(** ** Partial updates of the project state

    [updateState(updates)] is [setState(prev => ({ ...prev, ...updates }))];
    an object literal of updates is a list of field assignments. *)

Inductive Assign :=
| SetIdentity (i : Identity)
| SetHubs (h : list HubPage)
| SetArticles (a : list Article)
| SetStrategyRationale (r : string)
| SetStatus (s : PipelineStatus)
| SetExecutionPlan (p : list ExecutionTask)
| SetCurrentDetail (d : option string)
| SetGithubConfig (c : GitHubConfig).

Definition assign (st : ProjectState) (a : Assign) : ProjectState :=
  let '(Build_ProjectState op ty idn hs ars gtm ads rat s plan det cfg) := st in
  match a with
  | SetIdentity i => Build_ProjectState op ty (Some i) hs ars gtm ads rat s plan det cfg
  | SetHubs h => Build_ProjectState op ty idn h ars gtm ads rat s plan det cfg
  | SetArticles a' => Build_ProjectState op ty idn hs a' gtm ads rat s plan det cfg
  | SetStrategyRationale r => Build_ProjectState op ty idn hs ars gtm ads (Some r) s plan det cfg
  | SetStatus s' => Build_ProjectState op ty idn hs ars gtm ads rat s' plan det cfg
  | SetExecutionPlan p => Build_ProjectState op ty idn hs ars gtm ads rat s p det cfg
  | SetCurrentDetail d => Build_ProjectState op ty idn hs ars gtm ads rat s plan d cfg
  | SetGithubConfig c => Build_ProjectState op ty idn hs ars gtm ads rat s plan det c
  end.

Definition merge (prev : ProjectState) (updates : list Assign) : ProjectState :=
  fold_left assign updates prev.

(** ** Errors and completions *)

(** A thrown JavaScript error: its [name], its [message] when it has one,
    and the numeric [status] some service errors carry. *)
Record JsError := {
  name : string;
  message : option string;
  errorStatus : option Z
}.

Definition newError (msg : string) : JsError :=
  {| name := "Error"; message := Some msg; errorStatus := None |}.

(** [new DOMException(msg, "AbortError")] *)
Definition abortError (msg : string) : JsError :=
  {| name := "AbortError"; message := Some msg; errorStatus := None |}.

Definition typeError (msg : string) : JsError :=
  {| name := "TypeError"; message := Some msg; errorStatus := None |}.

Definition syntaxError (msg : string) : JsError :=
  {| name := "SyntaxError"; message := Some msg; errorStatus := None |}.

Definition isAbortError (e : JsError) : bool := String.eqb (name e) "AbortError".

(** [error.message?.includes(sub)] *)
Definition messageIncludes (e : JsError) (sub : string) : bool :=
  match message e with
  | Some m => Js.includes m sub
  | None => false
  end.

(** How a block of code completes: with a value, by throwing, or by the
    [return] statement of the enclosing handler. *)
Inductive Completion (A : Type) :=
| Normal (a : A)
| Throw (e : JsError)
| Return.

Arguments Normal {A} a.
Arguments Throw {A} e.
Arguments Return {A}.

(** ** The world and the environment *)

Inductive Method := GET | POST | PUT.

Inductive Agent :=
| IdentityAgent | SiteIdentityAgent | RepoStructureAgent | StrategyAgent
| HtmlAgent | TunePlanAgent | TunePageAgent | ReadmeAgent.

(** What leaves the process, in order: a request to the generation
    service, an HTTP request to the hosting service, a timer. *)
Inductive Entry :=
| Generate (a : Agent)
| Http (m : Method) (url : string)
| Sleep (ms : Q).

Record World := {
  state : ProjectState;       (* the live React state *)
  aborted : bool;             (* [signal.aborted] of the current run *)
  controller : bool;          (* [abortControllerRef.current] is set *)
  clock : nat;                (* suspension points passed so far *)
  rand : nat;                 (* calls to [Math.random] so far *)
  log : list Entry            (* requests and waits issued, oldest first *)
}.

Definition withState (f : ProjectState -> ProjectState) (w : World) : World :=
  {| state := f (state w); aborted := aborted w; controller := controller w;
     clock := clock w; rand := rand w; log := log w |}.

Definition record (e : Entry) (w : World) : World :=
  {| state := state w; aborted := aborted w; controller := controller w;
     clock := clock w; rand := rand w; log := log w ++ [e] |}.

(** A file node of the repository tree. *)
Record GitHubFileNode := {
  nodePath : string;
  nodeIsBlob : bool;
  nodeSha : string;
  nodeUrl : string
}.

(** The object [JSON.parse] yields for a reply of the generation service.
    Every request carries a [responseSchema]; the object holds the
    properties those schemas name, an absent property being empty. *)
Record JsonObject := {
  jIdentity : Identity;
  jHubs : list HubPage;
  jArticles : list Article;
  jRationale : string;
  jPlanSummary : string;
  jTasks : list string
}.

(** A resolved [GenerateContentResponse]: its [text] (empty when absent)
    and what [JSON.parse(text)] gives, [None] when it throws. *)
Record GenerateContentResponse := {
  text : string;
  parsed : option JsonObject
}.

(** The body of an HTTP response as [res.json()] reads it: [None] when it
    is not JSON, otherwise the properties the callers look at, an absent
    property being empty (a body that is JSON and no object is not
    modelled).  File content is kept decoded (the base64 transport
    coding is not modelled). *)
Record JsonBody := {
  bodyMessage : string;
  bodySha : string;
  bodyDefaultBranch : string;
  bodyTree : list GitHubFileNode;
  bodyContent : string
}.

Record Response := {
  resStatus : Z;
  resBody : option JsonBody
}.

(** [res.ok] *)
Definition ok (r : Response) : bool := (200 <=? resStatus r) && (resStatus r <=? 299).

Inductive Outcome (A : Type) :=
| Resolved (a : A)
| Rejected (e : JsError).

Arguments Resolved {A} a.
Arguments Rejected {A} e.

(** The environment of a run.  [apiKey] is the module constant read from
    the process environment.  Suspension point [k] resolves to [gen k]
    when it is a generation request and to [http k] when it is an HTTP
    request; [cancelAt k] says that the user presses the cancel button
    while it is pending.  [random k] is the identifier text derived from
    the k-th call of [Math.random]. *)
Record Env := {
  apiKey : string;
  cancelAt : nat -> bool;
  gen : nat -> Outcome GenerateContentResponse;
  http : nat -> Outcome Response;
  random : nat -> string
}.

(** ** The monad *)

Definition M (A : Type) : Type := World -> Completion A * World.

Definition ret {A} (a : A) : M A := fun w => (Normal a, w).

Definition throw {A} (e : JsError) : M A := fun w => (Throw e, w).

Definition bind {A B} (m : M A) (f : A -> M B) : M B :=
  fun w =>
    match m w with
    | (Normal a, w') => f a w'
    | (Throw e, w') => (Throw e, w')
    | (Return, w') => (Return, w')
    end.

Notation "x <- m ;; k" := (bind m (fun x => k))
  (at level 61, m at next level, right associativity).
Notation "m ;; k" := (bind m (fun _ => k))
  (at level 61, right associativity).

(** [return;] inside a handler *)
Definition returnEarly {A} : M A := fun w => (Return, w).

(** [try { body } catch (e) { handler e }] *)
Definition tryCatch {A} (body : M A) (handler : JsError -> M A) : M A :=
  fun w =>
    match body w with
    | (Throw e, w') => handler e w'
    | other => other
    end.

(** [try { body } finally { final }]: [final] runs on every completion of
    [body], which is then resumed unless [final] itself completes
    abruptly. *)
Definition tryFinally {A} (body : M A) (final : M unit) : M A :=
  fun w =>
    let '(c, w') := body w in
    match final w' with
    | (Normal _, w'') => (c, w'')
    | (Throw e, w'') => (Throw e, w'')
    | (Return, w'') => (Return, w'')
    end.

(** The boundary of an [async] handler: a [return] ends the call. *)
Definition handler (body : M unit) : M unit :=
  fun w =>
    match body w with
    | (Return, w') => (Normal tt, w')
    | other => other
    end.

(** [for (const x of xs) body x] *)
Fixpoint forEach {A} (xs : list A) (body : A -> M unit) : M unit :=
  match xs with
  | [] => ret tt
  | x :: rest => body x ;; forEach rest body
  end.

(** A [for] loop that threads an accumulator the body extends. *)
Fixpoint forAcc {A S} (xs : list A) (acc : S) (body : A -> S -> M S) : M S :=
  match xs with
  | [] => ret acc
  | x :: rest => acc' <- body x acc ;; forAcc rest acc' body
  end.

Definition updateState (updates : list Assign) : M unit :=
  fun w => (Normal tt, withState (fun prev => merge prev updates) w).

(** ** The workflow definition table *)

Record WorkflowStep := {
  stepId : string;
  stepLabel : string;
  stepDescription : string;
  statuses : list PipelineStatus
}.

Record WorkflowDefinition := {
  title : string;
  steps : list WorkflowStep
}.

Definition step (i l d : string) (ss : list PipelineStatus) : WorkflowStep :=
  {| stepId := i; stepLabel := l; stepDescription := d; statuses := ss |}.

(** The object literal [WORKFLOWS], its keys in the order [for ... in]
    enumerates them. *)
Definition WORKFLOWS : list (string * WorkflowDefinition) :=
  [ ("build",
     {| title := "サイト新規構築フロー";
        steps :=
          [ step "phase1" "ブランド定義" "AIによるアイデンティティ策定" [building_identity];
            step "phase2" "戦略・設計" "サイト構造とUXの設計" [generating_strategy];
            step "phase3" "実装・構築" "HTML/CSSコーディングと生成" [generating_hubs];
            step "phase4" "仕上げ" "統合処理と最終調整" [ready] ] |});
    ("deploy",
     {| title := "GitHubデプロイフロー";
        steps :=
          [ step "phase1" "リポジトリ準備" "リモートリポジトリの作成・確認" [creating_repo];
            step "phase2" "アセット転送" "ファイルのプッシュとコミット" [pushing_files];
            step "phase3" "公開設定" "GitHub Pagesの有効化" [enabling_pages; deployed] ] |});
    ("import",
     {| title := "リポジトリ復元フロー";
        steps :=
          [ step "phase1" "リソース取得" "リポジトリ情報の解析" [importing];
            step "phase2" "構造分析" "HTML解析とアイデンティティ抽出" [analyzing_site] ] |});
    ("tune",
     {| title := "デザイン調整フロー";
        steps :=
          [ step "planning" "作業計画策定" "AIによる指示の解析とプラン構築" [tuning_design];
            step "execution" "デザイン適用" "各ページへのHTMLリファクタリング" [tuning_design] ] |}) ].

(** [step.statuses.includes(s)] *)
Definition stepHas (s : PipelineStatus) (st : WorkflowStep) : bool :=
  existsb (PipelineStatus_eqb s) (statuses st).

(** [xs.findIndex(p)], [None] standing for [-1]. *)
Fixpoint findIndex {A} (p : A -> bool) (xs : list A) : option nat :=
  match xs with
  | [] => None
  | x :: rest => if p x then Some O else option_map S (findIndex p rest)
  end.

Fixpoint resolveIn (table : list (string * WorkflowDefinition)) (s : PipelineStatus)
  : option (WorkflowDefinition * nat) :=
  match table with
  | [] => None
  | (_, def) :: rest =>
      match findIndex (stepHas s) (steps def) with
      | Some stepIndex => Some (def, stepIndex)
      | None => resolveIn rest s
      end
  end.

Definition getCurrentWorkflowInfo (s : PipelineStatus) : option (WorkflowDefinition * nat) :=
  resolveIn WORKFLOWS s.

(** The progress overlay, which holds the cancel button, is rendered when
    the status is not a resting one and the table resolves it. *)
Definition overlayShown (st : ProjectState) : bool :=
  negb (resting (status st)) &&
  match getCurrentWorkflowInfo (status st) with Some _ => true | None => false end.

(** ** The task ledger *)

Definition withTaskStatus (t : ExecutionTask) (s : TaskStatus) : ExecutionTask :=
  {| taskId := taskId t; label := label t; taskStatus := s;
     groupId := groupId t; groupLabel := groupLabel t |}.

(** [plan.map(t => t.id === id ? { ...t, status } : t)] *)
Definition setStatusIn (plan : list ExecutionTask) (id : string) (s : TaskStatus)
  : list ExecutionTask :=
  map (fun t => if String.eqb (taskId t) id then withTaskStatus t s else t) plan.

Definition setTaskStatus (id : string) (s : TaskStatus) : M unit :=
  fun w =>
    (Normal tt,
     withState (fun prev => merge prev [SetExecutionPlan (setStatusIn (executionPlan prev) id s)]) w).

(** ** Cancellation *)

Inductive AbortSignal := theSignal.

(** [abortControllerRef.current = new AbortController()] *)
Definition startTask : M AbortSignal :=
  fun w =>
    (Normal theSignal,
     {| state := state w; aborted := false; controller := true;
        clock := clock w; rand := rand w; log := log w |}).

(** [signal?.aborted] *)
Definition isAborted (signal : option AbortSignal) (w : World) : bool :=
  match signal with
  | Some _ => aborted w
  | None => false
  end.

Definition signalAborted (signal : option AbortSignal) : M bool :=
  fun w => (Normal (isAborted signal w), w).

Definition abortController (w : World) : World :=
  if controller w
  then {| state := state w; aborted := true; controller := false;
          clock := clock w; rand := rand w; log := log w |}
  else w.

(** The cancel button's handler; [state] there is the state of the render
    the button belongs to, the live one. *)
Definition handleAbort : M unit :=
  fun w =>
    let restTo := match identity (state w) with Some _ => ready | None => idle end in
    updateState [SetStatus restTo; SetExecutionPlan []; SetCurrentDetail None]
      (abortController w).

Definition tick (w : World) : World :=
  {| state := state w; aborted := aborted w; controller := controller w;
     clock := S (clock w); rand := rand w; log := log w |}.

Section Engine.

Variable env : Env.

(** One suspension point: the handler yields to the event loop, where the
    user may press the cancel button if the overlay shows it. *)
Definition suspend : M unit :=
  fun w =>
    if cancelAt env (clock w) && overlayShown (state w)
    then handleAbort (tick w)
    else (Normal tt, tick w).

(** [await new Promise(resolve => setTimeout(resolve, ms))] *)
Definition sleep (ms : Q) : M unit :=
  fun w => suspend (record (Sleep ms) w).

(** [ai.models.generateContent(request)]: the request takes no signal,
    so it runs to its own completion. *)
Definition generateContent (a : Agent) : M GenerateContentResponse :=
  fun w =>
    let '(_, w') := suspend (record (Generate a) w) in
    match gen env (clock w) with
    | Resolved r => (Normal r, w')
    | Rejected e => (Throw e, w')
    end.

(** [fetch(url, { ...options, signal })]: rejects with an [AbortError]
    when the signal is, or becomes, aborted. *)
Definition fetch (m : Method) (url : string) (signal : option AbortSignal) : M Response :=
  fun w =>
    if isAborted signal w
    then (Throw (abortError "The user aborted a request."), w)
    else
      let '(_, w') := suspend (record (Http m url) w) in
      if isAborted signal w'
      then (Throw (abortError "The user aborted a request."), w')
      else
        match http env (clock w) with
        | Resolved r => (Normal r, w')
        | Rejected e => (Throw e, w')
        end.

(** [Math.random().toString(36).substr(2, 9)] *)
Definition randomId : M string :=
  fun w =>
    (Normal (random env (rand w)),
     {| state := state w; aborted := aborted w; controller := controller w;
        clock := clock w; rand := S (rand w); log := log w |}).

(** ** [geminiService.ts]: the retry policy *)

Definition isRetryable (error : JsError) : bool :=
  let isNetworkError := String.eqb (name error) "TypeError" || messageIncludes error "fetch" in
  let isRateLimit :=
    match errorStatus error with Some s => s =? 429 | None => false end
    || messageIncludes error "429" in
  isNetworkError || isRateLimit || messageIncludes error "overloaded".

(** [new DOMException("ユーザーによって中断されました", "AbortError")] *)
Definition canceled : JsError := abortError "ユーザーによって中断されました".

(** The [for] loop of [retryWithBackoff]: [todo] iterations remain, the
    loop variable is [i].  The wait is kept as an exact fraction in
    lowest terms. *)
Fixpoint retryLoop {T} (operation : M T) (maxRetries : Z) (signal : option AbortSignal)
  (todo : nat) (i : Z) (delay : Q) : M T :=
  match todo with
  | O => throw (newError "APIへの接続に失敗しました。時間をおいて再度お試しください。")
  | S todo' =>
      a <- signalAborted signal ;;
      if a : bool then throw canceled
      else
        tryCatch operation (fun error =>
          a' <- signalAborted signal ;;
          if a' : bool then throw canceled
          else if negb (isRetryable error) || (i =? maxRetries - 1) then throw error
          else
            sleep delay ;;
            retryLoop operation maxRetries signal todo' (i + 1) (Qred (delay * (3 # 2))))
  end.

Definition retryWithBackoff {T} (operation : M T) (maxRetries : Z) (initialDelay : Q)
  (signal : option AbortSignal) : M T :=
  if String.eqb (apiKey env) ""
  then throw (newError "APIキーが設定されていません。環境変数 GEMINI_API_KEY を確認してください。")
  else retryLoop operation maxRetries signal (Z.to_nat maxRetries) 0 initialDelay.

(** ** [geminiService.ts]: the agents

    The prompt of a request is built from the agent's arguments; the
    service being an oracle, the trace keeps the agent only.  What the
    construction of a prompt can throw is kept. *)

Definition emptyIdentity : Identity :=
  {| siteName := None; identitySlug := ""; mission := ""; brandDescription := "";
     themeColor := ""; tone := None |}.

(** [JSON.parse] of the fallback literals (['{}'], ['{"hubs":[], ...}']). *)
Definition emptyObject : JsonObject :=
  {| jIdentity := emptyIdentity; jHubs := []; jArticles := []; jRationale := "";
     jPlanSummary := ""; jTasks := [] |}.

(** [JSON.parse(response.text || fallback)] *)
Definition parseJson (response : GenerateContentResponse) : M JsonObject :=
  if String.eqb (text response) "" then ret emptyObject
  else match parsed response with
       | Some o => ret o
       | None => throw (syntaxError "Unexpected token in JSON")
       end.

(** [text.replace(/```html/g, "").replace(/```/g, "").trim()] *)
Definition stripMarkdown (t : string) : string :=
  Js.trim (Js.removeAll "```" (Js.removeAll "```html" t)).

Definition generateIdentityAgent (signal : option AbortSignal) : M Identity :=
  response <- retryWithBackoff (generateContent IdentityAgent) 5 2000 signal ;;
  o <- parseJson response ;;
  ret (jIdentity o).

Definition analyzeSiteIdentityAgent (signal : option AbortSignal) : M Identity :=
  response <- retryWithBackoff (generateContent SiteIdentityAgent) 5 2000 signal ;;
  o <- parseJson response ;;
  ret (jIdentity o).

Definition analyzeRepoStructureAgent (signal : option AbortSignal)
  : M (list HubPage * list Article) :=
  response <- retryWithBackoff (generateContent RepoStructureAgent) 5 2000 signal ;;
  o <- parseJson response ;;
  ret (jHubs o, jArticles o).

Definition withHubId (d : HubPage) (i : string) : HubPage :=
  {| hubId := i; hubTitle := hubTitle d; hubSlug := hubSlug d;
     hubDescription := hubDescription d; html := html d |}.

Definition withHtml (h : HubPage) (t : string) : HubPage :=
  {| hubId := hubId h; hubTitle := hubTitle h; hubSlug := hubSlug h;
     hubDescription := hubDescription h; html := Some t |}.

Definition withContentHtml (a : Article) (t : string) : Article :=
  {| articleId := articleId a; articleHubId := articleHubId a;
     articleTitle := articleTitle a; articleSlug := articleSlug a;
     contentHtml := Some t; createdAt := createdAt a |}.

(** [data.hubs.map(d => ({ ...d, id: <random> }))] *)
Fixpoint assignIds (ds : list HubPage) : M (list HubPage) :=
  match ds with
  | [] => ret []
  | d :: rest =>
      i <- randomId ;;
      hs <- assignIds rest ;;
      ret (withHubId d i :: hs)
  end.

Definition generateStrategyAgent (signal : option AbortSignal) : M (list HubPage * string) :=
  response <- retryWithBackoff (generateContent StrategyAgent) 5 2000 signal ;;
  data <- parseJson response ;;
  hs <- assignIds (jHubs data) ;;
  ret (hs, jRationale data).

(** The header template reads [identity.siteName.charAt(0)] before the
    request is made. *)
Definition generateHtmlAgent (identity : Identity) (signal : option AbortSignal) : M string :=
  match siteName identity with
  | None => throw (typeError "Cannot read properties of undefined (reading 'charAt')")
  | Some _ =>
      response <- retryWithBackoff (generateContent HtmlAgent) 5 2000 signal ;;
      ret (stripMarkdown
             (Js.orElse (text response)
                "<html><body>ページ生成に失敗しました。</body></html>"))
  end.

Definition generateTunePlanAgent (signal : option AbortSignal) : M (string * list string) :=
  response <- retryWithBackoff (generateContent TunePlanAgent) 5 2000 signal ;;
  o <- parseJson response ;;
  ret (jPlanSummary o, jTasks o).

Definition tunePageDesignAgent (currentHtml : string) (signal : option AbortSignal) : M string :=
  response <- retryWithBackoff (generateContent TunePageAgent) 5 2000 signal ;;
  ret (stripMarkdown (Js.orElse (text response) currentHtml)).

(** The prompt is built inside the retried operation, so a missing
    identity makes every attempt throw a [TypeError]. *)
Definition generateReadmeAgent (identity : option Identity) (signal : option AbortSignal)
  : M string :=
  response <-
    retryWithBackoff
      (match identity with
       | None => throw (typeError "Cannot read properties of undefined (reading 'siteName')")
       | Some _ => generateContent ReadmeAgent
       end) 5 2000 signal ;;
  ret (Js.trim (Js.removeFirstCI "```" (Js.removeFirstCI "```markdown" (text response)))).

(** ** [githubService.ts] *)

Definition dropEnd (n : nat) (s : string) : string := Js.rev (Js.drop n (Js.rev s)).

(** [repo.replace(/^https?:\/\/(www\.)?github\.com\//i, '')] *)
Definition stripGithubPrefix (s : string) : string :=
  if Js.prefixCI "https://www.github.com/" s then Js.drop 23 s
  else if Js.prefixCI "https://github.com/" s then Js.drop 19 s
  else if Js.prefixCI "http://www.github.com/" s then Js.drop 22 s
  else if Js.prefixCI "http://github.com/" s then Js.drop 18 s
  else s.

(** [repo.replace(/\.git$/i, '')] *)
Definition stripGitSuffix (s : string) : string :=
  if Js.endsWith (Js.lowercase s) ".git" then dropEnd 4 s else s.

Definition cleanRepo (repo : string) : string :=
  Js.stripSlashes (stripGitSuffix (stripGithubPrefix (Js.trim repo))).

(** [res.json().catch(() => ({ message: "不明なエラー" }))], then
    [error.message]. *)
Definition errorMessage (res : Response) : string :=
  match resBody res with
  | Some b => bodyMessage b
  | None => "不明なエラー"
  end.

(** [await res.json()] where a body that is not JSON throws. *)
Definition json (res : Response) : M JsonBody :=
  match resBody res with
  | Some b => ret b
  | None => throw (syntaxError "Unexpected end of JSON input")
  end.

(** [new Error(`HTTP ${res.status}`)] *)
Definition httpError (s : Z) : JsError := newError ("HTTP " ++ Js.ofZ s).

(** The error that replaces a network failure once the attempts are used
    up; [lastError.message] prints as ["undefined"] when absent. *)
Definition networkError (lastError : JsError) : JsError :=
  newError ("GitHub APIへの接続に失敗しました: "
              ++ match message lastError with Some t => t | None => "undefined" end
              ++ " (Network Error)").

(** The [for] loop of [fetchWithRetry] and the code after it. *)
Fixpoint fetchLoop (url : string) (m : Method) (retries : Z) (signal : option AbortSignal)
  (todo : nat) (i : Z) (lastError : option JsError) : M Response :=
  match todo with
  | O =>
      match lastError with
      | Some e =>
          if String.eqb (name e) "TypeError" || messageIncludes e "Failed to fetch"
          then throw (networkError e)
          else throw e
      | None => throw (newError "ネットワークエラーが発生しました。")
      end
  | S todo' =>
      a <- signalAborted signal ;;
      if a : bool then throw (abortError "Aborted")
      else
        tryCatch
          (res <- fetch m url signal ;;
           if (resStatus res =? 429) || (resStatus res >=? 500)
           then throw (httpError (resStatus res))
           else ret res)
          (fun e =>
             if isAbortError e then throw e
             else
               (if i <? retries - 1 then sleep (inject_Z (1000 * 2 ^ i)) else ret tt) ;;
               fetchLoop url m retries signal todo' (i + 1) (Some e))
  end.

Definition fetchWithRetry (url : string) (m : Method) (retries : Z)
  (signal : option AbortSignal) : M Response :=
  fetchLoop url m retries signal (Z.to_nat retries) 0 None.

Definition createRepoUrl : string := "https://api.github.com/user/repos".

Definition createRepository (config : GitHubConfig) (signal : option AbortSignal) : M unit :=
  let cleanedRepo := cleanRepo (repo config) in
  let repoName := Js.lastSegment cleanedRepo in
  if String.eqb (token config) "" || String.eqb repoName ""
  then throw (newError "不正な設定です。リポジトリ名とトークンを確認してください。")
  else
    res <- fetchWithRetry createRepoUrl POST 3 signal ;;
    if negb (ok res) && negb (resStatus res =? 422)
    then throw (newError ("リポジトリ作成に失敗しました (" ++ Js.ofZ (resStatus res) ++ "): "
                            ++ errorMessage res))
    else ret tt.

(** A non-ok answer other than 409 is written to the console only. *)
Definition enablePages (config : GitHubConfig) (signal : option AbortSignal) : M unit :=
  let cleanedRepo := cleanRepo (repo config) in
  res <- fetchWithRetry ("https://api.github.com/repos/" ++ cleanedRepo ++ "/pages") POST 3 signal ;;
  if negb (ok res) && negb (resStatus res =? 409)
  then ret tt
  else ret tt.

Record File := {
  filePath : string;
  fileContent : string
}.

Definition hubFile (h : HubPage) : File :=
  {| filePath := if String.eqb (hubSlug h) "index" then "index.html"
                 else hubSlug h ++ "/index.html";
     fileContent := match html h with Some t => t | None => "" end |}.

Definition articleFile (hs : list HubPage) (a : Article) : File :=
  {| filePath :=
       match find (fun h => String.eqb (hubId h) (articleHubId a)) hs with
       | Some parentHub =>
           if negb (String.eqb (hubSlug parentHub) "index")
           then hubSlug parentHub ++ "/" ++ articleSlug a ++ ".html"
           else "articles/" ++ articleSlug a ++ ".html"
       | None => "articles/" ++ articleSlug a ++ ".html"
       end;
     fileContent := match contentHtml a with Some t => t | None => "" end |}.

Definition filesToPublish (hs : list HubPage) (ars : list Article) (readme : string)
  : list File :=
  (map hubFile hs ++ map (articleFile hs) ars
   ++ (if String.eqb readme "" then []
       else [{| filePath := "README.md"; fileContent := readme |}]))%list.

Definition contentsUrl (config : GitHubConfig) : string :=
  let cleanPath := Js.stripSlashes (path config) in
  "https://api.github.com/repos/" ++ cleanRepo (repo config) ++ "/contents"
  ++ (if String.eqb cleanPath "" then "" else "/" ++ cleanPath).

(** One iteration of the upload loop.  The revision marker read by the
    first request goes into the body of the second, which the trace does
    not hold; any failure of the first request is swallowed. *)
Definition publishFile (config : GitHubConfig) (signal : option AbortSignal)
  (onProgress : string -> M unit) (file : File) : M unit :=
  a <- signalAborted signal ;;
  if a : bool then throw (abortError "Aborted")
  else
    onProgress (filePath file) ;;
    sha <- tryCatch
             (checkRes <- fetchWithRetry
                            (contentsUrl config ++ "/" ++ filePath file ++ "?ref=" ++ branch config)
                            GET 3 signal ;;
              if ok checkRes then data <- json checkRes ;; ret (bodySha data) else ret "")
             (fun _ => ret "") ;;
    res <- fetchWithRetry (contentsUrl config ++ "/" ++ filePath file) PUT 3 signal ;;
    if negb (ok res)
    then throw (newError (filePath file ++ " 送信失敗 (" ++ Js.ofZ (resStatus res) ++ "): "
                            ++ errorMessage res))
    else ret tt.

Definition publishToGithub (config : GitHubConfig) (hs : list HubPage) (ars : list Article)
  (readme : string) (signal : option AbortSignal) (onProgress : string -> M unit) : M unit :=
  forEach (filesToPublish hs ars readme) (publishFile config signal onProgress).

(** [None] is the [null] returned for a 404. *)
Definition fetchRepoDetails (config : GitHubConfig) (signal : option AbortSignal)
  : M (option string) :=
  let cleanedRepo := cleanRepo (repo config) in
  if negb (Js.includes cleanedRepo "/")
  then throw (newError "リポジトリ名は 'owner/repo' または GitHub URL で入力してください。")
  else
    res <- fetchWithRetry ("https://api.github.com/repos/" ++ cleanedRepo) GET 3 signal ;;
    if negb (ok res)
    then
      if resStatus res =? 404 then ret None
      else throw (newError ("リポジトリ取得失敗 (" ++ Js.ofZ (resStatus res) ++ "): "
                              ++ errorMessage res))
    else
      details <- json res ;;
      ret (Some (bodyDefaultBranch details)).

Definition fetchRepoStructure (config : GitHubConfig) (signal : option AbortSignal)
  : M (list GitHubFileNode) :=
  let cleanedRepo := cleanRepo (repo config) in
  res <- fetchWithRetry ("https://api.github.com/repos/" ++ cleanedRepo ++ "/git/trees/"
                           ++ branch config ++ "?recursive=1") GET 3 signal ;;
  if negb (ok res)
  then throw (newError ("構造取得失敗 (" ++ Js.ofZ (resStatus res) ++ "): " ++ errorMessage res))
  else
    data <- json res ;;
    ret (bodyTree data).

Definition fetchFileContent (url : string) (signal : option AbortSignal) : M string :=
  res <- fetchWithRetry url GET 3 signal ;;
  if negb (ok res)
  then throw (newError ("内容取得失敗 (" ++ Js.ofZ (resStatus res) ++ "): " ++ errorMessage res))
  else
    data <- json res ;;
    ret (bodyContent data).

(** ** The pipeline runners

    A runner is a closure of the render in which it was started: [state0]
    is the state of that render, which the runner keeps reading while its
    updates go to the live state.  View state outside [ProjectState] (the
    selected tab, the expanded groups, the form fields) is not modelled. *)

Definition restingUpdate (s : PipelineStatus) : list Assign :=
  [SetStatus s; SetExecutionPlan []; SetCurrentDetail None].

(** *** Build *)

Definition buildTask (h : HubPage) : ExecutionTask :=
  groupedTask ("build-" ++ hubId h) ("生成: " ++ hubTitle h) pending
    "gen-pages" "全ページの生成プロセス".

Definition buildHub (identity : Identity) (signal : AbortSignal) (h : HubPage)
  (updatedHubs : list HubPage) : M (list HubPage) :=
  a <- signalAborted (Some signal) ;;
  if a : bool then returnEarly
  else
    setTaskStatus ("build-" ++ hubId h) running ;;
    updateState [SetCurrentDetail (Some ("HTMLコーディング中: " ++ hubSlug h ++ "/index.html"))] ;;
    t <- generateHtmlAgent identity (Some signal) ;;
    setTaskStatus ("build-" ++ hubId h) completed ;;
    ret (updatedHubs ++ [withHtml h t])%list.

Definition homeHub (indexHtml : string) : HubPage :=
  {| hubId := "home"; hubTitle := "ホーム"; hubSlug := "index";
     hubDescription := "トップページ"; html := Some indexHtml |}.

Definition buildTry (state0 : ProjectState) (signal : AbortSignal) : M unit :=
  updateState
    [SetStatus building_identity;
     SetExecutionPlan
       [task "identity" "ブランドコンセプトの策定" running;
        task "strategy" "サイト構造・戦略の設計" pending];
     SetCurrentDetail (Some "AIによる分析を実行中...")] ;;
  identity <- generateIdentityAgent (Some signal) ;;
  setTaskStatus "identity" completed ;;
  setTaskStatus "strategy" running ;;
  updateState
    [SetIdentity identity; SetStatus generating_strategy;
     SetCurrentDetail (Some "サイト構成案を生成中...")] ;;
  strategy <- generateStrategyAgent (Some signal) ;;
  let '(hubs, rationale) := strategy in
  setTaskStatus "strategy" completed ;;
  let hubTasks := (map buildTask hubs ++ [task "finalize-index" "トップページの統合" pending])%list in
  updateState
    [SetHubs hubs; SetStatus generating_hubs; SetStrategyRationale rationale;
     SetExecutionPlan (executionPlan state0 ++ hubTasks)%list;
     SetCurrentDetail (Some "ページ生成プロセスを開始...")] ;;
  updatedHubs <- forAcc hubs [] (buildHub identity signal) ;;
  setTaskStatus "finalize-index" running ;;
  indexHtml <- generateHtmlAgent identity (Some signal) ;;
  setTaskStatus "finalize-index" completed ;;
  updateState
    [SetHubs (homeHub indexHtml :: updatedHubs); SetStatus ready;
     SetExecutionPlan []; SetCurrentDetail None].

Definition buildCatch (e : JsError) : M unit :=
  if isAbortError e then returnEarly
  else updateState (restingUpdate idle).

Definition handleInitialBuild : M unit :=
  fun w =>
    let state0 := state w in
    handler
      (signal <- startTask ;;
       tryCatch (buildTry state0 signal) buildCatch) w.

(** *** Tune *)

Inductive TargetType := hub | article.

Record Target := {
  targetId : string;
  targetTitle : string;
  targetHtml : string;
  targetType : TargetType
}.

Definition hubTarget (h : HubPage) : Target :=
  {| targetId := hubId h; targetTitle := hubTitle h;
     targetHtml := match html h with Some t => t | None => "" end;
     targetType := hub |}.

Definition articleTarget (a : Article) : Target :=
  {| targetId := articleId a; targetTitle := articleTitle a;
     targetHtml := match contentHtml a with Some t => t | None => "" end;
     targetType := article |}.

Definition targetsToProcess (state0 : ProjectState) (target : string) : list Target :=
  if String.eqb target "all"
  then (map hubTarget (hubs state0) ++ map articleTarget (articles state0))%list
  else
    match find (fun h => String.eqb (hubId h) target) (hubs state0),
          find (fun a => String.eqb (articleId a) target) (articles state0) with
    | Some h, _ => [hubTarget h]
    | None, Some a => [articleTarget a]
    | None, None => []
    end.

(** [xs[xs.findIndex(p)] = f(xs[xs.findIndex(p)])]: the first element
    satisfying [p] is replaced; without one the elements stay as they
    are. *)
Fixpoint updateFirst {A} (p : A -> bool) (f : A -> A) (xs : list A) : list A :=
  match xs with
  | [] => []
  | x :: rest => if p x then f x :: rest else x :: updateFirst p f rest
  end.

Fixpoint planSteps (idx : nat) (tasks : list string) : list ExecutionTask :=
  match tasks with
  | [] => []
  | s :: rest =>
      task ("plan-step-" ++ Js.ofZ (Z.of_nat idx)) ("【方針】" ++ s) completed
      :: planSteps (S idx) rest
  end.

Definition tuneTask (t : Target) : ExecutionTask :=
  groupedTask ("tune-" ++ targetId t) ("反映: " ++ targetTitle t) pending
    "tune-pages" "ページのリファクタリング反映".

Definition tuneTarget (signal : AbortSignal) (t : Target)
  (updated : list HubPage * list Article) : M (list HubPage * list Article) :=
  a <- signalAborted (Some signal) ;;
  if a : bool then returnEarly
  else
    setTaskStatus ("tune-" ++ targetId t) running ;;
    updateState [SetCurrentDetail (Some ("リファクタリング実行中: " ++ targetTitle t))] ;;
    newHtml <- tunePageDesignAgent (targetHtml t) (Some signal) ;;
    let updated' :=
      match targetType t with
      | hub =>
          (updateFirst (fun h => String.eqb (hubId h) (targetId t))
             (fun h => withHtml h newHtml) (fst updated), snd updated)
      | article =>
          (fst updated,
           updateFirst (fun a => String.eqb (articleId a) (targetId t))
             (fun a => withContentHtml a newHtml) (snd updated))
      end in
    setTaskStatus ("tune-" ++ targetId t) completed ;;
    ret updated'.

Definition tuneTry (state0 : ProjectState) (target : string) (signal : AbortSignal) : M unit :=
  tunePlan <- generateTunePlanAgent (Some signal) ;;
  setTaskStatus "plan-generation" completed ;;
  let targets := targetsToProcess state0 target in
  let taskList := (planSteps O (snd tunePlan) ++ map tuneTask targets)%list in
  updateState [SetExecutionPlan (executionPlan state0 ++ taskList)%list] ;;
  updated <- forAcc targets (hubs state0, articles state0) (tuneTarget signal) ;;
  updateState [SetHubs (fst updated); SetArticles (snd updated)].

(** [console.error(e); alert(...)] leave the state alone. *)
Definition tuneCatch (e : JsError) : M unit :=
  if isAbortError e then returnEarly
  else ret tt.

Definition tuneBegin : M AbortSignal :=
  signal <- startTask ;;
  updateState
    [SetStatus tuning_design;
     SetExecutionPlan [task "plan-generation" "指示の解析と作業プロセスの決定" running];
     SetCurrentDetail (Some "ユーザーの要望をエンジニアリング要件へ分解中...")] ;;
  ret signal.

(** [instruction] and [target] are the values the handler works with,
    after [overrideInstruction || tuningInstruction] and
    [targetId || tuningTargetId]. *)
Definition handleTuneDesign (instruction target : string) : M unit :=
  fun w =>
    let state0 := state w in
    match identity state0 with
    | None => (Normal tt, w)
    | Some _ =>
        if String.eqb instruction "" then (Normal tt, w)
        else
          handler
            (signal <- tuneBegin ;;
             tryFinally
               (tryCatch (tuneTry state0 target signal) tuneCatch)
               (updateState (restingUpdate ready))) w
    end.

(** *** Import *)

Definition withBranch (c : GitHubConfig) (b : string) : GitHubConfig :=
  {| token := token c; repo := repo c; branch := b; path := path c |}.

Definition restoreHub (htmlFiles : list GitHubFileNode) (indexFile : option GitHubFileNode)
  (signal : AbortSignal) (h : HubPage) (finalHubs : list HubPage) : M (list HubPage) :=
  let matchingFile :=
    match find (fun f => Js.includes (nodePath f) (hubSlug h ++ "/index.html")) htmlFiles with
    | Some f => Some f
    | None => if String.eqb (hubSlug h) "index" then indexFile else None
    end in
  match matchingFile with
  | Some f =>
      updateState [SetCurrentDetail (Some ("取得中: " ++ hubSlug h))] ;;
      content <- fetchFileContent (nodeUrl f) (Some signal) ;;
      ret (finalHubs ++ [withHtml h content])%list
  | None => ret (finalHubs ++ [h])%list
  end.

Definition importTry (importRepo importToken : string) (signal : AbortSignal) : M unit :=
  let config := {| token := importToken; repo := importRepo; branch := "main"; path := "docs" |} in
  details <- fetchRepoDetails config (Some signal) ;;
  let config := match details with Some b => withBranch config b | None => config end in
  setTaskStatus "fetch-info" completed ;;
  setTaskStatus "fetch-tree" running ;;
  tree <- fetchRepoStructure config (Some signal) ;;
  let htmlFiles := filter (fun f => Js.endsWith (nodePath f) ".html") tree in
  setTaskStatus "fetch-tree" completed ;;
  setTaskStatus "fetch-content" running ;;
  let indexFile := find (fun f => Js.endsWith (nodePath f) "index.html") htmlFiles in
  indexHtml <- match indexFile with
               | Some f => fetchFileContent (nodeUrl f) (Some signal)
               | None => ret ""
               end ;;
  setTaskStatus "fetch-content" completed ;;
  setTaskStatus "analyze-brand" running ;;
  identity <- analyzeSiteIdentityAgent (Some signal) ;;
  setTaskStatus "analyze-brand" completed ;;
  setTaskStatus "analyze-structure" running ;;
  structure <- analyzeRepoStructureAgent (Some signal) ;;
  let '(hubs, articles) := structure in
  setTaskStatus "analyze-structure" completed ;;
  setTaskStatus "fetch-full-content" running ;;
  finalHubs <- forAcc hubs [] (restoreHub htmlFiles indexFile signal) ;;
  setTaskStatus "fetch-full-content" completed ;;
  updateState
    [SetIdentity identity; SetGithubConfig config; SetStatus ready; SetHubs finalHubs;
     SetArticles articles; SetExecutionPlan []; SetCurrentDetail None].

Definition importCatch (e : JsError) : M unit :=
  if isAbortError e then returnEarly
  else updateState (restingUpdate idle).

Definition importBegin : M AbortSignal :=
  signal <- startTask ;;
  updateState
    [SetStatus importing;
     SetExecutionPlan
       [task "fetch-info" "リポジトリ情報の検証" running;
        task "fetch-tree" "ディレクトリ構造のスキャン" pending;
        task "fetch-content" "主要リソースの取得" pending;
        task "analyze-brand" "ブランドアイデンティティ解析" pending;
        task "analyze-structure" "コンテンツ構造の分析" pending;
        groupedTask "fetch-full-content" "全ページの復元" pending
          "import-restore" "GitHubからの全ページ取得"];
     SetCurrentDetail (Some "GitHub接続中...")] ;;
  ret signal.

(** [importRepo] and [importToken] are the fields of the import form. *)
Definition handleImport (importRepo importToken : string) : M unit :=
  if String.eqb importRepo "" || String.eqb importToken "" then ret tt
  else
    handler
      (signal <- importBegin ;;
       tryCatch (importTry importRepo importToken signal) importCatch).

(** *** Publish *)

Definition publishTry (state0 : ProjectState) (signal : AbortSignal) : M unit :=
  details <- fetchRepoDetails (githubConfig state0) (Some signal) ;;
  match details with
  | None => createRepository (githubConfig state0) (Some signal)
  | Some _ => ret tt
  end ;;
  setTaskStatus "check-repo" completed ;;
  setTaskStatus "push-files" running ;;
  readme <- generateReadmeAgent (identity state0) None ;;
  publishToGithub (githubConfig state0) (hubs state0) (articles state0) readme (Some signal)
    (fun file => updateState [SetCurrentDetail (Some ("送信中: " ++ file))]) ;;
  setTaskStatus "push-files" completed ;;
  setTaskStatus "enable-pages" running ;;
  enablePages (githubConfig state0) (Some signal) ;;
  setTaskStatus "enable-pages" completed ;;
  updateState (restingUpdate deployed).

Definition publishCatch (e : JsError) : M unit :=
  if isAbortError e then returnEarly
  else updateState (restingUpdate ready).

Definition publishBegin : M AbortSignal :=
  signal <- startTask ;;
  updateState
    [SetStatus creating_repo;
     SetExecutionPlan
       [task "check-repo" "リポジトリ情報の検証" running;
        groupedTask "push-files" "ファイルのプッシュ" pending
          "push-group" "全ファイルのアップロード";
        task "enable-pages" "GitHub Pages有効化" pending]] ;;
  ret signal.

Definition handlePublish : M unit :=
  fun w =>
    let state0 := state w in
    if String.eqb (repo (githubConfig state0)) "" || String.eqb (token (githubConfig state0)) ""
    then (Normal tt, w)
    else
      handler
        (signal <- publishBegin ;;
         tryCatch (publishTry state0 signal) publishCatch) w.

End Engine.

(** * Vocabulary of the properties *)

Open Scope list_scope.

(** ** Triples

    [hoare P m Q]: started in a world satisfying [P], [m] ends with a
    completion and a world related by [Q]. *)

Definition hoare {A} (P : World -> Prop) (m : M A) (Q : Completion A -> World -> Prop) : Prop :=
  forall w, P w -> Q (fst (m w)) (snd (m w)).

(** [preserves P m]: [P] survives [m], however [m] completes. *)
Definition preserves {A} (P : World -> Prop) (m : M A) : Prop :=
  hoare P m (fun _ w => P w).

(** ** Traces *)

Definition advance (w : World) (n : nat) (l : list Entry) : World :=
  {| state := state w; aborted := aborted w; controller := controller w;
     clock := (clock w + n)%nat; rand := rand w; log := log w ++ l |}.

(** Requests to the generation service in a trace: the invocations of the
    retried operation. *)
Definition isGenerate (e : Entry) : bool :=
  match e with Generate _ => true | _ => false end.

Definition invocations (l : list Entry) : nat := List.length (filter isGenerate l).

Definition isSleep (e : Entry) : bool :=
  match e with Sleep _ => true | _ => false end.

(** The waits in a trace, in order. *)
Fixpoint waits (l : list Entry) : list Q :=
  match l with
  | [] => []
  | Sleep ms :: rest => ms :: waits rest
  | _ :: rest => waits rest
  end.

(** The trace of [attempts] failed attempts of the request [req] with the
    waits of [retryWithBackoff] between them, the first being [delay]. *)
Fixpoint policyTrace (req : Entry) (attempts : nat) (delay : Q) : list Entry :=
  match attempts with
  | O => []
  | S n =>
      match n with
      | O => [req]
      | S _ => req :: Sleep delay :: policyTrace req n (Qred (delay * (3 # 2)))
      end
  end.

(** The wait before retry number [k + 1]. *)
Fixpoint delayAt (initialDelay : Q) (k : nat) : Q :=
  match k with
  | O => initialDelay
  | S k' => Qred (delayAt initialDelay k' * (3 # 2))
  end.

(** The trace the default policy (5 attempts, 2000 ms) leaves. *)
Definition defaultPolicyTrace (req : Entry) : list Entry :=
  [req; Sleep 2000; req; Sleep 3000; req; Sleep 4500; req; Sleep 6750; req].

(** The same trace for [fetchWithRetry] with three attempts. *)
Definition hostingTrace (req : Entry) : list Entry :=
  [req; Sleep 1000; req; Sleep 2000; req].

(** All the steps of all the definitions whose status set contains [s],
    in table order. *)
Fixpoint indicesFrom {A} (p : A -> bool) (k : nat) (xs : list A) : list nat :=
  match xs with
  | [] => []
  | x :: rest => if p x then k :: indicesFrom p (S k) rest else indicesFrom p (S k) rest
  end.

Definition matchingSteps (s : PipelineStatus) : list (WorkflowDefinition * nat) :=
  flat_map (fun kd => map (fun i => (snd kd, i)) (indicesFrom (stepHas s) O (steps (snd kd))))
    WORKFLOWS.

(** The status an abnormal exit should rest in according to the rule
    "idle if no identity exists, ready otherwise". *)
Definition lastKnownGood (st : ProjectState) : PipelineStatus :=
  match identity st with
  | Some _ => ready
  | None => idle
  end.

(** The pages held by the live state are [h0] and [a0]. *)
Definition contentIs (h0 : list HubPage) (a0 : list Article) (w : World) : Prop :=
  hubs (state w) = h0 /\ articles (state w) = a0.

(** An assignment that leaves the pages alone. *)
Definition keepsContent (a : Assign) : bool :=
  match a with
  | SetHubs _ | SetArticles _ => false
  | _ => true
  end.

(** A non-empty text whose last character is not a slash. *)
Definition endsClean (s : string) : Prop :=
  exists front c, s = (front ++ String c "")%string /\ Js.isSlash c = false.

(** The request that creates the repository, and the uploads. *)
Definition createRepoRequest : Entry := Http POST createRepoUrl.

Definition isUpload (e : Entry) : Prop := exists url, e = Http PUT url.

(** A property of the trace, as a property of the world. *)
Definition onLog (L : list Entry -> Prop) (w : World) : Prop := L (log w).

(** The trace starts with [l0]. *)
Definition extends (l0 l : list Entry) : Prop := exists rest, l = l0 ++ rest.

(** The signal of the run is not aborted. *)
Definition live (w : World) : Prop := aborted w = false.

(** How an uninterrupted step ends: the signal is still not aborted, the
    step did not [return] out of its handler, what it throws is no
    [AbortError], and its value satisfies [R]. *)
Definition calmly {A} (R : A -> World -> Prop) (c : Completion A) (w : World) : Prop :=
  aborted w = false
  /\ match c with
     | Normal a => R a w
     | Throw e => isAbortError e = false
     | Return => False
     end.

Definition calm {A} (m : M A) : Prop := hoare live m (calmly (fun _ _ => True)).

(** The state rests in [s]: that status, no task, no detail. *)
Definition restsIn (s : PipelineStatus) (st : ProjectState) : Prop :=
  status st = s /\ executionPlan st = [] /\ currentDetail st = None.

(** Where a failure of [fetchWithRetry] that is no [AbortError] starts:
    an answer with status 429 or at least 500, or a rejected request. *)
Definition serviceFailure (env : Env) (e0 : JsError) : Prop :=
  (exists k res, http env k = Resolved res
                 /\ (resStatus res = 429 \/ 500 <= resStatus res)
                 /\ e0 = httpError (resStatus res))
  \/ (exists k, http env k = Rejected e0).

(** [fetchWithRetry] throws such a failure as it is, or a network
    failure inside the error that replaces it. *)
Definition fromService (env : Env) (e : JsError) : Prop :=
  exists e0, serviceFailure env e0 /\ (e = e0 \/ e = networkError e0).

Definition pagesUrl (config : GitHubConfig) : string :=
  ("https://api.github.com/repos/" ++ cleanRepo (repo config) ++ "/pages")%string.

(** The character occurs in the text. *)
Fixpoint hasChar (c : ascii) (s : string) : bool :=
  match s with
  | EmptyString => false
  | String x rest => Ascii.eqb x c || hasChar c rest
  end.

(** The pages of [hs] with the markup of [htmls], pairwise. *)
Definition filled (hs : list HubPage) (htmls : list string) : list HubPage :=
  map (fun p => withHtml (fst p) (snd p)) (combine hs htmls).

(** What a refactored target changes in the copies of the pages the Tune
    pipeline works on: [updatedHubs[idx] = { ...updatedHubs[idx], html }],
    or the same for an article. *)
Definition retouch (t : Target) (newHtml : string) (updated : list HubPage * list Article)
  : list HubPage * list Article :=
  match targetType t with
  | hub =>
      (updateFirst (fun h => String.eqb (hubId h) (targetId t))
         (fun h => withHtml h newHtml) (fst updated), snd updated)
  | article =>
      (fst updated,
       updateFirst (fun a => String.eqb (articleId a) (targetId t))
         (fun a => withContentHtml a newHtml) (snd updated))
  end.

(** The copies after the targets [ts] got the markup [htmls], in order. *)
Fixpoint retouchAll (ts : list Target) (htmls : list string)
  (updated : list HubPage * list Article) : list HubPage * list Article :=
  match ts, htmls with
  | t :: ts', m :: ms => retouchAll ts' ms (retouch t m updated)
  | _, _ => updated
  end.

(** The markup [m] is what a refactor call for the target [t] returned. *)
Definition refactoredBy (env : Env) (signal : AbortSignal) (t : Target) (m : string) : Prop :=
  exists w1 w2, tunePageDesignAgent env (targetHtml t) (Some signal) w1 = (Normal m, w2).

(** ** Vocabulary of the further properties *)

(** The trace of [attempts] attempts of the request [req] with the waits
    of [fetchWithRetry] between them, the loop variable starting at [i]. *)
Fixpoint hostingPolicyTrace (req : Entry) (attempts : nat) (i : Z) : list Entry :=
  match attempts with
  | O => []
  | S n =>
      match n with
      | O => [req]
      | S _ => req :: Sleep (inject_Z (1000 * 2 ^ i)) :: hostingPolicyTrace req n (i + 1)
      end
  end.

(** An outcome of a request that [fetchWithRetry] does not pass on but
    retries: a rejection that is no [AbortError], an answer with status
    429 or at least 500. *)
Definition retried (o : Outcome Response) : bool :=
  match o with
  | Resolved res => (resStatus res =? 429) || (resStatus res >=? 500)
  | Rejected e => negb (isAbortError e)
  end.

(** The error the [catch] clause of [fetchWithRetry] sees for it. *)
Definition failureOf (o : Outcome Response) : JsError :=
  match o with
  | Resolved res => httpError (resStatus res)
  | Rejected e => e
  end.

(** What [fetchWithRetry] throws after its loop, [lastError] being set. *)
Definition finalError (lastError : JsError) : JsError :=
  if String.eqb (name lastError) "TypeError" || messageIncludes lastError "Failed to fetch"
  then networkError lastError
  else lastError.

(** [l] is an initial part of [t]. *)
Definition startsWith {A} (l t : list A) : Prop := exists rest, t = l ++ rest.

(** The time spent waiting in a trace, in milliseconds. *)
Definition totalWait (l : list Entry) : Q := fold_right Qplus 0%Q (waits l).

(** The hosting service gave the answer [res] to some request. *)
Definition answered (env : Env) (res : Response) : Prop :=
  exists k, http env k = Resolved res.

(** The two requests of the upload loop for one file: the check for a
    stored revision, then the upload. *)
Definition uploadTrace (config : GitHubConfig) (file : File) : list Entry :=
  [Http GET (contentsUrl config ++ "/" ++ filePath file ++ "?ref=" ++ branch config)%string;
   Http PUT (contentsUrl config ++ "/" ++ filePath file)%string].

(** Once the signal of the run is aborted, the state rests where a
    cancelled run may rest: in [idle] or in [ready]. *)
Definition restsOnceAborted (w : World) : Prop :=
  aborted w = true -> restsIn idle (state w) \/ restsIn ready (state w).

(** The same, the detail apart. *)
Definition stillOnceAborted (w : World) : Prop :=
  aborted w = true ->
  (status (state w) = idle \/ status (state w) = ready) /\ executionPlan (state w) = [].

(** The status is one of [allowed]. *)
Definition statusAmong (allowed : list PipelineStatus) (w : World) : Prop :=
  existsb (PipelineStatus_eqb (status (state w))) allowed = true.

(** The assignments of [us] set no status outside [allowed]. *)
Definition onlyStatuses (allowed : list PipelineStatus) (us : list Assign) : bool :=
  forallb (fun a => match a with
                    | SetStatus s => existsb (PipelineStatus_eqb s) allowed
                    | _ => true
                    end) us.

(** The statuses each runner writes or may be left in by the cancel
    handler. *)
Definition buildStatuses : list PipelineStatus :=
  [building_identity; generating_strategy; generating_hubs; idle; ready].
Definition tuneStatuses : list PipelineStatus := [tuning_design; idle; ready].
Definition importStatuses : list PipelineStatus := [importing; idle; ready].
Definition publishStatuses : list PipelineStatus := [creating_repo; idle; ready; deployed].

(** The step the progress overlay marks as active, when it is shown. *)
Definition shownStep (st : ProjectState) : option (string * nat) :=
  if overlayShown st
  then option_map (fun r => (title (fst r), snd r)) (getCurrentWorkflowInfo (status st))
  else None.

(** The site held by the live state is the one of [st0]: identity, pages,
    rationale and hosting configuration. *)
Definition siteIs (st0 : ProjectState) (w : World) : Prop :=
  identity (state w) = identity st0
  /\ hubs (state w) = hubs st0
  /\ articles (state w) = articles st0
  /\ strategyRationale (state w) = strategyRationale st0
  /\ githubConfig (state w) = githubConfig st0.

(** What the Tune pipeline leaves of a hub and of an article: all but
    the markup. *)
Definition hubFrame (h : HubPage) : string * string * string * string :=
  (hubId h, hubTitle h, hubSlug h, hubDescription h).

Definition articleFrame (a : Article) : string * string * string * string * string :=
  (articleId a, articleHubId a, articleTitle a, articleSlug a, createdAt a).

(** An assignment that leaves the site alone. *)
Definition keepsSite (a : Assign) : bool :=
  match a with
  | SetStatus _ | SetExecutionPlan _ | SetCurrentDetail _ => true
  | _ => false
  end.

(** Every character of the text satisfies [p]. *)
Fixpoint everyChar (p : ascii -> bool) (s : string) : bool :=
  match s with
  | EmptyString => true
  | String c rest => p c && everyChar p rest
  end.

(** The first and the last character of a text, when it has them. *)
Definition firstChar (s : string) : option ascii :=
  match s with
  | EmptyString => None
  | String c _ => Some c
  end.

Definition lastChar (s : string) : option ascii := firstChar (Js.rev s).

(** The code fence of Markdown. *)
Definition fence : string := "```".

(** A page whose markup is present, holds no code fence and has no white
    space at its ends. *)
Definition cleanPage (h : HubPage) : Prop :=
  exists t, html h = Some t /\ Js.includes t fence = false /\ Js.trim t = t.

(** Two backticks at the start of a text. *)
Definition twoTicks (s : string) : bool := prefix "``" s.

(** The addresses [cleanRepo] strips from the start of a repository
    text, in the order it tries them. *)
Definition githubPrefixes : list string :=
  ["https://www.github.com/"; "https://github.com/";
   "http://www.github.com/"; "http://github.com/"].

(** An ASCII character that is neither white space nor a slash.  A
    character outside ASCII starts and ends with a byte above 127, and
    may be white space that [trim] removes (the no-break space, the
    ideographic space). *)
Definition plain (c : ascii) : bool :=
  (nat_of_ascii c <? 128)%nat && negb (Js.isSpace c) && negb (Js.isSlash c).

(** A repository text with nothing for [cleanRepo] to remove: it starts
    and ends with an ASCII character that is neither white space nor a
    slash, and has no address before it and no ".git" after it. *)
Definition bare (r : string) : bool :=
  match firstChar r, lastChar r with
  | Some a, Some z =>
      plain a && plain z
      && negb (Js.endsWith (Js.lowercase r) ".git")
      && negb (existsb (fun p => Js.prefixCI p r) githubPrefixes)
  | _, _ => false
  end.

(** The call ended by throwing a [SyntaxError] in the world [w']. *)
Definition failsUnread {A} (run : Completion A * World) (w' : World) : Prop :=
  exists e, run = (Throw e, w') /\ name e = "SyntaxError".

(** [JSON.parse(response.text || fallback)] yields [o]. *)
Definition readAs (r : GenerateContentResponse) (o : JsonObject) : Prop :=
  forall w, parseJson r w = (Normal o, w).

(** The live state holds the identity [i]. *)
Definition holdsIdentity (i : Identity) (w : World) : Prop := identity (state w) = Some i.

(** An assignment that leaves the identity alone. *)
Definition keepsIdentity (a : Assign) : bool :=
  match a with
  | SetIdentity _ => false
  | _ => true
  end.

(** What the Import pipeline makes of a hub the analysis named: the hub
    itself, or the hub with the content of a file as its markup. *)
Definition restoredFrom (h h' : HubPage) : Prop :=
  h' = h \/ exists content, h' = withHtml h content.

(** What the README agent makes of the text of a reply. *)
Definition readmeOf (t : string) : string :=
  Js.trim (Js.removeFirstCI "```" (Js.removeFirstCI "```markdown" t)).

(** The requests of a Publish run in which the repository exists and
    nothing fails, the README being [readme]. *)
Definition publishTrace (st : ProjectState) (readme : string) : list Entry :=
  [Http GET ("https://api.github.com/repos/" ++ cleanRepo (repo (githubConfig st)))%string;
   Generate ReadmeAgent]
  ++ flat_map (uploadTrace (githubConfig st))
       (filesToPublish (hubs st) (articles st) readme)
  ++ [Http POST (pagesUrl (githubConfig st))].

(** The build view prints the first letter of the site name of the
    identity in the state ([state.identity.siteName[0]]): rendering
    throws when the state holds an identity that has no site name, and
    what the run writes afterwards is lost with the component.  The
    render is not part of the monad; [renders st] tells the states it
    accepts: those without an identity, or with one that has a site
    name. *)
Definition named (i : Identity) : bool :=
  match siteName i with
  | Some _ => true
  | None => false
  end.

Definition renders (st : ProjectState) : bool :=
  match identity st with
  | Some i => named i
  | None => true
  end.

Definition rendered (w : World) : Prop := renders (state w) = true.

(** An assignment that stores no identity without a site name. *)
Definition namedAssign (a : Assign) : bool :=
  match a with
  | SetIdentity i => named i
  | _ => true
  end.

(** Every value [m] returns satisfies [R]. *)
Definition yields {A} (R : A -> Prop) (m : M A) : Prop :=
  forall w a w', m w = (Normal a, w') -> R a.

(** What a generation call returns is a reply of the service. *)
Definition replied (env : Env) (r : GenerateContentResponse) : Prop :=
  exists k, gen env k = Resolved r.

(** The identities the two identity agents return have a site name. *)
Definition namesIdentities (env : Env) : Prop :=
  forall signal : option AbortSignal,
    yields (fun i => named i = true) (generateIdentityAgent env signal)
    /\ yields (fun i => named i = true) (analyzeSiteIdentityAgent env signal).

(** Every reply of the generation service is read as an object whose
    identity has a site name. *)
Definition namedReplies (env : Env) : Prop :=
  forall k r o, gen env k = Resolved r -> readAs r o -> named (jIdentity o) = true.

(** ** Scenarios

    Concrete states, environments and worlds on which the theorems are
    exercised. *)

Definition exampleConfig : GitHubConfig :=
  {| token := "ghp_example"; repo := "https://github.com/Owner/Repo.git";
     branch := "main"; path := "docs" |}.

Definition exampleIdentity : Identity :=
  {| siteName := Some "Atelier"; identitySlug := "atelier"; mission := "craft";
     brandDescription := "a small studio"; themeColor := "#4f46e5"; tone := Some Minimal |}.

Definition page (i slug markup : string) : HubPage :=
  {| hubId := i; hubTitle := slug; hubSlug := slug; hubDescription := "";
     html := Some markup |}.

Definition draft (slug : string) : HubPage :=
  {| hubId := ""; hubTitle := slug; hubSlug := slug; hubDescription := ""; html := None |}.

(** No run has completed yet. *)
Definition freshState : ProjectState :=
  {| opinion := "technology should extend creativity"; siteType := Personal;
     identity := None; hubs := []; articles := []; gtmId := ""; adsenseId := "";
     strategyRationale := None; status := idle; executionPlan := [];
     currentDetail := None; githubConfig := exampleConfig |}.

(** A site has been built: an identity and two pages. *)
Definition builtState : ProjectState :=
  {| opinion := "technology should extend creativity"; siteType := Personal;
     identity := Some exampleIdentity;
     hubs := [page "h1" "about" "<p>old about</p>"; page "h2" "works" "<p>old works</p>"];
     articles := []; gtmId := ""; adsenseId := "";
     strategyRationale := Some "two pages"; status := ready; executionPlan := [];
     currentDetail := None; githubConfig := exampleConfig |}.

Definition worldOf (st : ProjectState) : World :=
  {| state := st; aborted := false; controller := false; clock := 0; rand := 0; log := [] |}.

Definition exampleObject : JsonObject :=
  {| jIdentity := exampleIdentity; jHubs := [draft "about"; draft "works"; draft "contact"];
     jArticles := []; jRationale := "three pages"; jPlanSummary := "restyle";
     jTasks := ["adjust the palette"] |}.

Definition reply (t : string) : Outcome GenerateContentResponse :=
  Resolved {| text := t; parsed := Some exampleObject |}.

Definition answer (s : Z) : Outcome Response :=
  Resolved {| resStatus := s;
              resBody := Some {| bodyMessage := "message"; bodySha := "abc123";
                                 bodyDefaultBranch := "main"; bodyTree := [];
                                 bodyContent := "<p>stored</p>" |} |}.

Definition rateLimited : JsError :=
  {| name := "Error"; message := Some "quota exceeded"; errorStatus := Some 429 |}.

Definition badRequest : JsError :=
  {| name := "Error"; message := Some "invalid argument"; errorStatus := Some 400 |}.

Definition offline : JsError :=
  {| name := "TypeError"; message := Some "Failed to fetch"; errorStatus := None |}.

Definition neverCancel : nat -> bool := fun _ => false.

Definition ids : nat -> string := fun k => ("id" ++ Js.ofZ (Z.of_nat k))%string.

(** Every request succeeds. *)
Definition envOk : Env :=
  {| apiKey := "key"; cancelAt := neverCancel; gen := fun _ => reply "```html<p>new</p>```";
     http := fun _ => answer 200; random := ids |}.

(** The generation service is rate limited, the network is down. *)
Definition envAllFail : Env :=
  {| apiKey := "key"; cancelAt := neverCancel; gen := fun _ => Rejected rateLimited;
     http := fun _ => Rejected offline; random := ids |}.

(** The generation service refuses every request. *)
Definition envFatal : Env :=
  {| apiKey := "key"; cancelAt := neverCancel; gen := fun _ => Rejected badRequest;
     http := fun _ => answer 200; random := ids |}.

(** The plan and the first refactor call succeed, then the service
    refuses. *)
Definition envTunePartial : Env :=
  {| apiKey := "key"; cancelAt := neverCancel;
     gen := fun k => if (k <? 2)%nat then reply "<p>new about</p>" else Rejected badRequest;
     http := fun _ => answer 200; random := ids |}.

(** The hosting service answers 200 to the first eight requests of a
    Publish run, those before the pages are enabled, and 500 afterwards. *)
Definition envServerError : Env :=
  {| apiKey := "key"; cancelAt := neverCancel; gen := fun _ => reply "# Atelier";
     http := fun k => if (k <? 8)%nat then answer 200 else answer 500; random := ids |}.

(** The repository does not exist yet. *)
Definition envAbsent : Env :=
  {| apiKey := "key"; cancelAt := neverCancel; gen := fun _ => reply "# Atelier";
     http := fun k => if (k =? 0)%nat then answer 404 else answer 200; random := ids |}.

(** The user cancels while the first request is pending. *)
Definition envCancel : Env :=
  {| apiKey := "key"; cancelAt := fun k => (k =? 0)%nat;
     gen := fun _ => reply "```html<p>new</p>```";
     http := fun _ => answer 200; random := ids |}.

(** The first request fails while the user cancels. *)
Definition envCancelDuringFailure : Env :=
  {| apiKey := "key"; cancelAt := fun k => (k =? 0)%nat;
     gen := fun _ => Rejected rateLimited;
     http := fun _ => Rejected offline; random := ids |}.

(** The state while the identity phase of a Build run is in progress. *)
Definition buildingState : ProjectState :=
  merge freshState
    [SetStatus building_identity;
     SetExecutionPlan [task "identity" "brand" running; task "strategy" "structure" pending]].

(** The API key is missing. *)
Definition envNoKey : Env :=
  {| apiKey := ""; cancelAt := neverCancel; gen := fun _ => Rejected rateLimited;
     http := fun _ => Rejected offline; random := ids |}.

Definition repoUrl : string := "https://api.github.com/repos/Owner/Repo".

(** The generation service is rate limited twice and then answers; the
    hosting service is unavailable once and then reports that there is
    no such repository. *)
Definition envFlaky : Env :=
  {| apiKey := "key"; cancelAt := neverCancel;
     gen := fun k => if (k <? 4)%nat then Rejected rateLimited else reply "# Atelier";
     http := fun k => if (k <? 2)%nat then answer 503 else answer 404; random := ids |}.

(** A Publish run has just started: the overlay is shown and the cancel
    button is armed. *)
Definition publishingWorld : World := snd (publishBegin (worldOf builtState)).

(** Replies of the generation service: a page in a code fence, a text
    that is no JSON, an empty text. *)
Definition fencedReply : GenerateContentResponse :=
  {| text := "```html<p>new</p>```"; parsed := Some exampleObject |}.

Definition proseReply : GenerateContentResponse :=
  {| text := "I am sorry, I cannot help with that."; parsed := None |}.

Definition emptyReply : GenerateContentResponse := {| text := ""; parsed := None |}.

(** The generation service answers with a text that is no JSON. *)
Definition envUnread : Env :=
  {| apiKey := "key"; cancelAt := neverCancel; gen := fun _ => Resolved proseReply;
     http := fun _ => answer 200; random := ids |}.

(** The generation service answers with an empty text. *)
Definition envSilent : Env :=
  {| apiKey := "key"; cancelAt := neverCancel; gen := fun _ => Resolved emptyReply;
     http := fun _ => answer 200; random := ids |}.

(** The tree of a stored site: the homepage, one hub, a style sheet. *)
Definition siteTree : list GitHubFileNode :=
  [ {| nodePath := "docs/index.html"; nodeIsBlob := true; nodeSha := "s0";
       nodeUrl := "https://api.github.com/repos/Owner/Repo/git/blobs/s0" |};
    {| nodePath := "docs/about/index.html"; nodeIsBlob := true; nodeSha := "s1";
       nodeUrl := "https://api.github.com/repos/Owner/Repo/git/blobs/s1" |};
    {| nodePath := "docs/style.css"; nodeIsBlob := true; nodeSha := "s2";
       nodeUrl := "https://api.github.com/repos/Owner/Repo/git/blobs/s2" |} ].

(** A repository whose default branch is [trunk] and that holds the
    homepage and one hub. *)
Definition envStored : Env :=
  {| apiKey := "key"; cancelAt := neverCancel; gen := fun _ => reply "(the object asked for)";
     http := fun _ =>
       Resolved {| resStatus := 200;
                   resBody := Some {| bodyMessage := ""; bodySha := "abc123";
                                      bodyDefaultBranch := "trunk"; bodyTree := siteTree;
                                      bodyContent := "<p>stored</p>" |} |};
     random := ids |}.

(** The user cancels while the third request of the run is pending: in
    a Tune run over two pages, the request for the last one. *)
Definition envCancelLast : Env :=
  {| apiKey := "key"; cancelAt := fun k => (k =? 2)%nat;
     gen := fun _ => reply "```html<p>new</p>```";
     http := fun _ => answer 200; random := ids |}.

(** The signal of the run has been aborted before the call. *)
Definition cancelledWorld : World :=
  {| state := freshState; aborted := true; controller := false; clock := 0; rand := 0;
     log := [] |}.

(** An article that bears the id of a hub, as ids taken from a reply
    of the generation service may. *)
Definition twinArticle : Article :=
  {| articleId := "p1"; articleHubId := "p1"; articleTitle := "note"; articleSlug := "note";
     contentHtml := Some "<p>note</p>"; createdAt := "2024-01-01" |}.

Definition twinState : ProjectState :=
  {| opinion := "technology should extend creativity"; siteType := Personal;
     identity := Some exampleIdentity;
     hubs := [page "p1" "about" "<p>about</p>"]; articles := [twinArticle];
     gtmId := ""; adsenseId := ""; strategyRationale := None; status := ready;
     executionPlan := []; currentDetail := None; githubConfig := exampleConfig |}.

(** * Reasoning about handlers *)

Lemma hoare_conseq {A} (P P' : World -> Prop) (Q Q' : Completion A -> World -> Prop) (m : M A) :
  hoare P' m Q' ->
  (forall w, P w -> P' w) ->
  (forall c w, Q' c w -> Q c w) ->
  hoare P m Q.
Proof. unfold hoare; auto. Qed.

Lemma hoare_ret {A} (P : World -> Prop) (Q : Completion A -> World -> Prop) (a : A) :
  (forall w, P w -> Q (Normal a) w) -> hoare P (ret a) Q.
Proof. unfold hoare, ret; simpl; auto. Qed.

Lemma hoare_throw {A} (P : World -> Prop) (Q : Completion A -> World -> Prop) (e : JsError) :
  (forall w, P w -> Q (Throw e) w) -> hoare P (throw e) Q.
Proof. unfold hoare, throw; simpl; auto. Qed.

Lemma hoare_returnEarly {A} (P : World -> Prop) (Q : Completion A -> World -> Prop) :
  (forall w, P w -> Q Return w) -> hoare P returnEarly Q.
Proof. unfold hoare, returnEarly; simpl; auto. Qed.

Lemma hoare_bind {A B} (P : World -> Prop) (Q1 : Completion A -> World -> Prop)
  (Q : Completion B -> World -> Prop) (m : M A) (f : A -> M B) :
  hoare P m Q1 ->
  (forall a, hoare (Q1 (Normal a)) (f a) Q) ->
  (forall e w, Q1 (Throw e) w -> Q (Throw e) w) ->
  (forall w, Q1 Return w -> Q Return w) ->
  hoare P (bind m f) Q.
Proof.
  unfold hoare, bind; intros Hm Hf He Hr w HP.
  specialize (Hm w HP). destruct (m w) as [[a | e |] w']; simpl in *; auto.
Qed.

Lemma hoare_tryCatch {A} (P : World -> Prop) (Q1 Q : Completion A -> World -> Prop)
  (body : M A) (h : JsError -> M A) :
  hoare P body Q1 ->
  (forall e, hoare (Q1 (Throw e)) (h e) Q) ->
  (forall a w, Q1 (Normal a) w -> Q (Normal a) w) ->
  (forall w, Q1 Return w -> Q Return w) ->
  hoare P (tryCatch body h) Q.
Proof.
  unfold hoare, tryCatch; intros Hm Hh Hn Hr w HP.
  specialize (Hm w HP). destruct (body w) as [[a | e |] w']; simpl in *; auto.
Qed.

Lemma hoare_handler (P : World -> Prop) (Q1 Q : Completion unit -> World -> Prop) (body : M unit) :
  hoare P body Q1 ->
  (forall c w, Q1 c w -> Q (match c with Return => Normal tt | other => other end) w) ->
  hoare P (handler body) Q.
Proof.
  unfold hoare, handler; intros Hm Hq w HP.
  specialize (Hm w HP). specialize (Hq (fst (body w)) (snd (body w)) Hm).
  destruct (body w) as [[a | e |] w']; simpl in *; auto.
Qed.

Lemma preserves_ret {A} (P : World -> Prop) (a : A) : preserves P (ret a).
Proof. apply hoare_ret; auto. Qed.

Lemma preserves_throw {A} (P : World -> Prop) (e : JsError) : preserves P (@throw A e).
Proof. apply hoare_throw; auto. Qed.

Lemma preserves_returnEarly {A} (P : World -> Prop) : preserves P (@returnEarly A).
Proof. apply hoare_returnEarly; auto. Qed.

Lemma preserves_bind {A B} (P : World -> Prop) (m : M A) (f : A -> M B) :
  preserves P m -> (forall a, preserves P (f a)) -> preserves P (bind m f).
Proof.
  intros Hm Hf. unfold preserves.
  eapply hoare_bind; [exact Hm | intro a; apply Hf | auto | auto].
Qed.

Lemma preserves_tryCatch {A} (P : World -> Prop) (body : M A) (h : JsError -> M A) :
  preserves P body -> (forall e, preserves P (h e)) -> preserves P (tryCatch body h).
Proof.
  intros Hm Hh. unfold preserves.
  eapply hoare_tryCatch; [exact Hm | intro e; apply Hh | auto | auto].
Qed.

Lemma preserves_tryFinally {A} (P : World -> Prop) (body : M A) (final : M unit) :
  preserves P body -> preserves P final -> preserves P (tryFinally body final).
Proof.
  unfold preserves, hoare, tryFinally; intros Hb Hf w HP.
  specialize (Hb w HP). destruct (body w) as [c w']; simpl in *.
  specialize (Hf w' Hb). destruct (final w') as [[u | e |] w'']; simpl in *; auto.
Qed.

Lemma preserves_handler (P : World -> Prop) (body : M unit) :
  preserves P body -> preserves P (handler body).
Proof.
  intro Hb. unfold preserves.
  eapply hoare_handler; [exact Hb | auto].
Qed.

Lemma preserves_forAcc {A S} (P : World -> Prop) (body : A -> S -> M S) :
  (forall x acc, preserves P (body x acc)) ->
  forall xs acc, preserves P (forAcc xs acc body).
Proof.
  intros Hb xs; induction xs as [| x rest IH]; intro acc; simpl.
  - apply preserves_ret.
  - apply preserves_bind; [apply Hb | intro acc'; apply IH].
Qed.

Lemma preserves_forEach {A} (P : World -> Prop) (body : A -> M unit) :
  (forall x, preserves P (body x)) ->
  forall xs, preserves P (forEach xs body).
Proof.
  intros Hb xs; induction xs as [| x rest IH]; simpl.
  - apply preserves_ret.
  - apply preserves_bind; [apply Hb | intros _; apply IH].
Qed.

(** A step that only rewrites the world with [g]. *)
Lemma preserves_step {A} (P : World -> Prop) (m : M A) :
  (forall w, P w -> P (snd (m w))) -> preserves P m.
Proof. unfold preserves, hoare; auto. Qed.

(** ** Worlds that differ by suspension points *)

Lemma advance_advance (w : World) (n n' : nat) (l l' : list Entry) :
  advance (advance w n l) n' l' = advance w (n + n') (l ++ l').
Proof.
  unfold advance; simpl. f_equal; [lia | symmetry; apply app_assoc].
Qed.

Lemma tick_record (e : Entry) (w : World) : tick (record e w) = advance w 1 [e].
Proof. unfold tick, record, advance; simpl. f_equal; lia. Qed.

(** * The task ledger *)

Lemma setStatusIn_length (plan : list ExecutionTask) (id : string) (s : TaskStatus) :
  List.length (setStatusIn plan id s) = List.length plan.
Proof. unfold setStatusIn. apply length_map. Qed.

Lemma setStatusIn_ids (plan : list ExecutionTask) (id : string) (s : TaskStatus) :
  map taskId (setStatusIn plan id s) = map taskId plan.
Proof.
  unfold setStatusIn. rewrite map_map. apply map_ext.
  intro t. destruct (String.eqb (taskId t) id); reflexivity.
Qed.

Lemma setStatusIn_absent (plan : list ExecutionTask) (id : string) (s : TaskStatus) :
  (forall t, In t plan -> taskId t <> id) -> setStatusIn plan id s = plan.
Proof.
  induction plan as [| t rest IH]; intro Habs; simpl; [reflexivity |].
  destruct (String.eqb_spec (taskId t) id) as [Heq | Hne].
  - exfalso. apply (Habs t); [left; reflexivity | exact Heq].
  - f_equal. apply IH. intros u Hu. apply Habs. right; exact Hu.
Qed.

Lemma setStatusIn_app (p q : list ExecutionTask) (id : string) (s : TaskStatus) :
  setStatusIn (p ++ q) id s = setStatusIn p id s ++ setStatusIn q id s.
Proof. unfold setStatusIn. apply map_app. Qed.

(** C9, as amended. [setStatus(id, status)] keeps the length of the
    ledger, the identities of its tasks and their order; the task at each
    position is the old one, with only its status replaced when it bears
    the id: every task that bears the id gets the status, however many
    there are, and every other task stays as it is.  With no task of that
    id the ledger is unchanged; with exactly one, exactly that task
    changes.  No other field of the project state changes. *)
Theorem setStatus_frame (plan : list ExecutionTask) (id : string) (s : TaskStatus) :
  List.length (setStatusIn plan id s) = List.length plan
  /\ map taskId (setStatusIn plan id s) = map taskId plan
  /\ (forall k t, nth_error plan k = Some t ->
        nth_error (setStatusIn plan id s) k
        = Some (if String.eqb (taskId t) id then withTaskStatus t s else t))
  /\ (forall u, In u (setStatusIn plan id s) -> taskId u = id -> taskStatus u = s)
  /\ (forall u, In u plan -> taskId u <> id -> In u (setStatusIn plan id s))
  /\ (forall t, taskId (withTaskStatus t s) = taskId t
                /\ label (withTaskStatus t s) = label t
                /\ groupId (withTaskStatus t s) = groupId t
                /\ groupLabel (withTaskStatus t s) = groupLabel t
                /\ taskStatus (withTaskStatus t s) = s)
  /\ ((forall t, In t plan -> taskId t <> id) -> setStatusIn plan id s = plan)
  /\ (forall before t after,
        plan = before ++ t :: after ->
        taskId t = id ->
        (forall u, In u (before ++ after) -> taskId u <> id) ->
        setStatusIn plan id s = before ++ withTaskStatus t s :: after)
  /\ (forall w,
        let st := state w in
        let st' := state (snd (setTaskStatus id s w)) in
        executionPlan st' = setStatusIn (executionPlan st) id s
        /\ status st' = status st /\ currentDetail st' = currentDetail st
        /\ identity st' = identity st /\ hubs st' = hubs st /\ articles st' = articles st
        /\ githubConfig st' = githubConfig st).
Proof.
  split; [apply setStatusIn_length |].
  split; [apply setStatusIn_ids |].
  split.
  { intros k t Hk. unfold setStatusIn. rewrite nth_error_map, Hk. reflexivity. }
  split.
  { intros u Hu Hid. unfold setStatusIn in Hu. apply in_map_iff in Hu.
    destruct Hu as [t [Ht _]]. subst u.
    destruct (String.eqb_spec (taskId t) id) as [He | Hne]; [reflexivity |].
    contradiction. }
  split.
  { intros u Hu Hid. unfold setStatusIn. apply in_map_iff. exists u.
    split; [| exact Hu].
    destruct (String.eqb_spec (taskId u) id) as [He | Hne]; [contradiction | reflexivity]. }
  split; [intro t; repeat split |].
  split; [apply setStatusIn_absent |].
  split.
  { intros before t after Hplan Hid Hothers. subst plan.
    rewrite setStatusIn_app. simpl.
    rewrite (proj2 (String.eqb_eq (taskId t) id) Hid).
    rewrite !setStatusIn_absent; [reflexivity | |].
    - intros u Hu. apply Hothers. apply in_or_app. right; exact Hu.
    - intros u Hu. apply Hothers. apply in_or_app. left; exact Hu. }
  intro w. destruct w as [st ab ctl ck rd lg]. destruct st. simpl. repeat split.
Qed.

(** * The workflow definition table *)

(** C6, as amended.  [resolve] returns the first matching pair in table
    order.  Every status except [tuning_design] lies in the status set of
    at most one step over all the definitions; [tuning_design] lies in both
    steps of the tune definition, and resolves to the first of them. *)
Theorem resolve_first_match (s : PipelineStatus) :
  getCurrentWorkflowInfo s = hd_error (matchingSteps s)
  /\ (if PipelineStatus_eqb s tuning_design
      then map (fun m => (title (fst m), snd m)) (matchingSteps s)
           = [("デザイン調整フロー", 0%nat); ("デザイン調整フロー", 1%nat)]
      else (List.length (matchingSteps s) <= 1)%nat).
Proof.
  destruct s; split; vm_compute; try reflexivity; try lia.
  all: intro H; discriminate H.
Qed.

(** * The retry policies *)

Section RetryPolicy.

Variable env : Env.

Lemma isAborted_advance (signal : option AbortSignal) (w : World) (n : nat) (l : list Entry) :
  isAborted signal (advance w n l) = isAborted signal w.
Proof. destruct signal; reflexivity. Qed.

Lemma suspend_quiet (w : World) :
  cancelAt env (clock w) = false -> suspend env w = (Normal tt, tick w).
Proof. intro H. unfold suspend. rewrite H. reflexivity. Qed.

Lemma sleep_quiet (ms : Q) (w : World) :
  cancelAt env (clock w) = false ->
  sleep env ms w = (Normal tt, advance w 1 [Sleep ms]).
Proof.
  intro H. unfold sleep. rewrite suspend_quiet by exact H.
  rewrite tick_record. reflexivity.
Qed.

Lemma generateContent_quiet (a : Agent) (w : World) :
  cancelAt env (clock w) = false ->
  generateContent env a w
  = match gen env (clock w) with
    | Resolved r => (Normal r, advance w 1 [Generate a])
    | Rejected e => (Throw e, advance w 1 [Generate a])
    end.
Proof.
  intro H. unfold generateContent. rewrite suspend_quiet by exact H.
  rewrite tick_record. reflexivity.
Qed.

Lemma fetch_quiet (m : Method) (url : string) (signal : option AbortSignal) (w : World) :
  cancelAt env (clock w) = false ->
  isAborted signal w = false ->
  fetch env m url signal w
  = match http env (clock w) with
    | Resolved r => (Normal r, advance w 1 [Http m url])
    | Rejected e => (Throw e, advance w 1 [Http m url])
    end.
Proof.
  intros H Hab. unfold fetch. rewrite Hab. rewrite suspend_quiet by exact H.
  rewrite tick_record, isAborted_advance, Hab. reflexivity.
Qed.

Lemma retryLoop_step {T} (operation : M T) (maxRetries : Z) (signal : option AbortSignal)
  (todo : nat) (i : Z) (delay : Q) :
  retryLoop env operation maxRetries signal (S todo) i delay
  = (a <- signalAborted signal ;;
     if a : bool then throw canceled
     else
       tryCatch operation (fun error =>
         a' <- signalAborted signal ;;
         if a' : bool then throw canceled
         else if negb (isRetryable error) || (i =? maxRetries - 1) then throw error
         else
           sleep env delay ;;
           retryLoop env operation maxRetries signal todo (i + 1) (Qred (delay * (3 # 2))))).
Proof. reflexivity. Qed.

(** When every attempt fails with a retryable error and nobody cancels,
    the loop makes all its remaining attempts, waits between them, and
    throws the failure of the last one. *)
Lemma retryLoop_exhausted (a : Agent) (maxRetries : Z) (signal : option AbortSignal) :
  (forall k, cancelAt env k = false) ->
  (forall k, exists e, gen env k = Rejected e /\ isRetryable e = true) ->
  forall (todo : nat) (i : Z) (delay : Q) (w : World),
    isAborted signal w = false ->
    maxRetries = i + Z.of_nat (S todo) ->
    exists e,
      gen env (clock w + 2 * todo) = Rejected e
      /\ retryLoop env (generateContent env a) maxRetries signal (S todo) i delay w
         = (Throw e, advance w (2 * todo + 1) (policyTrace (Generate a) (S todo) delay)).
Proof.
  intros Hquiet Hfail todo.
  induction todo as [| n IH]; intros i delay w Hab Hmax.
  - destruct (Hfail (clock w)) as [e [He Hre]].
    exists e. split; [rewrite Nat.add_0_r; exact He |].
    rewrite retryLoop_step. unfold bind, signalAborted, tryCatch, throw.
    rewrite Hab, generateContent_quiet, He by apply Hquiet.
    rewrite isAborted_advance, Hab, Hre.
    replace (i =? maxRetries - 1) with true by (symmetry; apply Z.eqb_eq; lia).
    reflexivity.
  - destruct (Hfail (clock w)) as [e [He Hre]].
    rewrite retryLoop_step. unfold bind at 1, signalAborted at 1, tryCatch at 1.
    rewrite Hab, generateContent_quiet, He by apply Hquiet.
    unfold bind at 1, signalAborted at 1.
    rewrite isAborted_advance, Hab, Hre.
    replace (i =? maxRetries - 1) with false by (symmetry; apply Z.eqb_neq; lia).
    cbn [negb orb]. unfold bind at 1.
    rewrite sleep_quiet by apply Hquiet.
    rewrite advance_advance.
    destruct (IH (i + 1) (Qred (delay * (3 # 2))) (advance w (1 + 1) ([Generate a] ++ [Sleep delay])))
      as [e' [He' Hrun]].
    + rewrite isAborted_advance. exact Hab.
    + lia.
    + exists e'. split.
      * rewrite <- He'. f_equal. simpl. lia.
      * rewrite Hrun, advance_advance. f_equal. f_equal. lia.
Qed.

Lemma invocations_app (l l' : list Entry) :
  invocations (l ++ l') = (invocations l + invocations l')%nat.
Proof. unfold invocations. rewrite filter_app, length_app. reflexivity. Qed.

Lemma invocations_policyTrace (a : Agent) (n : nat) (delay : Q) :
  invocations (policyTrace (Generate a) n delay) = n.
Proof.
  revert delay. induction n as [| n IH]; intro delay; [reflexivity |].
  destruct n as [| n']; [reflexivity |].
  change (policyTrace (Generate a) (S (S n')) delay)
    with (Generate a :: Sleep delay :: policyTrace (Generate a) (S n') (Qred (delay * (3 # 2)))).
  unfold invocations in *. cbn [filter isGenerate List.length]. rewrite IH. reflexivity.
Qed.

Lemma delayAt_shift (delay : Q) (k : nat) :
  delayAt (Qred (delay * (3 # 2))) k = delayAt delay (S k).
Proof.
  induction k as [| k IH]; [reflexivity |].
  cbn [delayAt] in *. rewrite IH. reflexivity.
Qed.

Lemma waits_policyTrace (req : Entry) (n : nat) (delay : Q) :
  isSleep req = false ->
  forall k, (S k < n)%nat -> nth_error (waits (policyTrace req n delay)) k = Some (delayAt delay k).
Proof.
  intro Hreq.
  assert (Hw : forall l, waits (req :: l) = waits l)
    by (intro l; destruct req; [reflexivity | reflexivity | discriminate Hreq]).
  revert delay.
  induction n as [| n IH]; intros delay k Hk; [lia |].
  destruct n as [| n']; [lia |].
  change (policyTrace req (S (S n')) delay)
    with (req :: Sleep delay :: policyTrace req (S n') (Qred (delay * (3 # 2)))).
  rewrite Hw. cbn [waits].
  destruct k as [| k']; [reflexivity |].
  cbn [nth_error]. rewrite IH by lia. rewrite delayAt_shift. reflexivity.
Qed.

(** The wait grows by the factor 1.5 at every retry, without bound. *)
Lemma delayAt_formula (initialDelay : Q) (k : nat) :
  (delayAt initialDelay k == initialDelay * (3 # 2) ^ Z.of_nat k)%Q.
Proof.
  induction k as [| k IH].
  - simpl. ring.
  - cbn [delayAt]. rewrite Qred_correct, IH.
    rewrite Nat2Z.inj_succ, <- Z.add_1_r.
    rewrite Qpower_plus by (intro H; discriminate H). simpl (_ ^ 1)%Q. ring.
Qed.

(** C3, as amended.  With the API key configured and no cancellation,
    for every [maxRetries = N >= 1] and every behaviour of the retried
    request in which each invocation fails with a retryable error,
    [retryWithBackoff] invokes the request exactly [N] times and then
    throws the failure of the last invocation itself, unchanged; the
    project state is not touched. *)
Theorem retry_exhaustion (a : Agent) (N : Z) (initialDelay : Q)
  (signal : option AbortSignal) (w : World) :
  apiKey env <> "" ->
  1 <= N ->
  (forall k, cancelAt env k = false) ->
  isAborted signal w = false ->
  (forall k, exists e, gen env k = Rejected e /\ isRetryable e = true) ->
  exists e,
    gen env (clock w + 2 * (Z.to_nat N - 1)) = Rejected e
    /\ fst (retryWithBackoff env (generateContent env a) N initialDelay signal w) = Throw e
    /\ invocations (log (snd (retryWithBackoff env (generateContent env a) N initialDelay signal w)))
       = (invocations (log w) + Z.to_nat N)%nat
    /\ state (snd (retryWithBackoff env (generateContent env a) N initialDelay signal w))
       = state w.
Proof.
  intros Hkey HN Hquiet Hab Hfail.
  unfold retryWithBackoff.
  destruct (String.eqb_spec (apiKey env) "") as [Hk | _]; [contradiction |].
  destruct (Z.to_nat N) as [| todo] eqn:Htodo; [lia |].
  destruct (retryLoop_exhausted a N signal Hquiet Hfail todo 0 initialDelay w Hab)
    as [e [He Hrun]]; [lia |].
  exists e. rewrite Hrun. cbn [fst snd].
  split; [rewrite <- He; f_equal; lia |].
  split; [reflexivity |].
  split; [| reflexivity].
  unfold advance; cbn [log]. rewrite invocations_app, invocations_policyTrace. reflexivity.
Qed.

(** C5, as amended.  With the API key configured and at least one
    attempt allowed: a signal already aborted makes [retryWithBackoff]
    throw the [AbortError] without invoking the operation (the world is
    unchanged); a signal found aborted after a failed attempt makes it
    throw the [AbortError] at once, in the world the attempt left (no
    wait, no further invocation), whatever the error was and in every
    iteration of the loop, the last one included. *)
Theorem cancellation_preempts_retry {T} (operation : M T) (N : Z) (initialDelay : Q)
  (w : World) :
  apiKey env <> "" ->
  1 <= N ->
  (aborted w = true ->
   retryWithBackoff env operation N initialDelay (Some theSignal) w = (Throw canceled, w))
  /\ (forall e w',
        aborted w = false -> operation w = (Throw e, w') -> aborted w' = true ->
        retryWithBackoff env operation N initialDelay (Some theSignal) w = (Throw canceled, w'))
  /\ (forall todo i delay e w',
        aborted w = false -> operation w = (Throw e, w') -> aborted w' = true ->
        retryLoop env operation N (Some theSignal) (S todo) i delay w = (Throw canceled, w')).
Proof.
  intros Hkey HN.
  assert (Hloop : forall todo i delay e w',
             aborted w = false -> operation w = (Throw e, w') -> aborted w' = true ->
             retryLoop env operation N (Some theSignal) (S todo) i delay w = (Throw canceled, w')).
  { intros todo i delay e w' Hab Hop Hab'.
    rewrite retryLoop_step. unfold bind, signalAborted, tryCatch, throw, isAborted.
    rewrite Hab, Hop, Hab'. reflexivity. }
  unfold retryWithBackoff.
  destruct (String.eqb_spec (apiKey env) "") as [Hk | _]; [contradiction |].
  destruct (Z.to_nat N) as [| todo] eqn:Htodo; [lia |].
  split; [| split].
  - intro Hab. rewrite retryLoop_step. unfold bind, signalAborted, throw, isAborted.
    rewrite Hab. reflexivity.
  - intros e w'. apply Hloop.
  - exact Hloop.
Qed.

Lemma fetchLoop_step (url : string) (m : Method) (retries : Z) (signal : option AbortSignal)
  (todo : nat) (i : Z) (lastError : option JsError) :
  fetchLoop env url m retries signal (S todo) i lastError
  = (a <- signalAborted signal ;;
     if a : bool then throw (abortError "Aborted")
     else
       tryCatch
         (res <- fetch env m url signal ;;
          if (resStatus res =? 429) || (resStatus res >=? 500)
          then throw (httpError (resStatus res))
          else ret res)
         (fun e =>
            if isAbortError e then throw e
            else
              (if i <? retries - 1 then sleep env (inject_Z (1000 * 2 ^ i)) else ret tt) ;;
              fetchLoop env url m retries signal todo (i + 1) (Some e))).
Proof. reflexivity. Qed.

(** One iteration of [fetchWithRetry] whose request is rejected. *)
Lemma fetchLoop_rejected (url : string) (m : Method) (retries : Z) (signal : option AbortSignal)
  (todo : nat) (i : Z) (lastError : option JsError) (w : World) (e : JsError) :
  (forall k, cancelAt env k = false) ->
  isAborted signal w = false ->
  http env (clock w) = Rejected e ->
  isAbortError e = false ->
  fetchLoop env url m retries signal (S todo) i lastError w
  = fetchLoop env url m retries signal todo (i + 1) (Some e)
      (if i <? retries - 1
       then advance w 2 [Http m url; Sleep (inject_Z (1000 * 2 ^ i))]
       else advance w 1 [Http m url]).
Proof.
  intros Hquiet Hab He Hne.
  rewrite fetchLoop_step. unfold bind at 1, signalAborted at 1.
  rewrite Hab. unfold tryCatch, bind at 1.
  rewrite fetch_quiet, He, Hne by (apply Hquiet || exact Hab).
  unfold bind. destruct (i <? retries - 1).
  - rewrite sleep_quiet by apply Hquiet. rewrite advance_advance. reflexivity.
  - reflexivity.
Qed.

(** When the transport fails at every attempt and nobody cancels,
    [fetchWithRetry] makes three requests, waiting 1000 ms and then
    2000 ms between them, and throws. *)
Lemma fetchWithRetry_exhausted (url : string) (m : Method) (signal : option AbortSignal)
  (w : World) :
  (forall k, cancelAt env k = false) ->
  (forall k, exists e, http env k = Rejected e /\ isAbortError e = false) ->
  isAborted signal w = false ->
  exists e,
    fetchWithRetry env url m 3 signal w
    = (Throw e, advance w 5 (hostingTrace (Http m url))).
Proof.
  intros Hquiet Hfail Hab. unfold fetchWithRetry.
  change (Z.to_nat 3) with 3%nat.
  destruct (Hfail (clock w)) as [e1 [He1 Hn1]].
  rewrite (fetchLoop_rejected url m 3 signal 2 0 None w e1 Hquiet Hab He1 Hn1).
  change (0 <? 3 - 1) with true. cbv iota.
  set (w1 := advance w 2 _).
  destruct (Hfail (clock w1)) as [e2 [He2 Hn2]].
  rewrite (fetchLoop_rejected url m 3 signal 1 (0 + 1) (Some e1) w1 e2 Hquiet
             (eq_trans (isAborted_advance signal w _ _) Hab) He2 Hn2).
  change (0 + 1 <? 3 - 1) with true. cbv iota.
  set (w2 := advance w1 2 _).
  destruct (Hfail (clock w2)) as [e3 [He3 Hn3]].
  assert (Hab2 : isAborted signal w2 = false).
  { unfold w2, w1. rewrite !isAborted_advance. exact Hab. }
  rewrite (fetchLoop_rejected url m 3 signal 0 (0 + 1 + 1) (Some e2) w2 e3 Hquiet Hab2 He3 Hn3).
  change (0 + 1 + 1 <? 3 - 1) with false. cbv iota.
  unfold w2, w1. rewrite !advance_advance.
  cbn [fetchLoop].
  destruct (String.eqb (name e3) "TypeError" || messageIncludes e3 "Failed to fetch");
    eexists; reflexivity.
Qed.

Lemma retryWithBackoff_exhausted (a : Agent) (N : Z) (initialDelay : Q)
  (signal : option AbortSignal) (w : World) :
  apiKey env <> "" ->
  1 <= N ->
  (forall k, cancelAt env k = false) ->
  isAborted signal w = false ->
  (forall k, exists e, gen env k = Rejected e /\ isRetryable e = true) ->
  exists e,
    retryWithBackoff env (generateContent env a) N initialDelay signal w
    = (Throw e, advance w (2 * (Z.to_nat N - 1) + 1)
                  (policyTrace (Generate a) (Z.to_nat N) initialDelay)).
Proof.
  intros Hkey HN Hquiet Hab Hfail.
  unfold retryWithBackoff.
  destruct (String.eqb_spec (apiKey env) "") as [Hk | _]; [contradiction |].
  destruct (Z.to_nat N) as [| todo] eqn:Htodo; [lia |].
  destruct (retryLoop_exhausted a N signal Hquiet Hfail todo 0 initialDelay w Hab)
    as [e [_ Hrun]]; [lia |].
  exists e. rewrite Hrun. do 2 f_equal. lia.
Qed.

Lemma bind_throws {A B} (m : M A) (f : A -> M B) (w w' : World) :
  (exists e, m w = (Throw e, w')) -> exists e, bind m f w = (Throw e, w').
Proof. intros [e He]. exists e. unfold bind. rewrite He. reflexivity. Qed.

Lemma throws_log {A} (m : M A) (w : World) (n : nat) (l : list Entry) :
  (exists e, m w = (Throw e, advance w n l)) -> log (snd (m w)) = log w ++ l.
Proof. intros [e He]. rewrite He. reflexivity. Qed.

Lemma isAborted_withState (signal : option AbortSignal) (f : ProjectState -> ProjectState)
  (w : World) :
  isAborted signal (withState f w) = isAborted signal w.
Proof. destruct signal; reflexivity. Qed.

(** C4, as amended.  A call of the generation service goes through
    [retryWithBackoff], whose waits start at the initial delay and grow
    by the factor 1.5 at each retry, without a cap; every agent passes 5
    attempts and 2000 ms.  A call of the hosting service goes through
    [fetchWithRetry] with 3 attempts and waits of 1000 ms, then 2000 ms.
    The traces are those of runs in which every attempt fails and is
    retried. *)
Theorem retry_policies (w : World) (signal : option AbortSignal) :
  apiKey env <> "" ->
  (forall k, cancelAt env k = false) ->
  isAborted signal w = false ->
  (forall k, exists e, gen env k = Rejected e /\ isRetryable e = true) ->
  (forall k, exists e, http env k = Rejected e /\ isAbortError e = false) ->
  (forall a N initialDelay,
      1 <= N ->
      log (snd (retryWithBackoff env (generateContent env a) N initialDelay signal w))
      = log w ++ policyTrace (Generate a) (Z.to_nat N) initialDelay
      /\ forall k, (S k < Z.to_nat N)%nat ->
           nth_error (waits (policyTrace (Generate a) (Z.to_nat N) initialDelay)) k
           = Some (delayAt initialDelay k)
           /\ (delayAt initialDelay k == initialDelay * (3 # 2) ^ Z.of_nat k)%Q)
  /\ log (snd (generateIdentityAgent env signal w))
     = log w ++ defaultPolicyTrace (Generate IdentityAgent)
  /\ log (snd (analyzeSiteIdentityAgent env signal w))
     = log w ++ defaultPolicyTrace (Generate SiteIdentityAgent)
  /\ log (snd (analyzeRepoStructureAgent env signal w))
     = log w ++ defaultPolicyTrace (Generate RepoStructureAgent)
  /\ log (snd (generateStrategyAgent env signal w))
     = log w ++ defaultPolicyTrace (Generate StrategyAgent)
  /\ (forall identity, siteName identity <> None ->
        log (snd (generateHtmlAgent env identity signal w))
        = log w ++ defaultPolicyTrace (Generate HtmlAgent))
  /\ log (snd (generateTunePlanAgent env signal w))
     = log w ++ defaultPolicyTrace (Generate TunePlanAgent)
  /\ (forall currentHtml,
        log (snd (tunePageDesignAgent env currentHtml signal w))
        = log w ++ defaultPolicyTrace (Generate TunePageAgent))
  /\ (forall identity,
        log (snd (generateReadmeAgent env (Some identity) signal w))
        = log w ++ defaultPolicyTrace (Generate ReadmeAgent))
  /\ (forall url m,
        log (snd (fetchWithRetry env url m 3 signal w)) = log w ++ hostingTrace (Http m url))
  /\ (forall config,
        Js.includes (cleanRepo (repo config)) "/" = true ->
        log (snd (fetchRepoDetails env config signal w))
        = log w ++ hostingTrace
                     (Http GET ("https://api.github.com/repos/" ++ cleanRepo (repo config))%string))
  /\ (forall config,
        token config <> "" -> Js.lastSegment (cleanRepo (repo config)) <> "" ->
        log (snd (createRepository env config signal w))
        = log w ++ hostingTrace (Http POST createRepoUrl))
  /\ (forall config,
        log (snd (enablePages env config signal w))
        = log w ++ hostingTrace
                     (Http POST ("https://api.github.com/repos/" ++ cleanRepo (repo config)
                                   ++ "/pages")%string))
  /\ (forall config,
        log (snd (fetchRepoStructure env config signal w))
        = log w ++ hostingTrace
                     (Http GET ("https://api.github.com/repos/" ++ cleanRepo (repo config)
                                  ++ "/git/trees/" ++ branch config ++ "?recursive=1")%string))
  /\ (forall url,
        log (snd (fetchFileContent env url signal w)) = log w ++ hostingTrace (Http GET url))
  /\ (forall config file detail,
        log (snd (publishFile env config signal
                    (fun p => updateState [SetCurrentDetail (detail p)]) file w))
        = log w
          ++ hostingTrace (Http GET (contentsUrl config ++ "/" ++ filePath file ++ "?ref="
                                       ++ branch config)%string)
          ++ hostingTrace (Http PUT (contentsUrl config ++ "/" ++ filePath file)%string)).
Proof.
  intros Hkey Hquiet Hab Hgen Hhttp.
  assert (Hdefault : forall a,
             exists e, retryWithBackoff env (generateContent env a) 5 2000 signal w
                       = (Throw e, advance w 9 (defaultPolicyTrace (Generate a)))).
  { intro a.
    destruct (retryWithBackoff_exhausted a 5 2000 signal w Hkey ltac:(lia) Hquiet Hab Hgen)
      as [e He].
    exists e. rewrite He. reflexivity. }
  assert (Hhost : forall url m,
             exists e, fetchWithRetry env url m 3 signal w
                       = (Throw e, advance w 5 (hostingTrace (Http m url)))).
  { intros url m. apply fetchWithRetry_exhausted; assumption. }
  split.
  { intros a N d HN. split.
    - eapply throws_log. apply retryWithBackoff_exhausted; assumption.
    - intros k Hk. split; [apply waits_policyTrace; [reflexivity | exact Hk] |].
      apply delayAt_formula. }
  split; [eapply throws_log; apply bind_throws; apply Hdefault |].
  split; [eapply throws_log; apply bind_throws; apply Hdefault |].
  split; [eapply throws_log; apply bind_throws; apply Hdefault |].
  split; [eapply throws_log; apply bind_throws; apply Hdefault |].
  split.
  { intros identity Hname. unfold generateHtmlAgent.
    destruct (siteName identity); [| contradiction].
    eapply throws_log; apply bind_throws; apply Hdefault. }
  split; [eapply throws_log; apply bind_throws; apply Hdefault |].
  split; [intro currentHtml; eapply throws_log; apply bind_throws; apply Hdefault |].
  split; [intro identity; eapply throws_log; apply bind_throws; apply Hdefault |].
  split; [intros url m; eapply throws_log; apply Hhost |].
  split.
  { intros config Hslash. unfold fetchRepoDetails. rewrite Hslash. cbn [negb].
    eapply throws_log; apply bind_throws; apply Hhost. }
  split.
  { intros config Htoken Hname. unfold createRepository.
    destruct (String.eqb_spec (token config) "") as [Ht | _]; [contradiction |].
    destruct (String.eqb_spec (Js.lastSegment (cleanRepo (repo config))) "") as [Hn | _];
      [contradiction |].
    cbn [orb]. eapply throws_log; apply bind_throws; apply Hhost. }
  split; [intro config; eapply throws_log; apply bind_throws; apply Hhost |].
  split; [intro config; eapply throws_log; apply bind_throws; apply Hhost |].
  split; [intro url; eapply throws_log; apply bind_throws; apply Hhost |].
  intros config file detail.
  unfold publishFile. unfold bind at 1, signalAborted at 1. rewrite Hab.
  unfold bind at 1, updateState at 1.
  set (w1 := withState _ w).
  assert (Hab1 : isAborted signal w1 = false)
    by (unfold w1; rewrite isAborted_withState; exact Hab).
  destruct (fetchWithRetry_exhausted
              (contentsUrl config ++ "/" ++ filePath file ++ "?ref=" ++ branch config)%string
              GET signal w1 Hquiet Hhttp Hab1) as [e1 He1].
  unfold bind at 1, tryCatch at 1, bind at 1. rewrite He1. unfold ret at 1.
  set (w2 := advance w1 5 _).
  assert (Hab2 : isAborted signal w2 = false)
    by (unfold w2; rewrite isAborted_advance; exact Hab1).
  destruct (fetchWithRetry_exhausted (contentsUrl config ++ "/" ++ filePath file)%string
              PUT signal w2 Hquiet Hhttp Hab2) as [e2 He2].
  unfold bind. rewrite He2. cbn [snd]. unfold w2, w1. cbn [advance log withState].
  rewrite <- app_assoc. reflexivity.
Qed.

End RetryPolicy.

(** * Invariants of the services

    A property [P] of the world that ignores the clock, the signal and
    the random source, survives the cancel handler's update and survives
    the recording of the entries in [ok], survives every service call that
    records only such entries. *)

Create HintDb preserve.

Ltac preserve :=
  repeat match goal with
    | |- _ => assumption
    | |- preserves _ (ret _) => apply preserves_ret
    | |- preserves _ (throw _) => apply preserves_throw
    | |- preserves _ returnEarly => apply preserves_returnEarly
    | |- preserves _ (bind _ _) => apply preserves_bind; [| intro]
    | |- preserves _ (tryCatch _ _) => apply preserves_tryCatch; [| intro]
    | |- preserves _ (if ?b then _ else _) => destruct b
    | |- preserves _ (match ?x with _ => _ end) => destruct x
    | |- _ => solve [eauto with preserve]
    end.

Section Invariant.

Variable env : Env.
Variable P : World -> Prop.
Variable ok : Entry -> Prop.

Hypothesis Hother :
  forall w w', state w' = state w -> log w' = log w -> P w -> P w'.
Hypothesis Hrest :
  forall w s, P w -> P (withState (fun prev => merge prev (restingUpdate s)) w).
Hypothesis Hrecord : forall w e, ok e -> P w -> P (record e w).
Hypothesis Hsleep : forall ms, ok (Sleep ms).
Hypothesis Hgen : forall a, ok (Generate a).

Lemma inv_signalAborted (signal : option AbortSignal) : preserves P (signalAborted signal).
Proof. apply preserves_step. intros w H. exact H. Qed.

Lemma inv_randomId : preserves P (randomId env).
Proof. apply preserves_step. intros w H. apply (Hother w); [reflexivity | reflexivity | exact H]. Qed.

Lemma inv_startTask : preserves P startTask.
Proof. apply preserves_step. intros w H. apply (Hother w); [reflexivity | reflexivity | exact H]. Qed.

Lemma inv_handleAbort : preserves P handleAbort.
Proof.
  apply preserves_step. intros w H. unfold handleAbort, updateState. cbn [snd].
  apply (Hrest (abortController w)).
  apply (Hother w); [| | exact H]; unfold abortController; destruct (controller w); reflexivity.
Qed.

Lemma inv_suspend : preserves P (suspend env).
Proof.
  apply preserves_step. intros w H. unfold suspend.
  destruct (cancelAt env (clock w) && overlayShown (state w)).
  - apply inv_handleAbort. apply (Hother w); [reflexivity | reflexivity | exact H].
  - apply (Hother w); [reflexivity | reflexivity | exact H].
Qed.

Lemma inv_sleep (ms : Q) : preserves P (sleep env ms).
Proof.
  apply preserves_step. intros w H. unfold sleep.
  apply inv_suspend. apply Hrecord; [apply Hsleep | exact H].
Qed.

Lemma inv_generateContent (a : Agent) : preserves P (generateContent env a).
Proof.
  apply preserves_step. intros w H. unfold generateContent.
  pose proof (inv_suspend (record (Generate a) w) (Hrecord w _ (Hgen a) H)) as Hs.
  destruct (suspend env (record (Generate a) w)) as [c w'].
  destruct (gen env (clock w)); exact Hs.
Qed.

Lemma inv_fetch (m : Method) (url : string) (signal : option AbortSignal) :
  ok (Http m url) -> preserves P (fetch env m url signal).
Proof.
  intro Hok. apply preserves_step. intros w H. unfold fetch.
  destruct (isAborted signal w); [exact H |].
  pose proof (inv_suspend (record (Http m url) w) (Hrecord w _ Hok H)) as Hs.
  destruct (suspend env (record (Http m url) w)) as [c w'].
  destruct (isAborted signal w'); [exact Hs |].
  destruct (http env (clock w)); exact Hs.
Qed.

#[local] Hint Resolve inv_signalAborted inv_randomId inv_startTask inv_suspend inv_sleep
  inv_generateContent inv_fetch : preserve.

Lemma inv_retryLoop {T} (operation : M T) (maxRetries : Z) (signal : option AbortSignal) :
  preserves P operation ->
  forall todo i delay, preserves P (retryLoop env operation maxRetries signal todo i delay).
Proof.
  intros Hop todo. induction todo as [| n IH]; intros i delay.
  - apply preserves_throw.
  - rewrite retryLoop_step. preserve.
Qed.

Lemma inv_retryWithBackoff {T} (operation : M T) (maxRetries : Z) (initialDelay : Q)
  (signal : option AbortSignal) :
  preserves P operation ->
  preserves P (retryWithBackoff env operation maxRetries initialDelay signal).
Proof.
  intro Hop. unfold retryWithBackoff.
  destruct (String.eqb (apiKey env) ""); [apply preserves_throw | apply inv_retryLoop; exact Hop].
Qed.

Lemma inv_parseJson (r : GenerateContentResponse) : preserves P (parseJson r).
Proof. unfold parseJson. preserve. Qed.

#[local] Hint Resolve inv_retryWithBackoff inv_parseJson : preserve.

Lemma inv_generateIdentityAgent (signal : option AbortSignal) :
  preserves P (generateIdentityAgent env signal).
Proof. unfold generateIdentityAgent. preserve. Qed.

Lemma inv_analyzeSiteIdentityAgent (signal : option AbortSignal) :
  preserves P (analyzeSiteIdentityAgent env signal).
Proof. unfold analyzeSiteIdentityAgent. preserve. Qed.

Lemma inv_analyzeRepoStructureAgent (signal : option AbortSignal) :
  preserves P (analyzeRepoStructureAgent env signal).
Proof. unfold analyzeRepoStructureAgent. preserve. Qed.

Lemma inv_assignIds (ds : list HubPage) : preserves P (assignIds env ds).
Proof. induction ds as [| d rest IH]; simpl; preserve. Qed.

#[local] Hint Resolve inv_assignIds : preserve.

Lemma inv_generateStrategyAgent (signal : option AbortSignal) :
  preserves P (generateStrategyAgent env signal).
Proof. unfold generateStrategyAgent. preserve. Qed.

Lemma inv_generateHtmlAgent (identity : Identity) (signal : option AbortSignal) :
  preserves P (generateHtmlAgent env identity signal).
Proof. unfold generateHtmlAgent. preserve. Qed.

Lemma inv_generateTunePlanAgent (signal : option AbortSignal) :
  preserves P (generateTunePlanAgent env signal).
Proof. unfold generateTunePlanAgent. preserve. Qed.

Lemma inv_tunePageDesignAgent (currentHtml : string) (signal : option AbortSignal) :
  preserves P (tunePageDesignAgent env currentHtml signal).
Proof. unfold tunePageDesignAgent. preserve. Qed.

Lemma inv_generateReadmeAgent (identity : option Identity) (signal : option AbortSignal) :
  preserves P (generateReadmeAgent env identity signal).
Proof.
  unfold generateReadmeAgent.
  apply preserves_bind; [apply inv_retryWithBackoff; destruct identity; preserve | intro; preserve].
Qed.

Lemma inv_json (res : Response) : preserves P (json res).
Proof. unfold json. preserve. Qed.

#[local] Hint Resolve inv_json : preserve.

Lemma inv_fetchLoop (url : string) (m : Method) (retries : Z) (signal : option AbortSignal) :
  ok (Http m url) ->
  forall todo i lastError,
    preserves P (fetchLoop env url m retries signal todo i lastError).
Proof.
  intros Hok todo. induction todo as [| n IH]; intros i lastError.
  - cbn [fetchLoop]. preserve.
  - rewrite fetchLoop_step. preserve.
Qed.

Lemma inv_fetchWithRetry (url : string) (m : Method) (retries : Z)
  (signal : option AbortSignal) :
  ok (Http m url) -> preserves P (fetchWithRetry env url m retries signal).
Proof. intro Hok. unfold fetchWithRetry. apply inv_fetchLoop. exact Hok. Qed.

#[local] Hint Resolve inv_fetchWithRetry : preserve.

Lemma inv_createRepository (config : GitHubConfig) (signal : option AbortSignal) :
  ok (Http POST createRepoUrl) -> preserves P (createRepository env config signal).
Proof. intro Hok. unfold createRepository. preserve. Qed.

Lemma inv_enablePages (config : GitHubConfig) (signal : option AbortSignal) :
  (forall url, ok (Http POST ("https://api.github.com/repos/" ++ url)%string)) ->
  preserves P (enablePages env config signal).
Proof. intro Hok. unfold enablePages. preserve. Qed.

Lemma inv_fetchRepoDetails (config : GitHubConfig) (signal : option AbortSignal) :
  (forall url, ok (Http GET url)) -> preserves P (fetchRepoDetails env config signal).
Proof. intro Hok. unfold fetchRepoDetails. preserve. Qed.

Lemma inv_fetchRepoStructure (config : GitHubConfig) (signal : option AbortSignal) :
  (forall url, ok (Http GET url)) -> preserves P (fetchRepoStructure env config signal).
Proof. intro Hok. unfold fetchRepoStructure. preserve. Qed.

Lemma inv_fetchFileContent (url : string) (signal : option AbortSignal) :
  (forall u, ok (Http GET u)) -> preserves P (fetchFileContent env url signal).
Proof. intro Hok. unfold fetchFileContent. preserve. Qed.

Lemma inv_publishFile (config : GitHubConfig) (signal : option AbortSignal)
  (onProgress : string -> M unit) (file : File) :
  (forall url, ok (Http GET url)) ->
  (forall url, ok (Http PUT url)) ->
  (forall p, preserves P (onProgress p)) ->
  preserves P (publishFile env config signal onProgress file).
Proof. intros Hget Hput Hprog. unfold publishFile. preserve. Qed.

Lemma inv_publishToGithub (config : GitHubConfig) (hs : list HubPage) (ars : list Article)
  (readme : string) (signal : option AbortSignal) (onProgress : string -> M unit) :
  (forall url, ok (Http GET url)) ->
  (forall url, ok (Http PUT url)) ->
  (forall p, preserves P (onProgress p)) ->
  preserves P (publishToGithub env config hs ars readme signal onProgress).
Proof.
  intros Hget Hput Hprog. unfold publishToGithub.
  apply preserves_forEach. intro file. apply inv_publishFile; assumption.
Qed.

End Invariant.

(** * The Tune pipeline *)

Lemma hoare_bind_preserves {A B} (P : World -> Prop) (Q : Completion B -> World -> Prop)
  (m : M A) (f : A -> M B) :
  preserves P m ->
  (forall a, hoare P (f a) Q) ->
  (forall e w, P w -> Q (Throw e) w) ->
  (forall w, P w -> Q Return w) ->
  hoare P (bind m f) Q.
Proof.
  intros Hm Hf He Hr. eapply hoare_bind; [exact Hm | exact Hf | exact He | exact Hr].
Qed.

Lemma merge_keepsContent (us : list Assign) :
  forallb keepsContent us = true ->
  forall st, hubs (merge st us) = hubs st /\ articles (merge st us) = articles st.
Proof.
  unfold merge. induction us as [| a rest IH]; intros Hsafe st; [split; reflexivity |].
  simpl in Hsafe. apply andb_prop in Hsafe. destruct Hsafe as [Ha Hrest].
  simpl fold_left. destruct (IH Hrest (assign st a)) as [Hh Har].
  rewrite Hh, Har. destruct st; destruct a; try discriminate Ha; split; reflexivity.
Qed.

Section Tune.

Variable env : Env.
Variable h0 : list HubPage.
Variable a0 : list Article.

Lemma content_other (w w' : World) :
  state w' = state w -> log w' = log w -> contentIs h0 a0 w -> contentIs h0 a0 w'.
Proof. unfold contentIs. intros Hs _ H. rewrite Hs. exact H. Qed.

Lemma content_update (us : list Assign) (w : World) :
  forallb keepsContent us = true ->
  contentIs h0 a0 w -> contentIs h0 a0 (withState (fun prev => merge prev us) w).
Proof.
  unfold contentIs. intros Hsafe [Hh Ha]. simpl.
  destruct (merge_keepsContent us Hsafe (state w)) as [Hh' Ha'].
  rewrite Hh', Ha'. split; assumption.
Qed.

Lemma content_rest (w : World) (s : PipelineStatus) :
  contentIs h0 a0 w -> contentIs h0 a0 (withState (fun prev => merge prev (restingUpdate s)) w).
Proof. apply content_update. reflexivity. Qed.

Lemma content_record (w : World) (e : Entry) :
  True -> contentIs h0 a0 w -> contentIs h0 a0 (record e w).
Proof. intros _ H. exact H. Qed.

Lemma content_updateState (us : list Assign) :
  forallb keepsContent us = true -> preserves (contentIs h0 a0) (updateState us).
Proof. intro Hsafe. apply preserves_step. intros w H. apply content_update; assumption. Qed.

Lemma content_setTaskStatus (id : string) (s : TaskStatus) :
  preserves (contentIs h0 a0) (setTaskStatus id s).
Proof.
  apply preserves_step. intros w H. unfold setTaskStatus. cbn [snd].
  unfold contentIs in *. destruct w as [st ab ctl ck rd lg]. destruct st. exact H.
Qed.

Lemma content_generateTunePlanAgent (signal : option AbortSignal) :
  preserves (contentIs h0 a0) (generateTunePlanAgent env signal).
Proof.
  apply inv_generateTunePlanAgent with (ok := fun _ => True);
    first [exact content_other | exact content_rest | exact content_record | intros; exact I].
Qed.

Lemma content_tunePageDesignAgent (currentHtml : string) (signal : option AbortSignal) :
  preserves (contentIs h0 a0) (tunePageDesignAgent env currentHtml signal).
Proof.
  apply inv_tunePageDesignAgent with (ok := fun _ => True);
    first [exact content_other | exact content_rest | exact content_record | intros; exact I].
Qed.

#[local] Hint Resolve content_setTaskStatus content_generateTunePlanAgent
  content_tunePageDesignAgent inv_signalAborted : preserve.

Lemma content_tuneTarget (signal : AbortSignal) (t : Target)
  (updated : list HubPage * list Article) :
  preserves (contentIs h0 a0) (tuneTarget env signal t updated).
Proof.
  unfold tuneTarget. preserve.
  apply content_updateState. reflexivity.
Qed.

(** Until its last statement the [try] block of the Tune pipeline leaves
    the pages of the live state alone. *)
Lemma tuneTry_content (state0 : ProjectState) (target : string) (signal : AbortSignal) :
  hoare (contentIs h0 a0) (tuneTry env state0 target signal)
    (fun c w => match c with Normal _ => True | _ => contentIs h0 a0 w end).
Proof.
  unfold tuneTry.
  apply hoare_bind_preserves; [preserve | intro tunePlan | auto | auto].
  apply hoare_bind_preserves; [preserve | intros _ | auto | auto].
  apply hoare_bind_preserves; [apply content_updateState; reflexivity | intros _ | auto | auto].
  apply hoare_bind_preserves;
    [apply preserves_forAcc; intros; apply content_tuneTarget | intro updated | auto | auto].
  intros w _. exact I.
Qed.

End Tune.

Lemma tuneBegin_normal (w : World) : tuneBegin w = (Normal theSignal, snd (tuneBegin w)).
Proof. reflexivity. Qed.

(** Whatever the [try] block does, the [finally] clause has the last
    word on the ledger, the detail and the status. *)
Lemma handleTuneDesign_final (env : Env) (instruction target : string) (w : World) :
  identity (state w) <> None ->
  instruction <> "" ->
  snd (handleTuneDesign env instruction target w)
  = withState (fun prev => merge prev (restingUpdate ready))
      (snd (tuneTry env (state w) target theSignal (snd (tuneBegin w)))).
Proof.
  intros Hid Hins. unfold handleTuneDesign.
  destruct (identity (state w)) as [i |]; [| contradiction].
  destruct (String.eqb_spec instruction "") as [He | _]; [contradiction |].
  pose proof (tuneBegin_normal w) as Hbegin.
  set (w1 := snd (tuneBegin w)) in *.
  unfold handler, bind. rewrite Hbegin.
  unfold tryFinally, tryCatch.
  destruct (tuneTry env (state w) target theSignal w1) as [[u | e |] w2];
    try reflexivity.
  unfold tuneCatch. destruct (isAbortError e); reflexivity.
Qed.

Lemma handleTuneDesign_rests (env : Env) (instruction target : string) (w : World) :
  identity (state w) <> None ->
  instruction <> "" ->
  restsIn ready (state (snd (handleTuneDesign env instruction target w))).
Proof.
  intros Hid Hins. rewrite handleTuneDesign_final by assumption.
  cbn [state withState].
  destruct (state (snd (tuneTry env (state w) target theSignal (snd (tuneBegin w))))).
  repeat split.
Qed.

(** * The repository name *)

Lemma string_of_list_ascii_app (l1 l2 : list ascii) :
  string_of_list_ascii (l1 ++ l2)
  = (string_of_list_ascii l1 ++ string_of_list_ascii l2)%string.
Proof. induction l1 as [| c l IH]; simpl; [reflexivity | rewrite IH; reflexivity]. Qed.

Lemma dropWhile_head (p : ascii -> bool) (s : string) :
  Js.dropWhile p s = "" \/ exists c rest, Js.dropWhile p s = String c rest /\ p c = false.
Proof.
  induction s as [| c rest IH]; simpl; [left; reflexivity |].
  destruct (p c) eqn:Hp; [exact IH |].
  right. exists c, rest. split; [reflexivity | exact Hp].
Qed.

Lemma dropWhileEnd_end (s : string) :
  Js.dropWhileEnd Js.isSlash s = "" \/ endsClean (Js.dropWhileEnd Js.isSlash s).
Proof.
  unfold Js.dropWhileEnd.
  destruct (dropWhile_head Js.isSlash (Js.rev s)) as [He | [c [rest [He Hc]]]]; rewrite He.
  - left. reflexivity.
  - right. unfold Js.rev. simpl list_ascii_of_string. simpl List.rev.
    rewrite string_of_list_ascii_app. simpl.
    exists (string_of_list_ascii (List.rev (list_ascii_of_string rest))), c.
    split; [reflexivity | exact Hc].
Qed.

Lemma endsClean_tail (x : ascii) (rest : string) :
  endsClean (String x rest) ->
  (rest = "" /\ Js.isSlash x = false) \/ endsClean rest.
Proof.
  intros [front [c [Heq Hc]]]. destruct front as [| y front'].
  - simpl in Heq. injection Heq as Hx Hrest. subst. left. split; [reflexivity | exact Hc].
  - simpl in Heq. injection Heq as Hx Hrest. right. exists front', c.
    split; [exact Hrest | exact Hc].
Qed.

Lemma endsClean_nonempty (s : string) : endsClean s -> s <> "".
Proof.
  intros [front [c [Heq _]]] He. subst s. destruct front; discriminate He.
Qed.

Lemma lastSegmentFrom_nonempty (s : string) :
  forall acc, s = "" \/ endsClean s -> acc <> "" -> Js.lastSegmentFrom acc s <> "".
Proof.
  induction s as [| x rest IH]; intros acc Hs Hacc; simpl; [exact Hacc |].
  destruct Hs as [Hs | Hs]; [discriminate Hs |].
  destruct (endsClean_tail x rest Hs) as [[Hrest Hx] | Hrest].
  - subst rest. unfold Js.isSlash in Hx. rewrite Hx. simpl. exact Hacc.
  - destruct (Ascii.eqb x "/").
    + apply IH; [right; exact Hrest | apply endsClean_nonempty; exact Hrest].
    + apply IH; [right; exact Hrest | exact Hacc].
Qed.

(** Once [cleanRepo] has left a text with a slash in it, the repository
    name taken from it is not empty. *)
Lemma repoName_nonempty (r : string) :
  Js.includes (cleanRepo r) "/" = true -> Js.lastSegment (cleanRepo r) <> "".
Proof.
  unfold cleanRepo, Js.stripSlashes. intro Hinc.
  destruct (dropWhileEnd_end (Js.dropWhile Js.isSlash (stripGitSuffix (stripGithubPrefix (Js.trim r)))))
    as [He | Hc].
  - rewrite He in Hinc. discriminate Hinc.
  - unfold Js.lastSegment. apply lastSegmentFrom_nonempty.
    + right. exact Hc.
    + apply endsClean_nonempty. exact Hc.
Qed.

(** * The Publish pipeline: what the trace holds *)

Section LogInvariant.

Variable env : Env.
Variable L : list Entry -> Prop.
Variable ok : Entry -> Prop.

Hypothesis Happend : forall l e, ok e -> L l -> L (l ++ [e]).
Hypothesis Hsleep : forall ms, ok (Sleep ms).
Hypothesis Hgen : forall a, ok (Generate a).
Hypothesis Hget : forall url, ok (Http GET url).
Hypothesis Hput : forall url, ok (Http PUT url).
Hypothesis Hpages : forall url, ok (Http POST ("https://api.github.com/repos/" ++ url)%string).

Lemma log_other (w w' : World) :
  state w' = state w -> log w' = log w -> onLog L w -> onLog L w'.
Proof. unfold onLog. intros _ Hl H. rewrite Hl. exact H. Qed.

Lemma log_rest (w : World) (s : PipelineStatus) :
  onLog L w -> onLog L (withState (fun prev => merge prev (restingUpdate s)) w).
Proof. intro H. exact H. Qed.

Lemma log_record (w : World) (e : Entry) : ok e -> onLog L w -> onLog L (record e w).
Proof. unfold onLog. intros He H. apply Happend; assumption. Qed.

Lemma log_updateState (us : list Assign) : preserves (onLog L) (updateState us).
Proof. apply preserves_step. intros w H. exact H. Qed.

Lemma log_setTaskStatus (id : string) (s : TaskStatus) :
  preserves (onLog L) (setTaskStatus id s).
Proof. apply preserves_step. intros w H. exact H. Qed.

Lemma log_fetchRepoDetails (config : GitHubConfig) (signal : option AbortSignal) :
  preserves (onLog L) (fetchRepoDetails env config signal).
Proof.
  apply inv_fetchRepoDetails with (ok := ok);
    first [exact log_other | exact log_rest | exact log_record | assumption].
Qed.

Lemma log_fetchLoop (url : string) (m : Method) (retries : Z) (signal : option AbortSignal)
  (todo : nat) (i : Z) (lastError : option JsError) :
  ok (Http m url) ->
  preserves (onLog L) (fetchLoop env url m retries signal todo i lastError).
Proof.
  intro Hok. apply inv_fetchLoop with (ok := ok);
    first [exact log_other | exact log_rest | exact log_record | assumption].
Qed.

Lemma log_sleep (ms : Q) : preserves (onLog L) (sleep env ms).
Proof.
  apply inv_sleep with (ok := ok);
    first [exact log_other | exact log_rest | exact log_record | assumption].
Qed.

Lemma log_generateReadmeAgent (identity : option Identity) (signal : option AbortSignal) :
  preserves (onLog L) (generateReadmeAgent env identity signal).
Proof.
  apply inv_generateReadmeAgent with (ok := ok);
    first [exact log_other | exact log_rest | exact log_record | assumption].
Qed.

Lemma log_enablePages (config : GitHubConfig) (signal : option AbortSignal) :
  preserves (onLog L) (enablePages env config signal).
Proof.
  apply inv_enablePages with (ok := ok);
    first [exact log_other | exact log_rest | exact log_record | assumption].
Qed.

Lemma log_publishToGithub (config : GitHubConfig) (hs : list HubPage) (ars : list Article)
  (readme : string) (signal : option AbortSignal) (detail : string -> option string) :
  preserves (onLog L)
    (publishToGithub env config hs ars readme signal
       (fun file => updateState [SetCurrentDetail (detail file)])).
Proof.
  apply inv_publishToGithub with (ok := ok);
    first [exact log_other | exact log_rest | exact log_record | assumption
          | intro; apply log_updateState].
Qed.

#[local] Hint Resolve log_updateState log_setTaskStatus log_generateReadmeAgent log_enablePages
  log_publishToGithub : preserve.

(** The run after a metadata fetch that found the repository. *)
Lemma log_publishTry_present (state0 : ProjectState) (signal : AbortSignal) (w1 w2 : World)
  (b : string) :
  fetchRepoDetails env (githubConfig state0) (Some signal) w1 = (Normal (Some b), w2) ->
  L (log w2) ->
  L (log (snd (publishTry env state0 signal w1))).
Proof.
  intros Hd HL.
  assert (H : hoare (fun w => w = w1) (publishTry env state0 signal) (fun _ w' => onLog L w')).
  { unfold publishTry.
    eapply hoare_bind with (Q1 := fun c w' => c = Normal (Some b) /\ onLog L w').
    - intros w Hw. subst w. rewrite Hd. split; [reflexivity | exact HL].
    - intros [b' |].
      + eapply hoare_conseq with (P' := onLog L) (Q' := fun _ w => onLog L w);
          [| intros w [_ Hw]; exact Hw | auto].
        refine (_ : preserves (onLog L) _). preserve.
      + intros w [Hc _]. discriminate Hc.
    - intros e w [Hc _]. discriminate Hc.
    - intros w [Hc _]. discriminate Hc. }
  exact (H w1 eq_refl).
Qed.

(** The run after a metadata fetch that found no repository, given what
    [createRepository] leaves in the trace. *)
Lemma log_publishTry_absent (state0 : ProjectState) (signal : AbortSignal) (w1 w2 : World) :
  fetchRepoDetails env (githubConfig state0) (Some signal) w1 = (Normal None, w2) ->
  L (log (snd (createRepository env (githubConfig state0) (Some signal) w2))) ->
  L (log (snd (publishTry env state0 signal w1))).
Proof.
  intros Hd HL.
  assert (H : hoare (fun w => w = w1) (publishTry env state0 signal) (fun _ w' => onLog L w')).
  { unfold publishTry.
    eapply hoare_bind with (Q1 := fun c w' => c = Normal None /\ w' = w2).
    - intros w Hw. subst w. rewrite Hd. split; reflexivity.
    - intros [b' |].
      + intros w [Hc _]. discriminate Hc.
      + eapply hoare_bind with (Q1 := fun _ w' => onLog L w').
        * intros w [_ Hw]. subst w. exact HL.
        * intros _. refine (_ : preserves (onLog L) _). preserve.
        * auto.
        * auto.
    - intros e w [Hc _]. discriminate Hc.
    - intros w [Hc _]. discriminate Hc. }
  exact (H w1 eq_refl).
Qed.

End LogInvariant.

Section PublishRepo.

Variable env : Env.

Lemma suspend_log (w : World) : log (snd (suspend env w)) = log w.
Proof.
  unfold suspend, handleAbort, updateState, abortController.
  destruct (cancelAt env (clock w) && overlayShown (state w)); [| reflexivity].
  cbn [snd tick controller]. destruct (controller w); reflexivity.
Qed.

(** A request that resolves was not cancelled. *)
Lemma fetch_normal_live (m : Method) (url : string) (w w' : World) (r : Response) :
  fetch env m url (Some theSignal) w = (Normal r, w') -> aborted w' = false.
Proof.
  unfold fetch, isAborted. destruct (aborted w); [intro H; discriminate H |].
  destruct (suspend env (record (Http m url) w)) as [c w0].
  destruct (aborted w0) eqn:Hab; [intro H; discriminate H |].
  destruct (http env (clock w)); intro H; inversion H; subst; exact Hab.
Qed.

Lemma fetchLoop_normal_live (url : string) (m : Method) (retries : Z) :
  forall todo i lastError w r w',
    fetchLoop env url m retries (Some theSignal) todo i lastError w = (Normal r, w') ->
    aborted w' = false.
Proof.
  induction todo as [| n IH]; intros i lastError w r w'.
  - cbn [fetchLoop]. destruct lastError as [e |]; [| intro H; discriminate H].
    destruct (String.eqb (name e) "TypeError" || messageIncludes e "Failed to fetch");
      intro H; discriminate H.
  - rewrite fetchLoop_step. unfold bind at 1, signalAborted, isAborted.
    destruct (aborted w); [intro H; discriminate H |].
    unfold tryCatch.
    destruct ((res <- fetch env m url (Some theSignal) ;;
               if (resStatus res =? 429) || (resStatus res >=? 500)
               then throw (httpError (resStatus res)) else ret res) w)
      as [[r0 | e |] w0] eqn:Hbody.
    + intro H. inversion H; subst. unfold bind in Hbody.
      destruct (fetch env m url (Some theSignal) w) as [[res | e |] wf] eqn:Hf;
        try discriminate Hbody.
      destruct ((resStatus res =? 429) || (resStatus res >=? 500)); [discriminate Hbody |].
      inversion Hbody; subst. eapply fetch_normal_live. exact Hf.
    + destruct (isAbortError e); [intro H; discriminate H |].
      unfold bind.
      destruct ((if i <? retries - 1 then sleep env (inject_Z (1000 * 2 ^ i)) else ret tt) w0)
        as [[u | e' |] w1]; try (intro H; discriminate H).
      apply IH.
    + intro H. discriminate H.
Qed.

(** What a successful metadata fetch tells. *)
Lemma fetchRepoDetails_normal (config : GitHubConfig) (w w' : World) (d : option string) :
  fetchRepoDetails env config (Some theSignal) w = (Normal d, w') ->
  aborted w' = false /\ Js.includes (cleanRepo (repo config)) "/" = true.
Proof.
  unfold fetchRepoDetails.
  destruct (Js.includes (cleanRepo (repo config)) "/"); [| intro H; discriminate H].
  cbn [negb]. unfold bind.
  destruct (fetchWithRetry env ("https://api.github.com/repos/" ++ cleanRepo (repo config))
              GET 3 (Some theSignal) w) as [[res | e |] w0] eqn:Hf;
    try (intro H; discriminate H).
  intro H. split; [| reflexivity].
  assert (Hw : w' = w0).
  { destruct (negb (ok res)).
    - destruct (resStatus res =? 404); [inversion H; reflexivity | discriminate H].
    - unfold json in H. destruct (resBody res); [inversion H; reflexivity | discriminate H]. }
  subst w'. eapply fetchLoop_normal_live. exact Hf.
Qed.

(** With a live signal and a usable configuration, the first thing
    [createRepository] does is to send its request. *)
Lemma createRepository_records (config : GitHubConfig) (w : World) :
  aborted w = false ->
  token config <> "" ->
  Js.lastSegment (cleanRepo (repo config)) <> "" ->
  extends (log w ++ [createRepoRequest])
    (log (snd (createRepository env config (Some theSignal) w))).
Proof.
  intros Hab Htoken Hname.
  set (L := extends (log w ++ [createRepoRequest])).
  assert (Happend : forall l e, True -> L l -> L (l ++ [e])).
  { intros l e _ [rest Hl]. exists (rest ++ [e]). rewrite Hl. symmetry. apply app_assoc. }
  assert (H : hoare (fun w0 => w0 = w) (createRepository env config (Some theSignal))
                (fun _ w' => onLog L w')).
  { unfold createRepository.
    destruct (String.eqb_spec (token config) "") as [Ht | _]; [contradiction |].
    destruct (String.eqb_spec (Js.lastSegment (cleanRepo (repo config))) "") as [Hn | _];
      [contradiction |].
    cbn [orb].
    eapply hoare_bind with (Q1 := fun _ w' => onLog L w'); [| | auto | auto].
    - unfold fetchWithRetry. change (Z.to_nat 3) with 3%nat. rewrite fetchLoop_step.
      eapply hoare_bind with (Q1 := fun c w' => c = Normal false /\ w' = w).
      + intros w0 Hw0. subst w0. unfold signalAborted, isAborted. rewrite Hab.
        split; reflexivity.
      + intros a. apply hoare_conseq with
          (P' := fun w' => a = false /\ w' = w) (Q' := fun _ w' => onLog L w');
          [| intros w0 [Hc Hw0]; inversion Hc; split; [reflexivity | exact Hw0] | auto].
        destruct a.
        { intros w0 [Hc _]. discriminate Hc. }
        eapply hoare_tryCatch with (Q1 := fun _ w' => onLog L w'); [| | auto | auto].
        * eapply hoare_bind with (Q1 := fun _ w' => onLog L w'); [| | auto | auto].
          -- intros w0 [_ Hw0]. subst w0. unfold onLog, fetch, isAborted. rewrite Hab.
             pose proof (suspend_log (record (Http POST createRepoUrl) w)) as Hlog.
             destruct (suspend env (record (Http POST createRepoUrl) w)) as [c w1].
             cbn [snd] in Hlog.
             assert (HL : L (log w1)) by (rewrite Hlog; exists []; symmetry; apply app_nil_r).
             destruct (aborted w1); [exact HL |].
             destruct (http env (clock w)); exact HL.
          -- intro res. refine (_ : preserves (onLog L) _). preserve.
        * intro e. refine (_ : preserves (onLog L) _).
          destruct (isAbortError e); [apply preserves_throw |].
          apply preserves_bind.
          -- destruct (0 <? 3 - 1); [| apply preserves_ret].
             apply log_sleep with (ok := fun _ => True); auto.
          -- intros _. apply log_fetchLoop with (ok := fun _ => True); auto.
      + intros e w0 [Hc _]. discriminate Hc.
      + intros w0 [Hc _]. discriminate Hc.
    - intro res. refine (_ : preserves (onLog L) _). preserve. }
  exact (H w eq_refl).
Qed.

Lemma publishBegin_normal (w : World) :
  publishBegin w = (Normal theSignal, snd (publishBegin w)).
Proof. reflexivity. Qed.

(** The catch clause and the handler boundary record nothing. *)
Lemma handlePublish_log (w : World) :
  repo (githubConfig (state w)) <> "" ->
  token (githubConfig (state w)) <> "" ->
  log (snd (handlePublish env w))
  = log (snd (publishTry env (state w) theSignal (snd (publishBegin w)))).
Proof.
  intros Hrepo Htoken. unfold handlePublish.
  destruct (String.eqb_spec (repo (githubConfig (state w))) "") as [Hr | _]; [contradiction |].
  destruct (String.eqb_spec (token (githubConfig (state w))) "") as [Ht | _]; [contradiction |].
  cbn [orb].
  pose proof (publishBegin_normal w) as Hbegin.
  set (w1 := snd (publishBegin w)) in *.
  unfold handler, bind. rewrite Hbegin. unfold tryCatch.
  destruct (publishTry env (state w) theSignal w1) as [[u | e |] w2]; try reflexivity.
  unfold publishCatch. destruct (isAbortError e); reflexivity.
Qed.

(** C7.  In a run of the Publish pipeline, traced from its start: when
    the metadata fetch reports the repository absent, the request that
    creates it is sent, and no upload is sent before it; when the fetch
    reports the repository present, that request is never sent. *)
Theorem createRepo_iff_absent (w : World) :
  repo (githubConfig (state w)) <> "" ->
  token (githubConfig (state w)) <> "" ->
  log w = [] ->
  (fst (fetchRepoDetails env (githubConfig (state w)) (Some theSignal) (snd (publishBegin w)))
   = Normal None ->
   exists before after,
     log (snd (handlePublish env w)) = before ++ createRepoRequest :: after
     /\ forall e, In e before -> ~ isUpload e)
  /\ (forall b,
        fst (fetchRepoDetails env (githubConfig (state w)) (Some theSignal)
               (snd (publishBegin w))) = Normal (Some b) ->
        ~ In createRepoRequest (log (snd (handlePublish env w)))).
Proof.
  intros Hrepo Htoken Hlog.
  rewrite (handlePublish_log w Hrepo Htoken).
  set (w1 := snd (publishBegin w)).
  assert (Hlog1 : log w1 = []) by (unfold w1; cbn; exact Hlog).
  destruct (fetchRepoDetails env (githubConfig (state w)) (Some theSignal) w1)
    as [c w2] eqn:Hd.
  cbn [fst]. split.
  - intro Hc. subst c.
    destruct (fetchRepoDetails_normal _ _ _ _ Hd) as [Hab Hslash].
    assert (Hquietlog : forall e, In e (log w2) -> ~ isUpload e).
    { pose proof (log_fetchRepoDetails env (fun l => forall e, In e l -> ~ isUpload e)
                    (fun e => ~ isUpload e)) as Hinv.
      assert (Hstart : onLog (fun l => forall e, In e l -> ~ isUpload e) w1)
        by (unfold onLog; rewrite Hlog1; intros e []).
      specialize (Hinv
        ltac:(intros l e He Hl x Hx; apply in_app_or in Hx; destruct Hx as [Hx | [Hx | []]];
              [apply Hl; exact Hx | subst x; exact He])
        ltac:(intros ms [url Hu]; discriminate Hu)
        ltac:(intros url [u Hu]; discriminate Hu)
        (githubConfig (state w)) (Some theSignal) w1 Hstart).
      rewrite Hd in Hinv. exact Hinv. }
    pose proof (createRepository_records (githubConfig (state w)) w2 Hab Htoken
                  (repoName_nonempty _ Hslash)) as Hcreate.
    pose proof (log_publishTry_absent env (extends (log w2 ++ [createRepoRequest]))
                  (fun _ => True)) as Hrun.
    specialize (Hrun
      ltac:(intros l e _ [rest Hl]; exists (rest ++ [e]); rewrite Hl; symmetry; apply app_assoc)
      ltac:(intros; exact I) ltac:(intros; exact I) ltac:(intros; exact I)
      ltac:(intros; exact I) ltac:(intros; exact I)
      (state w) theSignal w1 w2 Hd Hcreate).
    destruct Hrun as [rest Hrest].
    exists (log w2), rest. split; [| exact Hquietlog].
    rewrite Hrest. rewrite <- app_assoc. reflexivity.
  - intros b Hc. subst c.
    pose proof (log_fetchRepoDetails env (fun l => ~ In createRepoRequest l)
                  (fun e => e <> createRepoRequest)) as Hinv.
    assert (Happend : forall l e, e <> createRepoRequest ->
                                  ~ In createRepoRequest l -> ~ In createRepoRequest (l ++ [e])).
    { intros l e He Hl Hx. apply in_app_or in Hx. destruct Hx as [Hx | [Hx | []]];
        [exact (Hl Hx) | exact (He Hx)]. }
    assert (Hstart : onLog (fun l => ~ In createRepoRequest l) w1)
      by (unfold onLog; rewrite Hlog1; intros []).
    specialize (Hinv Happend
      ltac:(intros ms Hu; discriminate Hu)
      ltac:(intros url Hu; discriminate Hu)
      (githubConfig (state w)) (Some theSignal) w1 Hstart).
    rewrite Hd in Hinv.
    apply (log_publishTry_present env (fun l => ~ In createRepoRequest l)
             (fun e => e <> createRepoRequest) Happend
             ltac:(intros ms Hu; discriminate Hu)
             ltac:(intros a Hu; discriminate Hu)
             ltac:(intros url Hu; discriminate Hu)
             ltac:(intros url Hu; discriminate Hu)
             ltac:(intros url Hu; unfold createRepoRequest, createRepoUrl in Hu;
                   simpl in Hu; discriminate Hu)
             (state w) theSignal w1 w2 b Hd Hinv).
Qed.

End PublishRepo.

(** * Uninterrupted runs

    Runs in which the user never cancels and the services never fail
    with an error named [AbortError]: the signal stays as it is, no
    handler returns early, and every failure is a fatal one. *)

Create HintDb calm.

Lemma calmTo_bind {A B} (R : B -> World -> Prop) (m : M A) (f : A -> M B) :
  calm m ->
  (forall a, hoare live (f a) (calmly R)) ->
  hoare live (bind m f) (calmly R).
Proof.
  intros Hm Hf. eapply hoare_bind; [exact Hm | | |].
  - intro a. eapply hoare_conseq; [apply Hf | intros w [H _]; exact H | auto].
  - intros e w [H He]. split; assumption.
  - intros w [_ []].
Qed.

Lemma calm_bind {A B} (m : M A) (f : A -> M B) :
  calm m -> (forall a, calm (f a)) -> calm (bind m f).
Proof. intros Hm Hf. apply calmTo_bind; assumption. Qed.

Lemma calm_ret {A} (a : A) : calm (ret a).
Proof. apply hoare_ret. intros w H. split; [exact H | exact I]. Qed.

Lemma calm_throw {A} (e : JsError) : isAbortError e = false -> calm (@throw A e).
Proof. intro He. apply hoare_throw. intros w H. split; assumption. Qed.

Lemma calmTo_tryCatch {A} (R : A -> World -> Prop) (body : M A) (h : JsError -> M A) :
  hoare live body (calmly R) ->
  (forall e, isAbortError e = false -> hoare live (h e) (calmly R)) ->
  hoare live (tryCatch body h) (calmly R).
Proof.
  intros Hb Hh. eapply hoare_tryCatch; [exact Hb | | auto | auto].
  intros e w [Hl He]. apply Hh; assumption.
Qed.

Lemma calm_tryCatch {A} (body : M A) (h : JsError -> M A) :
  calm body -> (forall e, isAbortError e = false -> calm (h e)) -> calm (tryCatch body h).
Proof. apply calmTo_tryCatch. Qed.

(** With a live signal the test [signal?.aborted] fails. *)
Lemma calmTo_ifAborted {A} (R : A -> World -> Prop) (signal : option AbortSignal)
  (x y : M A) :
  hoare live y (calmly R) ->
  hoare live (a <- signalAborted signal ;; if a : bool then x else y) (calmly R).
Proof.
  intros Hy w Hw. unfold bind, signalAborted.
  replace (isAborted signal w) with false
    by (destruct signal; [symmetry; exact Hw | reflexivity]).
  apply Hy. exact Hw.
Qed.

Lemma calm_ifAborted {A} (signal : option AbortSignal) (x y : M A) :
  calm y -> calm (a <- signalAborted signal ;; if a : bool then x else y).
Proof. apply calmTo_ifAborted. Qed.

Lemma calm_forAcc {A S} (body : A -> S -> M S) :
  (forall x acc, calm (body x acc)) -> forall xs acc, calm (forAcc xs acc body).
Proof.
  intros Hb xs. induction xs as [| x rest IH]; intro acc; simpl.
  - apply calm_ret.
  - apply calm_bind; [apply Hb | intro acc'; apply IH].
Qed.

Lemma calm_forEach {A} (body : A -> M unit) :
  (forall x, calm (body x)) -> forall xs, calm (forEach xs body).
Proof.
  intros Hb xs. induction xs as [| x rest IH]; simpl.
  - apply calm_ret.
  - apply calm_bind; [apply Hb | intros _; apply IH].
Qed.

Lemma calm_updateState (us : list Assign) : calm (updateState us).
Proof. intros w H. split; [exact H | exact I]. Qed.

Lemma calm_setTaskStatus (id : string) (s : TaskStatus) : calm (setTaskStatus id s).
Proof. intros w H. split; [exact H | exact I]. Qed.

Ltac calm :=
  repeat match goal with
    | |- _ => assumption
    | |- calm (ret _) => apply calm_ret
    | |- calm (updateState _) => apply calm_updateState
    | |- calm (setTaskStatus _ _) => apply calm_setTaskStatus
    | |- calm (throw _) => apply calm_throw; reflexivity
    | |- calm (bind (signalAborted _) _) => apply calm_ifAborted
    | |- calm (bind _ _) => apply calm_bind; [| intro]
    | |- calm (tryCatch _ _) => apply calm_tryCatch; [| intros ? ?]
    | |- calm (forAcc _ _ _) => apply calm_forAcc; intros
    | |- calm (forEach _ _) => apply calm_forEach; intros
    | |- calm (if ?b then _ else _) => destruct b
    | |- calm (match ?x with _ => _ end) => destruct x
    | |- _ => solve [eauto with calm]
    end.

Ltac calm_steps :=
  repeat match goal with
    | |- hoare live (bind _ _) _ => apply calmTo_bind; [calm | intro]
    end.

Section Calm.

Variable env : Env.

Hypothesis Hquiet : forall k, cancelAt env k = false.
Hypothesis Hgen : forall k e, gen env k = Rejected e -> isAbortError e = false.
Hypothesis Hhttp : forall k e, http env k = Rejected e -> isAbortError e = false.

Lemma calm_suspend : calm (suspend env).
Proof. intros w H. rewrite suspend_quiet by apply Hquiet. split; [exact H | exact I]. Qed.

Lemma calm_sleep (ms : Q) : calm (sleep env ms).
Proof. intros w H. rewrite sleep_quiet by apply Hquiet. split; [exact H | exact I]. Qed.

Lemma calm_generateContent (a : Agent) : calm (generateContent env a).
Proof.
  intros w H. rewrite generateContent_quiet by apply Hquiet.
  destruct (gen env (clock w)) as [r | e] eqn:Hg; split; try exact H; [exact I |].
  eapply Hgen. exact Hg.
Qed.

Lemma calm_fetch (m : Method) (url : string) (signal : option AbortSignal) :
  calm (fetch env m url signal).
Proof.
  intros w H.
  assert (Hab : isAborted signal w = false) by (destruct signal; [exact H | reflexivity]).
  rewrite fetch_quiet by (apply Hquiet || exact Hab).
  destruct (http env (clock w)) as [r | e] eqn:Hh; split; try exact H; [exact I |].
  eapply Hhttp. exact Hh.
Qed.

Lemma calm_randomId : calm (randomId env).
Proof. intros w H. split; [exact H | exact I]. Qed.

#[local] Hint Extern 0 (calm (suspend _)) => apply calm_suspend : calm.
#[local] Hint Extern 0 (calm (sleep _ _)) => apply calm_sleep : calm.
#[local] Hint Extern 0 (calm (generateContent _ _)) => apply calm_generateContent : calm.
#[local] Hint Extern 0 (calm (fetch _ _ _ _)) => apply calm_fetch : calm.
#[local] Hint Extern 0 (calm (randomId _)) => apply calm_randomId : calm.

Lemma calm_retryLoop {T} (operation : M T) (maxRetries : Z) (signal : option AbortSignal) :
  calm operation ->
  forall todo i delay, calm (retryLoop env operation maxRetries signal todo i delay).
Proof.
  intros Hop todo. induction todo as [| n IH]; intros i delay.
  - cbn [retryLoop]. apply calm_throw. reflexivity.
  - rewrite retryLoop_step. apply calm_ifAborted. apply calm_tryCatch; [exact Hop |].
    intros e He. apply calm_ifAborted.
    destruct (negb (isRetryable e) || (i =? maxRetries - 1)).
    + apply calm_throw. exact He.
    + apply calm_bind; [apply calm_sleep | intros _; apply IH].
Qed.

Lemma calm_retryWithBackoff {T} (operation : M T) (maxRetries : Z) (initialDelay : Q)
  (signal : option AbortSignal) :
  calm operation -> calm (retryWithBackoff env operation maxRetries initialDelay signal).
Proof.
  intro Hop. unfold retryWithBackoff. destruct (String.eqb (apiKey env) "").
  - apply calm_throw. reflexivity.
  - apply calm_retryLoop. exact Hop.
Qed.

Lemma calm_parseJson (r : GenerateContentResponse) : calm (parseJson r).
Proof. unfold parseJson. calm. Qed.

#[local] Hint Extern 0 (calm (retryWithBackoff _ _ _ _ _)) => apply calm_retryWithBackoff : calm.
#[local] Hint Extern 0 (calm (parseJson _)) => apply calm_parseJson : calm.

Lemma calm_generateIdentityAgent (signal : option AbortSignal) :
  calm (generateIdentityAgent env signal).
Proof. unfold generateIdentityAgent. calm. Qed.

Lemma calm_analyzeSiteIdentityAgent (signal : option AbortSignal) :
  calm (analyzeSiteIdentityAgent env signal).
Proof. unfold analyzeSiteIdentityAgent. calm. Qed.

Lemma calm_analyzeRepoStructureAgent (signal : option AbortSignal) :
  calm (analyzeRepoStructureAgent env signal).
Proof. unfold analyzeRepoStructureAgent. calm. Qed.

Lemma calm_assignIds (ds : list HubPage) : calm (assignIds env ds).
Proof. induction ds as [| d rest IH]; simpl; calm. Qed.

#[local] Hint Extern 0 (calm (assignIds _ _)) => apply calm_assignIds : calm.

Lemma calm_generateStrategyAgent (signal : option AbortSignal) :
  calm (generateStrategyAgent env signal).
Proof. unfold generateStrategyAgent. calm. Qed.

Lemma calm_generateHtmlAgent (identity : Identity) (signal : option AbortSignal) :
  calm (generateHtmlAgent env identity signal).
Proof. unfold generateHtmlAgent. calm. Qed.

Lemma calm_generateReadmeAgent (identity : option Identity) (signal : option AbortSignal) :
  calm (generateReadmeAgent env identity signal).
Proof.
  unfold generateReadmeAgent.
  apply calm_bind; [apply calm_retryWithBackoff; destruct identity; calm | intro; calm].
Qed.

Lemma calm_json (res : Response) : calm (json res).
Proof. unfold json. calm. Qed.

#[local] Hint Extern 0 (calm (json _)) => apply calm_json : calm.

Lemma calm_fetchLoop (url : string) (m : Method) (retries : Z) (signal : option AbortSignal) :
  forall todo i lastError,
    (forall e, lastError = Some e -> isAbortError e = false) ->
    calm (fetchLoop env url m retries signal todo i lastError).
Proof.
  induction todo as [| n IH]; intros i lastError Hlast.
  - cbn [fetchLoop]. destruct lastError as [e |]; [| apply calm_throw; reflexivity].
    destruct (String.eqb (name e) "TypeError" || messageIncludes e "Failed to fetch").
    + apply calm_throw. reflexivity.
    + apply calm_throw. apply Hlast. reflexivity.
  - rewrite fetchLoop_step. apply calm_ifAborted. apply calm_tryCatch.
    + calm.
    + intros e He. rewrite He.
      apply calm_bind; [destruct (i <? retries - 1); calm |].
      intros _. apply IH. intros e' Heq. inversion Heq; subst. exact He.
Qed.

Lemma calm_fetchWithRetry (url : string) (m : Method) (retries : Z)
  (signal : option AbortSignal) :
  calm (fetchWithRetry env url m retries signal).
Proof. unfold fetchWithRetry. apply calm_fetchLoop. intros e H. discriminate H. Qed.

#[local] Hint Extern 0 (calm (fetchWithRetry _ _ _ _ _)) => apply calm_fetchWithRetry : calm.

Lemma calm_createRepository (config : GitHubConfig) (signal : option AbortSignal) :
  calm (createRepository env config signal).
Proof. unfold createRepository. calm. Qed.

Lemma calm_enablePages (config : GitHubConfig) (signal : option AbortSignal) :
  calm (enablePages env config signal).
Proof. unfold enablePages. calm. Qed.

Lemma calm_fetchRepoDetails (config : GitHubConfig) (signal : option AbortSignal) :
  calm (fetchRepoDetails env config signal).
Proof. unfold fetchRepoDetails. calm. Qed.

Lemma calm_fetchRepoStructure (config : GitHubConfig) (signal : option AbortSignal) :
  calm (fetchRepoStructure env config signal).
Proof. unfold fetchRepoStructure. calm. Qed.

Lemma calm_fetchFileContent (url : string) (signal : option AbortSignal) :
  calm (fetchFileContent env url signal).
Proof. unfold fetchFileContent. calm. Qed.

Lemma calm_publishToGithub (config : GitHubConfig) (hs : list HubPage) (ars : list Article)
  (readme : string) (signal : option AbortSignal) (detail : string -> option string) :
  calm (publishToGithub env config hs ars readme signal
          (fun file => updateState [SetCurrentDetail (detail file)])).
Proof.
  unfold publishToGithub. apply calm_forEach. intro file. unfold publishFile.
  apply calm_ifAborted. calm.
Qed.

#[local] Hint Extern 0 (calm (generateIdentityAgent _ _)) => apply calm_generateIdentityAgent : calm.
#[local] Hint Extern 0 (calm (analyzeSiteIdentityAgent _ _)) => apply calm_analyzeSiteIdentityAgent : calm.
#[local] Hint Extern 0 (calm (analyzeRepoStructureAgent _ _)) => apply calm_analyzeRepoStructureAgent : calm.
#[local] Hint Extern 0 (calm (generateStrategyAgent _ _)) => apply calm_generateStrategyAgent : calm.
#[local] Hint Extern 0 (calm (generateHtmlAgent _ _ _)) => apply calm_generateHtmlAgent : calm.
#[local] Hint Extern 0 (calm (generateReadmeAgent _ _ _)) => apply calm_generateReadmeAgent : calm.
#[local] Hint Extern 0 (calm (createRepository _ _ _)) => apply calm_createRepository : calm.
#[local] Hint Extern 0 (calm (enablePages _ _ _)) => apply calm_enablePages : calm.
#[local] Hint Extern 0 (calm (fetchRepoDetails _ _ _)) => apply calm_fetchRepoDetails : calm.
#[local] Hint Extern 0 (calm (fetchRepoStructure _ _ _)) => apply calm_fetchRepoStructure : calm.
#[local] Hint Extern 0 (calm (fetchFileContent _ _ _)) => apply calm_fetchFileContent : calm.
#[local] Hint Extern 0 (calm (publishToGithub _ _ _ _ _ _ _)) => apply calm_publishToGithub : calm.

Lemma calm_buildHub (identity : Identity) (signal : AbortSignal) (h : HubPage)
  (updatedHubs : list HubPage) :
  calm (buildHub env identity signal h updatedHubs).
Proof. unfold buildHub. calm. Qed.

Lemma calm_restoreHub (htmlFiles : list GitHubFileNode) (indexFile : option GitHubFileNode)
  (signal : AbortSignal) (h : HubPage) (finalHubs : list HubPage) :
  calm (restoreHub env htmlFiles indexFile signal h finalHubs).
Proof. unfold restoreHub. calm. Qed.

Lemma rests_updateState (s : PipelineStatus) :
  hoare live (updateState (restingUpdate s)) (calmly (fun _ w => restsIn s (state w))).
Proof.
  intros w H. split; [exact H |]. cbn. destruct (state w). repeat split.
Qed.

#[local] Hint Extern 0 (calm (buildHub _ _ _ _ _)) => apply calm_buildHub : calm.
#[local] Hint Extern 0 (calm (restoreHub _ _ _ _ _ _)) => apply calm_restoreHub : calm.

Lemma buildTry_rests (state0 : ProjectState) (signal : AbortSignal) :
  hoare live (buildTry env state0 signal) (calmly (fun _ w => restsIn ready (state w))).
Proof.
  unfold buildTry. calm_steps.
  match goal with |- hoare _ (let '(_, _) := ?p in _) _ => destruct p as [hubs rationale] end.
  calm_steps.
  intros w H. split; [exact H |]. cbn. destruct (state w). repeat split.
Qed.

Lemma importTry_rests (importRepo importToken : string) (signal : AbortSignal) :
  hoare live (importTry env importRepo importToken signal)
    (calmly (fun _ w => restsIn ready (state w))).
Proof.
  unfold importTry. calm_steps.
  match goal with |- hoare _ (let '(_, _) := ?p in _) _ => destruct p as [hubs articles] end.
  calm_steps.
  intros w H. split; [exact H |]. cbn. destruct (state w). repeat split.
Qed.

Lemma publishTry_rests (state0 : ProjectState) (signal : AbortSignal) :
  hoare live (publishTry env state0 signal) (calmly (fun _ w => restsIn deployed (state w))).
Proof.
  unfold publishTry. calm_steps.
  apply rests_updateState.
Qed.

Lemma startTask_normal (w : World) : startTask w = (Normal theSignal, snd (startTask w)).
Proof. reflexivity. Qed.

Lemma importBegin_normal (w : World) : importBegin w = (Normal theSignal, snd (importBegin w)).
Proof. reflexivity. Qed.

Lemma handleInitialBuild_rests (w : World) :
  restsIn
    (match fst (buildTry env (state w) theSignal (snd (startTask w))) with
     | Normal _ => ready
     | _ => idle
     end)
    (state (snd (handleInitialBuild env w))).
Proof.
  unfold handleInitialBuild.
  pose proof (startTask_normal w) as Hbegin.
  pose proof (buildTry_rests (state w) theSignal (snd (startTask w)) eq_refl) as Htry.
  set (w1 := snd (startTask w)) in *.
  unfold handler, bind. rewrite Hbegin. unfold tryCatch.
  destruct (buildTry env (state w) theSignal w1) as [[u | e |] w2];
    cbn [fst snd] in *; destruct Htry as [Hlive Htry].
  - exact Htry.
  - unfold buildCatch. rewrite Htry. cbn. destruct (state w2). repeat split.
  - destruct Htry.
Qed.

Lemma handleImport_rests (importRepo importToken : string) (w : World) :
  importRepo <> "" ->
  importToken <> "" ->
  restsIn
    (match fst (importTry env importRepo importToken theSignal (snd (importBegin w))) with
     | Normal _ => ready
     | _ => idle
     end)
    (state (snd (handleImport env importRepo importToken w))).
Proof.
  intros Hrepo Htoken. unfold handleImport.
  destruct (String.eqb_spec importRepo "") as [Hr | _]; [contradiction |].
  destruct (String.eqb_spec importToken "") as [Ht | _]; [contradiction |].
  cbn [orb].
  pose proof (importBegin_normal w) as Hbegin.
  pose proof (importTry_rests importRepo importToken theSignal (snd (importBegin w)) eq_refl)
    as Htry.
  set (w1 := snd (importBegin w)) in *.
  unfold handler, bind. rewrite Hbegin. unfold tryCatch.
  destruct (importTry env importRepo importToken theSignal w1) as [[u | e |] w2];
    cbn [fst snd] in *; destruct Htry as [Hlive Htry].
  - exact Htry.
  - unfold importCatch. rewrite Htry. cbn. destruct (state w2). repeat split.
  - destruct Htry.
Qed.

Lemma handlePublish_rests (w : World) :
  repo (githubConfig (state w)) <> "" ->
  token (githubConfig (state w)) <> "" ->
  restsIn
    (match fst (publishTry env (state w) theSignal (snd (publishBegin w))) with
     | Normal _ => deployed
     | _ => ready
     end)
    (state (snd (handlePublish env w))).
Proof.
  intros Hrepo Htoken. unfold handlePublish.
  destruct (String.eqb_spec (repo (githubConfig (state w))) "") as [Hr | _]; [contradiction |].
  destruct (String.eqb_spec (token (githubConfig (state w))) "") as [Ht | _]; [contradiction |].
  cbn [orb].
  pose proof (publishBegin_normal w) as Hbegin.
  pose proof (publishTry_rests (state w) theSignal (snd (publishBegin w)) eq_refl) as Htry.
  set (w1 := snd (publishBegin w)) in *.
  unfold handler, bind. rewrite Hbegin. unfold tryCatch.
  destruct (publishTry env (state w) theSignal w1) as [[u | e |] w2];
    cbn [fst snd] in *; destruct Htry as [Hlive Htry].
  - exact Htry.
  - unfold publishCatch. rewrite Htry. cbn. destruct (state w2). repeat split.
  - destruct Htry.
Qed.

End Calm.

(** * Enabling the pages *)

Lemma hasChar_app (c : ascii) (s t : string) :
  hasChar c (s ++ t)%string = hasChar c s || hasChar c t.
Proof.
  induction s as [| x rest IH]; simpl; [reflexivity |].
  rewrite IH. apply orb_assoc.
Qed.

Lemma prefix_hasChar (c : ascii) (sub s : string) :
  prefix (String c sub) s = true -> hasChar c s = true.
Proof.
  destruct s as [| x rest]; simpl; [intro H; discriminate H |].
  destruct (ascii_dec c x) as [Heq | Hne]; [| intro H; discriminate H].
  subst x. rewrite Ascii.eqb_refl. reflexivity.
Qed.

Lemma includes_hasChar (c : ascii) (sub : string) (s : string) :
  Js.includes s (String c sub) = true -> hasChar c s = true.
Proof.
  induction s as [| x rest IH].
  - simpl. intro H. discriminate H.
  - cbn [Js.includes]. destruct (prefix (String c sub) (String x rest)) eqn:Hp.
    + intros _. eapply prefix_hasChar. exact Hp.
    + intro H. simpl. rewrite (IH H). apply orb_true_r.
Qed.

Lemma string_of_uint_no_F (d : Decimal.uint) : hasChar "F" (NilZero.string_of_uint d) = false.
Proof.
  destruct d as [| d | d | d | d | d | d | d | d | d | d]; [reflexivity | ..];
    cbn [NilZero.string_of_uint NilEmpty.string_of_uint];
    induction d as [| d IH | d IH | d IH | d IH | d IH | d IH | d IH | d IH | d IH | d IH];
    try reflexivity; cbn [NilEmpty.string_of_uint hasChar] in *;
    try (rewrite IH; reflexivity); exact IH.
Qed.

Lemma ofZ_no_F (z : Z) : hasChar "F" (Js.ofZ z) = false.
Proof.
  unfold Js.ofZ, NilZero.string_of_int.
  destruct (Z.to_int z) as [d | d].
  - apply string_of_uint_no_F.
  - cbn [hasChar]. rewrite string_of_uint_no_F. reflexivity.
Qed.

(** The error made for a refused answer is never mistaken for a network
    failure. *)
Lemma httpError_kept (s : Z) :
  String.eqb (name (httpError s)) "TypeError" || messageIncludes (httpError s) "Failed to fetch"
  = false.
Proof.
  unfold httpError, newError, messageIncludes. cbn [name message orb String.eqb].
  change (String.eqb "Error" "TypeError") with false. cbn [orb].
  destruct (Js.includes ("HTTP " ++ Js.ofZ s) "Failed to fetch") eqn:Hinc; [| reflexivity].
  apply includes_hasChar in Hinc. rewrite hasChar_app, ofZ_no_F in Hinc. discriminate Hinc.
Qed.

Section Hosting.

Variable env : Env.

Lemma sleep_normal (ms : Q) (w : World) : fst (sleep env ms w) = Normal tt.
Proof.
  unfold sleep, suspend.
  destruct (cancelAt env (clock (record (Sleep ms) w)) && overlayShown (state (record (Sleep ms) w)));
    reflexivity.
Qed.

(** One failed attempt of [fetchWithRetry]: what the [try] block throws. *)
Lemma attempt_throws (url : string) (m : Method) (signal : option AbortSignal)
  (w w' : World) (e : JsError) :
  (res <- fetch env m url signal ;;
   if (resStatus res =? 429) || (resStatus res >=? 500)
   then throw (httpError (resStatus res)) else ret res) w = (Throw e, w') ->
  isAbortError e = true \/ serviceFailure env e.
Proof.
  unfold bind.
  destruct (fetch env m url signal w) as [[res | e0 |] w0] eqn:Hf.
  - destruct ((resStatus res =? 429) || (resStatus res >=? 500)) eqn:Hbad;
      [| intro H; discriminate H].
    intro H. inversion H; subst. right. left.
    unfold fetch in Hf. destruct (isAborted signal w); [discriminate Hf |].
    destruct (suspend env (record (Http m url) w)) as [c w1].
    destruct (isAborted signal w1); [discriminate Hf |].
    destruct (http env (clock w)) as [r | e1] eqn:Hh; [| discriminate Hf].
    inversion Hf; subst. exists (clock w), res.
    split; [exact Hh |]. split; [| reflexivity].
    apply orb_prop in Hbad. destruct Hbad as [Hb | Hb]; [left; lia | right; lia].
  - intro H. inversion H; subst.
    unfold fetch in Hf. destruct (isAborted signal w);
      [inversion Hf; left; reflexivity |].
    destruct (suspend env (record (Http m url) w)) as [c w1].
    destruct (isAborted signal w1); [inversion Hf; left; reflexivity |].
    destruct (http env (clock w)) as [r | e1] eqn:Hh; [discriminate Hf |].
    inversion Hf; subst. right. right. exists (clock w). exact Hh.
  - intro H. discriminate H.
Qed.

Lemma attempt_normal (url : string) (m : Method) (signal : option AbortSignal)
  (w w' : World) (res : Response) :
  (r <- fetch env m url signal ;;
   if (resStatus r =? 429) || (resStatus r >=? 500)
   then throw (httpError (resStatus r)) else ret r) w = (Normal res, w') ->
  resStatus res <> 429 /\ resStatus res < 500.
Proof.
  unfold bind.
  destruct (fetch env m url signal w) as [[r | e0 |] w0]; try (intro H; discriminate H).
  destruct ((resStatus r =? 429) || (resStatus r >=? 500)) eqn:Hbad; [intro H; discriminate H |].
  intro H. inversion H; subst.
  apply orb_false_elim in Hbad. destruct Hbad as [H1 H2]. lia.
Qed.

Lemma fetchLoop_outcomes (url : string) (m : Method) (retries : Z) (signal : option AbortSignal) :
  forall todo i lastError w c w',
    (forall e0, lastError = Some e0 -> serviceFailure env e0) ->
    (todo <> 0%nat \/ lastError <> None) ->
    fetchLoop env url m retries signal todo i lastError w = (c, w') ->
    match c with
    | Normal res => resStatus res <> 429 /\ resStatus res < 500
    | Throw e => isAbortError e = true \/ fromService env e
    | Return => False
    end.
Proof.
  induction todo as [| n IH]; intros i lastError w c w' Hlast Hsome.
  - cbn [fetchLoop]. destruct lastError as [e0 |].
    + destruct (String.eqb (name e0) "TypeError" || messageIncludes e0 "Failed to fetch");
        intro H; inversion H; subst; right; exists e0;
        (split; [apply Hlast; reflexivity |]); [right | left]; reflexivity.
    + destruct Hsome as [H | H]; exfalso; apply H; reflexivity.
  - rewrite fetchLoop_step. unfold bind at 1, signalAborted.
    destruct (isAborted signal w).
    { intro H. inversion H; subst. left. reflexivity. }
    unfold tryCatch.
    destruct ((res <- fetch env m url signal ;;
               if (resStatus res =? 429) || (resStatus res >=? 500)
               then throw (httpError (resStatus res)) else ret res) w)
      as [[r0 | e |] w0] eqn:Hbody.
    + intro H. inversion H; subst. eapply attempt_normal. exact Hbody.
    + destruct (attempt_throws _ _ _ _ _ _ Hbody) as [Hab | Hfail].
      * rewrite Hab. intro H. inversion H; subst. left. exact Hab.
      * destruct (isAbortError e) eqn:Hab.
        { intro H. inversion H; subst. left. exact Hab. }
        unfold bind.
        destruct ((if i <? retries - 1 then sleep env (inject_Z (1000 * 2 ^ i)) else ret tt) w0)
          as [[u | e' |] w1] eqn:Hwait.
        -- apply IH; [| right; intro H; discriminate H].
           intros e0 He0. inversion He0; subst. exact Hfail.
        -- exfalso. destruct (i <? retries - 1).
           ++ pose proof (sleep_normal (inject_Z (1000 * 2 ^ i)) w0) as Hs.
              rewrite Hwait in Hs. discriminate Hs.
           ++ discriminate Hwait.
        -- exfalso. destruct (i <? retries - 1).
           ++ pose proof (sleep_normal (inject_Z (1000 * 2 ^ i)) w0) as Hs.
              rewrite Hwait in Hs. discriminate Hs.
           ++ discriminate Hwait.
    + exfalso. unfold bind in Hbody.
      destruct (fetch env m url signal w) as [[r | e0 |] w1] eqn:Hf; try discriminate Hbody.
      * destruct ((resStatus r =? 429) || (resStatus r >=? 500)); discriminate Hbody.
      * unfold fetch in Hf. destruct (isAborted signal w); [discriminate Hf |].
        destruct (suspend env (record (Http m url) w)) as [c1 w2].
        destruct (isAborted signal w2); [discriminate Hf |].
        destruct (http env (clock w)); discriminate Hf.
Qed.

(** One iteration of [fetchWithRetry] whose request is answered with
    status 429 or at least 500. *)
Lemma fetchLoop_refused (url : string) (m : Method) (retries : Z) (signal : option AbortSignal)
  (todo : nat) (i : Z) (lastError : option JsError) (w : World) (res : Response) :
  (forall k, cancelAt env k = false) ->
  isAborted signal w = false ->
  http env (clock w) = Resolved res ->
  resStatus res = 429 \/ 500 <= resStatus res ->
  fetchLoop env url m retries signal (S todo) i lastError w
  = fetchLoop env url m retries signal todo (i + 1) (Some (httpError (resStatus res)))
      (if i <? retries - 1
       then advance w 2 [Http m url; Sleep (inject_Z (1000 * 2 ^ i))]
       else advance w 1 [Http m url]).
Proof.
  intros Hquiet Hab Hres Hbad.
  rewrite fetchLoop_step. unfold bind at 1, signalAborted at 1.
  rewrite Hab. unfold tryCatch, bind at 1.
  rewrite fetch_quiet, Hres by (apply Hquiet || exact Hab).
  replace ((resStatus res =? 429) || (resStatus res >=? 500)) with true
    by (symmetry; apply orb_true_iff; destruct Hbad; [left | right]; lia).
  unfold throw at 1. change (isAbortError (httpError (resStatus res))) with false. cbv iota.
  unfold bind. destruct (i <? retries - 1).
  - rewrite sleep_quiet by apply Hquiet. rewrite advance_advance. reflexivity.
  - reflexivity.
Qed.

Lemma fetchWithRetry_refused (url : string) (m : Method) (signal : option AbortSignal)
  (w : World) :
  (forall k, cancelAt env k = false) ->
  (forall k, exists res, http env k = Resolved res
                         /\ (resStatus res = 429 \/ 500 <= resStatus res)) ->
  isAborted signal w = false ->
  exists res,
    http env (clock w + 4) = Resolved res
    /\ fetchWithRetry env url m 3 signal w
       = (Throw (httpError (resStatus res)), advance w 5 (hostingTrace (Http m url))).
Proof.
  intros Hquiet Hbad Hab. unfold fetchWithRetry.
  change (Z.to_nat 3) with 3%nat.
  destruct (Hbad (clock w)) as [r1 [Hr1 Hb1]].
  rewrite (fetchLoop_refused url m 3 signal 2 0 None w r1 Hquiet Hab Hr1 Hb1).
  change (0 <? 3 - 1) with true. cbv iota.
  set (w1 := advance w 2 _).
  destruct (Hbad (clock w1)) as [r2 [Hr2 Hb2]].
  rewrite (fetchLoop_refused url m 3 signal 1 (0 + 1) _ w1 r2 Hquiet
             (eq_trans (isAborted_advance signal w _ _) Hab) Hr2 Hb2).
  change (0 + 1 <? 3 - 1) with true. cbv iota.
  set (w2 := advance w1 2 _).
  destruct (Hbad (clock w2)) as [r3 [Hr3 Hb3]].
  assert (Hab2 : isAborted signal w2 = false).
  { unfold w2, w1. rewrite !isAborted_advance. exact Hab. }
  rewrite (fetchLoop_refused url m 3 signal 0 (0 + 1 + 1) _ w2 r3 Hquiet Hab2 Hr3 Hb3).
  change (0 + 1 + 1 <? 3 - 1) with false. cbv iota.
  exists r3. split.
  - rewrite <- Hr3. f_equal. unfold w2, w1. cbn [advance clock]. lia.
  - unfold w2, w1. rewrite !advance_advance. cbn [fetchLoop].
    rewrite httpError_kept. reflexivity.
Qed.

(** C10, as amended.  [enablePages] returns normally for every answer of
    the hosting service whose status is neither 429 nor 500 or above (a
    status that is not ok and not 409 is only written to the console).
    An answer with status 429 or at least 500 is retried; when all three
    attempts are answered so, [enablePages] throws the error
    "HTTP <status>" of the last.  Whatever [enablePages] throws is an
    [AbortError], or comes from such an answer or from a rejected request;
    and the Publish pipeline's catch clause rests in [ready] on every error
    that is no [AbortError]. *)
Theorem enablePages_outcomes (config : GitHubConfig) (signal : option AbortSignal) (w : World) :
  (forall res,
      cancelAt env (clock w) = false ->
      isAborted signal w = false ->
      http env (clock w) = Resolved res ->
      resStatus res <> 429 -> resStatus res < 500 ->
      enablePages env config signal w
      = (Normal tt, advance w 1 [Http POST (pagesUrl config)]))
  /\ ((forall k, cancelAt env k = false) ->
      (forall k, exists res, http env k = Resolved res
                             /\ (resStatus res = 429 \/ 500 <= resStatus res)) ->
      isAborted signal w = false ->
      exists res,
        http env (clock w + 4) = Resolved res
        /\ enablePages env config signal w
           = (Throw (httpError (resStatus res)),
              advance w 5 (hostingTrace (Http POST (pagesUrl config)))))
  /\ (forall e w',
        enablePages env config signal w = (Throw e, w') ->
        isAbortError e = true \/ fromService env e)
  /\ (forall e w0,
        isAbortError e = false -> restsIn ready (state (snd (publishCatch e w0)))).
Proof.
  split; [| split; [| split]].
  - intros res Hquiet Hab Hres H429 H500.
    unfold enablePages, fetchWithRetry. change (Z.to_nat 3) with 3%nat.
    rewrite fetchLoop_step. unfold bind at 1. unfold bind at 1, signalAborted at 1.
    rewrite Hab. unfold tryCatch, bind at 1.
    rewrite fetch_quiet, Hres by assumption.
    replace ((resStatus res =? 429) || (resStatus res >=? 500)) with false
      by (symmetry; apply orb_false_iff; split; lia).
    unfold ret at 1. destruct (negb (ok res) && negb (resStatus res =? 409)); reflexivity.
  - intros Hquiet Hbad Hab.
    destruct (fetchWithRetry_refused (pagesUrl config) POST signal w Hquiet Hbad Hab)
      as [res [Hres Hrun]].
    exists res. split; [exact Hres |].
    unfold enablePages, bind. fold (pagesUrl config). rewrite Hrun. reflexivity.
  - intros e w'. unfold enablePages, bind. fold (pagesUrl config).
    destruct (fetchWithRetry env (pagesUrl config) POST 3 signal w) as [[res | e0 |] w0] eqn:Hf.
    + destruct (negb (ok res) && negb (resStatus res =? 409)); intro H; discriminate H.
    + intro H. inversion H; subst.
      apply (fetchLoop_outcomes (pagesUrl config) POST 3 signal (Z.to_nat 3) 0 None w
               (Throw e) w').
      * intros e0 H0. discriminate H0.
      * left. discriminate.
      * exact Hf.
    + intro H. discriminate H.
  - intros e w0 He. unfold publishCatch. rewrite He. cbn. destruct (state w0). repeat split.
Qed.

End Hosting.

(** * The Build pipeline *)

Lemma bind_normal_inv {A B} (m : M A) (f : A -> M B) (w w' : World) (b : B) :
  bind m f w = (Normal b, w') ->
  exists a w1, m w = (Normal a, w1) /\ f a w1 = (Normal b, w').
Proof.
  unfold bind. destruct (m w) as [[a | e |] w1]; intro H; try discriminate H.
  exists a, w1. split; [reflexivity | exact H].
Qed.

Ltac bind_inv H :=
  repeat match type of H with
    | bind _ _ _ = (Normal _, _) =>
        let a := fresh "a" in
        let w := fresh "w" in
        let Hm := fresh "Hm" in
        apply bind_normal_inv in H; destruct H as [a [w [Hm H]]]
    end.

Section Build.

Variable env : Env.

Lemma buildHub_normal (identity : Identity) (signal : AbortSignal) (h : HubPage)
  (updatedHubs acc : list HubPage) (w w' : World) :
  buildHub env identity signal h updatedHubs w = (Normal acc, w') ->
  exists t, acc = updatedHubs ++ [withHtml h t].
Proof.
  unfold buildHub. intro H. bind_inv H.
  destruct a; [discriminate H |]. bind_inv H.
  exists a1. inversion H. reflexivity.
Qed.

Lemma forAcc_buildHub_normal (identity : Identity) (signal : AbortSignal) :
  forall hs acc w acc' w',
    forAcc hs acc (buildHub env identity signal) w = (Normal acc', w') ->
    exists htmls, List.length htmls = List.length hs /\ acc' = acc ++ filled hs htmls.
Proof.
  induction hs as [| h rest IH]; intros acc w acc' w' H.
  - inversion H; subst. exists []. split; [reflexivity |].
    unfold filled. simpl. symmetry. apply app_nil_r.
  - cbn [forAcc] in H. bind_inv H.
    destruct (buildHub_normal _ _ _ _ _ _ _ Hm) as [t Ht]. subst a.
    destruct (IH _ _ _ _ H) as [htmls [Hlen Hacc]].
    exists (t :: htmls). split; [simpl; rewrite Hlen; reflexivity |].
    rewrite Hacc. unfold filled. simpl. rewrite <- app_assoc. reflexivity.
Qed.

Lemma length_filled (hs : list HubPage) (htmls : list string) :
  List.length htmls = List.length hs -> List.length (filled hs htmls) = List.length hs.
Proof.
  intro H. unfold filled. rewrite length_map, length_combine, H. apply Nat.min_id.
Qed.

(** When the [try] block ends normally it has the last word. *)
Lemma handleInitialBuild_normal (w : World) :
  fst (buildTry env (state w) theSignal (snd (startTask w))) = Normal tt ->
  snd (handleInitialBuild env w) = snd (buildTry env (state w) theSignal (snd (startTask w))).
Proof.
  intro Hn. unfold handleInitialBuild.
  pose proof (startTask_normal w) as Hbegin.
  set (w1 := snd (startTask w)) in *.
  unfold handler, bind. rewrite Hbegin. unfold tryCatch.
  destruct (buildTry env (state w) theSignal w1) as [c w2]. cbn [fst] in Hn. subst c.
  reflexivity.
Qed.

(** C8.  When every phase of the Build pipeline succeeds, the strategy
    phase having produced the hubs [hs], the final hub list is the
    synthesized homepage, with the reserved slug "index", followed by
    those hubs with their markup, in order: its length is one more than
    the number of hubs produced; the status is [ready], the ledger is
    empty and the detail is cleared. *)
Theorem build_success (w : World) :
  fst (buildTry env (state w) theSignal (snd (startTask w))) = Normal tt ->
  exists hs rationale htmls indexHtml wStrategy wStrategy',
    generateStrategyAgent env (Some theSignal) wStrategy = (Normal (hs, rationale), wStrategy')
    /\ List.length htmls = List.length hs
    /\ hubs (state (snd (handleInitialBuild env w))) = homeHub indexHtml :: filled hs htmls
    /\ List.length (hubs (state (snd (handleInitialBuild env w)))) = (List.length hs + 1)%nat
    /\ hd_error (hubs (state (snd (handleInitialBuild env w)))) = Some (homeHub indexHtml)
    /\ hubSlug (homeHub indexHtml) = "index"
    /\ restsIn ready (state (snd (handleInitialBuild env w))).
Proof.
  intro Hn. rewrite (handleInitialBuild_normal w Hn).
  destruct (buildTry env (state w) theSignal (snd (startTask w))) as [c wf] eqn:Hrun.
  cbn [fst] in Hn. subst c. cbn [snd].
  unfold buildTry in Hrun. bind_inv Hrun.
  match type of Hrun with
  | (let '(_, _) := ?p in _) _ = _ => destruct p as [hs rationale]
  end.
  bind_inv Hrun.
  match goal with
  | Hloop : forAcc _ _ _ _ = (Normal _, _) |- _ =>
      destruct (forAcc_buildHub_normal _ _ _ _ _ _ _ Hloop) as [htmls [Hlen Hacc]]
  end.
  simpl app in Hacc. subst.
  match goal with
  | Hstrategy : generateStrategyAgent _ _ ?ws = (Normal _, ?ws') |- _ =>
      match type of Hrun with
      | updateState (SetHubs (homeHub ?indexHtml :: _) :: _) _ = _ =>
          exists hs, rationale, htmls, indexHtml, ws, ws'; split; [exact Hstrategy |]
      end
  end.
  split; [exact Hlen |].
  inversion Hrun; subst wf. cbn.
  match goal with |- context [state ?w0] => destruct (state w0) end. cbn.
  split; [reflexivity |].
  split; [rewrite length_filled by exact Hlen; lia |].
  repeat split.
Qed.

End Build.

(** ** The Tune pipeline: what is committed *)

Section TuneCommit.

Variable env : Env.

Lemma tuneTarget_retouch (signal : AbortSignal) (t : Target)
  (updated updated' : list HubPage * list Article) (w w' : World) :
  tuneTarget env signal t updated w = (Normal updated', w') ->
  exists m w1 w2,
    tunePageDesignAgent env (targetHtml t) (Some signal) w1 = (Normal m, w2)
    /\ updated' = retouch t m updated.
Proof.
  unfold tuneTarget. intro H. bind_inv H.
  destruct a; [discriminate H |]. bind_inv H.
  match goal with
  | Hcall : tunePageDesignAgent _ _ _ ?w1 = (Normal ?m, ?w2) |- _ =>
      exists m, w1, w2; split; [exact Hcall |]
  end.
  inversion H. unfold retouch. destruct (targetType t); reflexivity.
Qed.

Lemma forAcc_tuneTarget_retouch (signal : AbortSignal) :
  forall ts updated w updated' w',
    forAcc ts updated (tuneTarget env signal) w = (Normal updated', w') ->
    exists htmls,
      Forall2 (refactoredBy env signal) ts htmls
      /\ updated' = retouchAll ts htmls updated.
Proof.
  induction ts as [| t rest IH]; intros updated w updated' w' H.
  - inversion H; subst. exists []. split; [constructor | reflexivity].
  - cbn [forAcc] in H. bind_inv H.
    destruct (tuneTarget_retouch _ _ _ _ _ _ Hm) as [m [w1 [w2 [Hcall Ha]]]]. subst a.
    destruct (IH _ _ _ _ H) as [htmls [Hall Hacc]].
    exists (m :: htmls). split; [| exact Hacc].
    constructor; [exists w1, w2; exact Hcall | exact Hall].
Qed.


End TuneCommit.

(** * The theorems on the scenarios *)

(** ** The retry policy *)

Lemma envAllFail_retryable :
  forall k, exists e, gen envAllFail k = Rejected e /\ isRetryable e = true.
Proof. intro k. exists rateLimited. split; (vm_compute; reflexivity). Defined.

Lemma envAllFail_offline :
  forall k, exists e, http envAllFail k = Rejected e /\ isAbortError e = false.
Proof. intro k. exists offline. split; (vm_compute; reflexivity). Defined.

Lemma retry_exhaustion_witness :
  apiKey envAllFail <> ""
  /\ 1 <= 5
  /\ (forall k, cancelAt envAllFail k = false)
  /\ (forall k, exists e, gen envAllFail k = Rejected e /\ isRetryable e = true)
  /\ exists e,
       gen envAllFail (clock (worldOf freshState) + 2 * (Z.to_nat 5 - 1)) = Rejected e
       /\ fst (retryWithBackoff envAllFail (generateContent envAllFail HtmlAgent) 5 2000 None
                 (worldOf freshState)) = Throw e
       /\ invocations
            (log (snd (retryWithBackoff envAllFail (generateContent envAllFail HtmlAgent) 5 2000
                         None (worldOf freshState))))
          = (invocations (log (worldOf freshState)) + Z.to_nat 5)%nat
       /\ state (snd (retryWithBackoff envAllFail (generateContent envAllFail HtmlAgent) 5 2000
                        None (worldOf freshState)))
          = state (worldOf freshState).
Proof.
  split; [intro H; discriminate H |].
  split; [lia |].
  split; [(vm_compute; reflexivity) |].
  split; [exact envAllFail_retryable |].
  apply (retry_exhaustion envAllFail HtmlAgent 5 2000 None (worldOf freshState)).
  - intro H; discriminate H.
  - lia.
  - (vm_compute; reflexivity).
  - (vm_compute; reflexivity).
  - exact envAllFail_retryable.
Defined.

(** C3 as stated fails: once the attempts are used up, what is thrown is
    the very error of the last invocation, not an error wrapping it. *)
Lemma exhaustion_rethrows_the_failure :
  gen envAllFail 8 = Rejected rateLimited
  /\ invocations
       (log (snd (retryWithBackoff envAllFail (generateContent envAllFail HtmlAgent) 5 2000 None
                    (worldOf freshState)))) = 5%nat
  /\ fst (retryWithBackoff envAllFail (generateContent envAllFail HtmlAgent) 5 2000 None
            (worldOf freshState)) = Throw rateLimited
  /\ ~ (exists wrapper,
          fst (retryWithBackoff envAllFail (generateContent envAllFail HtmlAgent) 5 2000 None
                 (worldOf freshState)) = Throw wrapper
          /\ wrapper <> rateLimited).
Proof.
  split; [(vm_compute; reflexivity) |].
  split; [(vm_compute; reflexivity) |].
  split; [(vm_compute; reflexivity) |].
  intros [wrapper [Hthrown Hother]]. apply Hother.
  vm_compute in Hthrown. inversion Hthrown. (vm_compute; reflexivity).
Qed.

Lemma cancellation_preempts_retry_witness :
  apiKey envCancel <> ""
  /\ 1 <= 5
  /\ retryWithBackoff envCancel (generateContent envCancel IdentityAgent) 5 2000
       (Some theSignal)
       {| state := freshState; aborted := true; controller := false; clock := 0; rand := 0;
          log := [] |}
     = (Throw canceled,
        {| state := freshState; aborted := true; controller := false; clock := 0; rand := 0;
           log := [] |}).
Proof.
  split; [intro H; discriminate H |].
  split; [lia |].
  apply (cancellation_preempts_retry envCancel (generateContent envCancel IdentityAgent) 5 2000);
    [intro H; discriminate H | lia | (vm_compute; reflexivity)].
Defined.

(** C5 as stated fails: the key is looked at before the token, and the
    token inside the loop only.  With the token set before any attempt,
    a call without an API key fails with the configuration error and a
    call with no attempt allowed with the connection error; neither is
    the [AbortError]. *)
Lemma cancel_without_key_is_a_configuration_error :
  aborted cancelledWorld = true
  /\ apiKey envNoKey = ""
  /\ retryWithBackoff envNoKey (generateContent envNoKey IdentityAgent) 5 2000
       (Some theSignal) cancelledWorld
     = (Throw (newError "APIキーが設定されていません。環境変数 GEMINI_API_KEY を確認してください。"),
        cancelledWorld)
  /\ retryWithBackoff envOk (generateContent envOk IdentityAgent) 0 2000
       (Some theSignal) cancelledWorld
     = (Throw (newError "APIへの接続に失敗しました。時間をおいて再度お試しください。"),
        cancelledWorld)
  /\ fst (retryWithBackoff envNoKey (generateContent envNoKey IdentityAgent) 5 2000
            (Some theSignal) cancelledWorld)
     <> Throw canceled
  /\ fst (retryWithBackoff envOk (generateContent envOk IdentityAgent) 0 2000
            (Some theSignal) cancelledWorld)
     <> Throw canceled.
Proof.
  split; [reflexivity |].
  split; [reflexivity |].
  split; [(vm_compute; reflexivity) |].
  split; [(vm_compute; reflexivity) |].
  split; intro H; vm_compute in H; discriminate H.
Qed.

(** The user cancels during an attempt that fails with a retryable error:
    one invocation, no wait, no retry, and the [AbortError]. *)
Example cancel_seen_after_failed_attempt :
  isRetryable rateLimited = true
  /\ fst (retryWithBackoff envCancelDuringFailure
            (generateContent envCancelDuringFailure IdentityAgent) 5 2000 (Some theSignal)
            (snd (startTask (worldOf buildingState))))
     = Throw canceled
  /\ log (snd (retryWithBackoff envCancelDuringFailure
                 (generateContent envCancelDuringFailure IdentityAgent) 5 2000 (Some theSignal)
                 (snd (startTask (worldOf buildingState)))))
     = [Generate IdentityAgent].
Proof. vm_compute. repeat split. Qed.

(** Without an API key nothing is attempted. *)
Example missing_key_fails_before_any_attempt :
  (exists e, fst (retryWithBackoff envNoKey (generateContent envNoKey IdentityAgent) 5 2000 None
                    (worldOf freshState)) = Throw e
             /\ name e = "Error")
  /\ log (snd (retryWithBackoff envNoKey (generateContent envNoKey IdentityAgent) 5 2000 None
                 (worldOf freshState))) = [].
Proof. split; [eexists; split; (vm_compute; reflexivity) | vm_compute; reflexivity]. Qed.

Lemma retry_policies_witness :
  apiKey envAllFail <> ""
  /\ (forall k, cancelAt envAllFail k = false)
  /\ isAborted (Some theSignal) (worldOf builtState) = false
  /\ log (snd (generateIdentityAgent envAllFail (Some theSignal) (worldOf builtState)))
     = log (worldOf builtState) ++ defaultPolicyTrace (Generate IdentityAgent)
  /\ log (snd (enablePages envAllFail exampleConfig (Some theSignal) (worldOf builtState)))
     = log (worldOf builtState) ++ hostingTrace (Http POST (pagesUrl exampleConfig)).
Proof.
  split; [intro H; discriminate H |].
  split; [(vm_compute; reflexivity) |].
  split; [(vm_compute; reflexivity) |].
  pose proof (retry_policies envAllFail (worldOf builtState) (Some theSignal)
                ltac:(intro H; discriminate H) ltac:((vm_compute; reflexivity)) ltac:((vm_compute; reflexivity))
                envAllFail_retryable envAllFail_offline) as H.
  destruct H as [_ [Hid [_ [_ [_ [_ [_ [_ [_ [_ [_ [_ [Hpages _]]]]]]]]]]]]].
  split; [exact Hid | exact (Hpages exampleConfig)].
Defined.

(** C4 as stated fails: a call of the hosting service is retried with
    another policy, three attempts with waits of 1000 ms and 2000 ms. *)
Lemma hosting_calls_follow_another_policy :
  log (snd (handlePublish envAllFail (worldOf builtState))) = hostingTrace (Http GET repoUrl)
  /\ waits (log (snd (handlePublish envAllFail (worldOf builtState)))) = [1000%Q; 2000%Q]
  /\ log (snd (handlePublish envAllFail (worldOf builtState)))
     <> defaultPolicyTrace (Http GET repoUrl).
Proof.
  split; [(vm_compute; reflexivity) |].
  split; [(vm_compute; reflexivity) |].
  intro H. vm_compute in H. discriminate H.
Qed.

(** ** The workflow table *)

(** C6 as stated fails: [tuning_design] lies in the status sets of two
    steps. *)
Lemma tuning_design_in_two_steps :
  List.length (matchingSteps tuning_design) = 2%nat
  /\ ~ (forall s, (List.length (matchingSteps s) <= 1)%nat).
Proof.
  split; [(vm_compute; reflexivity) |].
  intro H. specialize (H tuning_design). vm_compute in H. lia.
Qed.

(** ** The task ledger *)

Lemma setStatus_frame_witness :
  setStatusIn [task "a" "first" pending; task "b" "second" pending] "zz" running
  = [task "a" "first" pending; task "b" "second" pending]
  /\ setStatusIn [task "a" "first" pending; task "b" "second" pending] "b" running
     = [task "a" "first" pending] ++ withTaskStatus (task "b" "second" pending) running :: [].
Proof.
  pose proof (setStatus_frame [task "a" "first" pending; task "b" "second" pending]) as H.
  split.
  - apply (H "zz" running). intros t [Ht | [Ht | []]]; subst t; intro Hid; discriminate Hid.
  - apply (H "b" running) with (before := [task "a" "first" pending]) (after := []).
    + (vm_compute; reflexivity).
    + (vm_compute; reflexivity).
    + intros u [Hu | []]. subst u. intro Hid. discriminate Hid.
Defined.

(** C9 as stated fails: the ledger of a Tune run over a hub and an
    article that bear the same id holds two tasks with the id
    ["tune-p1"]; one call of [setStatus] with that id changes both, not
    exactly one. *)
Lemma setStatus_changes_every_match :
  map taskId (map tuneTask (targetsToProcess twinState "all")) = ["tune-p1"; "tune-p1"]
  /\ map taskStatus (map tuneTask (targetsToProcess twinState "all")) = [pending; pending]
  /\ map taskStatus
       (setStatusIn (map tuneTask (targetsToProcess twinState "all")) "tune-p1" running)
     = [running; running]
  /\ setStatusIn (map tuneTask (targetsToProcess twinState "all")) "tune-p1" running
     <> [withTaskStatus (tuneTask (hubTarget (page "p1" "about" "<p>about</p>"))) running;
         tuneTask (articleTarget twinArticle)].
Proof.
  split; [(vm_compute; reflexivity) |].
  split; [(vm_compute; reflexivity) |].
  split; [(vm_compute; reflexivity) |].
  intro H. vm_compute in H. discriminate H.
Qed.

(** ** The runners *)

Lemma envOk_gen_calm : forall k e, gen envOk k = Rejected e -> isAbortError e = false.
Proof. intros k e H. discriminate H. Defined.

Lemma envOk_http_calm : forall k e, http envOk k = Rejected e -> isAbortError e = false.
Proof. intros k e H. discriminate H. Defined.


(** A cancellation that arrives while a request of the generation
    service is pending is seen only at the next poll; the statements
    between the two run after the cancel handler has reset the state. *)
Example cancel_during_request_leaves_phase_status :
  status (state (snd (handleInitialBuild envCancel (worldOf freshState)))) = generating_strategy
  /\ aborted (snd (handleInitialBuild envCancel (worldOf freshState))) = true
  /\ log (snd (handleInitialBuild envCancel (worldOf freshState))) = [Generate IdentityAgent].
Proof. vm_compute. repeat split. Qed.


(** A Tune run over the two hubs in which every call succeeds: both get
    the new markup. *)
Example tune_commits_every_page :
  map html (hubs (state (snd (handleTuneDesign envOk "dark mode" "all" (worldOf builtState)))))
  = [Some "<p>new</p>"; Some "<p>new</p>"].
Proof. vm_compute. reflexivity. Qed.

(** A cancel that arrives while the request for the last target is
    pending is not noticed: the request is answered, the loop is over, and
    the pages are committed although the signal is aborted. *)
Example cancel_during_last_request_still_commits :
  aborted (snd (handleTuneDesign envCancelLast "dark mode" "all" (worldOf builtState))) = true
  /\ fst (tuneTry envCancelLast (state (worldOf builtState)) "all" theSignal
            (snd (tuneBegin (worldOf builtState)))) = Normal tt
  /\ map html
       (hubs (state (snd (handleTuneDesign envCancelLast "dark mode" "all"
                            (worldOf builtState)))))
     = [Some "<p>new</p>"; Some "<p>new</p>"]
  /\ restsIn ready
       (state (snd (handleTuneDesign envCancelLast "dark mode" "all" (worldOf builtState)))).
Proof. vm_compute. repeat split. Qed.


Lemma build_success_witness :
  fst (buildTry envOk (state (worldOf freshState)) theSignal
         (snd (startTask (worldOf freshState)))) = Normal tt
  /\ exists hs rationale htmls indexHtml wStrategy wStrategy',
       generateStrategyAgent envOk (Some theSignal) wStrategy
       = (Normal (hs, rationale), wStrategy')
       /\ List.length htmls = List.length hs
       /\ hubs (state (snd (handleInitialBuild envOk (worldOf freshState))))
          = homeHub indexHtml :: filled hs htmls
       /\ List.length (hubs (state (snd (handleInitialBuild envOk (worldOf freshState)))))
          = (List.length hs + 1)%nat
       /\ hd_error (hubs (state (snd (handleInitialBuild envOk (worldOf freshState)))))
          = Some (homeHub indexHtml)
       /\ hubSlug (homeHub indexHtml) = "index"
       /\ restsIn ready (state (snd (handleInitialBuild envOk (worldOf freshState)))).
Proof.
  split; [(vm_compute; reflexivity) |].
  apply (build_success envOk (worldOf freshState)). (vm_compute; reflexivity).
Defined.

Lemma createRepo_iff_absent_witness :
  repo (githubConfig (state (worldOf builtState))) <> ""
  /\ token (githubConfig (state (worldOf builtState))) <> ""
  /\ log (worldOf builtState) = []
  /\ (exists before after,
        log (snd (handlePublish envAbsent (worldOf builtState)))
        = before ++ createRepoRequest :: after
        /\ forall e, In e before -> ~ isUpload e)
  /\ ~ In createRepoRequest (log (snd (handlePublish envOk (worldOf builtState)))).
Proof.
  split; [intro H; discriminate H |].
  split; [intro H; discriminate H |].
  split; [(vm_compute; reflexivity) |].
  split.
  - apply (createRepo_iff_absent envAbsent (worldOf builtState));
      [intro H; discriminate H | intro H; discriminate H | (vm_compute; reflexivity) | (vm_compute; reflexivity)].
  - apply (proj2 (createRepo_iff_absent envOk (worldOf builtState)
                    ltac:(intro H; discriminate H) ltac:(intro H; discriminate H)
                    ltac:((vm_compute; reflexivity))) "main").
    (vm_compute; reflexivity).
Defined.

(** ** Enabling the pages *)

Lemma enablePages_outcomes_witness :
  enablePages envOk exampleConfig (Some theSignal) (worldOf builtState)
  = (Normal tt, advance (worldOf builtState) 1 [Http POST (pagesUrl exampleConfig)]).
Proof.
  apply (proj1 (enablePages_outcomes envOk exampleConfig (Some theSignal) (worldOf builtState))
           {| resStatus := 200;
              resBody := Some {| bodyMessage := "message"; bodySha := "abc123";
                                 bodyDefaultBranch := "main"; bodyTree := [];
                                 bodyContent := "<p>stored</p>" |} |});
    [(vm_compute; reflexivity) | (vm_compute; reflexivity) | (vm_compute; reflexivity) | intro H; discriminate H | (vm_compute; reflexivity)].
Defined.

(** C10 as stated fails: every request of the run is answered (no
    transport failure, no cancellation), the call that enables the pages
    is answered 500 three times, [enablePages] throws, and the run ends in
    [ready], not [deployed]. *)
Lemma server_error_on_pages_fails_the_run :
  (forall k, cancelAt envServerError k = false)
  /\ (forall k, exists res, http envServerError k = Resolved res)
  /\ skipn 8 (log (snd (handlePublish envServerError (worldOf builtState))))
     = hostingTrace (Http POST (pagesUrl exampleConfig))
  /\ fst (enablePages envServerError exampleConfig (Some theSignal)
            (advance (worldOf builtState) 8 []))
     = Throw (httpError 500)
  /\ status (state (snd (handlePublish envServerError (worldOf builtState)))) = ready
  /\ status (state (snd (handlePublish envServerError (worldOf builtState)))) <> deployed.
Proof.
  split; [(vm_compute; reflexivity) |].
  split.
  { intro k. unfold envServerError, http. destruct (k <? 8)%nat; eexists; (vm_compute; reflexivity). }
  split; [(vm_compute; reflexivity) |].
  split; [(vm_compute; reflexivity) |].
  split; [(vm_compute; reflexivity) |].
  intro H. vm_compute in H. discriminate H.
Qed.

(** * The retry loops, attempt by attempt *)

Section RetryMore.

Variable env : Env.

Lemma policyTrace_step (req : Entry) (n : nat) (delay : Q) :
  policyTrace req (S (S n)) delay
  = req :: Sleep delay :: policyTrace req (S n) (Qred (delay * (3 # 2))).
Proof. reflexivity. Qed.

(** After [k] attempts that fail with a retryable error, the next
    attempt decides when it succeeds or fails with another error. *)
Lemma retryLoop_decisive (a : Agent) (maxRetries : Z) (signal : option AbortSignal) :
  (forall j, cancelAt env j = false) ->
  forall (k todo : nat) (i : Z) (delay : Q) (w : World),
    isAborted signal w = false ->
    maxRetries = i + Z.of_nat (S todo) ->
    (k <= todo)%nat ->
    (forall j, (j < k)%nat ->
       exists e, gen env (clock w + 2 * j) = Rejected e /\ isRetryable e = true) ->
    retryLoop env (generateContent env a) maxRetries signal (S todo) i delay w
    = match gen env (clock w + 2 * k) with
      | Resolved r =>
          (Normal r, advance w (2 * k + 1) (policyTrace (Generate a) (S k) delay))
      | Rejected e =>
          if isRetryable e
          then retryLoop env (generateContent env a) maxRetries signal (S todo) i delay w
          else (Throw e, advance w (2 * k + 1) (policyTrace (Generate a) (S k) delay))
      end.
Proof.
  intros Hquiet k. induction k as [| k IH]; intros todo i delay w Hab Hmax Hk Hfail.
  - rewrite Nat.mul_0_r, Nat.add_0_r.
    destruct (gen env (clock w)) as [r | e] eqn:Hg.
    + rewrite retryLoop_step. unfold bind, signalAborted, tryCatch.
      rewrite Hab, generateContent_quiet, Hg by apply Hquiet. reflexivity.
    + destruct (isRetryable e) eqn:Hre; [reflexivity |].
      rewrite retryLoop_step. unfold bind, signalAborted, tryCatch, throw.
      rewrite Hab, generateContent_quiet, Hg by apply Hquiet.
      rewrite isAborted_advance, Hab, Hre. reflexivity.
  - destruct todo as [| todo']; [lia |].
    destruct (Hfail O ltac:(lia)) as [e0 [He0 Hre0]].
    rewrite Nat.mul_0_r, Nat.add_0_r in He0.
    assert (Hstep :
      retryLoop env (generateContent env a) maxRetries signal (S (S todo')) i delay w
      = retryLoop env (generateContent env a) maxRetries signal (S todo') (i + 1)
          (Qred (delay * (3 # 2))) (advance w 2 [Generate a; Sleep delay])).
    { rewrite retryLoop_step. unfold bind at 1, signalAborted at 1, tryCatch at 1.
      rewrite Hab, generateContent_quiet, He0 by apply Hquiet.
      unfold bind at 1, signalAborted at 1.
      rewrite isAborted_advance, Hab, Hre0.
      replace (i =? maxRetries - 1) with false by (symmetry; apply Z.eqb_neq; lia).
      cbn [negb orb]. unfold bind at 1.
      rewrite sleep_quiet by apply Hquiet.
      rewrite advance_advance. reflexivity. }
    set (w1 := advance w 2 [Generate a; Sleep delay]) in *.
    assert (Hclock : forall j, (clock w1 + 2 * j = clock w + 2 * S j)%nat)
      by (intro j; unfold w1; cbn [advance clock]; lia).
    specialize (IH todo' (i + 1) (Qred (delay * (3 # 2))) w1).
    rewrite Hclock in IH.
    rewrite Hstep at 1.
    rewrite IH.
    + destruct (gen env (clock w + 2 * S k)) as [r | e].
      * unfold w1. rewrite advance_advance, policyTrace_step.
        f_equal. f_equal. lia.
      * destruct (isRetryable e); [symmetry; exact Hstep |].
        unfold w1. rewrite advance_advance, policyTrace_step.
        f_equal. f_equal. lia.
    + unfold w1. rewrite isAborted_advance. exact Hab.
    + lia.
    + lia.
    + intros j Hj. rewrite Hclock. apply Hfail. lia.
Qed.


(** The requests and waits a service call adds to the trace. *)
Lemma generateContent_log (a : Agent) (w : World) :
  log (snd (generateContent env a w)) = log w ++ [Generate a].
Proof.
  unfold generateContent.
  pose proof (suspend_log env (record (Generate a) w)) as Hl.
  destruct (suspend env (record (Generate a) w)) as [c w'].
  cbn [snd] in Hl. destruct (gen env (clock w)); exact Hl.
Qed.

Lemma sleep_log (ms : Q) (w : World) : log (snd (sleep env ms w)) = log w ++ [Sleep ms].
Proof. unfold sleep. rewrite suspend_log. reflexivity. Qed.

Lemma fetch_log (m : Method) (url : string) (signal : option AbortSignal) (w : World) :
  log (snd (fetch env m url signal w)) = log w
  \/ log (snd (fetch env m url signal w)) = log w ++ [Http m url].
Proof.
  unfold fetch. destruct (isAborted signal w); [left; reflexivity |].
  pose proof (suspend_log env (record (Http m url) w)) as Hl.
  destruct (suspend env (record (Http m url) w)) as [c w'].
  cbn [snd] in Hl. right.
  destruct (isAborted signal w'); [exact Hl |].
  destruct (http env (clock w)); exact Hl.
Qed.

Lemma startsWith_nil {A} (t : list A) : startsWith [] t.
Proof. exists t. reflexivity. Qed.

Lemma startsWith_cons {A} (x : A) (l t : list A) : startsWith l t -> startsWith (x :: l) (x :: t).
Proof. intros [rest H]. exists rest. rewrite H. reflexivity. Qed.

(** Whatever the service answers and whenever the user cancels, the loop
    adds to the trace a prefix of its attempts and waits. *)
Lemma retryLoop_trace (a : Agent) (maxRetries : Z) (signal : option AbortSignal) :
  forall (todo : nat) (i : Z) (delay : Q) (w : World),
    maxRetries = i + Z.of_nat todo ->
    exists l,
      log (snd (retryLoop env (generateContent env a) maxRetries signal todo i delay w))
      = log w ++ l
      /\ startsWith l (policyTrace (Generate a) todo delay).
Proof.
  induction todo as [| todo IH]; intros i delay w Hmax.
  - exists []. split; [cbn; symmetry; apply app_nil_r | apply startsWith_nil].
  - rewrite retryLoop_step. unfold bind at 1, signalAborted at 1.
    destruct (isAborted signal w).
    { exists []. split; [cbn; symmetry; apply app_nil_r | apply startsWith_nil]. }
    unfold tryCatch.
    pose proof (generateContent_log a w) as Hg.
    destruct (generateContent env a w) as [[r | e |] w1]; cbn [snd] in Hg.
    + exists [Generate a]. split; [exact Hg |].
      destruct todo; [exists []; reflexivity | rewrite policyTrace_step; exists (Sleep delay :: policyTrace (Generate a) (S todo) (Qred (delay * (3 # 2)))); reflexivity].
    + unfold bind at 1, signalAborted at 1.
      assert (Hone : startsWith [Generate a] (policyTrace (Generate a) (S todo) delay)).
      { destruct todo; [exists []; reflexivity |].
        rewrite policyTrace_step. eexists. reflexivity. }
      destruct (isAborted signal w1); [exists [Generate a]; split; [exact Hg | exact Hone] |].
      destruct (negb (isRetryable e) || (i =? maxRetries - 1)) eqn:Hstop;
        [exists [Generate a]; split; [exact Hg | exact Hone] |].
      apply orb_false_elim in Hstop. destruct Hstop as [_ Hlast].
      apply Z.eqb_neq in Hlast.
      destruct todo as [| todo']; [lia |].
      unfold bind.
      pose proof (sleep_log delay w1) as Hs.
      destruct (sleep env delay w1) as [[u | e' |] w2]; cbn [snd] in Hs.
      * destruct (IH (i + 1) (Qred (delay * (3 # 2))) w2 ltac:(lia)) as [l [Hl Hp]].
        exists (Generate a :: Sleep delay :: l). split.
        -- rewrite Hl, Hs, Hg, <- !app_assoc. reflexivity.
        -- rewrite policyTrace_step. apply startsWith_cons, startsWith_cons. exact Hp.
      * exists [Generate a; Sleep delay]. split; [cbn [snd]; rewrite Hs, Hg, <- app_assoc; reflexivity |].
        rewrite policyTrace_step. apply startsWith_cons, startsWith_cons, startsWith_nil.
      * exists [Generate a; Sleep delay]. split; [cbn [snd]; rewrite Hs, Hg, <- app_assoc; reflexivity |].
        rewrite policyTrace_step. apply startsWith_cons, startsWith_cons, startsWith_nil.
    + exists [Generate a]. split; [exact Hg |].
      destruct todo; [exists []; reflexivity | rewrite policyTrace_step; eexists; reflexivity].
Qed.

Lemma invocations_startsWith (l t : list Entry) :
  startsWith l t -> (invocations l <= invocations t)%nat.
Proof. intros [rest H]. rewrite H, invocations_app. lia. Qed.

Lemma waits_app (l l' : list Entry) : waits (l ++ l') = waits l ++ waits l'.
Proof.
  induction l as [| e rest IH]; [reflexivity |].
  destruct e; simpl; rewrite IH; reflexivity.
Qed.

Lemma length_waits_policyTrace (req : Entry) (n : nat) (delay : Q) :
  isSleep req = false -> List.length (waits (policyTrace req n delay)) = (n - 1)%nat.
Proof.
  intro Hreq.
  assert (Hw : forall l, waits (req :: l) = waits l)
    by (intro l; destruct req; [reflexivity | reflexivity | discriminate Hreq]).
  revert delay. induction n as [| n IH]; intro delay; [reflexivity |].
  destruct n as [| n']; [cbn [policyTrace]; rewrite Hw; reflexivity |].
  rewrite policyTrace_step, Hw. cbn [waits List.length]. rewrite IH. lia.
Qed.

(** The waits of a whole policy add up to a geometric sum. *)
Lemma totalWait_policyTrace (req : Entry) (n : nat) (delay : Q) :
  isSleep req = false ->
  (totalWait (policyTrace req (S n) delay) == 2 * delay * ((3 # 2) ^ Z.of_nat n - 1))%Q.
Proof.
  intro Hreq.
  assert (Hw : forall l, waits (req :: l) = waits l)
    by (intro l; destruct req; [reflexivity | reflexivity | discriminate Hreq]).
  unfold totalWait. revert delay. induction n as [| n IH]; intro delay.
  - cbn [policyTrace]. rewrite Hw. simpl. ring.
  - rewrite policyTrace_step, Hw. cbn [waits fold_right].
    rewrite IH, Qred_correct.
    rewrite Nat2Z.inj_succ, <- Z.add_1_r.
    rewrite Qpower_plus by (intro H; discriminate H). simpl (_ ^ 1)%Q. ring.
Qed.


Lemma hostingPolicyTrace_step (req : Entry) (n : nat) (i : Z) :
  hostingPolicyTrace req (S (S n)) i
  = req :: Sleep (inject_Z (1000 * 2 ^ i)) :: hostingPolicyTrace req (S n) (i + 1).
Proof. reflexivity. Qed.

(** One iteration of [fetchWithRetry] whose request fails. *)
Lemma fetchLoop_retried (url : string) (m : Method) (retries : Z) (signal : option AbortSignal)
  (todo : nat) (i : Z) (lastError : option JsError) (w : World) :
  (forall k, cancelAt env k = false) ->
  isAborted signal w = false ->
  retried (http env (clock w)) = true ->
  fetchLoop env url m retries signal (S todo) i lastError w
  = fetchLoop env url m retries signal todo (i + 1) (Some (failureOf (http env (clock w))))
      (if i <? retries - 1
       then advance w 2 [Http m url; Sleep (inject_Z (1000 * 2 ^ i))]
       else advance w 1 [Http m url]).
Proof.
  intros Hquiet Hab Hre.
  destruct (http env (clock w)) as [res | e] eqn:Ho; cbn [retried failureOf] in *.
  - apply fetchLoop_refused; [exact Hquiet | exact Hab | exact Ho |].
    apply orb_prop in Hre. destruct Hre as [H | H]; [left | right]; lia.
  - apply fetchLoop_rejected; [exact Hquiet | exact Hab | exact Ho |].
    apply negb_true_iff. exact Hre.
Qed.

(** One iteration whose request is answered for good, or aborted. *)
Lemma fetchLoop_settled (url : string) (m : Method) (retries : Z) (signal : option AbortSignal)
  (todo : nat) (i : Z) (lastError : option JsError) (w : World) :
  (forall k, cancelAt env k = false) ->
  isAborted signal w = false ->
  retried (http env (clock w)) = false ->
  fetchLoop env url m retries signal (S todo) i lastError w
  = match http env (clock w) with
    | Resolved res => (Normal res, advance w 1 [Http m url])
    | Rejected e => (Throw e, advance w 1 [Http m url])
    end.
Proof.
  intros Hquiet Hab Hre.
  rewrite fetchLoop_step. unfold bind at 1, signalAborted at 1.
  rewrite Hab. unfold tryCatch, bind at 1.
  rewrite fetch_quiet by (apply Hquiet || exact Hab).
  destruct (http env (clock w)) as [res | e]; cbn [retried] in Hre.
  - rewrite Hre. reflexivity.
  - apply negb_false_iff in Hre. rewrite Hre. reflexivity.
Qed.

(** After [k] failed attempts, the next one decides unless it fails too;
    the last attempt decides anyway. *)
Lemma fetchLoop_decisive (url : string) (m : Method) (retries : Z) (signal : option AbortSignal) :
  (forall j, cancelAt env j = false) ->
  forall (k todo : nat) (i : Z) (lastError : option JsError) (w : World),
    isAborted signal w = false ->
    retries = i + Z.of_nat (S todo) ->
    (k <= todo)%nat ->
    (forall j, (j < k)%nat -> retried (http env (clock w + 2 * j)) = true) ->
    fetchLoop env url m retries signal (S todo) i lastError w
    = let o := http env (clock w + 2 * k) in
      let w' := advance w (2 * k + 1) (hostingPolicyTrace (Http m url) (S k) i) in
      if retried o
      then if (k =? todo)%nat
           then (Throw (finalError (failureOf o)), w')
           else fetchLoop env url m retries signal (S todo) i lastError w
      else match o with
           | Resolved res => (Normal res, w')
           | Rejected e => (Throw e, w')
           end.
Proof.
  intros Hquiet k. induction k as [| k IH]; intros todo i lastError w Hab Hmax Hk Hfail.
  - rewrite Nat.mul_0_r, Nat.add_0_r. cbv zeta.
    destruct (retried (http env (clock w))) eqn:Hre.
    + destruct todo as [| todo']; [| reflexivity].
      cbn [Nat.eqb].
      rewrite fetchLoop_retried by assumption.
      replace (i <? retries - 1) with false by (symmetry; apply Z.ltb_ge; lia).
      cbn [fetchLoop]. unfold finalError.
      destruct (String.eqb (name (failureOf (http env (clock w)))) "TypeError"
                || messageIncludes (failureOf (http env (clock w))) "Failed to fetch");
        reflexivity.
    + apply fetchLoop_settled; assumption.
  - destruct todo as [| todo']; [lia |].
    pose proof (Hfail O ltac:(lia)) as Hre0.
    rewrite Nat.mul_0_r, Nat.add_0_r in Hre0.
    assert (Hstep :
      fetchLoop env url m retries signal (S (S todo')) i lastError w
      = fetchLoop env url m retries signal (S todo') (i + 1)
          (Some (failureOf (http env (clock w))))
          (advance w 2 [Http m url; Sleep (inject_Z (1000 * 2 ^ i))])).
    { rewrite fetchLoop_retried by assumption.
      replace (i <? retries - 1) with true by (symmetry; apply Z.ltb_lt; lia).
      reflexivity. }
    set (w1 := advance w 2 [Http m url; Sleep (inject_Z (1000 * 2 ^ i))]) in *.
    assert (Hclock : forall j, (clock w1 + 2 * j = clock w + 2 * S j)%nat)
      by (intro j; unfold w1; cbn [advance clock]; lia).
    specialize (IH todo' (i + 1) (Some (failureOf (http env (clock w)))) w1).
    rewrite Hclock in IH. cbv zeta in IH. cbv zeta.
    rewrite Hstep at 1.
    rewrite IH.
    + cbn [Nat.eqb].
      replace (advance w1 (2 * k + 1) (hostingPolicyTrace (Http m url) (S k) (i + 1)))
        with (advance w (2 * S k + 1) (hostingPolicyTrace (Http m url) (S (S k)) i)).
      * destruct (retried (http env (clock w + 2 * S k))); [| reflexivity].
        destruct (k =? todo')%nat; [reflexivity | symmetry; exact Hstep].
      * unfold w1. rewrite advance_advance, hostingPolicyTrace_step.
        f_equal. lia.
    + unfold w1. rewrite isAborted_advance. exact Hab.
    + lia.
    + lia.
    + intros j Hj. rewrite Hclock. apply Hfail. lia.
Qed.

(** A request that is not aborted is in the trace. *)
Lemma fetch_recorded (m : Method) (url : string) (signal : option AbortSignal)
  (w w1 : World) (c : Completion Response) :
  fetch env m url signal w = (c, w1) ->
  match c with
  | Normal _ => log w1 = log w ++ [Http m url]
  | Throw e => isAbortError e = false -> log w1 = log w ++ [Http m url]
  | Return => False
  end.
Proof.
  unfold fetch. destruct (isAborted signal w).
  { intro H. inversion H; subst. intro Hne. discriminate Hne. }
  pose proof (suspend_log env (record (Http m url) w)) as Hl.
  destruct (suspend env (record (Http m url) w)) as [c0 w0]. cbn [snd] in Hl.
  destruct (isAborted signal w0).
  { intro H. inversion H; subst. intro Hne. discriminate Hne. }
  destruct (http env (clock w)); intro H; inversion H; subst; [exact Hl | intros _; exact Hl].
Qed.

(** Whatever the service answers and whenever the user cancels, the loop
    adds to the trace a prefix of its attempts and waits. *)
Lemma fetchLoop_trace (url : string) (m : Method) (retries : Z) (signal : option AbortSignal) :
  forall (todo : nat) (i : Z) (lastError : option JsError) (w : World),
    retries = i + Z.of_nat todo ->
    exists l,
      log (snd (fetchLoop env url m retries signal todo i lastError w)) = log w ++ l
      /\ startsWith l (hostingPolicyTrace (Http m url) todo i).
Proof.
  induction todo as [| todo IH]; intros i lastError w Hmax.
  - exists []. split; [| apply startsWith_nil].
    cbn [fetchLoop]. rewrite app_nil_r.
    destruct lastError as [e |]; [| reflexivity].
    destruct (String.eqb (name e) "TypeError" || messageIncludes e "Failed to fetch");
      reflexivity.
  - rewrite fetchLoop_step. unfold bind at 1, signalAborted at 1.
    destruct (isAborted signal w).
    { exists []. split; [cbn; symmetry; apply app_nil_r | apply startsWith_nil]. }
    assert (Hone : startsWith [Http m url] (hostingPolicyTrace (Http m url) (S todo) i)).
    { destruct todo; [exists []; reflexivity |].
      rewrite hostingPolicyTrace_step. eexists. reflexivity. }
    assert (Hsettle : forall w1,
               log w1 = log w \/ log w1 = log w ++ [Http m url] ->
               exists l, log w1 = log w ++ l
                         /\ startsWith l (hostingPolicyTrace (Http m url) (S todo) i)).
    { intros w1 [H | H].
      - exists []. split; [rewrite H; symmetry; apply app_nil_r | apply startsWith_nil].
      - exists [Http m url]. split; [exact H | exact Hone]. }
    assert (Hretry : forall e w1,
               log w1 = log w ++ [Http m url] ->
               exists l,
                 log (snd (((if i <? retries - 1
                             then sleep env (inject_Z (1000 * 2 ^ i)) else ret tt) ;;
                            fetchLoop env url m retries signal todo (i + 1) (Some e)) w1))
                 = log w ++ l
                 /\ startsWith l (hostingPolicyTrace (Http m url) (S todo) i)).
    { intros e w1 Hrec. unfold bind.
      destruct (i <? retries - 1) eqn:Hlt.
      - apply Z.ltb_lt in Hlt. destruct todo as [| todo']; [lia |].
        pose proof (sleep_log (inject_Z (1000 * 2 ^ i)) w1) as Hs.
        pose proof (sleep_normal env (inject_Z (1000 * 2 ^ i)) w1) as Hn.
        destruct (sleep env (inject_Z (1000 * 2 ^ i)) w1) as [[u | e' |] w2];
          try discriminate Hn. cbn [snd] in Hs.
        destruct (IH (i + 1) (Some e) w2 ltac:(lia)) as [l [Hl Hp]].
        exists (Http m url :: Sleep (inject_Z (1000 * 2 ^ i)) :: l). split.
        + rewrite Hl, Hs, Hrec, <- !app_assoc. reflexivity.
        + rewrite hostingPolicyTrace_step. apply startsWith_cons, startsWith_cons. exact Hp.
      - apply Z.ltb_ge in Hlt. destruct todo as [| todo']; [| lia].
        unfold ret at 1. exists [Http m url]. split; [| exact Hone].
        cbn [fetchLoop].
        destruct (String.eqb (name e) "TypeError" || messageIncludes e "Failed to fetch");
          exact Hrec. }
    unfold tryCatch, bind at 1.
    pose proof (fetch_log m url signal w) as Hf.
    pose proof (fetch_recorded m url signal w) as Hrec.
    destruct (fetch env m url signal w) as [[res | e |] w1]; cbn [snd] in Hf;
      specialize (Hrec _ _ eq_refl); cbn beta iota in Hrec.
    + destruct ((resStatus res =? 429) || (resStatus res >=? 500)).
      * unfold throw at 1. change (isAbortError (httpError (resStatus res))) with false.
        cbv iota. apply Hretry. exact Hrec.
      * apply Hsettle. exact Hf.
    + destruct (isAbortError e); [apply Hsettle; exact Hf |].
      apply Hretry. apply Hrec. reflexivity.
    + destruct Hrec.
Qed.

(** X1.  [retryWithBackoff] never invokes the operation when the API key
    is missing or when no attempt is allowed: it throws the configuration
    error, respectively the connection error, and leaves the world as it
    was, whatever the signal says. *)
Theorem retry_refuses_without_attempt {T} (operation : M T) (N : Z) (initialDelay : Q)
  (signal : option AbortSignal) (w : World) :
  (apiKey env = "" ->
   retryWithBackoff env operation N initialDelay signal w
   = (Throw (newError "APIキーが設定されていません。環境変数 GEMINI_API_KEY を確認してください。"), w))
  /\ (apiKey env <> "" -> N <= 0 ->
      retryWithBackoff env operation N initialDelay signal w
      = (Throw (newError "APIへの接続に失敗しました。時間をおいて再度お試しください。"), w)).
Proof.
  unfold retryWithBackoff. split.
  - intro Hkey. rewrite Hkey. reflexivity.
  - intros Hkey HN.
    destruct (String.eqb_spec (apiKey env) "") as [Hk | _]; [contradiction |].
    replace (Z.to_nat N) with 0%nat by lia. reflexivity.
Qed.

(** X2.  The first attempt of [retryWithBackoff], for any operation: a
    result is returned at once, also when the signal was aborted while
    the operation ran (it is not looked at after a success); a failure
    that is not retryable is thrown at once, as it is, without a wait. *)
Theorem retry_first_attempt {T} (operation : M T) (N : Z) (initialDelay : Q)
  (signal : option AbortSignal) (w w' : World) :
  apiKey env <> "" ->
  1 <= N ->
  isAborted signal w = false ->
  (forall r, operation w = (Normal r, w') ->
     retryWithBackoff env operation N initialDelay signal w = (Normal r, w'))
  /\ (forall e, operation w = (Throw e, w') ->
        isAborted signal w' = false ->
        isRetryable e = false ->
        retryWithBackoff env operation N initialDelay signal w = (Throw e, w')).
Proof.
  intros Hkey HN Hab. unfold retryWithBackoff.
  destruct (String.eqb_spec (apiKey env) "") as [Hk | _]; [contradiction |].
  destruct (Z.to_nat N) as [| todo] eqn:Htodo; [lia |].
  rewrite retryLoop_step. unfold bind, signalAborted, tryCatch, throw. rewrite Hab.
  split.
  - intros r Hop. rewrite Hop. reflexivity.
  - intros e Hop Hab' Hre. rewrite Hop, Hab', Hre. reflexivity.
Qed.

(** X3.  A generation request that fails [k] times with a retryable
    error, [k] being less than the number of attempts allowed, is made a
    [k + 1]-th time after [k] waits; if that attempt succeeds its
    response is returned, if it fails with an error that is not retryable
    that error is thrown.  Either way the trace holds [k + 1] requests
    with the growing waits between them. *)
Theorem retry_until_decisive (a : Agent) (N : Z) (initialDelay : Q)
  (signal : option AbortSignal) (w : World) (k : nat) :
  apiKey env <> "" ->
  (k < Z.to_nat N)%nat ->
  (forall j, cancelAt env j = false) ->
  isAborted signal w = false ->
  (forall j, (j < k)%nat ->
     exists e, gen env (clock w + 2 * j) = Rejected e /\ isRetryable e = true) ->
  let after := advance w (2 * k + 1) (policyTrace (Generate a) (S k) initialDelay) in
  (forall r, gen env (clock w + 2 * k) = Resolved r ->
     retryWithBackoff env (generateContent env a) N initialDelay signal w = (Normal r, after))
  /\ (forall e, gen env (clock w + 2 * k) = Rejected e -> isRetryable e = false ->
        retryWithBackoff env (generateContent env a) N initialDelay signal w = (Throw e, after))
  /\ invocations (log after) = (invocations (log w) + S k)%nat
  /\ List.length (waits (policyTrace (Generate a) (S k) initialDelay)) = k.
Proof.
  intros Hkey Hk Hquiet Hab Hfail after.
  unfold retryWithBackoff.
  destruct (String.eqb_spec (apiKey env) "") as [Hk0 | _]; [contradiction |].
  destruct (Z.to_nat N) as [| todo] eqn:Htodo; [lia |].
  pose proof (retryLoop_decisive a N signal Hquiet k todo 0 initialDelay w Hab
                ltac:(lia) ltac:(lia) Hfail) as Hrun.
  split; [| split; [| split]].
  - intros r Hr. rewrite Hrun, Hr. reflexivity.
  - intros e He Hre. rewrite Hrun, He, Hre. reflexivity.
  - unfold after, advance; cbn [log].
    rewrite invocations_app, invocations_policyTrace. reflexivity.
  - rewrite length_waits_policyTrace by reflexivity. lia.
Qed.

(** X4.  Whatever the generation service answers and whenever the user
    cancels, what a call of [retryWithBackoff] adds to the trace is an
    initial part of [N] requests separated by the growing waits: never
    more than [N] invocations, never more than [N - 1] waits, and no
    request to the hosting service. *)
Theorem retry_trace_bound (a : Agent) (N : Z) (initialDelay : Q)
  (signal : option AbortSignal) (w : World) :
  exists l,
    log (snd (retryWithBackoff env (generateContent env a) N initialDelay signal w))
    = log w ++ l
    /\ startsWith l (policyTrace (Generate a) (Z.to_nat N) initialDelay)
    /\ (invocations l <= Z.to_nat N)%nat
    /\ (List.length (waits l) <= Z.to_nat N - 1)%nat.
Proof.
  assert (Hnone : exists l : list Entry,
             log w = log w ++ l
             /\ startsWith l (policyTrace (Generate a) (Z.to_nat N) initialDelay)
             /\ (invocations l <= Z.to_nat N)%nat
             /\ (List.length (waits l) <= Z.to_nat N - 1)%nat).
  { exists []. split; [symmetry; apply app_nil_r |].
    split; [apply startsWith_nil |]. split; cbn; lia. }
  unfold retryWithBackoff.
  destruct (String.eqb (apiKey env) ""); [exact Hnone |].
  destruct (Z_le_gt_dec 0 N) as [Hpos | Hneg].
  - destruct (retryLoop_trace a N signal (Z.to_nat N) 0 initialDelay w) as [l [Hl Hp]];
      [rewrite Z2Nat.id by assumption; lia |].
    exists l. split; [exact Hl |]. split; [exact Hp |]. split.
    + rewrite <- (invocations_policyTrace a (Z.to_nat N) initialDelay).
      apply invocations_startsWith. exact Hp.
    + destruct Hp as [rest Hp].
      rewrite <- (length_waits_policyTrace (Generate a) (Z.to_nat N) initialDelay)
        by reflexivity.
      rewrite Hp, waits_app, length_app. lia.
  - replace (Z.to_nat N) with 0%nat in * by lia. exact Hnone.
Qed.

(** X5.  The time a generation call can spend waiting: when every
    attempt fails with a retryable error, the waits of [retryWithBackoff]
    add up to [2 * initialDelay * (1.5 ^ (N - 1) - 1)] milliseconds; with
    the arguments every agent passes (5 attempts, 2000 ms) that is
    16250 ms before the failure reaches the caller. *)
Theorem retry_total_wait (a : Agent) (N : Z) (initialDelay : Q)
  (signal : option AbortSignal) (w : World) :
  apiKey env <> "" ->
  1 <= N ->
  (forall k, cancelAt env k = false) ->
  isAborted signal w = false ->
  (forall k, exists e, gen env k = Rejected e /\ isRetryable e = true) ->
  (exists l,
     log (snd (retryWithBackoff env (generateContent env a) N initialDelay signal w))
     = log w ++ l
     /\ (totalWait l == 2 * initialDelay * ((3 # 2) ^ (N - 1) - 1))%Q)
  /\ (exists l,
        log (snd (retryWithBackoff env (generateContent env a) 5 2000 signal w)) = log w ++ l
        /\ (totalWait l == 16250)%Q).
Proof.
  intros Hkey HN Hquiet Hab Hfail.
  assert (Hrun : forall n d, 1 <= n ->
            exists l,
              log (snd (retryWithBackoff env (generateContent env a) n d signal w)) = log w ++ l
              /\ (totalWait l == 2 * d * ((3 # 2) ^ (n - 1) - 1))%Q).
  { intros n d Hn.
    destruct (retryWithBackoff_exhausted env a n d signal w Hkey Hn Hquiet Hab Hfail)
      as [e He].
    exists (policyTrace (Generate a) (Z.to_nat n) d). split; [rewrite He; reflexivity |].
    replace (Z.to_nat n) with (S (Z.to_nat (n - 1))) by lia.
    rewrite totalWait_policyTrace by reflexivity.
    rewrite Z2Nat.id by lia. reflexivity. }
  split; [apply Hrun; exact HN |].
  destruct (Hrun 5 2000%Q ltac:(lia)) as [l [Hl Ht]].
  exists l. split; [exact Hl |]. rewrite Ht. reflexivity.
Qed.

(** The update of the cancel handler rests the state. *)
Lemma restsIn_abort (st : ProjectState) :
  restsIn (lastKnownGood st)
    (merge st [SetStatus (match identity st with Some _ => ready | None => idle end);
               SetExecutionPlan []; SetCurrentDetail None]).
Proof.
  unfold lastKnownGood, restsIn. destruct st as [? ? idn ? ? ? ? ? ? ? ? ?].
  destruct idn; repeat split.
Qed.

(** X6.  Cancellation in [fetchWithRetry]: with a signal already aborted
    it throws its own [AbortError] without sending a request; an
    [AbortError] that the request throws is thrown on at once, with no
    wait and no further attempt, in every iteration of the loop; and
    when the user cancels while the request is pending, the request is
    the last entry of the trace and the state is the one the cancel
    handler wrote. *)
Theorem fetch_cancellation (url : string) (m : Method) (retries : Z) (w : World) :
  1 <= retries ->
  (aborted w = true ->
   fetchWithRetry env url m retries (Some theSignal) w = (Throw (abortError "Aborted"), w))
  /\ (forall todo i lastError e w',
        aborted w = false ->
        fetch env m url (Some theSignal) w = (Throw e, w') ->
        isAbortError e = true ->
        fetchLoop env url m retries (Some theSignal) (S todo) i lastError w = (Throw e, w'))
  /\ (aborted w = false -> controller w = true ->
      cancelAt env (clock w) = true -> overlayShown (state w) = true ->
      exists w',
        fetchWithRetry env url m retries (Some theSignal) w
        = (Throw (abortError "The user aborted a request."), w')
        /\ log w' = log w ++ [Http m url]
        /\ aborted w' = true
        /\ restsIn (lastKnownGood (state w)) (state w')).
Proof.
  intro Hr.
  assert (Hloop : forall todo i lastError e w',
             aborted w = false ->
             fetch env m url (Some theSignal) w = (Throw e, w') ->
             isAbortError e = true ->
             fetchLoop env url m retries (Some theSignal) (S todo) i lastError w = (Throw e, w')).
  { intros todo i lastError e w' Hab Hf He.
    rewrite fetchLoop_step. unfold bind, signalAborted, tryCatch, isAborted, throw.
    rewrite Hab, Hf, He. reflexivity. }
  unfold fetchWithRetry.
  destruct (Z.to_nat retries) as [| todo] eqn:Htodo; [lia |].
  split; [| split].
  - intro Hab. rewrite fetchLoop_step. unfold bind, signalAborted, throw, isAborted.
    rewrite Hab. reflexivity.
  - exact Hloop.
  - intros Hab Hctl Hcancel Hshown.
    assert (Hf : fetch env m url (Some theSignal) w
                 = (Throw (abortError "The user aborted a request."),
                    snd (handleAbort (tick (record (Http m url) w))))).
    { unfold fetch, isAborted. rewrite Hab. unfold suspend.
      cbn [clock state record]. rewrite Hcancel, Hshown. cbn [andb].
      unfold handleAbort, updateState, abortController. cbn [controller tick record].
      rewrite Hctl. reflexivity. }
    exists (snd (handleAbort (tick (record (Http m url) w)))).
    split; [apply (Hloop todo 0 None _ _ Hab Hf); reflexivity |].
    unfold handleAbort, updateState, abortController. cbn [controller tick record snd].
    rewrite Hctl. cbn [log aborted state withState].
    split; [reflexivity |]. split; [reflexivity |].
    apply restsIn_abort.
Qed.

(** X7.  [fetchWithRetry] passes on the first outcome it does not retry.
    After [k] attempts that failed (a rejected request, an answer with
    status 429 or at least 500), [k] being less than the number of
    attempts allowed, the next response is returned when its status is
    neither 429 nor 500 or above, whether it is ok or not (a 404 or a
    401 is a result, not an error), and an [AbortError] of the request
    is thrown.  The trace holds [k + 1] requests with waits of
    [1000 * 2^i] ms between them. *)
Theorem fetch_until_settled (url : string) (m : Method) (retries : Z)
  (signal : option AbortSignal) (w : World) (k : nat) :
  (k < Z.to_nat retries)%nat ->
  (forall j, cancelAt env j = false) ->
  isAborted signal w = false ->
  (forall j, (j < k)%nat -> retried (http env (clock w + 2 * j)) = true) ->
  let after := advance w (2 * k + 1) (hostingPolicyTrace (Http m url) (S k) 0) in
  (forall res, http env (clock w + 2 * k) = Resolved res ->
     resStatus res <> 429 -> resStatus res < 500 ->
     fetchWithRetry env url m retries signal w = (Normal res, after))
  /\ (forall e, http env (clock w + 2 * k) = Rejected e -> isAbortError e = true ->
        fetchWithRetry env url m retries signal w = (Throw e, after)).
Proof.
  intros Hk Hquiet Hab Hfail after.
  unfold fetchWithRetry.
  destruct (Z.to_nat retries) as [| todo] eqn:Htodo; [lia |].
  pose proof (fetchLoop_decisive url m retries signal Hquiet k todo 0 None w Hab
                ltac:(lia) ltac:(lia) Hfail) as Hrun.
  cbv zeta in Hrun. split.
  - intros res Hres H429 H500. rewrite Hrun, Hres. cbn [retried].
    replace ((resStatus res =? 429) || (resStatus res >=? 500)) with false
      by (symmetry; apply orb_false_iff; split; lia).
    reflexivity.
  - intros e He Hae. rewrite Hrun, He. cbn [retried]. rewrite Hae. reflexivity.
Qed.

(** X8.  When all the attempts of [fetchWithRetry] fail, it has sent
    [retries] requests, has waited [1000 * 2^i] ms after each but the
    last, and throws according to the last failure: the error
    "HTTP <status>" for an answer with status 429 or at least 500, the
    rejection itself for a rejected request, unless that is a
    [TypeError] or mentions "Failed to fetch", which is replaced by a
    new error naming the network. *)
Theorem fetch_exhaustion (url : string) (m : Method) (retries : Z)
  (signal : option AbortSignal) (w : World) :
  1 <= retries ->
  (forall j, cancelAt env j = false) ->
  isAborted signal w = false ->
  (forall j, (j < Z.to_nat retries)%nat -> retried (http env (clock w + 2 * j)) = true) ->
  let n := Z.to_nat retries in
  let last := http env (clock w + 2 * (n - 1)) in
  fetchWithRetry env url m retries signal w
  = (Throw (finalError (failureOf last)),
     advance w (2 * (n - 1) + 1) (hostingPolicyTrace (Http m url) n 0))
  /\ (forall res, last = Resolved res ->
        finalError (failureOf last) = httpError (resStatus res))
  /\ (forall e, last = Rejected e -> name e = "TypeError" ->
        finalError (failureOf last) = networkError e)
  /\ (forall e, last = Rejected e ->
        name e <> "TypeError" -> messageIncludes e "Failed to fetch" = false ->
        finalError (failureOf last) = e).
Proof.
  intros Hr Hquiet Hab Hfail n last.
  split; [| split; [| split]].
  - unfold fetchWithRetry. fold n.
    destruct n as [| todo] eqn:Hn; [unfold n in Hn; lia |].
    pose proof (fetchLoop_decisive url m retries signal Hquiet todo todo 0 None w Hab
                  ltac:(lia) ltac:(lia)) as Hrun.
    cbv zeta in Hrun. rewrite Hrun by (intros j Hj; apply Hfail; lia).
    unfold last. replace (S todo - 1)%nat with todo by lia.
    rewrite (Hfail todo) by lia. rewrite Nat.eqb_refl. reflexivity.
  - intros res Hres. rewrite Hres. cbn [failureOf]. unfold finalError.
    rewrite httpError_kept. reflexivity.
  - intros e He Hname. rewrite He. cbn [failureOf]. unfold finalError.
    rewrite Hname. reflexivity.
  - intros e He Hname Hmsg. rewrite He. cbn [failureOf]. unfold finalError.
    destruct (String.eqb_spec (name e) "TypeError") as [H | _]; [contradiction |].
    rewrite Hmsg. reflexivity.
Qed.

(** X9.  Whatever the hosting service answers and whenever the user
    cancels, what a call of [fetchWithRetry] adds to the trace is an
    initial part of [retries] requests of its method and URL separated
    by the waits [1000 * 2^i]: never more than [retries] requests.  With
    no attempt allowed it sends nothing and throws the plain network
    error. *)
Theorem fetch_trace_bound (url : string) (m : Method) (retries : Z)
  (signal : option AbortSignal) (w : World) :
  (exists l,
     log (snd (fetchWithRetry env url m retries signal w)) = log w ++ l
     /\ startsWith l (hostingPolicyTrace (Http m url) (Z.to_nat retries) 0)
     /\ (List.length l <= 2 * Z.to_nat retries - 1)%nat)
  /\ (retries <= 0 ->
      fetchWithRetry env url m retries signal w
      = (Throw (newError "ネットワークエラーが発生しました。"), w)).
Proof.
  assert (Hlen : forall n i, List.length (hostingPolicyTrace (Http m url) n i)
                             = (2 * n - 1)%nat).
  { induction n as [| n IH]; intro i; [reflexivity |].
    destruct n as [| n']; [reflexivity |].
    rewrite hostingPolicyTrace_step. cbn [List.length]. rewrite IH. lia. }
  unfold fetchWithRetry. split.
  - destruct (Z_le_gt_dec 0 retries) as [Hpos | Hneg].
    + destruct (fetchLoop_trace url m retries signal (Z.to_nat retries) 0 None w)
        as [l [Hl Hp]]; [rewrite Z2Nat.id by assumption; lia |].
      exists l. split; [exact Hl |]. split; [exact Hp |].
      destruct Hp as [rest Hp]. rewrite <- (Hlen (Z.to_nat retries) 0), Hp, length_app. lia.
    + replace (Z.to_nat retries) with 0%nat by lia.
      exists []. split; [cbn; symmetry; apply app_nil_r |].
      split; [apply startsWith_nil | cbn; lia].
  - intro Hr. replace (Z.to_nat retries) with 0%nat by lia. reflexivity.
Qed.

End RetryMore.

(** ** The retry policies on the scenarios *)

Lemma retry_refuses_without_attempt_witness :
  retryWithBackoff envNoKey (generateContent envNoKey IdentityAgent) 5 2000 None
    (worldOf freshState)
  = (Throw (newError "APIキーが設定されていません。環境変数 GEMINI_API_KEY を確認してください。"),
     worldOf freshState)
  /\ retryWithBackoff envAllFail (generateContent envAllFail IdentityAgent) 0 2000 None
       (worldOf freshState)
     = (Throw (newError "APIへの接続に失敗しました。時間をおいて再度お試しください。"),
        worldOf freshState).
Proof.
  split.
  - apply (proj1 (retry_refuses_without_attempt envNoKey
                    (generateContent envNoKey IdentityAgent) 5 2000 None (worldOf freshState))).
    reflexivity.
  - apply (proj2 (retry_refuses_without_attempt envAllFail
                    (generateContent envAllFail IdentityAgent) 0 2000 None (worldOf freshState))).
    + intro H. discriminate H.
    + lia.
Defined.

Lemma retry_first_attempt_witness :
  retryWithBackoff envOk (generateContent envOk IdentityAgent) 5 2000 None (worldOf freshState)
  = (Normal {| text := "```html<p>new</p>```"; parsed := Some exampleObject |},
     advance (worldOf freshState) 1 [Generate IdentityAgent])
  /\ retryWithBackoff envFatal (generateContent envFatal IdentityAgent) 5 2000 None
       (worldOf freshState)
     = (Throw badRequest, advance (worldOf freshState) 1 [Generate IdentityAgent]).
Proof.
  split.
  - apply (proj1 (retry_first_attempt envOk (generateContent envOk IdentityAgent) 5 2000 None
                    (worldOf freshState) (advance (worldOf freshState) 1 [Generate IdentityAgent])
                    ltac:(intro H; discriminate H) ltac:(lia) eq_refl)).
    reflexivity.
  - apply (proj2 (retry_first_attempt envFatal (generateContent envFatal IdentityAgent) 5 2000 None
                    (worldOf freshState) (advance (worldOf freshState) 1 [Generate IdentityAgent])
                    ltac:(intro H; discriminate H) ltac:(lia) eq_refl));
      reflexivity.
Defined.

Lemma envFlaky_fails_twice :
  forall j, (j < 2)%nat ->
    exists e, gen envFlaky (clock (worldOf freshState) + 2 * j) = Rejected e
              /\ isRetryable e = true.
Proof.
  intros j Hj. exists rateLimited.
  destruct j as [| [| j']]; [split; reflexivity | split; reflexivity | lia].
Defined.

Lemma retry_until_decisive_witness :
  retryWithBackoff envFlaky (generateContent envFlaky ReadmeAgent) 5 2000 None
    (worldOf freshState)
  = (Normal {| text := "# Atelier"; parsed := Some exampleObject |},
     advance (worldOf freshState) 5
       [Generate ReadmeAgent; Sleep 2000; Generate ReadmeAgent; Sleep 3000;
        Generate ReadmeAgent]).
Proof.
  apply (proj1 (retry_until_decisive envFlaky ReadmeAgent 5 2000 None (worldOf freshState) 2
                  ltac:(intro H; discriminate H) ltac:(vm_compute; lia)
                  ltac:(intro j; reflexivity) eq_refl envFlaky_fails_twice)).
  reflexivity.
Defined.

Lemma retry_total_wait_witness :
  exists l,
    log (snd (retryWithBackoff envAllFail (generateContent envAllFail StrategyAgent) 5 2000 None
                (worldOf freshState)))
    = log (worldOf freshState) ++ l
    /\ (totalWait l == 16250)%Q.
Proof.
  apply (proj2 (retry_total_wait envAllFail StrategyAgent 5 2000 None (worldOf freshState)
                  ltac:(intro H; discriminate H) ltac:(lia)
                  ltac:(intro k; reflexivity) eq_refl envAllFail_retryable)).
Defined.

Lemma fetch_cancellation_witness :
  exists w',
    fetchWithRetry envCancel repoUrl GET 3 (Some theSignal) publishingWorld
    = (Throw (abortError "The user aborted a request."), w')
    /\ log w' = log publishingWorld ++ [Http GET repoUrl]
    /\ aborted w' = true
    /\ restsIn (lastKnownGood (state publishingWorld)) (state w').
Proof.
  apply (proj2 (proj2 (fetch_cancellation envCancel repoUrl GET 3 publishingWorld
                         ltac:(lia))));
    reflexivity.
Defined.

Lemma fetch_until_settled_witness :
  fetchWithRetry envFlaky repoUrl GET 3 None (worldOf builtState)
  = (Normal {| resStatus := 404;
               resBody := Some {| bodyMessage := "message"; bodySha := "abc123";
                                  bodyDefaultBranch := "main"; bodyTree := [];
                                  bodyContent := "<p>stored</p>" |} |},
     advance (worldOf builtState) 3 [Http GET repoUrl; Sleep 1000; Http GET repoUrl]).
Proof.
  apply (proj1 (fetch_until_settled envFlaky repoUrl GET 3 None (worldOf builtState) 1
                  ltac:(vm_compute; lia) ltac:(intro j; reflexivity) eq_refl
                  ltac:(intros j Hj; destruct j as [| j']; [reflexivity | lia]))).
  - reflexivity.
  - intro H. discriminate H.
  - reflexivity.
Defined.

Lemma fetch_exhaustion_witness :
  fetchWithRetry envAllFail repoUrl GET 3 None (worldOf builtState)
  = (Throw (networkError offline),
     advance (worldOf builtState) 5
       [Http GET repoUrl; Sleep 1000; Http GET repoUrl; Sleep 2000; Http GET repoUrl]).
Proof.
  exact (proj1 (fetch_exhaustion envAllFail repoUrl GET 3 None (worldOf builtState)
                  ltac:(lia) ltac:(intro j; reflexivity) eq_refl
                  ltac:(intros j Hj; reflexivity))).
Defined.

Lemma fetch_trace_bound_witness :
  fetchWithRetry envOk repoUrl GET 0 None (worldOf builtState)
  = (Throw (newError "ネットワークエラーが発生しました。"), worldOf builtState).
Proof.
  apply (proj2 (fetch_trace_bound envOk repoUrl GET 0 None (worldOf builtState))). lia.
Defined.

(** * The calls of the hosting service *)

Section HostingCalls.

Variable env : Env.

Lemma fetch_answered (m : Method) (url : string) (signal : option AbortSignal)
  (w w' : World) (res : Response) :
  fetch env m url signal w = (Normal res, w') -> answered env res.
Proof.
  unfold fetch. destruct (isAborted signal w); [intro H; discriminate H |].
  destruct (suspend env (record (Http m url) w)) as [c w0].
  destruct (isAborted signal w0); [intro H; discriminate H |].
  destruct (http env (clock w)) as [r | e] eqn:Hh; intro H; inversion H; subst.
  exists (clock w). exact Hh.
Qed.

Lemma fetchLoop_answered (url : string) (m : Method) (retries : Z) (signal : option AbortSignal) :
  forall todo i lastError w res w',
    fetchLoop env url m retries signal todo i lastError w = (Normal res, w') ->
    answered env res.
Proof.
  induction todo as [| n IH]; intros i lastError w res w'.
  - cbn [fetchLoop]. destruct lastError as [e |]; [| intro H; discriminate H].
    destruct (String.eqb (name e) "TypeError" || messageIncludes e "Failed to fetch");
      intro H; discriminate H.
  - rewrite fetchLoop_step. unfold bind at 1, signalAborted.
    destruct (isAborted signal w); [intro H; discriminate H |].
    unfold tryCatch, bind at 1.
    destruct (fetch env m url signal w) as [[r | e |] w0] eqn:Hf.
    + destruct ((resStatus r =? 429) || (resStatus r >=? 500)).
      * unfold throw at 1. change (isAbortError (httpError (resStatus r))) with false.
        cbv iota. unfold bind.
        destruct ((if i <? retries - 1 then sleep env (inject_Z (1000 * 2 ^ i)) else ret tt) w0)
          as [[u | e' |] w1]; try (intro H; discriminate H).
        apply IH.
      * intro H. inversion H; subst. eapply fetch_answered. exact Hf.
    + destruct (isAbortError e); [intro H; discriminate H |].
      unfold bind.
      destruct ((if i <? retries - 1 then sleep env (inject_Z (1000 * 2 ^ i)) else ret tt) w0)
        as [[u | e' |] w1]; try (intro H; discriminate H).
      apply IH.
    + intro H. discriminate H.
Qed.

(** What a call of [fetchWithRetry] with at least one attempt can end
    in: an answer of the service whose status is neither 429 nor 500 or
    above, an [AbortError], or a failure of the service. *)
Lemma fetchWithRetry_result (url : string) (m : Method) (retries : Z)
  (signal : option AbortSignal) (w w' : World) (c : Completion Response) :
  1 <= retries ->
  fetchWithRetry env url m retries signal w = (c, w') ->
  match c with
  | Normal res => answered env res /\ resStatus res <> 429 /\ resStatus res < 500
  | Throw e => isAbortError e = true \/ fromService env e
  | Return => False
  end.
Proof.
  intros Hr Hrun. unfold fetchWithRetry in Hrun.
  pose proof (fetchLoop_outcomes env url m retries signal (Z.to_nat retries) 0 None w c w'
                ltac:(intros e0 H0; discriminate H0) ltac:(left; lia) Hrun) as Hout.
  destruct c as [res | e |]; [| exact Hout | exact Hout].
  split; [| exact Hout].
  eapply fetchLoop_answered. exact Hrun.
Qed.

(** X10.  [fetchRepoDetails] sends no request for a repository text
    without a slash; it reports the repository absent only when the
    service answered 404, and returns the default branch only from an ok
    answer.  Any other answer (401, 403, ...) is an error that names its
    status. *)
Theorem fetchRepoDetails_outcomes (config : GitHubConfig) (signal : option AbortSignal)
  (w w' : World) (c : Completion (option string)) :
  (Js.includes (cleanRepo (repo config)) "/" = false ->
   fetchRepoDetails env config signal w
   = (Throw (newError "リポジトリ名は 'owner/repo' または GitHub URL で入力してください。"), w))
  /\ (fetchRepoDetails env config signal w = (c, w') ->
      match c with
      | Normal None => exists res, answered env res /\ resStatus res = 404
      | Normal (Some b) =>
          exists res body,
            answered env res /\ ok res = true /\ resBody res = Some body
            /\ b = bodyDefaultBranch body
      | Throw e =>
          isAbortError e = true
          \/ fromService env e
          \/ Js.includes (cleanRepo (repo config)) "/" = false
          \/ (exists res,
                answered env res /\ ok res = false /\ resStatus res <> 404
                /\ e = newError ("リポジトリ取得失敗 (" ++ Js.ofZ (resStatus res) ++ "): "
                                   ++ errorMessage res))
          \/ (exists res, answered env res /\ ok res = true /\ resBody res = None)
      | Return => False
      end).
Proof.
  unfold fetchRepoDetails. split.
  - intro Hno. rewrite Hno. reflexivity.
  - destruct (Js.includes (cleanRepo (repo config)) "/") eqn:Hslash; cbn [negb].
    + unfold bind.
      destruct (fetchWithRetry env ("https://api.github.com/repos/" ++ cleanRepo (repo config))
                  GET 3 signal w) as [[res | e |] w0] eqn:Hf;
        pose proof (fetchWithRetry_result _ _ 3 _ _ _ _ ltac:(lia) Hf) as Hres;
        cbn beta iota in Hres.
      * destruct Hres as [Hans _].
        destruct (ok res) eqn:Hok; cbn [negb].
        -- unfold json. destruct (resBody res) as [body |] eqn:Hbody;
             intro H; inversion H; subst.
           ++ exists res, body. repeat split; assumption.
           ++ right. right. right. right. exists res. repeat split; assumption.
        -- destruct (resStatus res =? 404) eqn:H404; intro H; inversion H; subst.
           ++ exists res. split; [exact Hans | apply Z.eqb_eq; exact H404].
           ++ right. right. right. left. exists res.
              split; [exact Hans |]. split; [exact Hok |].
              split; [apply Z.eqb_neq; exact H404 | reflexivity].
      * intro H. inversion H; subst.
        destruct Hres as [Hab | Hsvc]; [left; exact Hab | right; left; exact Hsvc].
      * destruct Hres.
    + intro H. inversion H; subst. right. right. left. reflexivity.
Qed.

(** X11.  [createRepository] sends no request without a token or a
    repository name; it returns normally only when the service answered
    ok or 422 (the repository exists already); any other answer is an
    error that names its status. *)
Theorem createRepository_outcomes (config : GitHubConfig) (signal : option AbortSignal)
  (w w' : World) (c : Completion unit) :
  (token config = "" \/ Js.lastSegment (cleanRepo (repo config)) = "" ->
   createRepository env config signal w
   = (Throw (newError "不正な設定です。リポジトリ名とトークンを確認してください。"), w))
  /\ (createRepository env config signal w = (c, w') ->
      match c with
      | Normal _ => exists res, answered env res /\ (ok res = true \/ resStatus res = 422)
      | Throw e =>
          isAbortError e = true
          \/ fromService env e
          \/ (token config = "" \/ Js.lastSegment (cleanRepo (repo config)) = "")
          \/ (exists res,
                answered env res /\ ok res = false /\ resStatus res <> 422
                /\ e = newError ("リポジトリ作成に失敗しました (" ++ Js.ofZ (resStatus res)
                                   ++ "): " ++ errorMessage res))
      | Return => False
      end).
Proof.
  unfold createRepository. split.
  - intros [H | H]; rewrite H; [reflexivity |].
    rewrite orb_true_r. reflexivity.
  - destruct (String.eqb_spec (token config) "") as [Ht | Ht]; cbn [orb].
    { intro H. inversion H; subst. right. right. left. left. exact Ht. }
    destruct (String.eqb_spec (Js.lastSegment (cleanRepo (repo config))) "") as [Hn | Hn].
    { intro H. inversion H; subst. right. right. left. right. exact Hn. }
    unfold bind.
    destruct (fetchWithRetry env createRepoUrl POST 3 signal w) as [[res | e |] w0] eqn:Hf;
      pose proof (fetchWithRetry_result _ _ 3 _ _ _ _ ltac:(lia) Hf) as Hres;
      cbn beta iota in Hres.
    + destruct Hres as [Hans _].
      destruct (ok res) eqn:Hok; cbn [negb andb].
      * intro H. inversion H; subst. exists res. split; [exact Hans | left; exact Hok].
      * destruct (resStatus res =? 422) eqn:H422; cbn [negb]; intro H; inversion H; subst.
        -- exists res. split; [exact Hans | right; apply Z.eqb_eq; exact H422].
        -- right. right. right. exists res.
           split; [exact Hans |]. split; [exact Hok |].
           split; [apply Z.eqb_neq; exact H422 | reflexivity].
    + intro H. inversion H; subst.
      destruct Hres as [Hab | Hsvc]; [left; exact Hab | right; left; exact Hsvc].
    + destruct Hres.
Qed.

(** X12.  The two reading calls return only what an ok answer carried:
    the tree of [fetchRepoStructure] and the content of
    [fetchFileContent] come from an answer of the service with an ok
    status; an answer that is not ok is never read. *)
Theorem hosting_reads_need_ok (config : GitHubConfig) (url : string)
  (signal : option AbortSignal) (w w' : World) :
  (forall tree,
      fetchRepoStructure env config signal w = (Normal tree, w') ->
      exists res body,
        answered env res /\ ok res = true /\ resBody res = Some body /\ tree = bodyTree body)
  /\ (forall content,
        fetchFileContent env url signal w = (Normal content, w') ->
        exists res body,
          answered env res /\ ok res = true /\ resBody res = Some body
          /\ content = bodyContent body).
Proof.
  split.
  - intro tree. unfold fetchRepoStructure, bind.
    match goal with
    | |- context [fetchWithRetry env ?u GET 3 signal w] =>
        destruct (fetchWithRetry env u GET 3 signal w) as [[res | e |] w0] eqn:Hf
    end; try (intro H; discriminate H).
    pose proof (fetchWithRetry_result _ _ 3 _ _ _ _ ltac:(lia) Hf) as [Hans _].
    destruct (ok res) eqn:Hok; cbn [negb]; [| intro H; discriminate H].
    unfold json. destruct (resBody res) as [body |] eqn:Hbody; intro H; inversion H; subst.
    exists res, body. repeat split; assumption.
  - intro content. unfold fetchFileContent, bind.
    destruct (fetchWithRetry env url GET 3 signal w) as [[res | e |] w0] eqn:Hf;
      try (intro H; discriminate H).
    pose proof (fetchWithRetry_result _ _ 3 _ _ _ _ ltac:(lia) Hf) as [Hans _].
    destruct (ok res) eqn:Hok; cbn [negb]; [| intro H; discriminate H].
    unfold json. destruct (resBody res) as [body |] eqn:Hbody; intro H; inversion H; subst.
    exists res, body. repeat split; assumption.
Qed.


Lemma ok_not_retried (res : Response) :
  ok res = true -> (resStatus res =? 429) || (resStatus res >=? 500) = false.
Proof.
  unfold ok. intro H. apply andb_prop in H. destruct H as [_ H].
  apply orb_false_iff. split; lia.
Qed.

(** A request answered ok, with nobody cancelling. *)
Lemma fetchWithRetry_ok (url : string) (m : Method) (signal : option AbortSignal)
  (w : World) (res : Response) :
  (forall k, cancelAt env k = false) ->
  isAborted signal w = false ->
  http env (clock w) = Resolved res ->
  ok res = true ->
  fetchWithRetry env url m 3 signal w = (Normal res, advance w 1 [Http m url]).
Proof.
  intros Hquiet Hab Hres Hok. unfold fetchWithRetry. change (Z.to_nat 3) with 3%nat.
  rewrite fetchLoop_settled by
    (first [exact Hquiet | exact Hab | rewrite Hres; apply ok_not_retried; exact Hok]).
  rewrite Hres. reflexivity.
Qed.

(** One iteration of the upload loop when the service answers ok. *)
Lemma publishFile_ok (config : GitHubConfig) (signal : option AbortSignal)
  (detail : string -> option string) (file : File) (w : World) :
  (forall k, cancelAt env k = false) ->
  (forall k, exists res, http env k = Resolved res /\ ok res = true) ->
  isAborted signal w = false ->
  publishFile env config signal (fun p => updateState [SetCurrentDetail (detail p)]) file w
  = (Normal tt,
     advance (withState (fun prev => merge prev [SetCurrentDetail (detail (filePath file))]) w)
       2 (uploadTrace config file)).
Proof.
  intros Hquiet Hok Hab.
  unfold publishFile. unfold bind at 1, signalAborted at 1. rewrite Hab.
  unfold bind at 1, updateState at 1.
  set (w1 := withState _ w).
  assert (Hab1 : isAborted signal w1 = false)
    by (unfold w1; rewrite isAborted_withState; exact Hab).
  destruct (Hok (clock w1)) as [r1 [Hr1 Hok1]].
  unfold bind at 1, tryCatch at 1, bind at 1.
  rewrite (fetchWithRetry_ok _ GET signal w1 r1 Hquiet Hab1 Hr1 Hok1).
  rewrite Hok1.
  set (w2 := advance w1 1 _).
  assert (Hab2 : isAborted signal w2 = false)
    by (unfold w2; rewrite isAborted_advance; exact Hab1).
  destruct (Hok (clock w2)) as [r2 [Hr2 Hok2]].
  assert (Hput :
            (res <- fetchWithRetry env (contentsUrl config ++ "/" ++ filePath file)%string
                      PUT 3 signal ;;
             if negb (ok res)
             then throw (newError (filePath file ++ " 送信失敗 (" ++ Js.ofZ (resStatus res)
                                     ++ "): " ++ errorMessage res)%string)
             else ret tt) w2
            = (Normal tt, advance w1 2 (uploadTrace config file))).
  { unfold bind.
    rewrite (fetchWithRetry_ok _ PUT signal w2 r2 Hquiet Hab2 Hr2 Hok2).
    rewrite Hok2. cbn [negb]. unfold ret, w2. rewrite advance_advance. reflexivity. }
  unfold json. destruct (resBody r1) as [body |].
  - unfold bind at 1, ret at 1. unfold ret at 1. exact Hput.
  - unfold bind at 1, throw at 1. unfold ret at 1. exact Hput.
Qed.

Lemma forEach_publishFile_ok (config : GitHubConfig) (signal : option AbortSignal)
  (detail : string -> option string) :
  (forall k, cancelAt env k = false) ->
  (forall k, exists res, http env k = Resolved res /\ ok res = true) ->
  forall files w,
    isAborted signal w = false ->
    exists w',
      forEach files (publishFile env config signal
                       (fun p => updateState [SetCurrentDetail (detail p)])) w
      = (Normal tt, w')
      /\ log w' = log w ++ flat_map (uploadTrace config) files
      /\ clock w' = (clock w + 2 * List.length files)%nat
      /\ isAborted signal w' = false
      /\ hubs (state w') = hubs (state w) /\ articles (state w') = articles (state w).
Proof.
  intros Hquiet Hok files. induction files as [| file rest IH]; intros w Hab.
  - exists w. cbn. rewrite app_nil_r, Nat.add_0_r. repeat split; [exact Hab].
  - cbn [forEach]. unfold bind. rewrite publishFile_ok by assumption.
    set (w1 := advance _ 2 _).
    assert (Hab1 : isAborted signal w1 = false).
    { unfold w1. rewrite isAborted_advance, isAborted_withState. exact Hab. }
    destruct (IH w1 Hab1) as [w' [Hrun [Hlog [Hclock [Hab' [Hh Ha]]]]]].
    exists w'. split; [exact Hrun |].
    split; [rewrite Hlog; unfold w1; cbn [advance log withState flat_map];
            rewrite <- app_assoc; reflexivity |].
    split; [rewrite Hclock; unfold w1; cbn [advance clock withState List.length]; lia |].
    split; [exact Hab' |].
    rewrite Hh, Ha. unfold w1. cbn [advance state withState].
    destruct (state w). split; reflexivity.
Qed.

(** X13.  When the hosting service answers ok to every request and
    nobody cancels, [publishToGithub] uploads every file, in the order
    hubs, articles, README: for each file one check for a stored
    revision and then one upload, two requests per file and nothing
    else.  The pages of the state are left alone. *)
Theorem publish_uploads_in_order (config : GitHubConfig) (hs : list HubPage)
  (ars : list Article) (readme : string) (signal : option AbortSignal)
  (detail : string -> option string) (w : World) :
  (forall k, cancelAt env k = false) ->
  (forall k, exists res, http env k = Resolved res /\ ok res = true) ->
  isAborted signal w = false ->
  exists w',
    publishToGithub env config hs ars readme signal
      (fun p => updateState [SetCurrentDetail (detail p)]) w = (Normal tt, w')
    /\ log w' = log w ++ flat_map (uploadTrace config) (filesToPublish hs ars readme)
    /\ map filePath (filesToPublish hs ars readme)
       = map (fun h => filePath (hubFile h)) hs
         ++ map (fun a => filePath (articleFile hs a)) ars
         ++ (if String.eqb readme "" then [] else ["README.md"%string])
    /\ clock w' = (clock w + 2 * List.length (filesToPublish hs ars readme))%nat.
Proof.
  intros Hquiet Hok Hab. unfold publishToGithub.
  destruct (forEach_publishFile_ok config signal detail Hquiet Hok
              (filesToPublish hs ars readme) w Hab)
    as [w' [Hrun [Hlog [Hclock _]]]].
  exists w'. split; [exact Hrun |]. split; [exact Hlog |]. split; [| exact Hclock].
  unfold filesToPublish. rewrite !map_app, !map_map.
  destruct (String.eqb readme ""); reflexivity.
Qed.

End HostingCalls.

(** * The published paths *)

Lemma length_append (s t : string) :
  String.length (s ++ t)%string = (String.length s + String.length t)%nat.
Proof. induction s as [| c s IH]; simpl; [reflexivity | rewrite IH; reflexivity]. Qed.

Lemma append_cancel_r (s t u : string) : (s ++ u = t ++ u)%string -> s = t.
Proof.
  revert t. induction s as [| c s IH]; intros [| d t] H; simpl in H.
  - reflexivity.
  - exfalso. apply (f_equal String.length) in H. simpl in H. rewrite length_append in H. lia.
  - exfalso. apply (f_equal String.length) in H. simpl in H. rewrite length_append in H. lia.
  - injection H as Hc Hs. subst d. f_equal. apply IH. exact Hs.
Qed.

Lemma hubFile_root (h : HubPage) :
  filePath (hubFile h) = "index.html" <-> hubSlug h = "index".
Proof.
  unfold hubFile. cbn [filePath].
  destruct (String.eqb_spec (hubSlug h) "index") as [He | Hne].
  - split; intros _; [exact He | reflexivity].
  - split; [| intro H; contradiction].
    intro H. exfalso. apply (f_equal String.length) in H.
    rewrite length_append in H. simpl in H. lia.
Qed.

Lemma hubFile_injective (h1 h2 : HubPage) :
  filePath (hubFile h1) = filePath (hubFile h2) -> hubSlug h1 = hubSlug h2.
Proof.
  intro H.
  destruct (String.eqb_spec (hubSlug h1) "index") as [H1 | H1];
    destruct (String.eqb_spec (hubSlug h2) "index") as [H2 | H2].
  - rewrite H1, H2. reflexivity.
  - exfalso. apply H2. apply hubFile_root. rewrite <- H. apply hubFile_root. exact H1.
  - exfalso. apply H1. apply hubFile_root. rewrite H. apply hubFile_root. exact H2.
  - unfold hubFile in H. cbn [filePath] in H.
    apply String.eqb_neq in H1, H2. rewrite H1, H2 in H.
    eapply append_cancel_r. exact H.
Qed.


(** * Invariants of the state through the services

    A property of the state and of the signal that survives the cancel
    handler survives every call of the services: they touch the state
    only through that handler. *)

Section StateInvariant.

Variable env : Env.
Variable P : World -> Prop.

Hypothesis Hframe :
  forall w w', state w' = state w -> aborted w' = aborted w -> P w -> P w'.
Hypothesis Habort : forall w, P w -> P (snd (handleAbort w)).

Lemma sinv_signalAborted (signal : option AbortSignal) : preserves P (signalAborted signal).
Proof. apply preserves_step. intros w H. exact H. Qed.

Lemma sinv_randomId : preserves P (randomId env).
Proof. apply preserves_step. intros w H. apply (Hframe w); [reflexivity | reflexivity | exact H]. Qed.

Lemma sinv_suspend : preserves P (suspend env).
Proof.
  apply preserves_step. intros w H. unfold suspend.
  destruct (cancelAt env (clock w) && overlayShown (state w)).
  - apply Habort. apply (Hframe w); [reflexivity | reflexivity | exact H].
  - apply (Hframe w); [reflexivity | reflexivity | exact H].
Qed.

Lemma sinv_sleep (ms : Q) : preserves P (sleep env ms).
Proof.
  apply preserves_step. intros w H. unfold sleep.
  apply sinv_suspend. apply (Hframe w); [reflexivity | reflexivity | exact H].
Qed.

Lemma sinv_generateContent (a : Agent) : preserves P (generateContent env a).
Proof.
  apply preserves_step. intros w H. unfold generateContent.
  assert (Hr : P (record (Generate a) w))
    by (apply (Hframe w); [reflexivity | reflexivity | exact H]).
  pose proof (sinv_suspend (record (Generate a) w) Hr) as Hs.
  destruct (suspend env (record (Generate a) w)) as [c w'].
  destruct (gen env (clock w)); exact Hs.
Qed.

Lemma sinv_fetch (m : Method) (url : string) (signal : option AbortSignal) :
  preserves P (fetch env m url signal).
Proof.
  apply preserves_step. intros w H. unfold fetch.
  destruct (isAborted signal w); [exact H |].
  assert (Hr : P (record (Http m url) w))
    by (apply (Hframe w); [reflexivity | reflexivity | exact H]).
  pose proof (sinv_suspend (record (Http m url) w) Hr) as Hs.
  destruct (suspend env (record (Http m url) w)) as [c w'].
  destruct (isAborted signal w'); [exact Hs |].
  destruct (http env (clock w)); exact Hs.
Qed.

#[local] Hint Resolve sinv_signalAborted sinv_randomId sinv_suspend sinv_sleep
  sinv_generateContent sinv_fetch : preserve.

Lemma sinv_retryLoop {T} (operation : M T) (maxRetries : Z) (signal : option AbortSignal) :
  preserves P operation ->
  forall todo i delay, preserves P (retryLoop env operation maxRetries signal todo i delay).
Proof.
  intros Hop todo. induction todo as [| n IH]; intros i delay.
  - apply preserves_throw.
  - rewrite retryLoop_step. preserve.
Qed.

Lemma sinv_retryWithBackoff {T} (operation : M T) (maxRetries : Z) (initialDelay : Q)
  (signal : option AbortSignal) :
  preserves P operation ->
  preserves P (retryWithBackoff env operation maxRetries initialDelay signal).
Proof.
  intro Hop. unfold retryWithBackoff.
  destruct (String.eqb (apiKey env) ""); [apply preserves_throw | apply sinv_retryLoop; exact Hop].
Qed.

Lemma sinv_parseJson (r : GenerateContentResponse) : preserves P (parseJson r).
Proof. unfold parseJson. preserve. Qed.

Lemma sinv_json (res : Response) : preserves P (json res).
Proof. unfold json. preserve. Qed.

#[local] Hint Resolve sinv_retryWithBackoff sinv_parseJson sinv_json : preserve.

Lemma sinv_generateIdentityAgent (signal : option AbortSignal) :
  preserves P (generateIdentityAgent env signal).
Proof. unfold generateIdentityAgent. preserve. Qed.

Lemma sinv_analyzeSiteIdentityAgent (signal : option AbortSignal) :
  preserves P (analyzeSiteIdentityAgent env signal).
Proof. unfold analyzeSiteIdentityAgent. preserve. Qed.

Lemma sinv_analyzeRepoStructureAgent (signal : option AbortSignal) :
  preserves P (analyzeRepoStructureAgent env signal).
Proof. unfold analyzeRepoStructureAgent. preserve. Qed.

Lemma sinv_assignIds (ds : list HubPage) : preserves P (assignIds env ds).
Proof. induction ds as [| d rest IH]; simpl; preserve. Qed.

#[local] Hint Resolve sinv_assignIds : preserve.

Lemma sinv_generateStrategyAgent (signal : option AbortSignal) :
  preserves P (generateStrategyAgent env signal).
Proof. unfold generateStrategyAgent. preserve. Qed.

Lemma sinv_generateHtmlAgent (identity : Identity) (signal : option AbortSignal) :
  preserves P (generateHtmlAgent env identity signal).
Proof. unfold generateHtmlAgent. preserve. Qed.

Lemma sinv_generateTunePlanAgent (signal : option AbortSignal) :
  preserves P (generateTunePlanAgent env signal).
Proof. unfold generateTunePlanAgent. preserve. Qed.

Lemma sinv_tunePageDesignAgent (currentHtml : string) (signal : option AbortSignal) :
  preserves P (tunePageDesignAgent env currentHtml signal).
Proof. unfold tunePageDesignAgent. preserve. Qed.

Lemma sinv_generateReadmeAgent (identity : option Identity) (signal : option AbortSignal) :
  preserves P (generateReadmeAgent env identity signal).
Proof.
  unfold generateReadmeAgent.
  apply preserves_bind; [apply sinv_retryWithBackoff; destruct identity; preserve | intro; preserve].
Qed.

Lemma sinv_fetchLoop (url : string) (m : Method) (retries : Z) (signal : option AbortSignal) :
  forall todo i lastError,
    preserves P (fetchLoop env url m retries signal todo i lastError).
Proof.
  intro todo. induction todo as [| n IH]; intros i lastError.
  - cbn [fetchLoop]. preserve.
  - rewrite fetchLoop_step. preserve.
Qed.

Lemma sinv_fetchWithRetry (url : string) (m : Method) (retries : Z)
  (signal : option AbortSignal) :
  preserves P (fetchWithRetry env url m retries signal).
Proof. unfold fetchWithRetry. apply sinv_fetchLoop. Qed.

#[local] Hint Resolve sinv_fetchWithRetry : preserve.

Lemma sinv_createRepository (config : GitHubConfig) (signal : option AbortSignal) :
  preserves P (createRepository env config signal).
Proof. unfold createRepository. preserve. Qed.

Lemma sinv_enablePages (config : GitHubConfig) (signal : option AbortSignal) :
  preserves P (enablePages env config signal).
Proof. unfold enablePages. preserve. Qed.

Lemma sinv_fetchRepoDetails (config : GitHubConfig) (signal : option AbortSignal) :
  preserves P (fetchRepoDetails env config signal).
Proof. unfold fetchRepoDetails. preserve. Qed.

Lemma sinv_fetchRepoStructure (config : GitHubConfig) (signal : option AbortSignal) :
  preserves P (fetchRepoStructure env config signal).
Proof. unfold fetchRepoStructure. preserve. Qed.

Lemma sinv_fetchFileContent (url : string) (signal : option AbortSignal) :
  preserves P (fetchFileContent env url signal).
Proof. unfold fetchFileContent. preserve. Qed.

End StateInvariant.

(** The calls of the services, recognised by their names. *)
Ltac services Hframe Habort :=
  match goal with
  | |- preserves _ (signalAborted _) => apply sinv_signalAborted
  | |- preserves _ (sleep _ _) => apply sinv_sleep; [exact Hframe | exact Habort]
  | |- preserves _ (generateIdentityAgent _ _) =>
      apply sinv_generateIdentityAgent; [exact Hframe | exact Habort]
  | |- preserves _ (analyzeSiteIdentityAgent _ _) =>
      apply sinv_analyzeSiteIdentityAgent; [exact Hframe | exact Habort]
  | |- preserves _ (analyzeRepoStructureAgent _ _) =>
      apply sinv_analyzeRepoStructureAgent; [exact Hframe | exact Habort]
  | |- preserves _ (generateStrategyAgent _ _) =>
      apply sinv_generateStrategyAgent; [exact Hframe | exact Habort]
  | |- preserves _ (generateHtmlAgent _ _ _) =>
      apply sinv_generateHtmlAgent; [exact Hframe | exact Habort]
  | |- preserves _ (generateTunePlanAgent _ _) =>
      apply sinv_generateTunePlanAgent; [exact Hframe | exact Habort]
  | |- preserves _ (tunePageDesignAgent _ _ _) =>
      apply sinv_tunePageDesignAgent; [exact Hframe | exact Habort]
  | |- preserves _ (generateReadmeAgent _ _ _) =>
      apply sinv_generateReadmeAgent; [exact Hframe | exact Habort]
  | |- preserves _ (json _) => apply sinv_json
  | |- preserves _ (fetchWithRetry _ _ _ _ _) =>
      apply sinv_fetchWithRetry; [exact Hframe | exact Habort]
  | |- preserves _ (createRepository _ _ _) =>
      apply sinv_createRepository; [exact Hframe | exact Habort]
  | |- preserves _ (enablePages _ _ _) =>
      apply sinv_enablePages; [exact Hframe | exact Habort]
  | |- preserves _ (fetchRepoDetails _ _ _) =>
      apply sinv_fetchRepoDetails; [exact Hframe | exact Habort]
  | |- preserves _ (fetchRepoStructure _ _ _) =>
      apply sinv_fetchRepoStructure; [exact Hframe | exact Habort]
  | |- preserves _ (fetchFileContent _ _ _) =>
      apply sinv_fetchFileContent; [exact Hframe | exact Habort]
  end.

(** * Cancelling a Publish or an Import run *)

Lemma rests_abort (w : World) :
  restsIn idle (state (snd (handleAbort w))) \/ restsIn ready (state (snd (handleAbort w))).
Proof.
  unfold handleAbort, updateState, abortController. cbn [snd].
  destruct (controller w); cbn [state withState];
    destruct (state w) as [? ? idn ? ? ? ? ? ? ? ? ?];
    (destruct idn; [right | left]); repeat split.
Qed.

Lemma rests_restingUpdate (st : ProjectState) (s : PipelineStatus) :
  restsIn s (merge st (restingUpdate s)).
Proof. destruct st. repeat split. Qed.

Lemma roa_frame (w w' : World) :
  state w' = state w -> aborted w' = aborted w -> restsOnceAborted w -> restsOnceAborted w'.
Proof. unfold restsOnceAborted. intros Hs Ha H. rewrite Hs, Ha. exact H. Qed.

Lemma roa_abort (w : World) : restsOnceAborted w -> restsOnceAborted (snd (handleAbort w)).
Proof. intros _ _. apply rests_abort. Qed.

(** A state change that keeps the signal and a state at rest in its
    place. *)
Lemma roa_change (f : ProjectState -> ProjectState) :
  (forall s st, restsIn s st -> restsIn s (f st)) ->
  forall w, restsOnceAborted w -> restsOnceAborted (withState f w).
Proof.
  intros Hf w H Hab. destruct (H Hab) as [Hr | Hr]; [left | right]; apply Hf; exact Hr.
Qed.

Lemma roa_setTaskStatus (id : string) (s : TaskStatus) :
  preserves restsOnceAborted (setTaskStatus id s).
Proof.
  apply preserves_step. intros w H. unfold setTaskStatus. cbn [snd].
  apply roa_change; [| exact H].
  intros s0 st [Hs [Hp Hd]]. destruct st. cbn in *. subst. repeat split.
Qed.

(** A state change made while the signal is not aborted. *)
Lemma roa_live (f : ProjectState -> ProjectState) (w : World) :
  aborted w = false -> restsOnceAborted (withState f w).
Proof. intros Hab Hab'. cbn in Hab'. rewrite Hab in Hab'. discriminate Hab'. Qed.

Lemma roa_ready : preserves restsOnceAborted (updateState (restingUpdate ready)).
Proof.
  apply preserves_step. intros w _ _. right. unfold updateState. cbn [snd state withState].
  apply rests_restingUpdate.
Qed.

Lemma sta_frame (w w' : World) :
  state w' = state w -> aborted w' = aborted w -> stillOnceAborted w -> stillOnceAborted w'.
Proof. unfold stillOnceAborted. intros Hs Ha H. rewrite Hs, Ha. exact H. Qed.

Lemma sta_abort (w : World) : stillOnceAborted w -> stillOnceAborted (snd (handleAbort w)).
Proof.
  intros _ _. destruct (rests_abort w) as [[Hs [Hp _]] | [Hs [Hp _]]];
    (split; [| exact Hp]); [left | right]; exact Hs.
Qed.

Lemma sta_setTaskStatus (id : string) (s : TaskStatus) :
  preserves stillOnceAborted (setTaskStatus id s).
Proof.
  apply preserves_step. intros w H Hab. unfold setTaskStatus in *. cbn [snd] in *.
  destruct w as [st ab ctl ck rd lg]. cbn in Hab. subst ab.
  specialize (H eq_refl). cbn [state withState] in *.
  destruct st. destruct H as [Hs Hp]. cbn in *. subst. split; [exact Hs | reflexivity].
Qed.

Lemma sta_detail (d : option string) :
  preserves stillOnceAborted (updateState [SetCurrentDetail d]).
Proof.
  apply preserves_step. intros w H Hab. unfold updateState in *. cbn [snd] in *.
  destruct w as [st ab ctl ck rd lg]. cbn in Hab. subst ab.
  specialize (H eq_refl). cbn [state withState] in *. destruct st. exact H.
Qed.

Lemma sta_rest (s : PipelineStatus) :
  s = idle \/ s = ready -> preserves stillOnceAborted (updateState (restingUpdate s)).
Proof.
  intro Hs. apply preserves_step. intros w _ _. unfold updateState. cbn [snd state withState].
  destruct (state w). split; [exact Hs | reflexivity].
Qed.

Section Cancelled.

Variable env : Env.

#[local] Hint Extern 0 (preserves restsOnceAborted _) => services roa_frame roa_abort : preserve.
#[local] Hint Extern 0 (preserves stillOnceAborted _) => services sta_frame sta_abort : preserve.
#[local] Hint Resolve roa_setTaskStatus sta_setTaskStatus sta_detail : preserve.

Lemma roa_publishFile (config : GitHubConfig) (detail : string -> option string) (file : File) :
  preserves restsOnceAborted
    (publishFile env config (Some theSignal)
       (fun p => updateState [SetCurrentDetail (detail p)]) file).
Proof.
  unfold publishFile. intros w H.
  unfold bind at 1, signalAborted at 1. cbn [isAborted].
  destruct (aborted w) eqn:Hab; [exact H |].
  unfold bind at 1, updateState at 1.
  set (w1 := withState _ w).
  assert (H1 : restsOnceAborted w1) by (apply roa_live; exact Hab).
  clearbody w1. revert w1 H1.
  refine (_ : preserves restsOnceAborted _). preserve.
Qed.

(** The pages are enabled only while the signal is not aborted. *)
Lemma enablePages_normal_live (config : GitHubConfig) (w w' : World) (u : unit) :
  enablePages env config (Some theSignal) w = (Normal u, w') -> aborted w' = false.
Proof.
  unfold enablePages, bind.
  match goal with
  | |- context [fetchWithRetry env ?url POST 3 (Some theSignal) w] =>
      destruct (fetchWithRetry env url POST 3 (Some theSignal) w) as [[res | e |] w0] eqn:Hf
  end; try (intro H; discriminate H).
  intro H.
  assert (Hw : w' = w0)
    by (destruct (negb (ok res) && negb (resStatus res =? 409)); inversion H; reflexivity).
  subst w'. eapply fetchLoop_normal_live. exact Hf.
Qed.

(** Enabling the pages and what follows it. *)
Lemma roa_publishEnd (config : GitHubConfig) :
  preserves restsOnceAborted
    (enablePages env config (Some theSignal) ;;
     setTaskStatus "enable-pages" completed ;;
     updateState (restingUpdate deployed)).
Proof.
  intros w H. unfold bind at 1.
  pose proof (sinv_enablePages env restsOnceAborted roa_frame roa_abort
                config (Some theSignal) w H) as Hinv.
  destruct (enablePages env config (Some theSignal) w) as [[u | e |] w1] eqn:He;
    cbn [fst snd] in *; [| exact Hinv | exact Hinv].
  apply enablePages_normal_live in He.
  unfold bind, setTaskStatus, updateState. cbn [fst snd].
  intro Hab. cbn in Hab. rewrite He in Hab. discriminate Hab.
Qed.

Lemma roa_publishTry (state0 : ProjectState) :
  preserves restsOnceAborted (publishTry env state0 theSignal).
Proof.
  unfold publishTry.
  apply preserves_bind; [preserve | intro details].
  apply preserves_bind; [destruct details; preserve | intros _].
  apply preserves_bind; [preserve | intros _].
  apply preserves_bind; [preserve | intros _].
  apply preserves_bind; [preserve | intro readme].
  apply preserves_bind;
    [unfold publishToGithub; apply preserves_forEach; intro file; apply roa_publishFile
    | intros _].
  apply preserves_bind; [preserve | intros _].
  apply preserves_bind; [preserve | intros _].
  apply roa_publishEnd.
Qed.

Lemma roa_publishCatch (e : JsError) : preserves restsOnceAborted (publishCatch e).
Proof. unfold publishCatch. destruct (isAbortError e); [apply preserves_returnEarly | apply roa_ready]. Qed.

Lemma sta_restoreHub (htmlFiles : list GitHubFileNode) (indexFile : option GitHubFileNode)
  (h : HubPage) (finalHubs : list HubPage) :
  preserves stillOnceAborted (restoreHub env htmlFiles indexFile theSignal h finalHubs).
Proof. unfold restoreHub. preserve. Qed.

Lemma sta_importTry (importRepo importToken : string) :
  preserves stillOnceAborted (importTry env importRepo importToken theSignal).
Proof.
  unfold importTry. preserve.
  - apply preserves_forAcc. intros. apply sta_restoreHub.
  - apply preserves_step. intros w _ _. unfold updateState. cbn [snd state withState].
    destruct (state w). split; [right; reflexivity | reflexivity].
Qed.

Lemma sta_importCatch (e : JsError) : preserves stillOnceAborted (importCatch e).
Proof.
  unfold importCatch. destruct (isAbortError e); [apply preserves_returnEarly |].
  apply sta_rest. left. reflexivity.
Qed.

Lemma rests_resting (st : ProjectState) :
  restsIn idle st \/ restsIn ready st ->
  resting (status st) = true /\ executionPlan st = [] /\ currentDetail st = None.
Proof.
  intros [[Hs [Hp Hd]] | [Hs [Hp Hd]]]; rewrite Hs; repeat split; assumption.
Qed.

(** X15.  A Publish run that the user cancels, at whatever point, ends
    at rest: a resting status, an empty ledger and no detail, so the
    overlay is closed.  Nothing the runner does after the cancel handler
    brings a task or a running status back. *)
Theorem publish_cancel_rests (w : World) :
  repo (githubConfig (state w)) <> "" ->
  token (githubConfig (state w)) <> "" ->
  aborted (snd (handlePublish env w)) = true ->
  resting (status (state (snd (handlePublish env w)))) = true
  /\ executionPlan (state (snd (handlePublish env w))) = []
  /\ currentDetail (state (snd (handlePublish env w))) = None.
Proof.
  intros Hrepo Htoken. unfold handlePublish.
  destruct (String.eqb_spec (repo (githubConfig (state w))) "") as [Hr | _]; [contradiction |].
  destruct (String.eqb_spec (token (githubConfig (state w))) "") as [Ht | _]; [contradiction |].
  cbn [orb].
  assert (Hrun : preserves restsOnceAborted
                   (tryCatch (publishTry env (state w) theSignal) publishCatch)).
  { apply preserves_tryCatch; [apply roa_publishTry | apply roa_publishCatch]. }
  pose proof (publishBegin_normal w) as Hbegin.
  set (w1 := snd (publishBegin w)) in *.
  assert (H1 : restsOnceAborted w1) by (intro Hab; discriminate Hab).
  specialize (Hrun w1 H1).
  unfold handler, bind. rewrite Hbegin.
  destruct (tryCatch (publishTry env (state w) theSignal) publishCatch w1) as [[u | e |] w2];
    cbn [snd] in *; intro Hab; apply rests_resting; exact (Hrun Hab).
Qed.

(** X16.  An Import run that the user cancels ends with status [idle]
    or [ready] and an empty ledger (the detail may be left from the page
    being restored). *)
Theorem import_cancel_rests (importRepo importToken : string) (w : World) :
  importRepo <> "" ->
  importToken <> "" ->
  aborted (snd (handleImport env importRepo importToken w)) = true ->
  (status (state (snd (handleImport env importRepo importToken w))) = idle
   \/ status (state (snd (handleImport env importRepo importToken w))) = ready)
  /\ executionPlan (state (snd (handleImport env importRepo importToken w))) = [].
Proof.
  intros Hrepo Htoken. unfold handleImport.
  destruct (String.eqb_spec importRepo "") as [Hr | _]; [contradiction |].
  destruct (String.eqb_spec importToken "") as [Ht | _]; [contradiction |].
  cbn [orb].
  assert (Hrun : preserves stillOnceAborted
                   (tryCatch (importTry env importRepo importToken theSignal) importCatch)).
  { apply preserves_tryCatch; [apply sta_importTry | apply sta_importCatch]. }
  pose proof (importBegin_normal w) as Hbegin.
  set (w1 := snd (importBegin w)) in *.
  assert (H1 : stillOnceAborted w1) by (intro Hab; discriminate Hab).
  specialize (Hrun w1 H1).
  unfold handler, bind. rewrite Hbegin.
  destruct (tryCatch (importTry env importRepo importToken theSignal) importCatch w1)
    as [[u | e |] w2]; exact Hrun.
Qed.

End Cancelled.

(** * The statuses a run goes through *)

Lemma sa_frame (L : list PipelineStatus) (w w' : World) :
  state w' = state w -> aborted w' = aborted w -> statusAmong L w -> statusAmong L w'.
Proof. unfold statusAmong. intros Hs _ H. rewrite Hs. exact H. Qed.

Lemma sa_abort (L : list PipelineStatus) :
  existsb (PipelineStatus_eqb idle) L = true ->
  existsb (PipelineStatus_eqb ready) L = true ->
  forall w, statusAmong L w -> statusAmong L (snd (handleAbort w)).
Proof.
  intros Hidle Hready w _. unfold statusAmong.
  destruct (rests_abort w) as [[Hs _] | [Hs _]]; rewrite Hs; assumption.
Qed.

Lemma sa_merge (L : list PipelineStatus) (us : list Assign) :
  onlyStatuses L us = true ->
  forall st,
    existsb (PipelineStatus_eqb (status st)) L = true ->
    existsb (PipelineStatus_eqb (status (merge st us))) L = true.
Proof.
  unfold merge. induction us as [| a rest IH]; intros Hus st Hst; [exact Hst |].
  cbn [onlyStatuses forallb] in Hus. apply andb_prop in Hus. destruct Hus as [Ha Hrest].
  cbn [fold_left]. apply IH; [exact Hrest |].
  destruct st; destruct a; cbn; assumption.
Qed.

Lemma sa_updateState (L : list PipelineStatus) (us : list Assign) :
  onlyStatuses L us = true -> preserves (statusAmong L) (updateState us).
Proof.
  intro Hus. apply preserves_step. intros w H. unfold statusAmong, updateState in *.
  cbn [snd state withState]. apply sa_merge; assumption.
Qed.

Lemma sa_setTaskStatus (L : list PipelineStatus) (id : string) (s : TaskStatus) :
  preserves (statusAmong L) (setTaskStatus id s).
Proof.
  apply preserves_step. intros w H. unfold statusAmong, setTaskStatus in *.
  cbn [snd state withState]. destruct (state w). exact H.
Qed.

Section Statuses.

Variable env : Env.

#[local] Hint Extern 0 (preserves (statusAmong ?L) (updateState _)) =>
  apply sa_updateState; reflexivity : preserve.
#[local] Hint Extern 0 (preserves (statusAmong ?L) (setTaskStatus _ _)) =>
  apply sa_setTaskStatus : preserve.
#[local] Hint Extern 1 (preserves (statusAmong ?L) _) =>
  services (sa_frame L) (sa_abort L eq_refl eq_refl) : preserve.

Lemma sa_buildTry (state0 : ProjectState) (signal : AbortSignal) (w : World) :
  statusAmong buildStatuses (snd (buildTry env state0 signal w)).
Proof.
  unfold buildTry. unfold bind at 1, updateState at 1.
  match goal with
  | |- statusAmong _ (snd (?rest ?w1)) =>
      assert (H1 : statusAmong buildStatuses w1)
        by (unfold statusAmong; cbn [state withState]; destruct (state w); reflexivity);
      generalize dependent w1
  end.
  refine (_ : preserves (statusAmong buildStatuses) _). preserve.
  apply preserves_forAcc. intros h acc. unfold buildHub. preserve.
Qed.

Lemma sa_tuneTry (state0 : ProjectState) (target : string) (signal : AbortSignal) :
  preserves (statusAmong tuneStatuses) (tuneTry env state0 target signal).
Proof.
  unfold tuneTry. preserve.
  apply preserves_forAcc. intros t acc. unfold tuneTarget. preserve.
Qed.

Lemma sa_importTry (importRepo importToken : string) (signal : AbortSignal) :
  preserves (statusAmong importStatuses) (importTry env importRepo importToken signal).
Proof.
  unfold importTry. preserve.
  apply preserves_forAcc. intros h acc. unfold restoreHub. preserve.
Qed.

Lemma sa_publishTry (state0 : ProjectState) (signal : AbortSignal) :
  preserves (statusAmong publishStatuses) (publishTry env state0 signal).
Proof.
  unfold publishTry. preserve.
  unfold publishToGithub. apply preserves_forEach. intro file. unfold publishFile. preserve.
Qed.

(** X17.  The statuses a run goes through.  A block of a runner, however
    far it gets before a request fails or the user cancels, leaves the
    status among those its runner writes and the two the cancel handler
    writes: Build never leaves its three phase statuses, Tune stays in
    [tuning_design], Import in [importing], Publish in [creating_repo]
    until it is [deployed].  The statuses [analyzing_site],
    [pushing_files] and [enabling_pages] are never set, so the overlay
    of an Import or a Publish run, when it is shown, marks the first
    step of its workflow as the active one from start to end. *)
Theorem runners_statuses :
  (forall state0 signal w, statusAmong buildStatuses (snd (buildTry env state0 signal w)))
  /\ (forall w, statusAmong tuneStatuses (snd (tuneBegin w)))
  /\ (forall state0 target signal,
        preserves (statusAmong tuneStatuses) (tuneTry env state0 target signal))
  /\ (forall w, statusAmong importStatuses (snd (importBegin w)))
  /\ (forall r t signal, preserves (statusAmong importStatuses) (importTry env r t signal))
  /\ (forall w, statusAmong publishStatuses (snd (publishBegin w)))
  /\ (forall state0 signal,
        preserves (statusAmong publishStatuses) (publishTry env state0 signal))
  /\ (forall w, statusAmong importStatuses w ->
        shownStep (state w) = None \/ shownStep (state w) = Some ("リポジトリ復元フロー", 0%nat))
  /\ (forall w, statusAmong publishStatuses w ->
        shownStep (state w) = None \/ shownStep (state w) = Some ("GitHubデプロイフロー", 0%nat))
  /\ (forall w, statusAmong tuneStatuses w ->
        shownStep (state w) = None \/ shownStep (state w) = Some ("デザイン調整フロー", 0%nat)).
Proof.
  split; [exact sa_buildTry |].
  split; [intro w; unfold statusAmong; cbn; destruct (state w); reflexivity |].
  split; [exact sa_tuneTry |].
  split; [intro w; unfold statusAmong; cbn; destruct (state w); reflexivity |].
  split; [exact sa_importTry |].
  split; [intro w; unfold statusAmong; cbn; destruct (state w); reflexivity |].
  split; [exact sa_publishTry |].
  split; [| split]; intros w H; unfold statusAmong in H; unfold shownStep, overlayShown;
    destruct (status (state w)); try discriminate H; vm_compute; auto.
Qed.

End Statuses.

(** * What a run leaves of the site *)

Lemma merge_keepsSite (us : list Assign) :
  forallb keepsSite us = true ->
  forall st,
    identity (merge st us) = identity st
    /\ hubs (merge st us) = hubs st
    /\ articles (merge st us) = articles st
    /\ strategyRationale (merge st us) = strategyRationale st
    /\ githubConfig (merge st us) = githubConfig st.
Proof.
  unfold merge. induction us as [| a rest IH]; intros Hsafe st; [repeat split |].
  simpl in Hsafe. apply andb_prop in Hsafe. destruct Hsafe as [Ha Hrest].
  simpl fold_left. destruct (IH Hrest (assign st a)) as [H1 [H2 [H3 [H4 H5]]]].
  rewrite H1, H2, H3, H4, H5.
  destruct st; destruct a; try discriminate Ha; repeat split.
Qed.

Section Site.

Variable env : Env.
Variable st0 : ProjectState.

Lemma site_frame (w w' : World) :
  state w' = state w -> aborted w' = aborted w -> siteIs st0 w -> siteIs st0 w'.
Proof. unfold siteIs. intros Hs _ H. rewrite Hs. exact H. Qed.

Lemma site_update (us : list Assign) (w : World) :
  forallb keepsSite us = true ->
  siteIs st0 w -> siteIs st0 (withState (fun prev => merge prev us) w).
Proof.
  unfold siteIs. intros Hsafe H. cbn [state withState].
  destruct (merge_keepsSite us Hsafe (state w)) as [H1 [H2 [H3 [H4 H5]]]].
  rewrite H1, H2, H3, H4, H5. exact H.
Qed.

Lemma site_abort (w : World) : siteIs st0 w -> siteIs st0 (snd (handleAbort w)).
Proof.
  intro H. unfold handleAbort, updateState. cbn [snd].
  apply site_update; [reflexivity |].
  unfold siteIs in *.
  replace (state (abortController w)) with (state w);
    [exact H | unfold abortController; destruct (controller w); reflexivity].
Qed.

Lemma site_updateState (us : list Assign) :
  forallb keepsSite us = true -> preserves (siteIs st0) (updateState us).
Proof. intro Hsafe. apply preserves_step. intros w H. apply site_update; assumption. Qed.

Lemma site_setTaskStatus (id : string) (s : TaskStatus) :
  preserves (siteIs st0) (setTaskStatus id s).
Proof.
  apply preserves_step. intros w H. unfold setTaskStatus. cbn [snd].
  unfold siteIs in *. cbn [state withState]. destruct (state w). exact H.
Qed.

Lemma site_startTask : preserves (siteIs st0) startTask.
Proof. apply preserves_step. intros w H. exact H. Qed.

#[local] Hint Extern 0 (preserves (siteIs _) (updateState _)) =>
  apply site_updateState; reflexivity : preserve.
#[local] Hint Extern 0 (preserves (siteIs _) (setTaskStatus _ _)) =>
  apply site_setTaskStatus : preserve.
#[local] Hint Extern 0 (preserves (siteIs _) startTask) => apply site_startTask : preserve.
#[local] Hint Extern 1 (preserves (siteIs _) _) => services site_frame site_abort : preserve.

Lemma site_publishTry (state0 : ProjectState) (signal : AbortSignal) :
  preserves (siteIs st0) (publishTry env state0 signal).
Proof.
  unfold publishTry. preserve.
  unfold publishToGithub. apply preserves_forEach. intro file. unfold publishFile. preserve.
Qed.

Lemma site_handlePublish : preserves (siteIs st0) (handlePublish env).
Proof.
  assert (Hp : forall state0,
             preserves (siteIs st0)
               (handler (signal <- publishBegin ;;
                         tryCatch (publishTry env state0 signal) publishCatch))).
  { intro state0. apply preserves_handler. unfold publishBegin. preserve.
    - apply site_publishTry.
    - unfold publishCatch. preserve. }
  intros w H. unfold handlePublish.
  destruct (String.eqb (repo (githubConfig (state w))) ""
            || String.eqb (token (githubConfig (state w))) ""); [exact H |].
  exact (Hp (state w) w H).
Qed.

Lemma site_restoreHub (htmlFiles : list GitHubFileNode) (indexFile : option GitHubFileNode)
  (signal : AbortSignal) (h : HubPage) (finalHubs : list HubPage) :
  preserves (siteIs st0) (restoreHub env htmlFiles indexFile signal h finalHubs).
Proof. unfold restoreHub. preserve. Qed.

(** Until its last statement the [try] block of the Import pipeline
    leaves the site of the live state alone. *)
Lemma importTry_site (importRepo importToken : string) (signal : AbortSignal) :
  hoare (siteIs st0) (importTry env importRepo importToken signal)
    (fun c w => match c with Normal _ => True | _ => siteIs st0 w end).
Proof.
  unfold importTry.
  repeat first
    [ apply hoare_bind_preserves;
      [ first [ solve [preserve]
              | apply preserves_forAcc; intros; apply site_restoreHub ]
      | intro | auto | auto ]
    | match goal with
      | |- hoare _ (let '(_, _) := ?p in _) _ => destruct p
      end ].
  intros w _. exact I.
Qed.

End Site.

(** X18.  The Publish pipeline reads the site and never writes it: for
    every behaviour of the services and of the user, the identity, the
    hubs, the articles, the rationale and the hosting configuration of
    the project state after the run are those before it. *)
Theorem publish_keeps_site (env : Env) (w : World) :
  let final := state (snd (handlePublish env w)) in
  identity final = identity (state w)
  /\ hubs final = hubs (state w)
  /\ articles final = articles (state w)
  /\ strategyRationale final = strategyRationale (state w)
  /\ githubConfig final = githubConfig (state w).
Proof.
  apply (site_handlePublish env (state w) w). repeat split.
Qed.

Lemma import_final (env : Env) (importRepo importToken : string) (w : World) :
  importRepo <> "" ->
  importToken <> "" ->
  snd (handleImport env importRepo importToken w)
  = snd (tryCatch (importTry env importRepo importToken theSignal) importCatch
           (snd (importBegin w))).
Proof.
  intros Hrepo Htoken. unfold handleImport.
  destruct (String.eqb_spec importRepo "") as [Hr | _]; [contradiction |].
  destruct (String.eqb_spec importToken "") as [Ht | _]; [contradiction |].
  cbn [orb].
  pose proof (importBegin_normal w) as Hbegin.
  set (w1 := snd (importBegin w)) in *.
  unfold handler, bind. rewrite Hbegin.
  destruct (tryCatch (importTry env importRepo importToken theSignal) importCatch w1)
    as [[u | e |] w2]; reflexivity.
Qed.

(** X19.  The Import pipeline writes the site in its last statement
    only: when its [try] block does not run to its end (a request fails,
    a reply cannot be read, the user cancels), the identity, the hubs,
    the articles, the rationale and the hosting configuration are what
    they were, whatever had been fetched and analysed by then. *)
Theorem import_all_or_nothing (env : Env) (importRepo importToken : string) (w : World) :
  importRepo <> "" ->
  importToken <> "" ->
  let attempt := importTry env importRepo importToken theSignal (snd (importBegin w)) in
  let final := state (snd (handleImport env importRepo importToken w)) in
  (forall u, fst attempt <> Normal u) ->
  identity final = identity (state w)
  /\ hubs final = hubs (state w)
  /\ articles final = articles (state w)
  /\ strategyRationale final = strategyRationale (state w)
  /\ githubConfig final = githubConfig (state w).
Proof.
  intros Hrepo Htoken attempt final Hnot.
  unfold final. rewrite import_final by assumption.
  pose proof (importTry_site env (state w) importRepo importToken theSignal
                (snd (importBegin w))) as Htry.
  assert (Hstart : siteIs (state w) (snd (importBegin w))).
  { unfold siteIs. cbn. destruct (state w). repeat split. }
  specialize (Htry Hstart). fold attempt in Htry.
  unfold tryCatch. fold attempt.
  destruct attempt as [[u | e |] w2]; cbn [fst snd] in *.
  - exfalso. apply (Hnot u). reflexivity.
  - unfold importCatch. destruct (isAbortError e); [exact Htry |].
    apply (site_updateState (state w) (restingUpdate idle) eq_refl w2 Htry).
  - exact Htry.
Qed.

(** * What the Tune pipeline changes *)

Lemma updateFirst_hubFrame (p : HubPage -> bool) (t : string) (hs : list HubPage) :
  map hubFrame (updateFirst p (fun h => withHtml h t) hs) = map hubFrame hs.
Proof.
  induction hs as [| h rest IH]; [reflexivity |].
  cbn [updateFirst]. destruct (p h); [reflexivity |].
  cbn [map]. rewrite IH. reflexivity.
Qed.

Lemma updateFirst_articleFrame (p : Article -> bool) (t : string) (ars : list Article) :
  map articleFrame (updateFirst p (fun a => withContentHtml a t) ars) = map articleFrame ars.
Proof.
  induction ars as [| a rest IH]; [reflexivity |].
  cbn [updateFirst]. destruct (p a); [reflexivity |].
  cbn [map]. rewrite IH. reflexivity.
Qed.

Section TuneFrame.

Variable env : Env.

Lemma tuneTarget_normal (signal : AbortSignal) (t : Target)
  (updated updated' : list HubPage * list Article) (w w' : World) :
  tuneTarget env signal t updated w = (Normal updated', w') ->
  map hubFrame (fst updated') = map hubFrame (fst updated)
  /\ map articleFrame (snd updated') = map articleFrame (snd updated).
Proof.
  unfold tuneTarget. intro H. bind_inv H.
  destruct a; [discriminate H |]. bind_inv H.
  inversion H; subst.
  destruct (targetType t); cbn [fst snd].
  - split; [apply updateFirst_hubFrame | reflexivity].
  - split; [reflexivity | apply updateFirst_articleFrame].
Qed.

Lemma forAcc_tuneTarget_normal (signal : AbortSignal) :
  forall targets updated w updated' w',
    forAcc targets updated (tuneTarget env signal) w = (Normal updated', w') ->
    map hubFrame (fst updated') = map hubFrame (fst updated)
    /\ map articleFrame (snd updated') = map articleFrame (snd updated).
Proof.
  induction targets as [| t rest IH]; intros updated w updated' w' H.
  - inversion H; subst. split; reflexivity.
  - cbn [forAcc] in H. bind_inv H.
    destruct (tuneTarget_normal _ _ _ _ _ _ Hm) as [Hh Ha].
    destruct (IH _ _ _ _ H) as [Hh' Ha'].
    split; [rewrite Hh', Hh | rewrite Ha', Ha]; reflexivity.
Qed.

Lemma tuneTry_normal (state0 : ProjectState) (target : string) (signal : AbortSignal)
  (w w' : World) (u : unit) :
  tuneTry env state0 target signal w = (Normal u, w') ->
  map hubFrame (hubs (state w')) = map hubFrame (hubs state0)
  /\ map articleFrame (articles (state w')) = map articleFrame (articles state0).
Proof.
  unfold tuneTry. intro H. bind_inv H.
  match goal with
  | Hloop : forAcc _ _ _ _ = (Normal _, _) |- _ =>
      destruct (forAcc_tuneTarget_normal _ _ _ _ _ _ Hloop) as [Hh Ha]
  end.
  cbn [fst snd] in Hh, Ha.
  unfold updateState in H. inversion H; subst. cbn [state withState].
  match goal with |- context [assign (assign ?st _) _] => destruct st end.
  cbn. split; assumption.
Qed.

(** X20.  The Tune pipeline changes markup only.  For every behaviour of
    the services and of the user, the hubs and the articles after the
    run are those before it, in number and in order, with the same id,
    title, slug and description (hub id and date for an article): a
    refactor call can replace the markup of a page and nothing else. *)
Theorem tune_changes_markup_only (instruction target : string) (w : World) :
  let final := state (snd (handleTuneDesign env instruction target w)) in
  map hubFrame (hubs final) = map hubFrame (hubs (state w))
  /\ map articleFrame (articles final) = map articleFrame (articles (state w))
  /\ List.length (hubs final) = List.length (hubs (state w))
  /\ List.length (articles final) = List.length (articles (state w)).
Proof.
  intro final.
  assert (Hframes : map hubFrame (hubs final) = map hubFrame (hubs (state w))
                    /\ map articleFrame (articles final) = map articleFrame (articles (state w))).
  { unfold final.
    destruct (identity (state w)) as [i |] eqn:Hid;
      [| unfold handleTuneDesign; rewrite Hid; split; reflexivity].
    destruct (String.eqb_spec instruction "") as [Hins | Hins];
      [unfold handleTuneDesign; rewrite Hid, Hins; split; reflexivity |].
    rewrite handleTuneDesign_final by (rewrite ?Hid; congruence).
    cbn [state withState].
    destruct (merge_keepsContent (restingUpdate ready) eq_refl
                (state (snd (tuneTry env (state w) target theSignal (snd (tuneBegin w))))))
      as [Hh Ha].
    rewrite Hh, Ha.
    destruct (tuneTry env (state w) target theSignal (snd (tuneBegin w)))
      as [[u | e |] w2] eqn:Hrun; cbn [snd].
    - apply (tuneTry_normal _ _ _ _ _ _ Hrun).
    - pose proof (tuneTry_content env (hubs (state w)) (articles (state w)) (state w) target
                    theSignal (snd (tuneBegin w))) as Htry.
      rewrite Hrun in Htry. cbn [fst snd] in Htry.
      destruct Htry as [Hh2 Ha2];
        [unfold contentIs; cbn; destruct (state w); split; reflexivity |].
      rewrite Hh2, Ha2. split; reflexivity.
    - pose proof (tuneTry_content env (hubs (state w)) (articles (state w)) (state w) target
                    theSignal (snd (tuneBegin w))) as Htry.
      rewrite Hrun in Htry. cbn [fst snd] in Htry.
      destruct Htry as [Hh2 Ha2];
        [unfold contentIs; cbn; destruct (state w); split; reflexivity |].
      rewrite Hh2, Ha2. split; reflexivity. }
  destruct Hframes as [Hh Ha].
  split; [exact Hh |]. split; [exact Ha |].
  split; [rewrite <- (length_map hubFrame), Hh, length_map; reflexivity |].
  rewrite <- (length_map articleFrame), Ha, length_map. reflexivity.
Qed.

End TuneFrame.

(** * The cancel handler *)

(** X21.  The cancel handler keeps the site and is idempotent: it
    leaves the identity, the pages, the rationale and the hosting
    configuration as they are, and pressing the button a second time
    changes nothing. *)
Theorem abort_idempotent (w : World) :
  snd (handleAbort (snd (handleAbort w))) = snd (handleAbort w)
  /\ siteIs (state w) (snd (handleAbort w))
  /\ controller (snd (handleAbort w)) = false
  /\ (controller w = true -> aborted (snd (handleAbort w)) = true).
Proof.
  split; [| split; [| split]].
  - unfold handleAbort, updateState, abortController. cbn [snd].
    destruct w as [st ab ctl ck rd lg].
    destruct ctl; cbn; destruct st as [? ? idn ? ? ? ? ? ? ? ? ?]; destruct idn; reflexivity.
  - apply site_abort. repeat split.
  - unfold handleAbort, updateState, abortController. cbn [snd].
    destruct (controller w) eqn:Hc; cbn; [reflexivity | exact Hc].
  - intro Hc. unfold handleAbort, updateState, abortController. cbn [snd].
    rewrite Hc. reflexivity.
Qed.

(** * Texts *)

Lemma append_nil_r (s : string) : (s ++ "")%string = s.
Proof. induction s as [| c s IH]; simpl; [reflexivity | rewrite IH; reflexivity]. Qed.

Lemma append_assoc (s t u : string) : ((s ++ t) ++ u)%string = (s ++ t ++ u)%string.
Proof. induction s as [| c s IH]; simpl; [reflexivity | rewrite IH; reflexivity]. Qed.

Lemma list_ascii_of_string_app (s t : string) :
  list_ascii_of_string (s ++ t) = list_ascii_of_string s ++ list_ascii_of_string t.
Proof. induction s as [| c s IH]; simpl; [reflexivity | rewrite IH; reflexivity]. Qed.

Lemma rev_app (s t : string) : Js.rev (s ++ t) = (Js.rev t ++ Js.rev s)%string.
Proof.
  unfold Js.rev. rewrite list_ascii_of_string_app, rev_app_distr.
  apply string_of_list_ascii_app.
Qed.

Lemma rev_rev (s : string) : Js.rev (Js.rev s) = s.
Proof.
  unfold Js.rev. rewrite list_ascii_of_string_of_list_ascii, rev_involutive.
  apply string_of_list_ascii_of_string.
Qed.

Lemma rev_cons (c : ascii) (s : string) : Js.rev (String c s) = (Js.rev s ++ String c "")%string.
Proof. change (String c s) with (String c "" ++ s)%string. rewrite rev_app. reflexivity. Qed.

Lemma prefix_app (p s : string) : prefix p (p ++ s) = true.
Proof.
  induction p as [| c p IH]; simpl; [destruct s; reflexivity |].
  destruct (ascii_dec c c) as [_ | Hne]; [exact IH | contradiction].
Qed.

Lemma prefix_split (p s : string) : prefix p s = true -> exists rest, s = (p ++ rest)%string.
Proof.
  revert s. induction p as [| c p IH]; intros s H.
  - exists s. reflexivity.
  - destruct s as [| d s]; simpl in H; [discriminate H |].
    destruct (ascii_dec c d) as [Heq | _]; [| discriminate H].
    subst d. destruct (IH s H) as [rest Hrest]. exists rest. rewrite Hrest. reflexivity.
Qed.

(** [s.includes(sub)] says that [sub] occurs in [s]. *)
Lemma includes_spec (s sub : string) :
  Js.includes s sub = true <-> exists pre post, s = (pre ++ sub ++ post)%string.
Proof.
  split.
  - induction s as [| c s IH]; cbn [Js.includes].
    + destruct (prefix sub "") eqn:Hp; [| intro H; discriminate H].
      intros _. destruct (prefix_split _ _ Hp) as [rest Hrest]. exists "", rest. exact Hrest.
    + destruct (prefix sub (String c s)) eqn:Hp.
      * intros _. destruct (prefix_split _ _ Hp) as [rest Hrest]. exists "", rest. exact Hrest.
      * intro H. destruct (IH H) as [pre [post Hs]].
        exists (String c pre), post. rewrite Hs. reflexivity.
  - intros [pre [post Hs]]. subst s.
    induction pre as [| c pre IH].
    + simpl append. destruct (sub ++ post)%string eqn:He; cbn [Js.includes];
        rewrite <- He, prefix_app; reflexivity.
    + simpl append. cbn [Js.includes]. rewrite IH.
      destruct (prefix sub (String c (pre ++ sub ++ post))); reflexivity.
Qed.

Lemma includes_false_cons (c : ascii) (s sub : string) :
  Js.includes (String c s) sub = false ->
  prefix sub (String c s) = false /\ Js.includes s sub = false.
Proof.
  cbn [Js.includes]. destruct (prefix sub (String c s)); [intro H; discriminate H |].
  intro H. split; [reflexivity | exact H].
Qed.

(** A text in which a part of [sub] does not occur holds no [sub]. *)
Lemma includes_longer (s a b : string) :
  Js.includes s a = false -> Js.includes s (a ++ b) = false.
Proof.
  intro H. destruct (Js.includes s (a ++ b)) eqn:Hab; [| reflexivity].
  apply includes_spec in Hab. destruct Hab as [pre [post Hs]].
  assert (Ha : Js.includes s a = true).
  { apply includes_spec. exists pre, (b ++ post)%string.
    rewrite Hs, append_assoc. reflexivity. }
  rewrite Ha in H. discriminate H.
Qed.

(** ** Dropping characters at the ends *)

Lemma dropWhile_suffix (p : ascii -> bool) (s : string) :
  exists pre, s = (pre ++ Js.dropWhile p s)%string /\ everyChar p pre = true.
Proof.
  induction s as [| c s IH]; simpl.
  - exists "". split; reflexivity.
  - destruct (p c) eqn:Hp.
    + destruct IH as [pre [Hs Hall]]. exists (String c pre). split.
      * simpl. rewrite <- Hs. reflexivity.
      * simpl. rewrite Hp, Hall. reflexivity.
    + exists "". split; reflexivity.
Qed.

Lemma dropWhile_fix (p : ascii -> bool) (s : string) :
  match firstChar s with Some c => p c = false | None => True end ->
  Js.dropWhile p s = s.
Proof. destruct s as [| c s]; simpl; [reflexivity |]. intro H. rewrite H. reflexivity. Qed.

Lemma dropWhile_all (p : ascii -> bool) (ws s : string) :
  everyChar p ws = true -> Js.dropWhile p (ws ++ s) = Js.dropWhile p s.
Proof.
  induction ws as [| c ws IH]; simpl; [reflexivity |].
  intro H. apply andb_prop in H. destruct H as [Hc Hws]. rewrite Hc. apply IH. exact Hws.
Qed.

Lemma dropWhile_first (p : ascii -> bool) (s : string) :
  match firstChar (Js.dropWhile p s) with Some c => p c = false | None => True end.
Proof.
  destruct (dropWhile_head p s) as [He | [c [rest [He Hc]]]]; rewrite He; simpl; auto.
Qed.

Lemma dropWhileEnd_prefix (p : ascii -> bool) (s : string) :
  exists post, s = (Js.dropWhileEnd p s ++ post)%string /\ everyChar p (Js.rev post) = true.
Proof.
  unfold Js.dropWhileEnd.
  destruct (dropWhile_suffix p (Js.rev s)) as [pre [Hs Hall]].
  exists (Js.rev pre). split; [| rewrite rev_rev; exact Hall].
  rewrite <- rev_app, <- Hs, rev_rev. reflexivity.
Qed.

Lemma dropWhileEnd_fix (p : ascii -> bool) (s : string) :
  match lastChar s with Some c => p c = false | None => True end ->
  Js.dropWhileEnd p s = s.
Proof.
  unfold lastChar, Js.dropWhileEnd. intro H. rewrite dropWhile_fix by exact H. apply rev_rev.
Qed.

Lemma dropWhileEnd_last (p : ascii -> bool) (s : string) :
  match lastChar (Js.dropWhileEnd p s) with Some c => p c = false | None => True end.
Proof.
  unfold lastChar, Js.dropWhileEnd. rewrite rev_rev. apply dropWhile_first.
Qed.

Lemma firstChar_app (s t : string) :
  s <> "" -> firstChar (s ++ t) = firstChar s.
Proof. destruct s; [intro H; contradiction | reflexivity]. Qed.

(** Dropping at the end keeps the first character. *)
Lemma dropWhileEnd_first (p : ascii -> bool) (s : string) :
  match firstChar s with Some c => p c = false | None => True end ->
  match firstChar (Js.dropWhileEnd p s) with Some c => p c = false | None => True end.
Proof.
  intro H. destruct (dropWhileEnd_prefix p s) as [post [Hs _]].
  destruct (Js.dropWhileEnd p s) as [| c front] eqn:He; [exact I |].
  rewrite Hs in H. simpl in H. simpl. exact H.
Qed.

Lemma everyChar_app (p : ascii -> bool) (s t : string) :
  everyChar p (s ++ t) = everyChar p s && everyChar p t.
Proof.
  induction s as [| c s IH]; simpl; [reflexivity |].
  rewrite IH. apply andb_assoc.
Qed.

Lemma everyChar_rev (p : ascii -> bool) (s : string) : everyChar p (Js.rev s) = everyChar p s.
Proof.
  induction s as [| c s IH]; [reflexivity |].
  rewrite rev_cons, everyChar_app, IH. simpl. rewrite andb_true_r. apply andb_comm.
Qed.

Lemma dropWhileEnd_all (p : ascii -> bool) (s ws : string) :
  everyChar p ws = true -> Js.dropWhileEnd p (s ++ ws) = Js.dropWhileEnd p s.
Proof.
  intro H. unfold Js.dropWhileEnd. rewrite rev_app, dropWhile_all; [reflexivity |].
  rewrite everyChar_rev. exact H.
Qed.

(** ** [trim] *)

Lemma trim_fix (s : string) :
  match firstChar s with Some c => Js.isSpace c = false | None => True end ->
  match lastChar s with Some c => Js.isSpace c = false | None => True end ->
  Js.trim s = s.
Proof.
  intros Hf Hl. unfold Js.trim. rewrite dropWhile_fix by exact Hf.
  apply dropWhileEnd_fix. exact Hl.
Qed.

Lemma trim_ends (s : string) :
  match firstChar (Js.trim s) with Some c => Js.isSpace c = false | None => True end
  /\ match lastChar (Js.trim s) with Some c => Js.isSpace c = false | None => True end.
Proof.
  unfold Js.trim. split; [| apply dropWhileEnd_last].
  apply dropWhileEnd_first. apply dropWhile_first.
Qed.

Lemma trim_trim (s : string) : Js.trim (Js.trim s) = Js.trim s.
Proof. destruct (trim_ends s) as [Hf Hl]. apply trim_fix; assumption. Qed.

(** What [trim] returns is a part of its argument. *)
Lemma trim_part (s : string) : exists pre post, s = (pre ++ Js.trim s ++ post)%string.
Proof.
  unfold Js.trim.
  destruct (dropWhile_suffix Js.isSpace s) as [pre [Hs _]].
  destruct (dropWhileEnd_prefix Js.isSpace (Js.dropWhile Js.isSpace s)) as [post [Hd _]].
  exists pre, post. rewrite <- Hd. exact Hs.
Qed.

Lemma includes_trim (s sub : string) :
  Js.includes s sub = false -> Js.includes (Js.trim s) sub = false.
Proof.
  intro H. destruct (Js.includes (Js.trim s) sub) eqn:Ht; [| reflexivity].
  apply includes_spec in Ht. destruct Ht as [pre [post Ht]].
  destruct (trim_part s) as [pre' [post' Hs]].
  assert (Hin : Js.includes s sub = true).
  { apply includes_spec. exists (pre' ++ pre)%string, (post ++ post')%string.
    rewrite Hs, Ht, !append_assoc. reflexivity. }
  rewrite Hin in H. discriminate H.
Qed.

(** White space around a text does not change what [trim] returns. *)
Lemma trim_padded (ws1 ws2 s : string) :
  everyChar Js.isSpace ws1 = true ->
  everyChar Js.isSpace ws2 = true ->
  Js.trim (ws1 ++ s ++ ws2) = Js.trim s.
Proof.
  intros H1 H2. unfold Js.trim. rewrite dropWhile_all by exact H1.
  induction s as [| c s IH].
  - simpl append. destruct (dropWhile_suffix Js.isSpace ws2) as [pre [Hs Hall]].
    assert (Hd : Js.dropWhile Js.isSpace ws2 = "").
    { rewrite <- (append_nil_r ws2). rewrite dropWhile_all by exact H2. reflexivity. }
    rewrite Hd. reflexivity.
  - simpl append. cbn [Js.dropWhile]. destruct (Js.isSpace c); [exact IH |].
    change (String c (s ++ ws2)) with (String c s ++ ws2)%string.
    apply dropWhileEnd_all. exact H2.
Qed.

(** ** Removing the occurrences of a text *)

Lemma removeAll_absent (sub s : string) :
  Js.includes s sub = false -> Js.removeAll sub s = s.
Proof.
  unfold Js.removeAll. induction s as [| c s IH]; intro H; [reflexivity |].
  apply includes_false_cons in H. destruct H as [Hp Hs].
  cbn [Js.removeAllFrom]. rewrite Hp, IH by exact Hs. reflexivity.
Qed.

(** The scan of [removeAll] for the fence, one character at a time. *)
Lemma removeFence_skip (k : nat) (c : ascii) (s : string) :
  Js.removeAllFrom (S k) fence (String c s) = Js.removeAllFrom k fence s.
Proof. reflexivity. Qed.

Lemma removeFence_keep (c : ascii) (s : string) :
  prefix fence (String c s) = false ->
  Js.removeAllFrom 0 fence (String c s) = String c (Js.removeAllFrom 0 fence s).
Proof. intro H. cbn [Js.removeAllFrom]. rewrite H. reflexivity. Qed.

Lemma removeFence_drop (c : ascii) (s : string) :
  prefix fence (String c s) = true ->
  Js.removeAllFrom 0 fence (String c s) = Js.removeAllFrom 2 fence s.
Proof. intro H. cbn [Js.removeAllFrom]. rewrite H. reflexivity. Qed.

Lemma prefix_tick (c : ascii) (p s : string) :
  prefix (String "`" p) (String c s) = Ascii.eqb c "`" && prefix p s.
Proof.
  cbn [prefix]. destruct (ascii_dec "`" c) as [He | Hne].
  - subst c. rewrite Ascii.eqb_refl. reflexivity.
  - destruct (Ascii.eqb_spec c "`") as [He | _]; [symmetry in He; contradiction | reflexivity].
Qed.

Lemma prefix_fence (c : ascii) (s : string) :
  prefix fence (String c s) = Ascii.eqb c "`" && twoTicks s.
Proof. apply prefix_tick. Qed.

Lemma twoTicks_cons (c : ascii) (s : string) :
  twoTicks (String c s) = Ascii.eqb c "`" && prefix "`" s.
Proof. apply prefix_tick. Qed.

Lemma oneTick_cons (c : ascii) (s : string) : prefix "`" (String c s) = Ascii.eqb c "`".
Proof. rewrite prefix_tick. destruct s; apply andb_true_r. Qed.

(** Where the text does not start with a backtick, neither does what is
    left of it. *)
Lemma removeFence_oneTick (s : string) :
  prefix "`" s = false -> prefix "`" (Js.removeAllFrom 0 fence s) = false.
Proof.
  destruct s as [| y r]; [reflexivity |].
  rewrite oneTick_cons. intro Hy.
  rewrite removeFence_keep by (rewrite prefix_fence, Hy; reflexivity).
  rewrite oneTick_cons. exact Hy.
Qed.

(** Where the text does not start with two backticks, neither does what
    is left of it. *)
Lemma removeFence_twoTicks (s : string) :
  twoTicks s = false -> twoTicks (Js.removeAllFrom 0 fence s) = false.
Proof.
  destruct s as [| x r]; [reflexivity |].
  rewrite twoTicks_cons. intro H.
  destruct (Ascii.eqb x "`") eqn:Hx; cbn [andb] in H.
  - assert (Hr : twoTicks r = false).
    { destruct r as [| y r2]; [reflexivity |].
      rewrite twoTicks_cons. rewrite oneTick_cons in H. rewrite H. reflexivity. }
    rewrite removeFence_keep by (rewrite prefix_fence, Hr; apply andb_false_r).
    rewrite twoTicks_cons, Hx. cbn [andb]. apply removeFence_oneTick. exact H.
  - rewrite removeFence_keep by (rewrite prefix_fence, Hx; reflexivity).
    rewrite twoTicks_cons, Hx. reflexivity.
Qed.

(** Once the fences are removed, none is left. *)
Lemma removeFence_clean (s : string) :
  forall skip, Js.includes (Js.removeAllFrom skip fence s) fence = false.
Proof.
  induction s as [| c s IH]; intro skip.
  - destruct skip; reflexivity.
  - destruct skip as [| k]; [| rewrite removeFence_skip; apply IH].
    destruct (prefix fence (String c s)) eqn:Hp.
    + rewrite removeFence_drop by exact Hp. apply IH.
    + rewrite removeFence_keep by exact Hp.
      cbn [Js.includes]. rewrite (IH 0%nat).
      rewrite prefix_fence in *.
      destruct (Ascii.eqb c "`"); [| reflexivity].
      cbn [andb] in *. rewrite removeFence_twoTicks by exact Hp. reflexivity.
Qed.

Lemma stripMarkdown_tidy (t : string) :
  Js.includes (stripMarkdown t) fence = false /\ Js.trim (stripMarkdown t) = stripMarkdown t.
Proof.
  split; unfold stripMarkdown; [| apply trim_trim].
  apply includes_trim. apply (removeFence_clean _ 0%nat).
Qed.

(** X22.  What [stripMarkdown] returns holds no code fence and has no
    white space at its ends, and stripping it again changes nothing. *)
Theorem stripMarkdown_clean (t : string) :
  Js.includes (stripMarkdown t) fence = false
  /\ Js.trim (stripMarkdown t) = stripMarkdown t
  /\ stripMarkdown (stripMarkdown t) = stripMarkdown t.
Proof.
  destruct (stripMarkdown_tidy t) as [Hclean Htrim].
  split; [exact Hclean |].
  split; [exact Htrim |].
  unfold stripMarkdown at 1.
  rewrite (removeAll_absent "```html" (stripMarkdown t))
    by (apply (includes_longer _ fence "html"); exact Hclean).
  rewrite (removeAll_absent "```" (stripMarkdown t)) by exact Hclean.
  exact Htrim.
Qed.

(** ** Replies in a fence *)

Lemma removeFence_plain (body : string) :
  hasChar "`" body = false -> Js.removeAll fence (body ++ fence) = body.
Proof.
  unfold Js.removeAll. induction body as [| c body IH]; [reflexivity |].
  cbn [hasChar]. intro H. apply orb_false_elim in H. destruct H as [Hc Hb].
  simpl append. rewrite removeFence_keep by (rewrite prefix_fence, Hc; reflexivity).
  rewrite IH by exact Hb. reflexivity.
Qed.

Lemma includes_htmlFence_plain (body : string) :
  hasChar "`" body = false -> Js.includes (body ++ fence) "```html" = false.
Proof.
  induction body as [| c body IH]; [reflexivity |].
  cbn [hasChar]. intro H. apply orb_false_elim in H. destruct H as [Hc Hb].
  simpl append. cbn [Js.includes]. rewrite prefix_tick, Hc. cbn [andb]. apply IH. exact Hb.
Qed.

Lemma removeAllFrom_skip (sub p rest : string) :
  Js.removeAllFrom (String.length p) sub (p ++ rest) = Js.removeAllFrom 0 sub rest.
Proof. induction p as [| c p IH]; [reflexivity | exact IH]. Qed.

(** An occurrence at the start of the text is removed. *)
Lemma removeAll_head (c : ascii) (sub rest : string) :
  Js.removeAll (String c sub) (String c sub ++ rest) = Js.removeAll (String c sub) rest.
Proof.
  unfold Js.removeAll. simpl append. cbn [Js.removeAllFrom].
  change (String c (sub ++ rest)) with (String c sub ++ rest)%string.
  rewrite prefix_app.
  replace (String.length (String c sub) - 1)%nat with (String.length sub)
    by (cbn [String.length]; lia).
  apply removeAllFrom_skip.
Qed.

(** A reply wrapped in an html fence. *)
Lemma stripMarkdown_fenced (body : string) :
  hasChar "`" body = false ->
  stripMarkdown ("```html" ++ body ++ fence) = Js.trim body.
Proof.
  intro H. unfold stripMarkdown.
  rewrite (removeAll_head "`" "``html").
  rewrite (removeAll_absent "```html" (body ++ fence))
    by (apply includes_htmlFence_plain; exact H).
  change "```" with fence. rewrite removeFence_plain by exact H. reflexivity.
Qed.

Lemma lower_tick (c : ascii) : Ascii.eqb c "`" = false -> Ascii.eqb (Js.lower c) "`" = false.
Proof.
  destruct c as [[] [] [] [] [] [] [] []]; intro H; try discriminate H; reflexivity.
Qed.

Lemma removeFirstFence_plain (body : string) :
  hasChar "`" body = false -> Js.removeFirstCI fence (body ++ fence) = body.
Proof.
  induction body as [| c body IH]; [reflexivity |].
  cbn [hasChar]. intro H. apply orb_false_elim in H. destruct H as [Hc Hb].
  simpl append. cbn [Js.removeFirstCI].
  unfold Js.prefixCI. cbn [Js.lowercase]. unfold fence at 1. rewrite prefix_tick.
  rewrite lower_tick by exact Hc. cbn [andb]. rewrite IH by exact Hb. reflexivity.
Qed.

(** A reply wrapped in a markdown fence, as the README agent cleans it. *)
Lemma readme_fenced (body : string) :
  hasChar "`" body = false ->
  Js.trim (Js.removeFirstCI "```" (Js.removeFirstCI "```markdown" ("```markdown" ++ body ++ fence)))
  = Js.trim body.
Proof.
  intro H.
  assert (Hhead : Js.removeFirstCI "```markdown" ("```markdown" ++ body ++ fence)
                  = (body ++ fence)%string).
  { simpl append. cbn [Js.removeFirstCI]. unfold Js.prefixCI.
    change (Js.lowercase (String "`" (String "`" (String "`" (String "m" (String "a"
              (String "r" (String "k" (String "d" (String "o" (String "w" (String "n"
                 (body ++ fence)))))))))))))
      with ("```markdown" ++ Js.lowercase (body ++ fence))%string.
    rewrite prefix_app. reflexivity. }
  rewrite Hhead.
  change "```" with fence. rewrite removeFirstFence_plain by exact H. reflexivity.
Qed.

Section Replies.

Variable env : Env.

(** A generation call answered at once. *)
Lemma retryWithBackoff_answered (a : Agent) (signal : option AbortSignal) (w : World)
  (r : GenerateContentResponse) :
  apiKey env <> "" ->
  (forall j, cancelAt env j = false) ->
  isAborted signal w = false ->
  gen env (clock w) = Resolved r ->
  retryWithBackoff env (generateContent env a) 5 2000 signal w
  = (Normal r, advance w 1 [Generate a]).
Proof.
  intros Hkey Hquiet Hab Hr. unfold retryWithBackoff.
  destruct (String.eqb_spec (apiKey env) "") as [Hk | _]; [contradiction |].
  change (Z.to_nat 5) with 5%nat.
  rewrite (retryLoop_decisive env a 5 signal Hquiet 0 4 0 2000 w Hab eq_refl
             ltac:(lia) ltac:(intros j Hj; lia)).
  rewrite Nat.mul_0_r, Nat.add_0_r, Hr. reflexivity.
Qed.

(** X23.  A reply that wraps the page in an html fence, or the README
    in a markdown fence, is unwrapped: when the text between the fences
    holds no backtick, the page agents and the README agent return that
    text, trimmed.  An empty reply makes the page agent return its
    fallback page, the refactor agent the page it was given (stripped of
    fences), the README agent the empty text. *)
Theorem fenced_reply_unwrapped (identity : Identity) (currentHtml body : string)
  (signal : option AbortSignal) (w : World) (r : GenerateContentResponse) :
  apiKey env <> "" ->
  (forall j, cancelAt env j = false) ->
  isAborted signal w = false ->
  gen env (clock w) = Resolved r ->
  siteName identity <> None ->
  hasChar "`" body = false ->
  (text r = ("```html" ++ body ++ "```")%string ->
   generateHtmlAgent env identity signal w
   = (Normal (Js.trim body), advance w 1 [Generate HtmlAgent])
   /\ tunePageDesignAgent env currentHtml signal w
      = (Normal (Js.trim body), advance w 1 [Generate TunePageAgent]))
  /\ (text r = ("```markdown" ++ body ++ "```")%string ->
      generateReadmeAgent env (Some identity) signal w
      = (Normal (Js.trim body), advance w 1 [Generate ReadmeAgent]))
  /\ (text r = "" ->
      generateHtmlAgent env identity signal w
      = (Normal "<html><body>ページ生成に失敗しました。</body></html>",
         advance w 1 [Generate HtmlAgent])
      /\ tunePageDesignAgent env currentHtml signal w
         = (Normal (stripMarkdown currentHtml), advance w 1 [Generate TunePageAgent])
      /\ generateReadmeAgent env (Some identity) signal w
         = (Normal "", advance w 1 [Generate ReadmeAgent])).
Proof.
  intros Hkey Hquiet Hab Hr Hname Hbody.
  assert (Hcall : forall a, retryWithBackoff env (generateContent env a) 5 2000 signal w
                            = (Normal r, advance w 1 [Generate a]))
    by (intro a; apply retryWithBackoff_answered; assumption).
  unfold generateHtmlAgent, tunePageDesignAgent, generateReadmeAgent, bind, ret.
  destruct (siteName identity) as [n |]; [| contradiction].
  rewrite !Hcall.
  split; [| split].
  - intro Ht. rewrite Ht. unfold Js.orElse.
    replace (String.eqb ("```html" ++ body ++ "```") "") with false by reflexivity.
    change ("```html" ++ body ++ "```")%string with ("```html" ++ body ++ fence)%string.
    rewrite stripMarkdown_fenced by exact Hbody. split; reflexivity.
  - intro Ht. rewrite Ht.
    change ("```markdown" ++ body ++ "```")%string with ("```markdown" ++ body ++ fence)%string.
    rewrite readme_fenced by exact Hbody. reflexivity.
  - intro Ht. rewrite Ht. unfold Js.orElse. cbn [String.eqb].
    split; [| split; reflexivity].
    f_equal.
Qed.

(** What the page agents return went through [stripMarkdown]. *)
Lemma generateHtmlAgent_normal (identity : Identity) (signal : option AbortSignal)
  (w w' : World) (t : string) :
  generateHtmlAgent env identity signal w = (Normal t, w') ->
  exists raw, t = stripMarkdown raw.
Proof.
  unfold generateHtmlAgent. destruct (siteName identity); [| intro H; discriminate H].
  intro H. bind_inv H. inversion H. eexists. reflexivity.
Qed.

Lemma tunePageDesignAgent_normal (currentHtml : string) (signal : option AbortSignal)
  (w w' : World) (t : string) :
  tunePageDesignAgent env currentHtml signal w = (Normal t, w') ->
  exists raw, t = stripMarkdown raw.
Proof.
  unfold tunePageDesignAgent. intro H. bind_inv H. inversion H. eexists. reflexivity.
Qed.

End Replies.

(** * The pages a Build run stores *)

Section BuildPages.

Variable env : Env.

Lemma cleanPage_withHtml (h : HubPage) (raw : string) :
  cleanPage (withHtml h (stripMarkdown raw)).
Proof.
  exists (stripMarkdown raw). split; [reflexivity |].
  destruct (stripMarkdown_tidy raw) as [Hf Ht]. split; assumption.
Qed.

Lemma buildHub_clean (identity : Identity) (signal : AbortSignal) (h : HubPage)
  (updatedHubs acc : list HubPage) (w w' : World) :
  buildHub env identity signal h updatedHubs w = (Normal acc, w') ->
  Forall cleanPage updatedHubs -> Forall cleanPage acc.
Proof.
  unfold buildHub. intros H Hclean. bind_inv H.
  destruct a; [discriminate H |]. bind_inv H.
  match goal with
  | Hgen : generateHtmlAgent _ _ _ _ = (Normal _, _) |- _ =>
      destruct (generateHtmlAgent_normal _ _ _ _ _ _ Hgen) as [raw Hraw]
  end.
  inversion H; subst.
  apply Forall_app. split; [exact Hclean |].
  constructor; [apply cleanPage_withHtml | constructor].
Qed.

Lemma forAcc_buildHub_clean (identity : Identity) (signal : AbortSignal) :
  forall hs acc w acc' w',
    forAcc hs acc (buildHub env identity signal) w = (Normal acc', w') ->
    Forall cleanPage acc -> Forall cleanPage acc'.
Proof.
  induction hs as [| h rest IH]; intros acc w acc' w' H Hclean.
  - inversion H; subst. exact Hclean.
  - cbn [forAcc] in H. bind_inv H.
    eapply IH; [exact H |]. eapply buildHub_clean; [exact Hm | exact Hclean].
Qed.

(** X24.  After a Build run that succeeds, every page of the site, the
    homepage included, has markup, and that markup holds no code fence
    and no white space at its ends: whatever the generation service
    wrapped around the pages was stripped before they were stored. *)
Theorem build_pages_clean (w : World) :
  fst (buildTry env (state w) theSignal (snd (startTask w))) = Normal tt ->
  Forall cleanPage (hubs (state (snd (handleInitialBuild env w)))).
Proof.
  intro Hn. rewrite (handleInitialBuild_normal env w Hn).
  destruct (buildTry env (state w) theSignal (snd (startTask w))) as [c wf] eqn:Hrun.
  cbn [fst] in Hn. subst c. cbn [snd].
  unfold buildTry in Hrun. bind_inv Hrun.
  match type of Hrun with
  | (let '(_, _) := ?p in _) _ = _ => destruct p as [hs rationale]
  end.
  bind_inv Hrun.
  match goal with
  | Hloop : forAcc _ _ _ _ = (Normal _, _) |- _ =>
      pose proof (forAcc_buildHub_clean _ _ _ _ _ _ _ Hloop (Forall_nil _)) as Hpages
  end.
  match goal with
  | Hgen : generateHtmlAgent _ _ _ _ = (Normal ?indexHtml, _) |- _ =>
      match type of Hrun with
      | updateState (SetHubs (homeHub indexHtml :: _) :: _) _ = _ =>
          destruct (generateHtmlAgent_normal _ _ _ _ _ _ Hgen) as [raw Hraw]
      end
  end.
  inversion Hrun; subst wf. cbn.
  match goal with |- context [state ?w0] => destruct (state w0) end. cbn.
  constructor; [| exact Hpages].
  subst. apply (cleanPage_withHtml (homeHub "") raw).
Qed.

End BuildPages.

(** * The repository text *)

Lemma lowercase_app (s t : string) :
  Js.lowercase (s ++ t) = (Js.lowercase s ++ Js.lowercase t)%string.
Proof. induction s as [| c s IH]; simpl; [reflexivity | rewrite IH; reflexivity]. Qed.

Lemma length_lowercase (s : string) : String.length (Js.lowercase s) = String.length s.
Proof. induction s as [| c s IH]; simpl; [reflexivity | rewrite IH; reflexivity]. Qed.

Lemma drop_app (s t : string) : Js.drop (String.length s) (s ++ t) = t.
Proof. induction s as [| c s IH]; simpl; [destruct t; reflexivity | exact IH]. Qed.

Lemma length_rev (s : string) : String.length (Js.rev s) = String.length s.
Proof.
  induction s as [| c s IH]; [reflexivity |].
  rewrite rev_cons, length_append, IH. simpl. lia.
Qed.

Lemma lastChar_app (s t : string) : t <> "" -> lastChar (s ++ t) = lastChar t.
Proof.
  intro Ht. unfold lastChar. rewrite rev_app. apply firstChar_app.
  intro He. apply Ht. rewrite <- (rev_rev t), He. reflexivity.
Qed.

(** A letter that prints as "h", "t" or "m" in lower case is neither
    white space nor a slash. *)
Lemma lower_plain (c x : ascii) :
  Js.lower c = x -> Js.isSpace x = false -> Js.isSlash x = false ->
  Js.isSpace c = false /\ Js.isSlash c = false.
Proof.
  intros Hc Hs Hl. subst x.
  destruct c as [[] [] [] [] [] [] [] []]; split;
    first [reflexivity | exact Hs | exact Hl | discriminate Hs | discriminate Hl].
Qed.

Lemma prefix_firstChar (pre : string) (p : string) (x : ascii) :
  Js.lowercase pre = String x p ->
  Js.isSpace x = false -> Js.isSlash x = false ->
  pre <> ""
  /\ match firstChar pre with
     | Some c => Js.isSpace c = false /\ Js.isSlash c = false
     | None => False
     end.
Proof.
  destruct pre as [| c pre']; simpl; [intro H; discriminate H |].
  intros H Hs Hl. injection H as Hc _. split; [intro He; discriminate He |].
  eapply lower_plain; eassumption.
Qed.

(** The address is stripped, whatever the case of its letters. *)
Lemma stripGithubPrefix_address (pre rest : string) :
  In (Js.lowercase pre) githubPrefixes -> stripGithubPrefix (pre ++ rest) = rest.
Proof.
  intro Hin.
  assert (Hci : forall p, Js.prefixCI p (pre ++ rest)
                          = prefix p (Js.lowercase pre ++ Js.lowercase rest))
    by (intro p; unfold Js.prefixCI; rewrite lowercase_app; reflexivity).
  assert (Hlen : String.length pre = String.length (Js.lowercase pre))
    by (symmetry; apply length_lowercase).
  unfold stripGithubPrefix. rewrite !Hci.
  destruct Hin as [H | [H | [H | [H | []]]]]; rewrite <- H in *.
  - rewrite prefix_app. change 23%nat with (String.length "https://www.github.com/").
    rewrite <- Hlen. apply drop_app.
  - replace (prefix "https://www.github.com/" ("https://github.com/" ++ Js.lowercase rest))
      with false by reflexivity.
    rewrite prefix_app. change 19%nat with (String.length "https://github.com/").
    rewrite <- Hlen. apply drop_app.
  - replace (prefix "https://www.github.com/" ("http://www.github.com/" ++ Js.lowercase rest))
      with false by reflexivity.
    replace (prefix "https://github.com/" ("http://www.github.com/" ++ Js.lowercase rest))
      with false by reflexivity.
    rewrite prefix_app. change 22%nat with (String.length "http://www.github.com/").
    rewrite <- Hlen. apply drop_app.
  - replace (prefix "https://www.github.com/" ("http://github.com/" ++ Js.lowercase rest))
      with false by reflexivity.
    replace (prefix "https://github.com/" ("http://github.com/" ++ Js.lowercase rest))
      with false by reflexivity.
    replace (prefix "http://www.github.com/" ("http://github.com/" ++ Js.lowercase rest))
      with false by reflexivity.
    rewrite prefix_app. change 18%nat with (String.length "http://github.com/").
    rewrite <- Hlen. apply drop_app.
Qed.

Lemma stripGithubPrefix_none (r : string) :
  existsb (fun p => Js.prefixCI p r) githubPrefixes = false -> stripGithubPrefix r = r.
Proof.
  unfold githubPrefixes, stripGithubPrefix. cbn [existsb]. intro H.
  repeat (apply orb_false_elim in H; destruct H as [?H H]).
  repeat match goal with Hp : Js.prefixCI _ r = false |- _ => rewrite Hp; clear Hp end.
  reflexivity.
Qed.

(** The suffix ".git" is stripped, whatever the case of its letters. *)
Lemma stripGitSuffix_git (r g : string) :
  Js.lowercase g = ".git" -> stripGitSuffix (r ++ g) = r.
Proof.
  intro Hg. unfold stripGitSuffix, Js.endsWith.
  rewrite lowercase_app, Hg, rev_app.
  change (Js.rev ".git") with "tig.". rewrite prefix_app.
  unfold dropEnd. rewrite rev_app.
  assert (Hlen : String.length (Js.rev g) = 4%nat).
  { rewrite length_rev, <- length_lowercase, Hg. reflexivity. }
  rewrite <- Hlen, drop_app. apply rev_rev.
Qed.

Lemma stripGitSuffix_slash (r : string) : stripGitSuffix (r ++ "/") = (r ++ "/")%string.
Proof.
  unfold stripGitSuffix, Js.endsWith. rewrite lowercase_app, rev_app.
  change (Js.rev (Js.lowercase "/")) with "/". reflexivity.
Qed.

Lemma stripSlashes_fix (r : string) :
  match firstChar r with Some c => Js.isSlash c = false | None => True end ->
  match lastChar r with Some c => Js.isSlash c = false | None => True end ->
  Js.stripSlashes r = r.
Proof.
  intros Hf Hl. unfold Js.stripSlashes. rewrite dropWhile_fix by exact Hf.
  apply dropWhileEnd_fix. exact Hl.
Qed.

Lemma stripSlashes_trailing (r : string) :
  match firstChar r with Some c => Js.isSlash c = false | None => False end ->
  match lastChar r with Some c => Js.isSlash c = false | None => True end ->
  Js.stripSlashes (r ++ "/") = r.
Proof.
  intros Hf Hl. unfold Js.stripSlashes.
  rewrite dropWhile_fix.
  - rewrite dropWhileEnd_all by reflexivity. apply dropWhileEnd_fix. exact Hl.
  - destruct r as [| c r']; [destruct Hf | exact Hf].
Qed.

(** What [bare] says, piece by piece. *)
Lemma bare_spec (r : string) :
  bare r = true ->
  r <> ""
  /\ (exists a, firstChar r = Some a /\ Js.isSpace a = false /\ Js.isSlash a = false)
  /\ (exists z, lastChar r = Some z /\ Js.isSpace z = false /\ Js.isSlash z = false)
  /\ Js.endsWith (Js.lowercase r) ".git" = false
  /\ existsb (fun p => Js.prefixCI p r) githubPrefixes = false.
Proof.
  unfold bare. destruct (firstChar r) as [a |] eqn:Hf; [| intro H; discriminate H].
  destruct (lastChar r) as [z |] eqn:Hl; [| intro H; discriminate H].
  intro H.
  apply andb_prop in H. destruct H as [H H6].
  apply andb_prop in H. destruct H as [H H5].
  apply andb_prop in H. destruct H as [Ha Hz].
  unfold plain in Ha, Hz.
  apply andb_prop in Ha. destruct Ha as [Ha H2].
  apply andb_prop in Ha. destruct Ha as [_ H1].
  apply andb_prop in Hz. destruct Hz as [Hz H4].
  apply andb_prop in Hz. destruct Hz as [_ H3].
  apply negb_true_iff in H1, H2, H3, H4, H5, H6.
  split; [intro He; subst r; discriminate Hf |].
  split; [exists a; repeat split; assumption |].
  split; [exists z; repeat split; assumption |].
  split; assumption.
Qed.

(** X25.  [cleanRepo] reduces the accepted forms of a repository text to
    one.  Let [r] be a text with nothing to remove: it starts and ends
    with an ASCII character that is neither white space nor a slash, no
    address stands before it and no ".git" after it.  Then [cleanRepo]
    returns [r] itself, and it returns [r] for the address of the
    repository on the hosting site (http or https, with or without www,
    in any letter case), for that address followed by ".git" or by a
    slash.  ASCII white space around its argument never changes its
    result, and what it returns never starts or ends with a slash. *)
Theorem cleanRepo_forms (r : string) :
  (bare r = true ->
   cleanRepo r = r
   /\ forall pre g,
        In (Js.lowercase pre) githubPrefixes ->
        Js.lowercase g = ".git" ->
        cleanRepo (pre ++ r) = r
        /\ cleanRepo (pre ++ r ++ g) = r
        /\ cleanRepo (pre ++ r ++ "/") = r)
  /\ (forall ws1 ws2,
        everyChar Js.isSpace ws1 = true -> everyChar Js.isSpace ws2 = true ->
        cleanRepo (ws1 ++ r ++ ws2) = cleanRepo r)
  /\ match firstChar (cleanRepo r) with Some c => Js.isSlash c = false | None => True end
  /\ match lastChar (cleanRepo r) with Some c => Js.isSlash c = false | None => True end.
Proof.
  split; [| split; [| split]].
  - intro Hbare.
    destruct (bare_spec r Hbare) as [Hne [[a [Hfa [Hsa Hla]]] [[z [Hfz [Hsz Hlz]]] [Hgit Hpre]]]].
    assert (Hstrip : Js.stripSlashes r = r)
      by (apply stripSlashes_fix; [rewrite Hfa | rewrite Hfz]; assumption).
    assert (Hsuffix : stripGitSuffix r = r) by (unfold stripGitSuffix; rewrite Hgit; reflexivity).
    split.
    + unfold cleanRepo.
      rewrite trim_fix by (first [rewrite Hfa | rewrite Hfz]; assumption).
      rewrite stripGithubPrefix_none by exact Hpre.
      rewrite Hsuffix. exact Hstrip.
    + intros pre g Hin Hg.
      assert (Hhead : pre <> ""
                      /\ match firstChar pre with
                         | Some c => Js.isSpace c = false /\ Js.isSlash c = false
                         | None => False
                         end).
      { destruct Hin as [H | [H | [H | [H | []]]]]; symmetry in H;
          eapply prefix_firstChar; first [exact H | reflexivity]. }
      destruct Hhead as [Hpne Hpf].
      assert (Hfirst : forall rest,
                match firstChar (pre ++ rest) with
                | Some c => Js.isSpace c = false
                | None => True
                end).
      { intro rest. rewrite firstChar_app by exact Hpne.
        destruct (firstChar pre); [apply Hpf | exact I]. }
      assert (Hglast : g <> ""
                       /\ match lastChar g with
                          | Some c => Js.isSpace c = false
                          | None => True
                          end).
      { destruct g as [| g1 [| g2 [| g3 [| g4 [| g5 g']]]]]; try discriminate Hg.
        split; [intro He; discriminate He |].
        simpl in Hg. injection Hg as _ _ _ H4.
        change (lastChar (String g1 (String g2 (String g3 (String g4 ""))))) with (Some g4).
        eapply lower_plain; [exact H4 | reflexivity | reflexivity]. }
      destruct Hglast as [Hgne Hgl].
      split; [| split]; unfold cleanRepo.
      * rewrite trim_fix;
          [| apply Hfirst | rewrite lastChar_app by exact Hne; rewrite Hfz; exact Hsz].
        rewrite stripGithubPrefix_address by exact Hin.
        rewrite Hsuffix. exact Hstrip.
      * rewrite trim_fix;
          [| apply Hfirst
           | rewrite lastChar_app by (destruct r; [contradiction | intro He; discriminate He]);
             rewrite lastChar_app by exact Hgne; exact Hgl].
        rewrite stripGithubPrefix_address by exact Hin.
        rewrite stripGitSuffix_git by exact Hg. exact Hstrip.
      * rewrite trim_fix;
          [| apply Hfirst
           | rewrite lastChar_app by (destruct r; [contradiction | intro He; discriminate He]);
             rewrite lastChar_app by (intro He; discriminate He); reflexivity].
        rewrite stripGithubPrefix_address by exact Hin.
        rewrite stripGitSuffix_slash.
        apply stripSlashes_trailing; [rewrite Hfa | rewrite Hfz]; assumption.
  - intros ws1 ws2 H1 H2. unfold cleanRepo. rewrite trim_padded by assumption. reflexivity.
  - unfold cleanRepo, Js.stripSlashes. apply dropWhileEnd_first. apply dropWhile_first.
  - unfold cleanRepo, Js.stripSlashes. apply dropWhileEnd_last.
Qed.

(** * Replies that are read as JSON *)

Section JsonReplies.

Variable env : Env.

(** X26.  A reply that is not JSON is not retried: the five agents that
    parse their reply make one request and fail with a [SyntaxError],
    without a wait or a second request.  An empty reply is no failure:
    each agent then returns the value of its fallback text, an identity
    without any property, no hubs, no articles, no tasks. *)
Theorem unreadable_reply_not_retried (signal : option AbortSignal) (w : World)
  (r : GenerateContentResponse) :
  apiKey env <> "" ->
  (forall j, cancelAt env j = false) ->
  isAborted signal w = false ->
  gen env (clock w) = Resolved r ->
  (text r <> "" -> parsed r = None ->
   failsUnread (generateIdentityAgent env signal w) (advance w 1 [Generate IdentityAgent])
   /\ failsUnread (analyzeSiteIdentityAgent env signal w)
        (advance w 1 [Generate SiteIdentityAgent])
   /\ failsUnread (analyzeRepoStructureAgent env signal w)
        (advance w 1 [Generate RepoStructureAgent])
   /\ failsUnread (generateStrategyAgent env signal w) (advance w 1 [Generate StrategyAgent])
   /\ failsUnread (generateTunePlanAgent env signal w) (advance w 1 [Generate TunePlanAgent]))
  /\ (text r = "" ->
      generateIdentityAgent env signal w
      = (Normal emptyIdentity, advance w 1 [Generate IdentityAgent])
      /\ analyzeSiteIdentityAgent env signal w
         = (Normal emptyIdentity, advance w 1 [Generate SiteIdentityAgent])
      /\ analyzeRepoStructureAgent env signal w
         = (Normal ([], []), advance w 1 [Generate RepoStructureAgent])
      /\ generateStrategyAgent env signal w
         = (Normal ([], ""%string), advance w 1 [Generate StrategyAgent])
      /\ generateTunePlanAgent env signal w
         = (Normal (""%string, []), advance w 1 [Generate TunePlanAgent])).
Proof.
  intros Hkey Hquiet Hab Hr.
  assert (Hcall : forall a, retryWithBackoff env (generateContent env a) 5 2000 signal w
                            = (Normal r, advance w 1 [Generate a]))
    by (intro a; apply retryWithBackoff_answered; assumption).
  unfold failsUnread, generateIdentityAgent, analyzeSiteIdentityAgent,
    analyzeRepoStructureAgent, generateStrategyAgent, generateTunePlanAgent, bind.
  rewrite !Hcall. unfold parseJson.
  split.
  - intros Htext Hparsed.
    destruct (String.eqb_spec (text r) "") as [He | _]; [contradiction |].
    rewrite Hparsed. unfold throw.
    repeat split; eexists; (split; [reflexivity | reflexivity]).
  - intro Htext. rewrite Htext. cbn [String.eqb]. unfold ret. cbn.
    repeat split.
Qed.

End JsonReplies.

(** * A Build run needs a site name *)

Lemma merge_keepsIdentity (us : list Assign) :
  forallb keepsIdentity us = true ->
  forall st, identity (merge st us) = identity st.
Proof.
  unfold merge. induction us as [| a rest IH]; intros Hsafe st; [reflexivity |].
  simpl in Hsafe. apply andb_prop in Hsafe. destruct Hsafe as [Ha Hrest].
  simpl fold_left. rewrite (IH Hrest (assign st a)).
  destruct st; destruct a; try discriminate Ha; reflexivity.
Qed.

Section BuildName.

Variable env : Env.
Variable i0 : Identity.

Lemma hid_frame (w w' : World) :
  state w' = state w -> aborted w' = aborted w -> holdsIdentity i0 w -> holdsIdentity i0 w'.
Proof. unfold holdsIdentity. intros Hs _ H. rewrite Hs. exact H. Qed.

Lemma hid_update (us : list Assign) (w : World) :
  forallb keepsIdentity us = true ->
  holdsIdentity i0 w -> holdsIdentity i0 (withState (fun prev => merge prev us) w).
Proof.
  unfold holdsIdentity. intros Hsafe H. cbn [state withState].
  rewrite merge_keepsIdentity by exact Hsafe. exact H.
Qed.

Lemma hid_abort (w : World) : holdsIdentity i0 w -> holdsIdentity i0 (snd (handleAbort w)).
Proof.
  intro H. unfold handleAbort, updateState. cbn [snd].
  apply hid_update; [reflexivity |].
  unfold holdsIdentity in *.
  replace (state (abortController w)) with (state w);
    [exact H | unfold abortController; destruct (controller w); reflexivity].
Qed.

Lemma hid_updateState (us : list Assign) :
  forallb keepsIdentity us = true -> preserves (holdsIdentity i0) (updateState us).
Proof. intro Hsafe. apply preserves_step. intros w H. apply hid_update; assumption. Qed.

Lemma hid_setTaskStatus (id : string) (s : TaskStatus) :
  preserves (holdsIdentity i0) (setTaskStatus id s).
Proof.
  apply preserves_step. intros w H. unfold setTaskStatus. cbn [snd].
  unfold holdsIdentity in *. cbn [state withState]. destruct (state w). exact H.
Qed.

#[local] Hint Extern 0 (preserves (holdsIdentity _) (updateState _)) =>
  apply hid_updateState; reflexivity : preserve.
#[local] Hint Extern 0 (preserves (holdsIdentity _) (setTaskStatus _ _)) =>
  apply hid_setTaskStatus : preserve.
#[local] Hint Extern 1 (preserves (holdsIdentity _) _) => services hid_frame hid_abort : preserve.

Lemma hid_buildHub (identity : Identity) (signal : AbortSignal) (h : HubPage)
  (updatedHubs : list HubPage) :
  preserves (holdsIdentity i0) (buildHub env identity signal h updatedHubs).
Proof. unfold buildHub. preserve. Qed.

(** The [try] block of a Build run stores the identity it was given by
    the service and keeps it, however it ends; it ends normally only when
    that identity has a name. *)
Lemma buildTry_identity (state0 : ProjectState) (signal : AbortSignal) (w1 w2 : World) :
  generateIdentityAgent env (Some signal)
    (snd (updateState
            [SetStatus building_identity;
             SetExecutionPlan
               [task "identity" "ブランドコンセプトの策定" running;
                task "strategy" "サイト構造・戦略の設計" pending];
             SetCurrentDetail (Some "AIによる分析を実行中...")] w1))
  = (Normal i0, w2) ->
  holdsIdentity i0 (snd (buildTry env state0 signal w1))
  /\ (fst (buildTry env state0 signal w1) = Normal tt -> siteName i0 <> None).
Proof.
  intro Hid. split.
  - unfold buildTry.
    unfold bind at 1. unfold updateState at 1.
    unfold updateState at 1 in Hid. cbn [snd] in Hid.
    unfold bind at 1. rewrite Hid.
    unfold bind at 1. unfold setTaskStatus at 1.
    unfold bind at 1. unfold setTaskStatus at 1.
    unfold bind at 1. unfold updateState at 1.
    match goal with
    | |- holdsIdentity _ (snd (?m ?w)) =>
        assert (Hstart : holdsIdentity i0 w)
          by (unfold holdsIdentity; cbn; destruct (state w2); reflexivity);
        generalize dependent w; intros w5 Hstart
    end.
    revert w5 Hstart.
    refine (_ : preserves (holdsIdentity i0) _).
    apply preserves_bind; [preserve | intros [hs rationale]].
    preserve.
    apply preserves_forAcc. intros. apply hid_buildHub.
  - intro Hn.
    destruct (buildTry env state0 signal w1) as [c wf] eqn:Hrun.
    cbn [fst] in Hn. subst c. unfold buildTry in Hrun.
    apply bind_normal_inv in Hrun. destruct Hrun as [u [w0 [Hfirst Hrun]]].
    assert (Hw0 : w0 = snd (updateState
            [SetStatus building_identity;
             SetExecutionPlan
               [task "identity" "ブランドコンセプトの策定" running;
                task "strategy" "サイト構造・戦略の設計" pending];
             SetCurrentDetail (Some "AIによる分析を実行中...")] w1))
      by (rewrite Hfirst; reflexivity).
    subst w0.
    apply bind_normal_inv in Hrun. destruct Hrun as [i [w3 [Hagent Hrun]]].
    rewrite Hid in Hagent. inversion Hagent; subst i w3.
    bind_inv Hrun.
    match type of Hrun with
    | (let '(_, _) := ?p in _) _ = _ => destruct p as [hs rationale]
    end.
    bind_inv Hrun.
    match goal with
    | Hgen : generateHtmlAgent _ i0 _ _ = (Normal _, _) |- _ =>
        unfold generateHtmlAgent in Hgen; destruct (siteName i0);
        [intro Hnone; discriminate Hnone | discriminate Hgen]
    end.
Qed.

End BuildName.

Lemma build_final (env : Env) (w : World) :
  snd (handleInitialBuild env w)
  = snd (tryCatch (buildTry env (state w) theSignal) buildCatch (snd (startTask w))).
Proof.
  unfold handleInitialBuild.
  pose proof (startTask_normal w) as Hbegin.
  set (w1 := snd (startTask w)) in *.
  unfold handler, bind. rewrite Hbegin.
  destruct (tryCatch (buildTry env (state w) theSignal) buildCatch w1)
    as [[u | e |] w2]; reflexivity.
Qed.

Section BuildNeedsName.

Variable env : Env.

(** X27.  A Build run needs an identity with a site name.  Whenever its
    [try] block ends normally, the identity in the state has one: the
    page agent, given an identity without a site name, throws a
    [TypeError] before it sends a request.  So when the reply to the
    identity request is read as an object without a site name (an empty
    reply is read so), the [try] block cannot end normally. *)
Theorem build_needs_site_name (w : World) :
  let attempt := buildTry env (state w) theSignal (snd (startTask w)) in
  (fst attempt = Normal tt ->
   exists i n,
     identity (state (snd (handleInitialBuild env w))) = Some i /\ siteName i = Some n)
  /\ (forall i signal w0,
        siteName i = None ->
        generateHtmlAgent env i signal w0
        = (Throw (typeError "Cannot read properties of undefined (reading 'charAt')"), w0))
  /\ (forall r o,
        apiKey env <> "" ->
        (forall k, cancelAt env k = false) ->
        gen env (clock w) = Resolved r ->
        readAs r o ->
        siteName (jIdentity o) = None ->
        fst attempt <> Normal tt).
Proof.
  intro attempt. unfold attempt. clear attempt. split; [| split].
  - intro Hn. rewrite (handleInitialBuild_normal env w Hn).
    destruct (buildTry env (state w) theSignal (snd (startTask w))) as [c wf] eqn:Hrun.
    cbn [fst] in Hn. subst c. cbn [snd].
    pose proof Hrun as Hsteps. unfold buildTry in Hsteps.
    apply bind_normal_inv in Hsteps. destruct Hsteps as [u [w0 [Hfirst Hsteps]]].
    assert (Hw0 : w0 = snd (updateState
            [SetStatus building_identity;
             SetExecutionPlan
               [task "identity" "ブランドコンセプトの策定" running;
                task "strategy" "サイト構造・戦略の設計" pending];
             SetCurrentDetail (Some "AIによる分析を実行中...")] (snd (startTask w))))
      by (rewrite Hfirst; reflexivity).
    subst w0.
    apply bind_normal_inv in Hsteps. destruct Hsteps as [i [w3 [Hagent _]]].
    destruct (buildTry_identity env i (state w) theSignal (snd (startTask w)) _ Hagent)
      as [Hheld Hnamed].
    rewrite Hrun in Hheld, Hnamed. cbn [fst snd] in Hheld, Hnamed.
    specialize (Hnamed eq_refl).
    destruct (siteName i) as [n |] eqn:Hname; [| contradiction].
    exists i, n. split; [exact Hheld | exact Hname].
  - intros i signal w0 Hnone. unfold generateHtmlAgent. rewrite Hnone. reflexivity.
  - intros r o Hkey Hquiet Hr Hread Hname.
    set (w1 := snd (startTask w)).
    assert (Hid : generateIdentityAgent env (Some theSignal)
                    (snd (updateState
                            [SetStatus building_identity;
                             SetExecutionPlan
                               [task "identity" "ブランドコンセプトの策定" running;
                                task "strategy" "サイト構造・戦略の設計" pending];
                             SetCurrentDetail (Some "AIによる分析を実行中...")] w1))
                  = (Normal (jIdentity o),
                     advance (snd (updateState
                            [SetStatus building_identity;
                             SetExecutionPlan
                               [task "identity" "ブランドコンセプトの策定" running;
                                task "strategy" "サイト構造・戦略の設計" pending];
                             SetCurrentDetail (Some "AIによる分析を実行中...")] w1))
                       1 [Generate IdentityAgent])).
    { unfold generateIdentityAgent, bind.
      rewrite (retryWithBackoff_answered env IdentityAgent (Some theSignal) _ r Hkey Hquiet);
        [| reflexivity | exact Hr].
      rewrite Hread. reflexivity. }
    destruct (buildTry_identity env (jIdentity o) (state w) theSignal w1 _ Hid)
      as [_ Hnamed].
    intro Hn. apply (Hnamed Hn). exact Hname.
Qed.

End BuildNeedsName.

(** * The overlay *)

(** X28.  The overlay that holds the cancel button is shown exactly
    while the status is not a resting one: the workflow table resolves
    each of the nine other statuses.  The Import, Publish and Tune
    runners open it with their first update of the state, and in the
    three phase statuses of a Build run it marks the first, second and
    third step of the build workflow. *)
Theorem overlay_iff_running (st : ProjectState) (w : World) :
  overlayShown st = negb (resting (status st))
  /\ overlayShown (state (snd (importBegin w))) = true
  /\ overlayShown (state (snd (publishBegin w))) = true
  /\ overlayShown (state (snd (tuneBegin w))) = true
  /\ (status st = building_identity -> shownStep st = Some ("サイト新規構築フロー", 0%nat))
  /\ (status st = generating_strategy -> shownStep st = Some ("サイト新規構築フロー", 1%nat))
  /\ (status st = generating_hubs -> shownStep st = Some ("サイト新規構築フロー", 2%nat)).
Proof.
  split; [unfold overlayShown; destruct (status st); reflexivity |].
  split; [cbn; destruct (state w); reflexivity |].
  split; [cbn; destruct (state w); reflexivity |].
  split; [cbn; destruct (state w); reflexivity |].
  unfold shownStep, overlayShown.
  split; [| split]; intro H; rewrite H; reflexivity.
Qed.

(** * An Import run that succeeds *)

Section ImportSuccess.

Variable env : Env.

Lemma restoreHub_normal (htmlFiles : list GitHubFileNode) (indexFile : option GitHubFileNode)
  (signal : AbortSignal) (h : HubPage) (finalHubs acc : list HubPage) (w w' : World) :
  restoreHub env htmlFiles indexFile signal h finalHubs w = (Normal acc, w') ->
  exists h', acc = finalHubs ++ [h'] /\ restoredFrom h h'.
Proof.
  unfold restoreHub.
  destruct (match find (fun f => Js.includes (nodePath f) (hubSlug h ++ "/index.html")) htmlFiles with
            | Some f => Some f
            | None => if String.eqb (hubSlug h) "index" then indexFile else None
            end) as [f |]; intro H.
  - bind_inv H. inversion H. eexists. split; [reflexivity |]. right. eexists. reflexivity.
  - inversion H. exists h. split; [reflexivity | left; reflexivity].
Qed.

Lemma forAcc_restoreHub_normal (htmlFiles : list GitHubFileNode)
  (indexFile : option GitHubFileNode) (signal : AbortSignal) :
  forall hs acc w acc' w',
    forAcc hs acc (restoreHub env htmlFiles indexFile signal) w = (Normal acc', w') ->
    exists restored, acc' = acc ++ restored /\ Forall2 restoredFrom hs restored.
Proof.
  induction hs as [| h rest IH]; intros acc w acc' w' H.
  - inversion H; subst. exists []. split; [symmetry; apply app_nil_r | constructor].
  - cbn [forAcc] in H. bind_inv H.
    destruct (restoreHub_normal _ _ _ _ _ _ _ _ Hm) as [h' [Ha Hh]]. subst a.
    destruct (IH _ _ _ _ H) as [restored [Hacc Hall]].
    exists (h' :: restored). split; [| constructor; assumption].
    rewrite Hacc, <- app_assoc. reflexivity.
Qed.

(** X29.  When every phase of the Import pipeline succeeds, the state
    holds the identity and the articles the analysis returned; the hubs
    are those the analysis returned, in number and in order, each as it
    was or with the content of a file as its markup; the hosting
    configuration holds the token and the repository text as they were
    typed, the folder "docs" and, as its branch, the default branch the
    hosting service reported ("main" when it reported none); the status
    is [ready], the ledger empty and the detail cleared. *)
Theorem import_success (importRepo importToken : string) (w : World) :
  importRepo <> "" ->
  importToken <> "" ->
  fst (importTry env importRepo importToken theSignal (snd (importBegin w))) = Normal tt ->
  let final := state (snd (handleImport env importRepo importToken w)) in
  exists i hs ars details,
    (exists wa wb, analyzeSiteIdentityAgent env (Some theSignal) wa = (Normal i, wb))
    /\ (exists wa wb,
          analyzeRepoStructureAgent env (Some theSignal) wa = (Normal (hs, ars), wb))
    /\ (exists wa wb,
          fetchRepoDetails env
            {| token := importToken; repo := importRepo; branch := "main"; path := "docs" |}
            (Some theSignal) wa = (Normal details, wb))
    /\ identity final = Some i
    /\ articles final = ars
    /\ Forall2 restoredFrom hs (hubs final)
    /\ List.length (hubs final) = List.length hs
    /\ githubConfig final
       = {| token := importToken; repo := importRepo;
            branch := match details with Some b => b | None => "main" end;
            path := "docs" |}
    /\ restsIn ready final.
Proof.
  intros Hrepo Htoken Hn final. unfold final. clear final.
  rewrite import_final by assumption. unfold tryCatch.
  destruct (importTry env importRepo importToken theSignal (snd (importBegin w)))
    as [c wf] eqn:Hrun.
  cbn [fst] in Hn. subst c. cbn [snd].
  unfold importTry in Hrun. bind_inv Hrun.
  match type of Hrun with
  | (let '(_, _) := ?p in _) _ = _ => destruct p as [hs ars]
  end.
  bind_inv Hrun.
  match goal with
  | Hloop : forAcc _ _ _ _ = (Normal _, _) |- _ =>
      destruct (forAcc_restoreHub_normal _ _ _ _ _ _ _ _ Hloop) as [restored [Hacc Hall]]
  end.
  simpl app in Hacc. subst.
  match goal with
  | Hi : analyzeSiteIdentityAgent _ _ ?wa = (Normal ?i, ?wb),
    Hs : analyzeRepoStructureAgent _ _ ?wc = (Normal _, ?wd),
    Hd : fetchRepoDetails _ _ _ ?we = (Normal ?d, ?wf) |- _ =>
      exists i, hs, ars, d;
      split; [exists wa, wb; exact Hi |];
      split; [exists wc, wd; exact Hs |];
      split; [exists we, wf; exact Hd |]
  end.
  inversion Hrun; subst wf. cbn.
  match goal with |- context [state ?w0] => destruct (state w0) end. cbn.
  split; [reflexivity |].
  split; [reflexivity |].
  split; [exact Hall |].
  split; [symmetry; eapply Forall2_length; exact Hall |].
  split; [| repeat split].
  match goal with |- context [match ?d with Some _ => _ | None => _ end] => destruct d end;
    reflexivity.
Qed.

End ImportSuccess.

(** * A Publish run that succeeds *)

Lemma length_uploads (config : GitHubConfig) (files : list File) :
  List.length (flat_map (uploadTrace config) files) = (2 * List.length files)%nat.
Proof.
  induction files as [| file rest IH]; [reflexivity |].
  cbn [flat_map uploadTrace app List.length]. rewrite IH. lia.
Qed.

Section PublishSuccess.

Variable env : Env.

Hypothesis Hkey : apiKey env <> "".
Hypothesis Hquiet : forall k, cancelAt env k = false.
Hypothesis Hok :
  forall k, exists res body, http env k = Resolved res /\ ok res = true /\ resBody res = Some body.

Lemma every_answer_ok : forall k, exists res, http env k = Resolved res /\ ok res = true.
Proof. intro k. destruct (Hok k) as [res [body [H1 [H2 _]]]]. exists res. split; assumption. Qed.

Lemma fetchRepoDetails_found (config : GitHubConfig) (signal : option AbortSignal) (w : World) :
  Js.includes (cleanRepo (repo config)) "/" = true ->
  isAborted signal w = false ->
  exists b,
    fetchRepoDetails env config signal w
    = (Normal (Some b),
       advance w 1 [Http GET ("https://api.github.com/repos/" ++ cleanRepo (repo config))%string]).
Proof.
  intros Hinc Hab. unfold fetchRepoDetails. rewrite Hinc. cbn [negb].
  destruct (Hok (clock w)) as [res [body [Hres [Hokr Hbody]]]].
  unfold bind at 1.
  rewrite (fetchWithRetry_ok env _ GET signal w res Hquiet Hab Hres Hokr).
  rewrite Hokr. cbn [negb]. unfold json. rewrite Hbody.
  exists (bodyDefaultBranch body). reflexivity.
Qed.

Lemma enablePages_done (config : GitHubConfig) (signal : option AbortSignal) (w : World) :
  isAborted signal w = false ->
  enablePages env config signal w = (Normal tt, advance w 1 [Http POST (pagesUrl config)]).
Proof.
  intro Hab. unfold enablePages.
  destruct (Hok (clock w)) as [res [body [Hres [Hokr Hbody]]]].
  unfold bind.
  change ("https://api.github.com/repos/" ++ cleanRepo (repo config) ++ "/pages")%string
    with (pagesUrl config).
  rewrite (fetchWithRetry_ok env _ POST signal w res Hquiet Hab Hres Hokr).
  destruct (negb (ok res) && negb (resStatus res =? 409)); reflexivity.
Qed.

(** X30.  A Publish run in which the repository exists, every request
    is answered ok and nobody cancels: it reads the repository, then
    asks for the README, then uploads every file (a check and an upload
    each, hubs first, then articles, then the README), then enables the
    pages, and sends nothing else; it ends [deployed] with an empty
    ledger and no detail. *)
Theorem publish_success (w : World) (i : Identity) (r : GenerateContentResponse) :
  repo (githubConfig (state w)) <> "" ->
  token (githubConfig (state w)) <> "" ->
  Js.includes (cleanRepo (repo (githubConfig (state w)))) "/" = true ->
  identity (state w) = Some i ->
  gen env (clock w + 1) = Resolved r ->
  let final := snd (handlePublish env w) in
  log final = log w ++ publishTrace (state w) (readmeOf (text r))
  /\ clock final = (clock w + List.length (publishTrace (state w) (readmeOf (text r))))%nat
  /\ restsIn deployed (state final).
Proof.
  intros Hrepo Htoken Hinc Hid Hr final. unfold final. clear final.
  remember (snd (handlePublish env w)) as wf eqn:Hwf.
  unfold handlePublish in Hwf.
  destruct (String.eqb_spec (repo (githubConfig (state w))) "") as [Hr0 | _]; [contradiction |].
  destruct (String.eqb_spec (token (githubConfig (state w))) "") as [Ht0 | _]; [contradiction |].
  cbn [orb] in Hwf.
  pose proof (publishBegin_normal w) as Hbegin.
  assert (Hw1 : aborted (snd (publishBegin w)) = false
                /\ clock (snd (publishBegin w)) = clock w
                /\ log (snd (publishBegin w)) = log w) by (repeat split).
  set (w1 := snd (publishBegin w)) in *.
  destruct Hw1 as [Hab1 [Hc1 Hl1]]. clearbody w1.
  unfold handler, bind at 1 in Hwf. rewrite Hbegin in Hwf. unfold tryCatch in Hwf.
  destruct (fetchRepoDetails_found (githubConfig (state w)) (Some theSignal) w1 Hinc Hab1)
    as [b Hdetails].
  unfold publishTry in Hwf. unfold bind at 1 in Hwf. rewrite Hdetails in Hwf.
  unfold bind at 1 in Hwf. unfold ret at 1 in Hwf.
  unfold bind at 1 in Hwf. unfold setTaskStatus at 1 in Hwf.
  unfold bind at 1 in Hwf. unfold setTaskStatus at 1 in Hwf.
  match type of Hwf with
  | context [bind (generateReadmeAgent env _ None) _ ?w0] => set (w2 := w0) in Hwf
  end.
  assert (Hw2 : aborted w2 = false /\ clock w2 = (clock w + 1)%nat
                /\ log w2 = log w
                            ++ [Http GET ("https://api.github.com/repos/"
                                          ++ cleanRepo (repo (githubConfig (state w))))%string]).
  { unfold w2. cbn [aborted clock log advance withState]. rewrite Hc1, Hl1.
    split; [exact Hab1 | split; reflexivity]. }
  destruct Hw2 as [Hab2 [Hc2 Hl2]]. clearbody w2.
  assert (Hreadme : generateReadmeAgent env (identity (state w)) None w2
                    = (Normal (readmeOf (text r)), advance w2 1 [Generate ReadmeAgent])).
  { unfold generateReadmeAgent, bind. rewrite Hid.
    rewrite (retryWithBackoff_answered env ReadmeAgent None w2 r Hkey Hquiet eq_refl)
      by (rewrite Hc2; exact Hr).
    reflexivity. }
  unfold bind at 1 in Hwf. rewrite Hreadme in Hwf.
  set (w3 := advance w2 1 [Generate ReadmeAgent]) in Hwf.
  assert (Hw3 : isAborted (Some theSignal) w3 = false /\ clock w3 = (clock w2 + 1)%nat
                /\ log w3 = log w2 ++ [Generate ReadmeAgent])
    by (split; [exact Hab2 | split; reflexivity]).
  destruct Hw3 as [Hab3 [Hc3 Hl3]]. clearbody w3.
  unfold publishToGithub in Hwf.
  destruct (forEach_publishFile_ok env (githubConfig (state w)) (Some theSignal)
              (fun file => Some ("送信中: " ++ file)%string) Hquiet every_answer_ok
              (filesToPublish (hubs (state w)) (articles (state w)) (readmeOf (text r)))
              w3 Hab3)
    as [w4 [Hrun [Hl4 [Hc4 [Hab4 _]]]]].
  unfold bind at 1 in Hwf. rewrite Hrun in Hwf.
  unfold bind at 1 in Hwf. unfold setTaskStatus at 1 in Hwf.
  unfold bind at 1 in Hwf. unfold setTaskStatus at 1 in Hwf.
  match type of Hwf with
  | context [bind (enablePages env _ _) _ ?w0] => set (w5 := w0) in Hwf
  end.
  assert (Hw5 : isAborted (Some theSignal) w5 = false /\ clock w5 = clock w4 /\ log w5 = log w4)
    by (unfold w5; cbn [isAborted aborted clock log advance withState];
        split; [exact Hab4 | split; reflexivity]).
  destruct Hw5 as [Hab5 [Hc5 Hl5]]. clearbody w5.
  unfold bind at 1 in Hwf. rewrite (enablePages_done _ _ w5 Hab5) in Hwf.
  unfold bind at 1 in Hwf. unfold setTaskStatus at 1 in Hwf.
  unfold updateState in Hwf. cbn [fst snd] in Hwf. subst wf.
  cbn [log clock state advance withState].
  rewrite Hl5, Hl4, Hc5, Hc4, Hl3, Hc3, Hl2, Hc2.
  unfold publishTrace.
  split; [cbn [app]; rewrite <- !app_assoc; reflexivity |].
  split; [rewrite !length_app, length_uploads; cbn [List.length]; lia |].
  apply rests_restingUpdate.
Qed.

End PublishSuccess.

Lemma publish_success_witness :
  gen envOk (clock (worldOf builtState) + 1) = reply "```html<p>new</p>```"
  /\ log (snd (handlePublish envOk (worldOf builtState)))
     = log (worldOf builtState)
       ++ publishTrace (state (worldOf builtState)) (readmeOf "```html<p>new</p>```")
  /\ clock (snd (handlePublish envOk (worldOf builtState)))
     = (clock (worldOf builtState)
        + List.length (publishTrace (state (worldOf builtState))
                         (readmeOf "```html<p>new</p>```")))%nat
  /\ restsIn deployed (state (snd (handlePublish envOk (worldOf builtState)))).
Proof.
  split; [reflexivity |].
  apply (publish_success envOk ltac:(intro H; discriminate H) ltac:(intro k; reflexivity)
           ltac:(intro k; eexists; eexists; repeat split)
           (worldOf builtState) exampleIdentity
           {| text := "```html<p>new</p>```"; parsed := Some exampleObject |}).
  - intro H; discriminate H.
  - intro H; discriminate H.
  - reflexivity.
  - reflexivity.
  - reflexivity.
Defined.

(** * Runs the view renders

    The runners store an identity in two places, both with what an
    identity agent returned.  When those agents return identities with
    a site name, a run started in a state the view renders goes through
    such states only. *)

Lemma merge_namedAssign (us : list Assign) :
  forallb namedAssign us = true ->
  forall st, renders st = true -> renders (merge st us) = true.
Proof.
  unfold merge. induction us as [| a rest IH]; intros Hsafe st Hst; [exact Hst |].
  simpl in Hsafe. apply andb_prop in Hsafe. destruct Hsafe as [Ha Hrest].
  simpl fold_left. apply (IH Hrest).
  destruct st; destruct a; cbn in *; assumption.
Qed.

Lemma yields_ret {A} (R : A -> Prop) (a : A) : R a -> yields R (ret a).
Proof. intros Ha w b w' H. inversion H. subst. exact Ha. Qed.

Lemma yields_throw {A} (R : A -> Prop) (e : JsError) : yields R (throw e).
Proof. intros w b w' H. discriminate H. Qed.

Lemma yields_bind {A B} (R : B -> Prop) (m : M A) (f : A -> M B) :
  (forall a, yields R (f a)) -> yields R (bind m f).
Proof.
  intros Hf w b w' H. apply bind_normal_inv in H.
  destruct H as [a [w1 [_ H]]]. exact (Hf a w1 b w' H).
Qed.

Lemma yields_after {A B} (Q : A -> Prop) (R : B -> Prop) (m : M A) (f : A -> M B) :
  yields Q m -> (forall a, Q a -> yields R (f a)) -> yields R (bind m f).
Proof.
  intros Hm Hf w b w' H. apply bind_normal_inv in H.
  destruct H as [a [w1 [Ha H]]]. exact (Hf a (Hm w a w1 Ha) w1 b w' H).
Qed.

Lemma yields_tryCatch {A} (R : A -> Prop) (body : M A) (h : JsError -> M A) :
  yields R body -> (forall e, yields R (h e)) -> yields R (tryCatch body h).
Proof.
  intros Hb Hh w a w' H. unfold tryCatch in H.
  destruct (body w) as [[b | e |] w1] eqn:Hbody.
  - inversion H. subst. exact (Hb w a w' Hbody).
  - exact (Hh e w1 a w' H).
  - discriminate H.
Qed.

Section Rendered.

Variable env : Env.

Lemma yields_generateContent (a : Agent) : yields (replied env) (generateContent env a).
Proof.
  intros w r w' H. unfold generateContent in H.
  destruct (suspend env (record (Generate a) w)) as [c w1].
  destruct (gen env (clock w)) as [r0 | e] eqn:Hk; [| discriminate H].
  inversion H. subst. exists (clock w). exact Hk.
Qed.

Lemma yields_retryLoop (a : Agent) (maxRetries : Z) (signal : option AbortSignal) :
  forall todo i delay,
    yields (replied env) (retryLoop env (generateContent env a) maxRetries signal todo i delay).
Proof.
  intro todo. induction todo as [| n IH]; intros i delay.
  - apply yields_throw.
  - rewrite retryLoop_step. apply yields_bind. intros [|]; [apply yields_throw |].
    apply yields_tryCatch; [apply yields_generateContent |].
    intro e. apply yields_bind. intros [|]; [apply yields_throw |].
    destruct (negb (isRetryable e) || (i =? maxRetries - 1)); [apply yields_throw |].
    apply yields_bind. intros _. apply IH.
Qed.

Lemma yields_retryWithBackoff (a : Agent) (maxRetries : Z) (initialDelay : Q)
  (signal : option AbortSignal) :
  yields (replied env) (retryWithBackoff env (generateContent env a) maxRetries initialDelay signal).
Proof.
  unfold retryWithBackoff.
  destruct (String.eqb (apiKey env) ""); [apply yields_throw | apply yields_retryLoop].
Qed.

Lemma parseJson_readAs (r : GenerateContentResponse) (o : JsonObject) (w w' : World) :
  parseJson r w = (Normal o, w') -> readAs r o.
Proof.
  unfold readAs, parseJson. intros H w0.
  destruct (String.eqb (text r) "").
  - inversion H. reflexivity.
  - destruct (parsed r) as [o' |]; [| discriminate H]. inversion H. reflexivity.
Qed.

(** Replies that all carry a site name make the identity agents return
    identities with a site name. *)
Lemma namedReplies_namesIdentities : namedReplies env -> namesIdentities env.
Proof.
  intros Hreplies signal.
  split; [unfold generateIdentityAgent | unfold analyzeSiteIdentityAgent];
    (eapply yields_after; [apply yields_retryWithBackoff |]);
    intros r [k Hk] w i w' H;
    apply bind_normal_inv in H; destruct H as [o [w1 [Hparse H]]];
    inversion H; subst;
    exact (Hreplies k r o Hk (parseJson_readAs r o _ _ Hparse)).
Qed.

Hypothesis Hnames : namesIdentities env.

Lemma rd_frame (w w' : World) :
  state w' = state w -> aborted w' = aborted w -> rendered w -> rendered w'.
Proof. unfold rendered. intros Hs _ H. rewrite Hs. exact H. Qed.

Lemma rd_update (us : list Assign) (w : World) :
  forallb namedAssign us = true ->
  rendered w -> rendered (withState (fun prev => merge prev us) w).
Proof.
  unfold rendered. intros Hsafe H. cbn [state withState].
  apply merge_namedAssign; assumption.
Qed.

Lemma rd_abort (w : World) : rendered w -> rendered (snd (handleAbort w)).
Proof.
  intro H. unfold handleAbort, updateState. cbn [snd].
  apply rd_update; [reflexivity |].
  unfold rendered in *.
  replace (state (abortController w)) with (state w);
    [exact H | unfold abortController; destruct (controller w); reflexivity].
Qed.

Lemma rd_updateState (us : list Assign) :
  forallb namedAssign us = true -> preserves rendered (updateState us).
Proof. intro Hsafe. apply preserves_step. intros w H. apply rd_update; assumption. Qed.

Lemma rd_setTaskStatus (id : string) (s : TaskStatus) :
  preserves rendered (setTaskStatus id s).
Proof.
  apply preserves_step. intros w H. unfold setTaskStatus. cbn [snd].
  unfold rendered in *. cbn [state withState]. destruct (state w). exact H.
Qed.

Lemma rd_startTask : preserves rendered startTask.
Proof. apply preserves_step. intros w H. exact H. Qed.

#[local] Hint Extern 0 (preserves rendered (updateState _)) =>
  apply rd_updateState; cbn [forallb namedAssign];
  repeat match goal with H : named _ = true |- _ => rewrite H end; reflexivity
  : preserve.
#[local] Hint Extern 0 (preserves rendered (setTaskStatus _ _)) =>
  apply rd_setTaskStatus : preserve.
#[local] Hint Extern 0 (preserves rendered startTask) => apply rd_startTask : preserve.
#[local] Hint Extern 1 (preserves rendered _) => services rd_frame rd_abort : preserve.

(** After an identity agent the state is as the view renders it, and
    the identity returned has a site name. *)
Lemma rd_identity (m : M Identity) :
  preserves rendered m ->
  yields (fun i => named i = true) m ->
  hoare rendered m
    (fun c w => rendered w /\ match c with Normal i => named i = true | _ => True end).
Proof.
  intros Hp Hy w H. split; [exact (Hp w H) |].
  destruct (m w) as [[i | e |] w'] eqn:Hm; cbn [fst]; [| exact I | exact I].
  exact (Hy w i w' Hm).
Qed.

(** [m], then [f] on a named identity. *)
Lemma rd_bind_identity {B} (m : M Identity) (f : Identity -> M B) :
  preserves rendered m ->
  yields (fun i => named i = true) m ->
  (forall i, named i = true -> preserves rendered (f i)) ->
  preserves rendered (bind m f).
Proof.
  intros Hp Hy Hf. unfold preserves.
  eapply hoare_bind; [exact (rd_identity m Hp Hy) | | |].
  - intros i w [Hw Hi]. exact (Hf i Hi w Hw).
  - intros e w [Hw _]. exact Hw.
  - intros w [Hw _]. exact Hw.
Qed.

Lemma rd_buildHub (identity : Identity) (signal : AbortSignal) (h : HubPage)
  (updatedHubs : list HubPage) :
  preserves rendered (buildHub env identity signal h updatedHubs).
Proof. unfold buildHub. preserve. Qed.

Lemma rd_buildTry (state0 : ProjectState) (signal : AbortSignal) :
  preserves rendered (buildTry env state0 signal).
Proof.
  unfold buildTry. apply preserves_bind; [preserve | intros _].
  apply rd_bind_identity;
    [preserve | exact (proj1 (Hnames (Some signal))) | intros i Hi].
  apply preserves_bind; [preserve | intros _].
  apply preserves_bind; [preserve | intros _].
  apply preserves_bind; [preserve | intros _].
  apply preserves_bind; [preserve | intros [hs rationale]].
  preserve.
  apply preserves_forAcc. intros. apply rd_buildHub.
Qed.

Lemma rd_handleInitialBuild : preserves rendered (handleInitialBuild env).
Proof.
  intros w H. unfold handleInitialBuild.
  refine ((_ : preserves rendered
                 (handler (signal <- startTask ;;
                           tryCatch (buildTry env (state w) signal) buildCatch))) w H).
  apply preserves_handler. preserve.
  - apply rd_buildTry.
  - unfold buildCatch. preserve.
Qed.

Lemma rd_restoreHub (htmlFiles : list GitHubFileNode) (indexFile : option GitHubFileNode)
  (signal : AbortSignal) (h : HubPage) (finalHubs : list HubPage) :
  preserves rendered (restoreHub env htmlFiles indexFile signal h finalHubs).
Proof. unfold restoreHub. preserve. Qed.

Lemma rd_importTry (importRepo importToken : string) (signal : AbortSignal) :
  preserves rendered (importTry env importRepo importToken signal).
Proof.
  unfold importTry.
  do 9 (apply preserves_bind; [solve [preserve] | intro]).
  apply rd_bind_identity;
    [preserve | exact (proj2 (Hnames (Some signal))) | intros i Hi].
  repeat (apply preserves_bind; [solve [preserve] | intro]).
  match goal with
  | |- preserves _ (let '(_, _) := ?p in _) => destruct p as [hs ars]
  end.
  preserve.
  apply preserves_forAcc. intros. apply rd_restoreHub.
Qed.

Lemma rd_handleImport (importRepo importToken : string) :
  preserves rendered (handleImport env importRepo importToken).
Proof.
  unfold handleImport.
  destruct (String.eqb importRepo "" || String.eqb importToken ""); [preserve |].
  apply preserves_handler. unfold importBegin. preserve.
  - apply rd_importTry.
  - unfold importCatch. preserve.
Qed.

Lemma rd_handlePublish : preserves rendered (handlePublish env).
Proof.
  assert (Hp : forall state0,
             preserves rendered
               (handler (signal <- publishBegin ;;
                         tryCatch (publishTry env state0 signal) publishCatch))).
  { intro state0. apply preserves_handler. unfold publishBegin. preserve.
    - unfold publishTry. preserve.
      unfold publishToGithub. apply preserves_forEach. intro file.
      unfold publishFile. preserve.
    - unfold publishCatch. preserve. }
  intros w H. unfold handlePublish.
  destruct (String.eqb (repo (githubConfig (state w))) ""
            || String.eqb (token (githubConfig (state w))) ""); [exact H |].
  exact (Hp (state w) w H).
Qed.

Lemma rd_tuneTarget (signal : AbortSignal) (t : Target)
  (updated : list HubPage * list Article) :
  preserves rendered (tuneTarget env signal t updated).
Proof. unfold tuneTarget. preserve. Qed.

Lemma rd_handleTuneDesign (instruction target : string) :
  preserves rendered (handleTuneDesign env instruction target).
Proof.
  assert (Hp : forall state0,
             preserves rendered
               (handler
                  (signal <- tuneBegin ;;
                   tryFinally
                     (tryCatch (tuneTry env state0 target signal) tuneCatch)
                     (updateState (restingUpdate ready))))).
  { intro state0. apply preserves_handler.
    apply preserves_bind; [unfold tuneBegin; preserve | intro signal].
    apply preserves_tryFinally; [| preserve].
    apply preserves_tryCatch; [| intro e; unfold tuneCatch; preserve].
    unfold tuneTry. preserve.
    apply preserves_forAcc. intros. apply rd_tuneTarget. }
  intros w H. unfold handleTuneDesign.
  destruct (identity (state w)); [| exact H].
  destruct (String.eqb instruction ""); [exact H |].
  exact (Hp (state w) w H).
Qed.

End Rendered.

(** * Where the runners rest *)

Section Rest.

Variable env : Env.

Hypothesis Hquiet : forall k, cancelAt env k = false.
Hypothesis Hgen : forall k e, gen env k = Rejected e -> isAbortError e = false.
Hypothesis Hhttp : forall k e, http env k = Rejected e -> isAbortError e = false.
Hypothesis Hnames : namesIdentities env.


End Rest.

(** * The further theorems on the scenarios *)

(** ** Where the runners rest *)

Lemma envOk_names : namesIdentities envOk.
Proof.
  apply namedReplies_namesIdentities. intros k r o Hk Hread.
  cbn in Hk. inversion Hk; subst r.
  specialize (Hread (worldOf freshState)). cbn in Hread. inversion Hread. reflexivity.
Qed.


(** An empty reply makes the identity agent return an identity without
    a site name, which the view does not render once it is stored: the
    service of that scenario is outside the runs above. *)
Example empty_reply_names_no_identity :
  fst (generateIdentityAgent envSilent (Some theSignal) (worldOf freshState))
  = Normal emptyIdentity
  /\ renders (merge freshState
                [SetIdentity emptyIdentity; SetStatus generating_strategy;
                 SetCurrentDetail (Some "サイト構成案を生成中...")]) = false
  /\ ~ namesIdentities envSilent.
Proof.
  split; [vm_compute; reflexivity |].
  split; [reflexivity |].
  intro Hnames.
  pose proof (proj1 (Hnames (Some theSignal)) (worldOf freshState) emptyIdentity
                (snd (generateIdentityAgent envSilent (Some theSignal) (worldOf freshState))))
    as H.
  assert (Hfalse : named emptyIdentity = true) by (apply H; vm_compute; reflexivity).
  discriminate Hfalse.
Qed.

Lemma publish_uploads_in_order_witness :
  (forall k, cancelAt envOk k = false)
  /\ (forall k, exists res, http envOk k = Resolved res /\ ok res = true)
  /\ isAborted (Some theSignal) (worldOf builtState) = false
  /\ exists w',
       publishToGithub envOk exampleConfig (hubs builtState) [] "# Atelier" (Some theSignal)
         (fun p => updateState [SetCurrentDetail (Some p)]) (worldOf builtState)
       = (Normal tt, w')
       /\ log w'
          = log (worldOf builtState)
            ++ flat_map (uploadTrace exampleConfig)
                 (filesToPublish (hubs builtState) [] "# Atelier")
       /\ map filePath (filesToPublish (hubs builtState) [] "# Atelier")
          = map (fun h => filePath (hubFile h)) (hubs builtState)
            ++ map (fun a => filePath (articleFile (hubs builtState) a)) []
            ++ (if String.eqb "# Atelier" "" then [] else ["README.md"%string])
       /\ clock w'
          = (clock (worldOf builtState)
             + 2 * List.length (filesToPublish (hubs builtState) [] "# Atelier"))%nat.
Proof.
  split; [intro k; reflexivity |].
  split; [intro k; eexists; split; reflexivity |].
  split; [reflexivity |].
  apply (publish_uploads_in_order envOk exampleConfig (hubs builtState) [] "# Atelier"
           (Some theSignal) (fun p => Some p) (worldOf builtState)).
  - intro k; reflexivity.
  - intro k; eexists; split; reflexivity.
  - reflexivity.
Defined.

Lemma publish_cancel_rests_witness :
  repo (githubConfig (state (worldOf builtState))) <> ""
  /\ token (githubConfig (state (worldOf builtState))) <> ""
  /\ aborted (snd (handlePublish envCancel (worldOf builtState))) = true
  /\ resting (status (state (snd (handlePublish envCancel (worldOf builtState))))) = true
  /\ executionPlan (state (snd (handlePublish envCancel (worldOf builtState)))) = []
  /\ currentDetail (state (snd (handlePublish envCancel (worldOf builtState)))) = None.
Proof.
  split; [intro H; discriminate H |].
  split; [intro H; discriminate H |].
  split; [vm_compute; reflexivity |].
  apply (publish_cancel_rests envCancel (worldOf builtState)).
  - intro H; discriminate H.
  - intro H; discriminate H.
  - vm_compute; reflexivity.
Defined.

Lemma import_cancel_rests_witness :
  aborted (snd (handleImport envCancel "Owner/Repo" "ghp_example" (worldOf freshState))) = true
  /\ (status (state (snd (handleImport envCancel "Owner/Repo" "ghp_example"
                            (worldOf freshState)))) = idle
      \/ status (state (snd (handleImport envCancel "Owner/Repo" "ghp_example"
                               (worldOf freshState)))) = ready)
  /\ executionPlan (state (snd (handleImport envCancel "Owner/Repo" "ghp_example"
                                  (worldOf freshState)))) = [].
Proof.
  split; [vm_compute; reflexivity |].
  apply (import_cancel_rests envCancel "Owner/Repo" "ghp_example" (worldOf freshState)).
  - intro H; discriminate H.
  - intro H; discriminate H.
  - vm_compute; reflexivity.
Defined.

Lemma import_all_or_nothing_witness :
  (forall u,
      fst (importTry envAllFail "Owner/Repo" "ghp_example" theSignal
             (snd (importBegin (worldOf builtState)))) <> Normal u)
  /\ identity (state (snd (handleImport envAllFail "Owner/Repo" "ghp_example"
                            (worldOf builtState))))
     = identity (state (worldOf builtState))
  /\ hubs (state (snd (handleImport envAllFail "Owner/Repo" "ghp_example"
                         (worldOf builtState))))
     = hubs (state (worldOf builtState)).
Proof.
  assert (Hnot : forall u,
             fst (importTry envAllFail "Owner/Repo" "ghp_example" theSignal
                    (snd (importBegin (worldOf builtState)))) <> Normal u)
    by (intros u H; vm_compute in H; discriminate H).
  split; [exact Hnot |].
  destruct (import_all_or_nothing envAllFail "Owner/Repo" "ghp_example" (worldOf builtState)
              ltac:(intro H; discriminate H) ltac:(intro H; discriminate H) Hnot)
    as [Hi [Hh _]].
  split; [exact Hi | exact Hh].
Defined.

Lemma fenced_reply_unwrapped_witness :
  apiKey envOk <> ""
  /\ gen envOk (clock (worldOf builtState)) = Resolved fencedReply
  /\ hasChar "`" "<p>new</p>" = false
  /\ text fencedReply = ("```html" ++ "<p>new</p>" ++ "```")%string
  /\ generateHtmlAgent envOk exampleIdentity None (worldOf builtState)
     = (Normal (Js.trim "<p>new</p>"), advance (worldOf builtState) 1 [Generate HtmlAgent]).
Proof.
  split; [intro H; discriminate H |].
  split; [reflexivity |].
  split; [reflexivity |].
  split; [reflexivity |].
  apply (proj1 (fenced_reply_unwrapped envOk exampleIdentity "<p>old</p>" "<p>new</p>" None
                  (worldOf builtState) fencedReply
                  ltac:(intro H; discriminate H) ltac:(intro j; reflexivity) eq_refl eq_refl
                  ltac:(intro H; discriminate H) eq_refl)).
  reflexivity.
Defined.

Lemma build_pages_clean_witness :
  fst (buildTry envOk (state (worldOf freshState)) theSignal
         (snd (startTask (worldOf freshState)))) = Normal tt
  /\ Forall cleanPage (hubs (state (snd (handleInitialBuild envOk (worldOf freshState))))).
Proof.
  assert (Hn : fst (buildTry envOk (state (worldOf freshState)) theSignal
                      (snd (startTask (worldOf freshState)))) = Normal tt)
    by (vm_compute; reflexivity).
  split; [exact Hn |].
  apply (build_pages_clean envOk (worldOf freshState) Hn).
Defined.

Lemma unreadable_reply_not_retried_witness :
  apiKey envUnread <> ""
  /\ gen envUnread (clock (worldOf freshState)) = Resolved proseReply
  /\ text proseReply <> ""
  /\ parsed proseReply = None
  /\ failsUnread (generateIdentityAgent envUnread None (worldOf freshState))
       (advance (worldOf freshState) 1 [Generate IdentityAgent]).
Proof.
  split; [intro H; discriminate H |].
  split; [reflexivity |].
  split; [intro H; discriminate H |].
  split; [reflexivity |].
  apply (proj1 (unreadable_reply_not_retried envUnread None (worldOf freshState) proseReply
                  ltac:(intro H; discriminate H) ltac:(intro j; reflexivity) eq_refl eq_refl)).
  - intro H; discriminate H.
  - reflexivity.
Defined.

Lemma build_needs_site_name_witness :
  gen envSilent (clock (worldOf freshState)) = Resolved emptyReply
  /\ readAs emptyReply emptyObject
  /\ siteName (jIdentity emptyObject) = None
  /\ fst (buildTry envSilent (state (worldOf freshState)) theSignal
            (snd (startTask (worldOf freshState)))) <> Normal tt.
Proof.
  split; [reflexivity |].
  split; [intro w; reflexivity |].
  split; [reflexivity |].
  apply (proj2 (proj2 (build_needs_site_name envSilent (worldOf freshState)))
           emptyReply emptyObject).
  - intro H; discriminate H.
  - intro k; reflexivity.
  - reflexivity.
  - intro w; reflexivity.
  - reflexivity.
Defined.

Lemma import_success_witness :
  fst (importTry envStored "Owner/Repo" "ghp_example" theSignal
         (snd (importBegin (worldOf freshState)))) = Normal tt
  /\ exists i hs ars details,
       (exists wa wb, analyzeSiteIdentityAgent envStored (Some theSignal) wa = (Normal i, wb))
       /\ (exists wa wb,
             analyzeRepoStructureAgent envStored (Some theSignal) wa = (Normal (hs, ars), wb))
       /\ (exists wa wb,
             fetchRepoDetails envStored
               {| token := "ghp_example"; repo := "Owner/Repo"; branch := "main";
                  path := "docs" |}
               (Some theSignal) wa = (Normal details, wb))
       /\ identity (state (snd (handleImport envStored "Owner/Repo" "ghp_example"
                                  (worldOf freshState)))) = Some i
       /\ articles (state (snd (handleImport envStored "Owner/Repo" "ghp_example"
                                  (worldOf freshState)))) = ars
       /\ Forall2 restoredFrom hs
            (hubs (state (snd (handleImport envStored "Owner/Repo" "ghp_example"
                                 (worldOf freshState)))))
       /\ List.length (hubs (state (snd (handleImport envStored "Owner/Repo" "ghp_example"
                                          (worldOf freshState)))))
          = List.length hs
       /\ githubConfig (state (snd (handleImport envStored "Owner/Repo" "ghp_example"
                                      (worldOf freshState))))
          = {| token := "ghp_example"; repo := "Owner/Repo";
               branch := match details with Some b => b | None => "main" end;
               path := "docs" |}
       /\ restsIn ready (state (snd (handleImport envStored "Owner/Repo" "ghp_example"
                                       (worldOf freshState)))).
Proof.
  assert (Hn : fst (importTry envStored "Owner/Repo" "ghp_example" theSignal
                      (snd (importBegin (worldOf freshState)))) = Normal tt)
    by (vm_compute; reflexivity).
  split; [exact Hn |].
  apply (import_success envStored "Owner/Repo" "ghp_example" (worldOf freshState)
           ltac:(intro H; discriminate H) ltac:(intro H; discriminate H) Hn).
Defined.

(** The branch an Import run of the stored site ends with is the default
    branch of the repository, and the hub the repository holds a file for
    has that file's content. *)
Lemma import_of_stored_site :
  branch (githubConfig (state (snd (handleImport envStored "Owner/Repo" "ghp_example"
                                      (worldOf freshState))))) = "trunk"
  /\ map html (hubs (state (snd (handleImport envStored "Owner/Repo" "ghp_example"
                                   (worldOf freshState)))))
     = [Some "<p>stored</p>"; None; None].
Proof. vm_compute. split; reflexivity. Qed.

Lemma fetchRepoDetails_outcomes_witness :
  exists res, answered envAbsent res /\ resStatus res = 404.
Proof.
  apply (proj2 (fetchRepoDetails_outcomes envAbsent exampleConfig None (worldOf builtState)
                  (snd (fetchRepoDetails envAbsent exampleConfig None (worldOf builtState)))
                  (Normal None))).
  vm_compute. reflexivity.
Defined.

Lemma createRepository_outcomes_witness :
  exists res, answered envOk res /\ (ok res = true \/ resStatus res = 422).
Proof.
  apply (proj2 (createRepository_outcomes envOk exampleConfig None (worldOf builtState)
                  (snd (createRepository envOk exampleConfig None (worldOf builtState)))
                  (Normal tt))).
  vm_compute. reflexivity.
Defined.

Lemma hosting_reads_need_ok_witness :
  exists res body,
    answered envStored res /\ ok res = true /\ resBody res = Some body
    /\ siteTree = bodyTree body.
Proof.
  apply (proj1 (hosting_reads_need_ok envStored exampleConfig repoUrl None (worldOf builtState)
                  (snd (fetchRepoStructure envStored exampleConfig None (worldOf builtState))))
           siteTree).
  vm_compute. reflexivity.
Defined.


Lemma cleanRepo_forms_witness :
  bare "Owner/Repo" = true
  /\ cleanRepo "Owner/Repo" = "Owner/Repo"
  /\ cleanRepo ("HTTPS://GitHub.com/" ++ "Owner/Repo" ++ ".GIT") = "Owner/Repo"
  /\ cleanRepo ("http://www.github.com/" ++ "Owner/Repo" ++ "/") = "Owner/Repo".
Proof.
  split; [reflexivity |].
  destruct (proj1 (cleanRepo_forms "Owner/Repo") eq_refl) as [Hself Hforms].
  split; [exact Hself |].
  split.
  - apply (Hforms "HTTPS://GitHub.com/" ".GIT"); [cbn; tauto | reflexivity].
  - apply (Hforms "http://www.github.com/" ".git"); [cbn; tauto | reflexivity].
Defined.

(** A text that starts with a no-break space (the bytes 194 and 160) is
    not [bare]: [trim] removes that space. *)
Example bare_rejects_no_break_space :
  bare (String (ascii_of_nat 194) (String (ascii_of_nat 160) "Owner/Repo")) = false.
Proof. reflexivity. Qed.
